(* ===== verification/_CoqProject ===== *)
-Q . S2P
Prelude.v
Random.v
Wrapping.v
Stream.v
Reassembly.v
Buffers.v
Parsing.v
Checksum.v
TcpWire.v
Ipv4Wire.v
EthernetWire.v
TcpReceiver.v
TcpSender.v
Transfer.v
Liveness.v
TcpConnection.v
Session.v
SessionLiveness.v
EarlierConnection.v
TcpState.v
NetworkInterface.v
Router.v
Addresses.v
FileDescriptor.v
Sockets.v
Adapter.v
EventLoop.v
SpongeSocket.v
SocketSafety.v
Benchmark.v
StreamCopy.v
CommandLine.v
RawAddress.v
Apps.v
Simulator.v
Lab7.v
Lab7Safety.v
Programs.v
Doctests.v
Printing.v
Tcpdump.v
