(* ===== verification/Prelude.v ===== *)
(** * Sponge: a verification of the CS144 user-space TCP/IP stack

    The program (src/libsponge) is a TCP/IP stack in C++.  A [TCPConnection] owns a
    [TCPSender] and a [TCPReceiver]; the receiver puts segments together with a
    [StreamReassembler] and hands them to a [ByteStream], the sender cuts its own
    [ByteStream] into segments and keeps a retransmission timer.  Sequence numbers
    are [WrappingInt32]s.  Segments are serialised with [NetUnparser], carried in
    [BufferList]s, protected by [InternetChecksum] and parsed with [NetParser].
    Adapters carry segments in UDP payloads, IPv4 datagrams or Ethernet frames; a
    [NetworkInterface] resolves addresses with ARP, and a [Router] forwards
    datagrams between interfaces.  [TCPSpongeSocket] runs a connection in an
    [EventLoop] between an adapter and a local socket, over [FileDescriptor]s.  The
    programs of src/apps use these parts.

    ** Files

    Foundations:
    - Prelude.v: exceptions ([res], a monad), computations on a state ([io]),
      fixed-width integers, bytes, shared lemmas, tactics, the hint and rewrite
      databases;
    - Random.v: [get_random_generator] of util/util, with the parts of the standard
      library that it uses ([seed_seq], [mt19937]).

    Data structures and wire formats:
    - Wrapping.v: wrapping_integers ([WrappingInt32], [wrap], [unwrap]);
    - Stream.v: byte_stream; [Queue] is the abstract bounded queue, [ByteStream] the
      ring buffer, related by [refines];
    - Reassembly.v: stream_reassembler ([merge], [push_substring], ...);
    - Buffers.v: util/buffer ([Buffer], [BufferList], [BufferViewList]);
    - Parsing.v: util/parser ([NetParser] as a state-and-exception monad,
      [NetUnparser]) and the class [WireHeader], what a header format promises to the
      packet that contains it;
    - Checksum.v: [InternetChecksum] of util/util;
    - TcpWire.v, Ipv4Wire.v, EthernetWire.v: tcp_header, tcp_segment, ipv4_header,
      ipv4_datagram, ethernet_header, ethernet_frame and arp_message of tcp_helpers,
      instances of [WireHeader].

    TCP:
    - TcpReceiver.v: tcp_receiver; TcpSender.v: tcp_sender and tcp_config;
    - Transfer.v: a sender and a receiver connected by a network that loses, repeats
      and reorders segments; Liveness.v: the same when the network begins to deliver;
    - TcpConnection.v: tcp_connection; Session.v: two connections with their owners
      over such a network, both directions together; SessionLiveness.v: the same when
      the network begins to deliver;
    - EarlierConnection.v: tcp_connection_w_comments.cc; TcpState.v:
      tcp_helpers/tcp_state.

    Below TCP:
    - NetworkInterface.v: network_interface; Router.v: router;
    - Addresses.v: [Address] of util/address as an address and a port; RawAddress.v:
      the same class as the bytes it keeps;
    - Adapter.v: tcp_helpers/fd_adapter, tcp_over_ip, tuntap_adapter and
      lossy_fd_adapter; the class [FdAdapter] is the interface that the lossy adapter
      is a template over.

    The operating system and the socket:
    - FileDescriptor.v: util/file_descriptor; the class [Kernel] lists the system
      calls; Sockets.v: util/socket and util/tun; EventLoop.v: util/eventloop and the
      discipline ([sound]) under which a set of rules never makes the loop throw;
    - SpongeSocket.v: tcp_helpers/tcp_sponge_socket; SocketSafety.v: its safety.

    Programs:
    - Benchmark.v: apps/tcp_benchmark; StreamCopy.v: apps/bidirectional_stream_copy;
    - CommandLine.v: apps/tcp_udp, tcp_ipv4 and tcp_ip_ethernet; Apps.v: apps/webget,
      tcp_native and tun;
    - Simulator.v: apps/network_simulator; Lab7.v and Lab7Safety.v: apps/lab7;
      Programs.v: the [main] functions around these parts, with their exit status;
    - Doctests.v: the examples of the documentation (src/doctests);
    - Printing.v: the textual forms ([to_string], [summary]) and [hexdump] of util;
      Tcpdump.v: apps/udp_tcpdump.

    Each class of the program is a Module of the same name: its private members are
    the record [t], and every member function is a definition with the name of the
    source.  An operation takes the state last and returns the new state, in [res]
    when it can throw; the parts on top of the kernel are computations in [io], whose
    state contains the kernel and the heap of shared descriptors ([world]).

    ** What is proved

    - Data structures: the ring buffer refines the abstract queue; reassembly accepts
      substrings in any order, with overlaps and repetitions, and gives back the
      stream; [unwrap] finds the closest sequence number; buffer lists behave as
      strings; the bytes of an [Address] implement a pair of numbers.
    - Wire formats: parsing inverts serialisation for TCP segments, IPv4 datagrams,
      Ethernet frames and ARP messages; checksums are those of RFC 1071 and verify;
      parsers never throw, and what they leave has the types of the fields.
    - TCP: invariants of sender and receiver over all runs; the exact effect of
      [fill_window], [ack_received], [segment_received] and [tick]; exponential
      backoff; end to end, the bytes read at one end are a prefix of the bytes
      written at the other, whatever the network does, and all of them arrive once
      the network delivers; a connection never throws, answers what must be answered,
      and stays silent once it is over; two connections that talk to each other deliver
      both streams faithfully, one that ends without an error has both of them complete
      at both ends, and once the network delivers both end in this way; the earlier
      version of the connection cannot be told apart from the present one.
    - Below TCP: ARP learning, queueing, rate limiting and expiry, with the table of an
      interface explained by the history of its calls; longest-prefix matching, stated
      against the list of routes in the order they were added; adapters deliver what the
      peer's adapter wrote and accept exactly their connection's segments, every frame
      of the Ethernet adapter's interface goes to the device, and the lossy adapter
      behaves as the adapter below it in a network that loses segments.
    - On top of the kernel: [write] delivers all of its bytes and ends; a round of the
      event loop calls exactly the callbacks it should; the socket never throws, as long
      as no system call fails, and gives its owner a prefix of what the peer sent.  What
      is relied on of the kernel is a record of laws ([lawful]) in each file, with a
      concrete kernel that obeys them.
    - Programs: [bidirectional_stream_copy] copies faithfully; the benchmark moves a
      prefix of its string; datagrams cross the simulated network and the two networks
      of lab7; the network thread of lab7 never throws, as long as no system call fails
      and the packets can be passed on; the command lines mean what a separate account
      of the options says; the benchmark never reports a failure; udp_tcpdump stays
      inside the packets; [hexdump] writes the lines of a reference definition.
    - Some theorems record where the code departs from its intent (popping too much
      from a stream, a FIN outside the window, accepted malformed datagrams and a
      router that they stop, a [listen_and_accept] that fails on early data, failures of
      [poll] that are swallowed, an empty datagram taken for the end of a stream, a
      [webget] that cannot report success).

    ** Conventions and bounds

    A [w]-bit unsigned integer is a [Z], reduced by [u8], [u16], [u32], [u64] where
    the code's arithmetic can wrap ([x ⊞ y] and [x ⊟ y] are 64-bit sum and
    difference); [size_t] has 64 bits.  Bytes are [Byte.byte].  A [std::map] is a
    [gmap], a [std::list], [std::queue], [std::deque] or [std::vector] a list.  The
    stream a peer sends is a function [D] from positions to bytes with a length [N];
    theorems about one stream bound it ([N < 2^62] for a sender, [N < 2^31 - 2] end
    to end, where sequence numbers must not be ambiguous) and capacities below
    [2^63].

    Loops are structural recursion over the container they walk, or have fuel.  Where
    the loop always ends the fuel is part of the definition, and is shown to suffice:
    [window + 4] rounds of [fill_window], each but the last of which sends a sequence
    number; the bytes left for the loops that write; the length of the packet for the
    IPv6 headers and of the command line for the options; as many folds of the carry
    of a checksum as a 32-bit accumulator needs.  Loops that serve events for as long
    as the program runs ([_tcp_loop], [copy_loop], [network_rounds], [capture], ...)
    take the number of rounds as an argument and say in a flag whether they have
    ended; the theorems hold for any number of rounds.  A transfer and a session end
    within as many rounds of delivery as a stream has sequence numbers, and one more.

    ** What is not modelled

    The kernel, the name service, libpcap, [strtof] and the random device are
    parameters; the parts below Programs.v take the numbers that are drawn as
    arguments, so that their theorems hold for any.  Threads are not interleaved: in
    the socket and in lab7 each thread is a program of its own, and the other one shows
    in what the kernel delivers and in a flag.  Messages to the terminal are not part of
    the state (apart from Tcpdump.v), and usage texts are left out.
    tcp_connection_current.cc is a copy of tcp_connection.cc, and tcp_connection_old.cc
    is empty. *)

From Stdlib Require Export ZArith Lia.
From stdpp Require Export base option list numbers gmap.
From Stdlib Require Import Strings.Byte.

#[global] Open Scope Z_scope.
#[global] Set Default Goal Selector "!".

(** ** Exceptions

    A C++ routine that may throw is a value of [res A].  The constructors of
    [exn] are the exception classes the sources throw; [undefined] stands for
    an operation the C++ standard leaves undefined (an integer division by zero, a
    null pointer), and [nontermination] marks a loop that has used up its fuel: the
    theorems about such loops show that it is not the result. *)

Inductive exn : Type :=
| out_of_range
| length_error
| invalid_argument
| runtime_error
| unix_error (errno : Z)
| undefined
| nontermination.

Inductive res (A : Type) : Type :=
| Ok (a : A)
| Throw (e : exn).
Arguments Ok {A} a.
Arguments Throw {A} e.

#[global] Instance res_ret : MRet res := @Ok.
#[global] Instance res_bind : MBind res := fun A B f m =>
  match m with
  | Ok a => f a
  | Throw e => Throw e
  end.
#[global] Instance res_fmap : FMap res := fun A B f m =>
  match m with
  | Ok a => Ok (f a)
  | Throw e => Throw e
  end.

#[global] Instance exn_eq_dec : EqDecision exn.
Proof. solve_decision. Defined.

Lemma bind_Ok {A B} (m : res A) (f : A -> res B) (b : B) :
  (m ≫= f) = Ok b <-> exists a, m = Ok a /\ f a = Ok b.
Proof.
  destruct m as [a|e]; cbn.
  - split; [by eauto | by intros (? & [= <-] & ?)].
  - split; [done | by intros (? & ? & ?)].
Qed.

Lemma Ok_inj {A} (a b : A) : Ok a = Ok b -> a = b.
Proof. congruence. Qed.

(** ** Effects

    Code that works on a shared state [W] and may throw is a computation of the
    monad [io W].  [Holds S W] says that a state [S] has a part [W]; [lift] runs a
    computation on that part. *)

Definition io (W A : Type) : Type := W -> res (A * W).
#[global] Instance io_ret {W} : MRet (io W) := fun A a w => Ok (a, w).
#[global] Instance io_bind {W} : MBind (io W) := fun A B f m w =>
  match m w with
  | Ok (a, w') => f a w'
  | Throw e => Throw e
  end.

Definition get {W} : io W W := fun w => Ok (w, w).
Definition put {W} (w : W) : io W unit := fun _ => Ok (tt, w).
Definition modify {W} (f : W -> W) : io W unit := fun w => Ok (tt, f w).
Definition throw {W A} (e : exn) : io W A := fun _ => Throw e.
Definition of_res {W A} (r : res A) : io W A := fun w =>
  match r with
  | Ok a => Ok (a, w)
  | Throw e => Throw e
  end.

Class Holds (S W : Type) : Type := {
  view : S -> W;
  update : W -> S -> S;
  view_update : forall w s, view (update w s) = w;
  update_view : forall s, update (view s) s = s;
  update_update : forall w w' s, update w (update w' s) = update w s
}.

Definition lift {S W A} `{Holds S W} (m : io W A) : io S A := fun s =>
  match m (view s) with
  | Ok (a, w) => Ok (a, update w s)
  | Throw e => Throw e
  end.

Lemma io_bind_Ok {W A B} (m : io W A) (f : A -> io W B) (w w' : W) (b : B) :
  (m ≫= f) w = Ok (b, w') <-> exists a w1, m w = Ok (a, w1) /\ f a w1 = Ok (b, w').
Proof.
  unfold mbind, io_bind. destruct (m w) as [[a w1]|e].
  - split; [by eauto | by intros (? & ? & [= <- <-] & ?)].
  - split; [done | by intros (? & ? & ? & ?)].
Qed.

(** Running the first half of a sequence. *)
Lemma io_bind_run {W A B} (m : io W A) (f : A -> io W B) (w w1 : W) (a : A) :
  m w = Ok (a, w1) -> (m ≫= f) w = f a w1.
Proof. intros E. unfold mbind, io_bind. by rewrite E. Qed.

Lemma io_bind_throw {W A B} (m : io W A) (f : A -> io W B) (w : W) e :
  m w = Throw e -> (m ≫= f) w = Throw e.
Proof. intros E. unfold mbind, io_bind. by rewrite E. Qed.

Lemma lift_run {S W A} `{Holds S W} (m : io W A) (s : S) (w : W) (a : A) :
  m (view s) = Ok (a, w) -> lift m s = Ok (a, update w s).
Proof. intros E. unfold lift. by rewrite E. Qed.

(** ** Fixed-width unsigned integers *)

Abbreviation two8 := 256 (only parsing).
Abbreviation two16 := 65536 (only parsing).
Abbreviation two31 := 2147483648 (only parsing).
Abbreviation two32 := 4294967296 (only parsing).
Abbreviation two63 := 9223372036854775808 (only parsing).
Abbreviation two64 := 18446744073709551616 (only parsing).

(** Conversion to [uint8_t], [uint16_t], [uint32_t], [uint64_t] (which is also
    [size_t] on the platforms the code targets) and to [int32_t]. *)
Definition u8 (x : Z) : Z := x mod two8.
Definition u16 (x : Z) : Z := x mod two16.
Definition u32 (x : Z) : Z := x mod two32.
Definition u64 (x : Z) : Z := x mod two64.
Definition s32 (x : Z) : Z :=
  let y := x mod two32 in if y <? two31 then y else y - two32.

Lemma u8_range x : 0 <= u8 x < two8.
Proof. unfold u8. apply Z.mod_pos_bound. lia. Qed.
Lemma u16_range x : 0 <= u16 x < two16.
Proof. unfold u16. apply Z.mod_pos_bound. lia. Qed.
Lemma u32_range x : 0 <= u32 x < two32.
Proof. unfold u32. apply Z.mod_pos_bound. lia. Qed.
Lemma u64_range x : 0 <= u64 x < two64.
Proof. unfold u64. apply Z.mod_pos_bound. lia. Qed.

Lemma u8_small x : 0 <= x < two8 -> u8 x = x.
Proof. apply Z.mod_small. Qed.
Lemma u16_small x : 0 <= x < two16 -> u16 x = x.
Proof. apply Z.mod_small. Qed.
Lemma u32_small x : 0 <= x < two32 -> u32 x = x.
Proof. apply Z.mod_small. Qed.
Lemma u64_small x : 0 <= x < two64 -> u64 x = x.
Proof. apply Z.mod_small. Qed.

(** The upper half of a byte, and the lowest [n] bits of a number. *)
Lemma high_bits v : 0 <= v < two8 -> 0 <= Z.shiftr v 4 < 16.
Proof. intros Hv. rewrite Z.shiftr_div_pow2 by lia. change (2 ^ 4) with 16. Z.div_mod_to_equations. lia. Qed.

Lemma low_bits v n : 0 <= n -> 0 <= Z.land v (Z.ones n) < 2 ^ n.
Proof. intros Hn. rewrite Z.land_ones by done. apply Z.mod_pos_bound, Z.pow_pos_nonneg; lia. Qed.

(** [u64] absorbs an inner [u64] of a sum, so a running counter can be reasoned
    about as an exact sum that is reduced once. *)
Lemma u64_add_l x y : u64 (u64 x + y) = u64 (x + y).
Proof. unfold u64. apply Zplus_mod_idemp_l. Qed.
Lemma u64_add_r x y : u64 (x + u64 y) = u64 (x + y).
Proof. unfold u64. apply Zplus_mod_idemp_r. Qed.
Lemma u64_sub_r x y : u64 (x - u64 y) = u64 (x - y).
Proof. unfold u64. apply Zminus_mod_idemp_r. Qed.
Lemma u64_sub_l x y : u64 (u64 x - y) = u64 (x - y).
Proof. unfold u64. apply Zminus_mod_idemp_l. Qed.

(** Reduction modulo a power of two of a value already reduced modulo a larger
    one: a narrowing conversion may be done in one step. *)
Lemma u32_u64 x : u32 (u64 x) = u32 x.
Proof. unfold u32, u64. Z.div_mod_to_equations. lia. Qed.
Lemma u16_u64 x : u16 (u64 x) = u16 x.
Proof. unfold u16, u64. Z.div_mod_to_equations. lia. Qed.

(** Unsigned 64-bit addition and subtraction, written as the operators they are
    in the sources. *)
Declare Scope sponge_scope.
Delimit Scope sponge_scope with sponge.
Notation "x ⊞ y" := (u64 (x + y)) (at level 50, left associativity) : sponge_scope.
Notation "x ⊟ y" := (u64 (x - y)) (at level 50, left associativity) : sponge_scope.
#[global] Open Scope sponge_scope.

(** Ranges are hints, absorption of a nested conversion is a rewrite base. *)
Create HintDb sponge.
Create Rewrite HintDb sponge_u64.
#[export] Hint Resolve u8_range u16_range u32_range u64_range : sponge.
#[export] Hint Rewrite u64_add_l u64_add_r u64_sub_l u64_sub_r u32_u64 u16_u64 : sponge_u64.

(** [usimpl] drops every conversion whose argument is provably in range. *)
Ltac usimpl :=
  repeat first
    [ rewrite u64_small in * by lia
    | rewrite u32_small in * by lia
    | rewrite u16_small in * by lia
    | rewrite u8_small in * by lia ].

(** [urange] adds the range of every conversion that occurs in the goal or in
    a hypothesis. *)
Ltac urange1 x lem :=
  match goal with
  | H : 0 <= x < _ |- _ => fail 1
  | _ => pose proof lem
  end.
Ltac urange :=
  repeat match goal with
  | |- context [u64 ?x] => urange1 (u64 x) (u64_range x)
  | _ : context [u64 ?x] |- _ => urange1 (u64 x) (u64_range x)
  | |- context [u32 ?x] => urange1 (u32 x) (u32_range x)
  | _ : context [u32 ?x] |- _ => urange1 (u32 x) (u32_range x)
  | |- context [u16 ?x] => urange1 (u16 x) (u16_range x)
  | _ : context [u16 ?x] |- _ => urange1 (u16 x) (u16_range x)
  | |- context [u8 ?x] => urange1 (u8 x) (u8_range x)
  | _ : context [u8 ?x] |- _ => urange1 (u8 x) (u8_range x)
  end.

(** [forall_list] proves a property of each element of an explicit list. *)
Ltac forall_list := repeat (apply Forall_cons; split); try apply Forall_nil; try done.

(** ** Booleans from comparisons

    [zb] turns every boolean comparison on [Z] of the context and the goal into
    the proposition it decides; [zcase] splits on the tests of the goal,
    innermost first. *)
Ltac zb :=
  repeat match goal with
  | H : (_ && _) = true |- _ => apply andb_true_iff in H as [? ?]
  | H : (_ || _) = false |- _ => apply orb_false_iff in H as [? ?]
  | H : negb _ = true |- _ => apply negb_true_iff in H
  | H : negb _ = false |- _ => apply negb_false_iff in H
  | H : (_ <? _) = true |- _ => apply Z.ltb_lt in H
  | H : (_ <? _) = false |- _ => apply Z.ltb_ge in H
  | H : (_ <=? _) = true |- _ => apply Z.leb_le in H
  | H : (_ <=? _) = false |- _ => apply Z.leb_gt in H
  | H : (_ =? _) = true |- _ => apply Z.eqb_eq in H
  | H : (_ =? _) = false |- _ => apply Z.eqb_neq in H
  end.

Ltac zcase :=
  repeat match goal with
  | |- context [if ?b then _ else _] =>
      lazymatch b with
      | context [if _ then _ else _] => fail
      | _ =>
          lazymatch type of b with
          | bool => let E := fresh "E" in destruct b eqn:E
          end
      end
  end; zb.

(** ** Byte strings

    A [std::string], a [std::vector<char>] and the bytes behind a [Buffer] are
    lists of bytes. *)

Abbreviation bytes := (list byte) (only parsing).
Abbreviation zlen l := (Z.of_nat (length l)) (only parsing).

#[global] Instance byte_inhabited : Inhabited byte := populate x00.
#[global] Instance byte_eq_dec : EqDecision byte := Byte.byte_eq_dec.

Definition b2z (b : byte) : Z := Z.of_N (Byte.to_N b).
Definition z2b (z : Z) : byte :=
  match Byte.of_N (Z.to_N (u8 z)) with
  | Some b => b
  | None => x00
  end.

Lemma b2z_range b : 0 <= b2z b < two8.
Proof. unfold b2z. pose proof (Byte.to_N_bounded b). lia. Qed.

Lemma z2b_b2z b : z2b (b2z b) = b.
Proof.
  unfold z2b. rewrite u8_small by apply b2z_range.
  unfold b2z. rewrite N2Z.id, Byte.of_to_N. done.
Qed.

Lemma b2z_z2b z : b2z (z2b z) = u8 z.
Proof.
  unfold z2b, b2z. pose proof (u8_range z).
  destruct (Byte.of_N (Z.to_N (u8 z))) eqn:E.
  - apply Byte.to_of_N in E. rewrite E. lia.
  - apply Byte.of_N_None_iff in E. lia.
Qed.

(** [std::string::substr(pos, n)]: throws when [pos] is past the end, and
    otherwise returns at most [n] bytes. *)
Definition substr (s : bytes) (pos n : Z) : res bytes :=
  if zlen s <? pos then Throw out_of_range
  else Ok (take (Z.to_nat n) (drop (Z.to_nat pos) s)).

(** [std::string::substr(pos)] (the count defaults to [npos]). *)
Definition substr_from (s : bytes) (pos : Z) : res bytes :=
  if zlen s <? pos then Throw out_of_range
  else Ok (drop (Z.to_nat pos) s).

(** A prefix never throws. *)
Lemma substr_prefix s n : substr s 0 n = Ok (take (Z.to_nat n) s).
Proof. unfold substr. zcase; [lia | done]. Qed.

Lemma substr_from_ok s pos :
  pos <= zlen s -> substr_from s pos = Ok (drop (Z.to_nat pos) s).
Proof. intros. unfold substr_from. zcase; [lia | done]. Qed.

(** ** Lists *)

Lemma take_S_lookup {A} (l : list A) i x :
  l !! i = Some x -> take (S i) l = take i l ++ [x].
Proof. apply take_S_r. Qed.

Lemma zlen_nonneg {A} (l : list A) : 0 <= zlen l.
Proof. lia. Qed.

#[export] Hint Resolve b2z_range zlen_nonneg : sponge.
