(* ===== verification/Random.v ===== *)
(** * The random generator (get_random_generator of util/util.cc)

    [get_random_generator] seeds a [std::mt19937] with 624 words of the random device
    through a [std::seed_seq].  Both are the standard library's: the definitions follow
    their specification in the C++ standard ([rand.util.seedseq] and [rand.eng.mers]).
    The words that the device yields are the argument. *)

From S2P Require Import Prelude.
From Stdlib Require Import Lia.
#[local] Open Scope list_scope.
#[local] Open Scope Z_scope.

(** ** Seeding *)

Module SeedSeq.

(** [T(x)], and an update of one word of the sequence, modulo its length. *)
Definition mix (x : Z) : Z := Z.lxor x (Z.shiftr x 27).
Definition nth (k : Z) (l : list Z) : Z := default 0 (l !! Z.to_nat (k mod zlen l)).
Definition set (k x : Z) (l : list Z) : list Z := <[Z.to_nat (k mod zlen l) := x]> l.

(** The distances between the three words that one step works on. *)
Definition shift (n : Z) : Z :=
  if 623 <=? n then 11 else if 68 <=? n then 7 else if 39 <=? n then 5 else if 7 <=? n then 3 else (n - 1) / 2.
Definition p (n : Z) : Z := (n - shift n) / 2.
Definition q (n : Z) : Z := p n + shift n.

(** The first pass, which uses the seeds [v]. *)
Definition step1 (v : list Z) (l : list Z) (k : Z) : list Z :=
  let n := zlen l in
  let r1 := u32 (1664525 * mix (Z.lxor (Z.lxor (nth k l) (nth (k + p n) l)) (nth (k - 1) l))) in
  let r2 := u32 (r1 + (if k =? 0 then zlen v
                       else if k <=? zlen v then k mod n + default 0 (v !! Z.to_nat (k - 1)) else k mod n)) in
  let l := set (k + p n) (u32 (nth (k + p n) l + r1)) l in
  let l := set (k + q n) (u32 (nth (k + q n) l + r2)) l in
  set k r2 l.

(** The second pass. *)
Definition step2 (l : list Z) (k : Z) : list Z :=
  let n := zlen l in
  let r3 := u32 (1566083941 * mix (u32 (nth k l + nth (k + p n) l + nth (k - 1) l))) in
  let r4 := u32 (r3 - k mod n) in
  let l := set (k + p n) (Z.lxor (nth (k + p n) l) r3) l in
  let l := set (k + q n) (Z.lxor (nth (k + q n) l) r4) l in
  set k r4 l.

(** [generate]: [n] words from the seeds. *)
Definition generate (v : list Z) (n : nat) : list Z :=
  let m := Z.max (zlen v + 1) (Z.of_nat n) in
  let l := foldl (step1 v) (replicate n 2341178251) (seqZ 0 m) in
  foldl step2 l (seqZ m (Z.of_nat n)).

End SeedSeq.

(** ** The engine *)

Module Mt19937.

Definition state_size : nat := 624.

(** The last [state_size] words of the sequence. *)
Definition t : Type := list Z.

Definition word (i : nat) (s : t) : Z := default 0 (s !! i).

(** The word that follows. *)
Definition twist (s : t) : Z :=
  let y := Z.lor (Z.land (word 0 s) 2147483648) (Z.land (word 1 s) 2147483647) in
  Z.lxor (Z.lxor (word 397 s) (Z.shiftr y 1)) (if Z.testbit y 0 then 2567483615 else 0).

(** What is returned for it. *)
Definition temper (x : Z) : Z :=
  let x := Z.lxor x (Z.land (Z.shiftr x 11) 4294967295) in
  let x := Z.lxor x (Z.land (u32 (Z.shiftl x 7)) 2636928640) in
  let x := Z.lxor x (Z.land (u32 (Z.shiftl x 15)) 4022730752) in
  Z.lxor x (Z.shiftr x 18).

(** [operator()]. *)
Definition next (s : t) : Z * t :=
  let x := twist s in (temper x, drop 1 s ++ [x]).

(** Seeding: not all of the bits that count may be zero. *)
Definition seed (words : list Z) : t :=
  if (Z.shiftr (word 0 words) 31 =? 0) && forallb (Z.eqb 0) (drop 1 words) then 2147483648 :: drop 1 words
  else words.

(** [mt19937(x)], for the test that the standard gives. *)
Fixpoint initial (i : nat) (x : Z) (k : Z) : list Z :=
  match i with
  | O => []
  | S i' => x :: initial i' (u32 (1812433253 * Z.lxor x (Z.shiftr x 30) + k)) (k + 1)
  end.
Definition of_value (x : Z) : t := initial state_size (u32 x) 1.

(** The [n]th number that is drawn, from 0. *)
Fixpoint draw (n : nat) (s : t) : Z :=
  match n with
  | O => (next s).1
  | S n' => draw n' (next s).2
  end.

End Mt19937.

(** [get_random_generator]: [device n] is the [n]th word of the random device. *)
Definition get_random_generator (device : nat -> Z) : Mt19937.t :=
  let seed_data := (fun i => u32 (device i)) <$> seq 0 Mt19937.state_size in
  Mt19937.seed (SeedSeq.generate seed_data Mt19937.state_size).

(** The standard requires that the 10000th number of a default-constructed engine is
    4123659995. *)
Example mt19937_conforms : Mt19937.draw (Z.to_nat 9999) (Mt19937.of_value 5489) = 4123659995.
Proof. vm_compute. reflexivity. Qed.

(** [std::seed_seq{1, 2, 3, 4, 5}] filling ten words. *)
Example seed_seq_conforms : SeedSeq.generate [1; 2; 3; 4; 5] 10 =
  [4204997637; 4246533866; 1856049002; 1129615051; 690460811; 1075771511; 46783058; 3904109078; 1534123438; 1495905678].
Proof. vm_compute. reflexivity. Qed.

(** ** Words *)

Definition word32 (x : Z) : Prop := 0 <= x < 2 ^ 32.

Lemma word32_bits x : word32 x <-> 0 <= x /\ forall i, 32 <= i -> Z.testbit x i = false.
Proof.
  unfold word32. split; intros [H0 H]; (split; [done|]).
  - intros i Hi. destruct (decide (x = 0)) as [->|Hx]; [apply Z.bits_0|].
    apply Z.bits_above_log2; [done|]. apply Z.log2_lt_pow2 in H; lia.
  - destruct (decide (x = 0)) as [->|Hx]; [lia|]. apply Z.log2_lt_pow2; [lia|].
    destruct (decide (Z.log2 x < 32)) as [|Hge]; [done|]. pose proof (Z.bit_log2 x ltac:(lia)). rewrite H in *; [done|lia].
Qed.

Lemma word32_lxor x y : word32 x -> word32 y -> word32 (Z.lxor x y).
Proof.
  rewrite !word32_bits. intros [Hx Bx] [Hy By]. split; [by apply Z.lxor_nonneg|].
  intros i Hi. by rewrite Z.lxor_spec, Bx, By.
Qed.

Lemma word32_lor x y : word32 x -> word32 y -> word32 (Z.lor x y).
Proof.
  rewrite !word32_bits. intros [Hx Bx] [Hy By]. split; [by apply Z.lor_nonneg|].
  intros i Hi. by rewrite Z.lor_spec, Bx, By.
Qed.

Lemma word32_land x y : 0 <= x -> word32 y -> word32 (Z.land x y).
Proof.
  rewrite !word32_bits. intros Hx [Hy By]. split; [apply Z.land_nonneg; by left|].
  intros i Hi. by rewrite Z.land_spec, By, andb_false_r.
Qed.

Lemma word32_shiftr x n : 0 <= n -> word32 x -> word32 (Z.shiftr x n).
Proof.
  intros Hn [H0 H]. unfold word32. rewrite Z.shiftr_div_pow2 by done. pose proof (Z.pow_pos_nonneg 2 n).
  split; [apply Z.div_pos; lia|]. apply Z.div_lt_upper_bound; nia.
Qed.

Lemma word32_u32 x : word32 (u32 x).
Proof. apply u32_range. Qed.

Create HintDb words.
#[local] Hint Resolve word32_lxor word32_lor word32_land word32_shiftr word32_u32 : words.
#[local] Hint Extern 1 (word32 (Zpos _)) => by split : words.
#[local] Hint Extern 1 (word32 0) => by split : words.

(** ** The invariant of the engine *)

Definition engine (s : Mt19937.t) : Prop := length s = Mt19937.state_size /\ Forall word32 s.

Lemma lookup_word32 l i : Forall word32 l -> word32 (default 0 (l !! i)).
Proof. intros Hl. destruct (l !! i) eqn:E; [by eapply Forall_lookup_1|by split]. Qed.

Lemma temper_word32 x : word32 x -> word32 (Mt19937.temper x).
Proof.
  intros Hx. unfold Mt19937.temper. set (y := Z.lxor x _).
  assert (Hy : word32 y) by (unfold y; assert (0 <= Z.shiftr x 11) by (apply Z.shiftr_nonneg, Hx); auto with words).
  assert (Hl : forall z n m, word32 m -> word32 (Z.land (u32 (Z.shiftl z n)) m))
    by (intros z n m Hm; apply word32_land; [apply word32_u32|done]).
  set (z := Z.lxor y _). assert (Hz : word32 z) by (apply word32_lxor; [done|apply Hl; by split]).
  set (w := Z.lxor z _). assert (Hw : word32 w) by (apply word32_lxor; [done|apply Hl; by split]).
  apply word32_lxor; [done|]. by apply word32_shiftr.
Qed.

Lemma next_engine s : engine s -> word32 (Mt19937.next s).1 /\ engine (Mt19937.next s).2.
Proof.
  intros [Hl Hw]. assert (Hx : word32 (Mt19937.twist s)).
  { unfold Mt19937.twist. set (y := Z.lor _ _).
    assert (Hy : word32 y) by (apply word32_lor; apply word32_land; first [apply lookup_word32, Hw|by split]).
    apply word32_lxor; [apply word32_lxor; [apply lookup_word32, Hw|by apply word32_shiftr]|]. by destruct (Z.testbit y 0). }
  split; [by apply temper_word32|]. split; cbn.
  - rewrite length_app, length_drop, Hl. done.
  - apply Forall_app. split; [by apply Forall_drop|by apply Forall_singleton].
Qed.

(** ** Seeding gives an engine *)

Definition words_of (n : nat) (l : list Z) : Prop := length l = n /\ Forall word32 l.

Lemma words_set n k x l : word32 x -> words_of n l -> words_of n (SeedSeq.set k x l).
Proof. intros Hx [Hl Hw]. split; [by rewrite <- Hl; apply length_insert|by apply Forall_insert]. Qed.

Lemma step1_words n v l k : words_of n l -> words_of n (SeedSeq.step1 v l k).
Proof. intros Hl. repeat (apply words_set; [apply word32_u32|]). done. Qed.

Lemma step2_words n l k : words_of n l -> words_of n (SeedSeq.step2 l k).
Proof.
  intros Hl. unfold SeedSeq.step2. set (r3 := u32 _). set (r4 := u32 _). assert (H3 : word32 r3) by apply word32_u32.
  assert (H4 : word32 r4) by apply word32_u32. clearbody r3 r4.
  set (l1 := SeedSeq.set _ _ l). assert (Hl1 : words_of n l1) by (apply words_set; [apply word32_lxor; [apply lookup_word32, Hl|done]|done]).
  apply words_set; [done|]. apply words_set; [|done]. apply word32_lxor; [apply lookup_word32, Hl1|done].
Qed.

Lemma foldl_words {A} n (f : list Z -> A -> list Z) ks : (forall l k, words_of n l -> words_of n (f l k)) ->
  forall l, words_of n l -> words_of n (foldl f l ks).
Proof. intros Hf. induction ks as [|k ks IH]; intros l Hl; cbn; [done|]. by apply IH, Hf. Qed.

Lemma generate_words v n : words_of n (SeedSeq.generate v n).
Proof.
  unfold SeedSeq.generate. apply foldl_words; [intros l k; apply step2_words|]. apply foldl_words; [intros l k; apply step1_words|].
  split; [apply length_replicate|]. by apply Forall_replicate.
Qed.

(** Seeding leaves an engine in a state that the recurrence can leave: the words do not
    vanish where they count. *)
Lemma seed_engine l : words_of Mt19937.state_size l -> engine (Mt19937.seed l) /\
  (0 < Z.shiftr (Mt19937.word 0 (Mt19937.seed l)) 31 \/ exists x, x ∈ drop 1 (Mt19937.seed l) /\ x <> 0).
Proof.
  intros [Hl Hw]. unfold Mt19937.seed.
  destruct (_ && _) eqn:E.
  - split; [|by left]. split; [|constructor; [by split|by apply Forall_drop]]. cbn [length]. rewrite length_drop, Hl. done.
  - split; [done|]. apply andb_false_iff in E as [E|E].
    + left. zb. destruct (lookup_word32 l 0 Hw) as [H0 _].
      apply (proj2 (Z.shiftr_nonneg _ 31)) in H0. change (0 <= Z.shiftr (Mt19937.word 0 l) 31) in H0. lia.
    + right. apply not_true_iff_false in E. rewrite forallb_forall in E.
      destruct (decide (Exists (fun x => x <> 0) (drop 1 l))) as [Hex|Hno]; [by apply Exists_exists|].
      destruct E. intros x Hx%list_elem_of_In. apply Z.eqb_eq. apply not_Exists_Forall in Hno; [|apply _].
      rewrite Forall_forall in Hno. destruct (decide (x = 0)) as [->|Hne]; [done|]. by destruct (Hno x Hx).
Qed.

Lemma generator_engine device : engine (get_random_generator device).
Proof. unfold get_random_generator. apply seed_engine, generate_words. Qed.

(** Every number that the generator gives is a 32-bit word. *)
Theorem random_numbers_typed (device : nat -> Z) (n : nat) : word32 (Mt19937.draw n (get_random_generator device)).
Proof.
  pose proof (generator_engine device) as He. revert He. generalize (get_random_generator device).
  induction n as [|n IH]; intros s He; cbn [Mt19937.draw]; [by apply next_engine|]. apply IH. by apply next_engine.
Qed.
