(* ===== verification/Wrapping.v ===== *)
(** * 32-bit wrapping sequence numbers *)

From S2P Require Import Prelude.

Module WrappingInt32.

(** [class WrappingInt32]: a raw [uint32_t]. *)
Record t : Type := mk { _raw_value : Z }.

Definition raw_value (a : t) : Z := _raw_value a.

(** The constructor converts its argument to [uint32_t]. *)
Definition make (raw : Z) : t := mk (u32 raw).

(** The invariant of the class: the stored value fits 32 bits. *)
Definition wf (a : t) : Prop := 0 <= _raw_value a < two32.

#[global] Instance eq_dec : EqDecision t.
Proof. solve_decision. Defined.

(** [operator-(a, b)]: the signed 32-bit offset. *)
Definition minus (a b : t) : Z := s32 (raw_value a - raw_value b).
Definition eqb (a b : t) : bool := raw_value a =? raw_value b.
Definition neqb (a b : t) : bool := negb (eqb a b).
Definition plus (a : t) (b : Z) : t := make (raw_value a + u32 b).
Definition minus_int (a : t) (b : Z) : t := plus a (- u32 b).

(** [wrap]: absolute 64-bit sequence number to relative. *)
Definition wrap (n : Z) (isn : t) : t := make (u64 (n + raw_value isn) mod two32).

Definition diff (a b : Z) : Z := if a <? b then u64 (b - a) else u64 (a - b).

(** [unwrap]: the conditional expression mixes [int32_t] and [unsigned long],
    so both branches are computed as 64-bit unsigned numbers and then narrowed
    to [uint32_t]. *)
Definition unwrap (n isn : t) (checkpoint : Z) : Z :=
  let abs_n :=
    u32 (if raw_value isn <=? raw_value n
         then u64 (minus n isn)
         else u64 (two32 - u64 (minus isn n))) in
  let n_wraps := checkpoint / two32 in
  let a := u64 (abs_n + u64 (n_wraps * two32)) in
  let n_wraps := u64 (n_wraps + (if a <? checkpoint then 1 else -1)) in
  let b := u64 (abs_n + u64 (n_wraps * two32)) in
  if diff checkpoint b <? diff checkpoint a then b else a.

(** ** Lemmas *)

Lemma wrapping_make_wf x : wf (make x).
Proof. unfold wf, make. cbn. apply u32_range. Qed.

Lemma wrap_raw n isn : raw_value (wrap n isn) = u32 (n + raw_value isn).
Proof.
  unfold wrap, make, raw_value. cbn. unfold u32, u64.
  Z.div_mod_to_equations. lia.
Qed.

Lemma wrap_wf n isn : wf (wrap n isn).
Proof. apply wrapping_make_wf. Qed.

Lemma raw_inj a b : raw_value a = raw_value b -> a = b.
Proof. destruct a, b. cbn. congruence. Qed.

(** Both branches of the conditional compute the offset modulo 2^32. *)
Definition offset (n isn : t) : Z := (raw_value n - raw_value isn) mod two32.

Lemma abs_n_offset n isn :
  u32 (if raw_value isn <=? raw_value n
       then u64 (minus n isn)
       else u64 (two32 - u64 (minus isn n))) = offset n isn.
Proof.
  unfold offset, minus, s32, u32, u64.
  destruct (_ <=? _); destruct (_ <? _); Z.div_mod_to_equations; lia.
Qed.

Lemma wrap_eq_iff x isn n :
  wf n -> wf isn -> wrap x isn = n <-> x mod two32 = offset n isn.
Proof.
  unfold wf. intros Hn Hisn. split.
  - intros <-. unfold offset. rewrite wrap_raw. unfold u32.
    Z.div_mod_to_equations. lia.
  - intros Hx. apply raw_inj. rewrite wrap_raw. unfold offset, raw_value in *.
    unfold u32. Z.div_mod_to_equations. lia.
Qed.

(** Numbers congruent modulo 2^32 are equal or at least 2^32 apart. *)
Lemma congruent_far x y :
  x mod two32 = y mod two32 -> x = y \/ two32 <= Z.abs (x - y).
Proof. Z.div_mod_to_equations. lia. Qed.

Lemma diff_abs a b :
  0 <= a < two64 -> 0 <= b < two64 -> diff a b = Z.abs (a - b).
Proof. intros. unfold diff. zcase; usimpl; lia. Qed.

(** One block up or down from a 64-bit number, reduced to 64 bits. *)
Lemma u64_step a d :
  0 <= a < two64 -> - two64 <= d <= two64 ->
  u64 (a + d) = if a + d <? 0 then a + d + two64
                else if a + d <? two64 then a + d else a + d - two64.
Proof. intros. unfold u64. zcase; Z.div_mod_to_equations; lia. Qed.

(** The two candidates: one in the block of the checkpoint, the other in the
    neighbouring block on the other side of the checkpoint (or, at either end
    of the 64-bit range, at the far end of it). *)
Lemma unwrap_candidates n isn cp :
  wf n -> wf isn -> 0 <= cp < two64 ->
  let a := offset n isn + cp / two32 * two32 in
  let b := u64 (a + (if a <? cp then two32 else - two32)) in
  0 <= a < two64 /\
  unwrap n isn cp = if Z.abs (cp - b) <? Z.abs (cp - a) then b else a.
Proof.
  intros Hn Hisn Hcp a b. unfold unwrap. rewrite abs_n_offset.
  assert (Ho : 0 <= offset n isn < two32) by (apply Z.mod_pos_bound; lia).
  assert (Hk : 0 <= cp / two32 < two32) by (Z.div_mod_to_equations; lia).
  assert (Ha : 0 <= a < two64) by (unfold a; lia).
  split; [done|]. cbv zeta.
  rewrite (u64_small (cp / two32 * two32)) by lia. fold a.
  rewrite (u64_small a) by lia.
  assert (Hb : u64 (offset n isn + u64 (u64 (cp / two32 + (if a <? cp then 1 else -1)) * two32)) = b).
  { unfold b, a, u64. destruct (_ <? _); Z.div_mod_to_equations; lia. }
  rewrite Hb. pose proof (u64_range (a + (if a <? cp then two32 else - two32))) as Hbr.
  fold b in Hbr. by rewrite !diff_abs.
Qed.

Lemma unwrap_closest_aux (n isn : t) (checkpoint : Z) :
  wf n -> wf isn -> 0 <= checkpoint < two64 ->
  0 <= unwrap n isn checkpoint < two64 /\
  wrap (unwrap n isn checkpoint) isn = n /\
  forall x, 0 <= x < two64 -> wrap x isn = n ->
    Z.abs (unwrap n isn checkpoint - checkpoint) <= Z.abs (x - checkpoint).
Proof.
  intros Hn Hisn Hcp.
  destruct (unwrap_candidates n isn checkpoint) as [Ha ->]; [done..|].
  rewrite wrap_eq_iff by done. setoid_rewrite wrap_eq_iff; [|done..].
  assert (Ho : 0 <= offset n isn < two32) by (apply Z.mod_pos_bound; lia).
  set (o := offset n isn) in *.
  split; [|split].
  - urange. destruct (Z.abs _ <? Z.abs _); lia.
  - unfold u64. destruct (_ <? checkpoint); destruct (_ <? _);
      Z.div_mod_to_equations; lia.
  - intros x Hx Hxo. pose proof (Z.div_mod checkpoint two32 ltac:(lia)) as Hdm.
    pose proof (Z.mod_pos_bound checkpoint two32 ltac:(lia)) as Hmb.
    pose proof (Z.div_mod x two32 ltac:(lia)) as Hdx. rewrite Hxo in Hdx.
    set (k := checkpoint / two32) in *. set (q := x / two32) in *.
    destruct (o + k * two32 <? checkpoint) eqn:E;
      rewrite u64_step by lia; zcase; lia.
Qed.

(** C15: [unwrap] returns a 64-bit number that wraps to [n] and no other 64-bit
    number that wraps to [n] is closer to the checkpoint, for every checkpoint
    (the ends of the 64-bit range included). *)
Theorem unwrap_closest (n isn : t) (checkpoint : Z)
  (Hn : wf n) (Hisn : wf isn) (Hcp : 0 <= checkpoint < two64) :
  0 <= unwrap n isn checkpoint < two64 /\
  wrap (unwrap n isn checkpoint) isn = n /\
  forall x, 0 <= x < two64 -> wrap x isn = n ->
    Z.abs (unwrap n isn checkpoint - checkpoint) <= Z.abs (x - checkpoint).
Proof. by apply unwrap_closest_aux. Qed.

Lemma unwrap_closest_witness :
  unwrap (mk 5) (mk 4294967290) 8589934592 = 8589934603 /\
  wrap (unwrap (mk 5) (mk 4294967290) 8589934592) (mk 4294967290) = mk 5.
Proof.
  split; [vm_compute; reflexivity|].
  apply (unwrap_closest (mk 5) (mk 4294967290) 8589934592); unfold wf; cbn; lia.
Defined.

Lemma unwrap_wrap_aux (x checkpoint : Z) (isn : t) :
  wf isn -> 0 <= x < two64 -> 0 <= checkpoint < two64 -> Z.abs (x - checkpoint) < two31 ->
  unwrap (wrap x isn) isn checkpoint = x.
Proof.
  intros Hisn Hx Hcp Hclose.
  destruct (unwrap_closest_aux (wrap x isn) isn checkpoint) as (Hr & Hw & Hmin);
    [apply wrap_wf | done | done |].
  pose proof (Hmin x Hx eq_refl).
  apply (wrap_eq_iff _ _ _ (wrap_wf _ _) Hisn) in Hw.
  assert (Hx' : x mod two32 = offset (wrap x isn) isn).
  { apply wrap_eq_iff; [apply wrap_wf | done | done]. }
  destruct (congruent_far (unwrap (wrap x isn) isn checkpoint) x); [congruence | done | lia].
Qed.

Lemma wrap_0 isn : wf isn -> wrap 0 isn = isn.
Proof. intros H. apply raw_inj. rewrite wrap_raw. by apply u32_small. Qed.

(** Wrapping and unwrapping against a checkpoint less than 2^31 away gives
    the absolute sequence number back. *)
Theorem unwrap_wrap (x checkpoint : Z) (isn : t)
  (Hisn : wf isn) (Hx : 0 <= x < two64) (Hcp : 0 <= checkpoint < two64)
  (Hclose : Z.abs (x - checkpoint) < two31) :
  unwrap (wrap x isn) isn checkpoint = x.
Proof. by apply unwrap_wrap_aux. Qed.

Lemma unwrap_wrap_witness :
  unwrap (wrap 4294967300 (mk 7)) (mk 7) 4294967000 = 4294967300.
Proof. apply (unwrap_wrap 4294967300 4294967000 (mk 7)); unfold wf; cbn; lia. Defined.

End WrappingInt32.
