(* ===== verification/Stream.v ===== *)
(** * The in-order byte stream

    [Module ByteStream] models libsponge/byte_stream.{hh,cc}: a ring buffer with
    a writer side and a reader side.  [Module Queue] is the abstract FIFO the
    class promises to its users, and the simulation theorem relates the two over
    arbitrary sequences of calls. *)

From S2P Require Import Prelude.
From Stdlib Require Import Strings.Byte.

(** ** Ring positions of a vector *)

(** The cells of [buf] in the order they are visited from position [b]. *)
Definition ring (b : nat) (buf : bytes) : bytes := drop b buf ++ take b buf.

Lemma length_ring b buf : length (ring b buf) = length buf.
Proof. unfold ring. rewrite length_app, length_drop, length_take. lia. Qed.

(** A position past the end of the vector wraps once. *)
Lemma ring_pos_wrap b i n :
  (b < n)%nat -> (i <= n)%nat -> (n <= b + i)%nat -> ((b + i) mod n = b + i - n)%nat.
Proof.
  intros. replace (b + i)%nat with ((b + i - n) + 1 * n)%nat at 1 by lia.
  rewrite Nat.Div0.mod_add. apply Nat.mod_small. lia.
Qed.

Lemma ring_lookup b i buf :
  (b < length buf)%nat -> (i < length buf)%nat ->
  ring b buf !! i = buf !! ((b + i) mod length buf)%nat.
Proof.
  intros Hb Hi. unfold ring.
  destruct (decide (b + i < length buf)%nat).
  - rewrite lookup_app_l by (rewrite length_drop; lia).
    by rewrite lookup_drop, Nat.mod_small by lia.
  - rewrite lookup_app_r, length_drop by (rewrite length_drop; lia).
    rewrite lookup_take_lt, ring_pos_wrap by lia. f_equal. lia.
Qed.

Lemma ring_insert b i d buf :
  (b < length buf)%nat -> (i < length buf)%nat ->
  ring b (<[((b + i) mod length buf)%nat := d]> buf) = <[i := d]> (ring b buf).
Proof.
  intros Hb Hi. unfold ring.
  destruct (decide (b + i < length buf)%nat).
  - rewrite Nat.mod_small, take_insert_ge, drop_insert_ge by lia.
    rewrite insert_app_l by (rewrite length_drop; lia). do 2 f_equal. lia.
  - rewrite ring_pos_wrap, take_insert_lt, drop_insert_lt by lia.
    rewrite insert_app_r_alt, length_drop by (rewrite length_drop; lia).
    do 2 f_equal. lia.
Qed.

Lemma ring_advance b n m buf :
  (b < length buf)%nat -> (n <= m)%nat -> (m <= length buf)%nat ->
  take (m - n) (ring ((b + n) mod length buf) buf) = drop n (take m (ring b buf)).
Proof.
  intros Hb Hn Hm. apply list_eq. intros i. rewrite lookup_drop, !lookup_take.
  do 2 case_decide; try lia; [|done].
  rewrite !ring_lookup by (lia || apply Nat.mod_upper_bound; lia).
  f_equal. rewrite Nat.Div0.add_mod_idemp_l. f_equal. lia.
Qed.

(** ** The abstract stream

    What the class promises: the bytes accepted so far are a sequence that only
    grows at its end, and reading moves a cursor over it.  [step] is [None] for a
    call the interface does not allow (removing more bytes than are buffered). *)
Module Queue.

Record t : Type := mk {
  accepted : bytes;
  consumed : nat;
  capacity : Z;
  ended : bool;
  failed : bool
}.

Definition pending (q : t) : bytes := drop (consumed q) (accepted q).

Inductive op : Type :=
| Write (data : bytes)
| Peek (len : Z)
| Pop (len : Z)
| Read (len : Z)
| EndInput
| SetError.

Inductive out : Type :=
| Count (n : Z)
| Bytes (bs : bytes)
| Unit.

Definition init (cap : Z) : t := mk [] 0 cap false false.

Definition step (q : t) (o : op) : option (t * out) :=
  match o with
  | Write data =>
      let n := Z.min (zlen data) (capacity q - zlen (pending q)) in
      Some (mk (accepted q ++ take (Z.to_nat n) data) (consumed q) (capacity q)
               (ended q) (failed q), Count n)
  | Peek len =>
      if 0 <=? len then Some (q, Bytes (take (Z.to_nat len) (pending q))) else None
  | Pop len =>
      if (0 <=? len) && (len <=? zlen (pending q)) then
        Some (mk (accepted q) (consumed q + Z.to_nat len) (capacity q)
                 (ended q) (failed q), Unit)
      else None
  | Read len =>
      if 0 <=? len then
        let bs := take (Z.to_nat len) (pending q) in
        Some (mk (accepted q) (consumed q + length bs) (capacity q)
                 (ended q) (failed q), Bytes bs)
      else None
  | EndInput => Some (mk (accepted q) (consumed q) (capacity q) true (failed q), Unit)
  | SetError => Some (mk (accepted q) (consumed q) (capacity q) (ended q) true, Unit)
  end.

Fixpoint run (q : t) (os : list op) : option (t * list out) :=
  match os with
  | [] => Some (q, [])
  | o :: os' =>
      '(q1, r) ← step q o;
      '(q2, rs) ← run q1 os';
      Some (q2, r :: rs)
  end.

End Queue.

Module ByteStream.

(** ** The class *)

(** [class ByteStream]: the private members of the class, in their order. *)
Record t : Type := mk {
  done_writing : bool;
  buffer : bytes;
  data_begin : Z;
  n_bytes_read : Z;
  n_bytes_written : Z;
  cur_size : Z;
  max_capacity : Z;
  _error : bool
}.

(** The constructor. *)
Definition make (capacity : Z) : t :=
  mk false (replicate (Z.to_nat capacity) x00) 0 0 0 0 capacity false.

Definition remaining_capacity (s : t) : Z := u64 (max_capacity s - cur_size s).
Definition input_ended (s : t) : bool := done_writing s.
Definition buffer_size (s : t) : Z := cur_size s.
Definition buffer_empty (s : t) : bool := cur_size s =? 0.
Definition eof (s : t) : bool := input_ended s && buffer_empty s.
Definition bytes_written (s : t) : Z := n_bytes_written s.
Definition bytes_read (s : t) : Z := n_bytes_read s.
Definition error (s : t) : bool := _error s.

(** The loop of [write]: [buffer[(data_begin + cur_size + i) % max_capacity] =
    data[i]] for the bytes [data] still to be stored, [i] being the position of
    the first of them. *)
Fixpoint write_loop (cap base i : Z) (data buf : bytes) : bytes :=
  match data with
  | [] => buf
  | d :: data' =>
      write_loop cap base (i + 1) data'
        (<[Z.to_nat (u64 (base + i) mod cap) := d]> buf)
  end.

Definition write (data : bytes) (s : t) : Z * t :=
  let n_bytes_to_write := Z.min (zlen data) (remaining_capacity s) in
  let buf :=
    write_loop (max_capacity s) (u64 (data_begin s + cur_size s)) 0
      (take (Z.to_nat n_bytes_to_write) data) (buffer s) in
  (n_bytes_to_write,
   mk (done_writing s) buf (data_begin s) (n_bytes_read s)
      (u64 (n_bytes_written s + n_bytes_to_write))
      (u64 (cur_size s + n_bytes_to_write)) (max_capacity s) (_error s)).

(** [peek_output]: one slice when the data is contiguous, two when it wraps. *)
Definition peek_output (len : Z) (s : t) : res bytes :=
  let len_ret := Z.min len (cur_size s) in
  if u64 (data_begin s + len_ret) <=? max_capacity s then
    Ok (take (Z.to_nat len_ret) (drop (Z.to_nat (data_begin s)) (buffer s)))
  else if max_capacity s =? 0 then Throw undefined
  else
    Ok (drop (Z.to_nat (data_begin s)) (buffer s) ++
        take (Z.to_nat (u64 (data_begin s + len_ret) mod max_capacity s)) (buffer s)).

(** [pop_output]: the remainder by [max_capacity] is undefined for a stream of
    capacity 0, and [cur_size - len] is an unsigned subtraction. *)
Definition pop_output (len : Z) (s : t) : res t :=
  if max_capacity s =? 0 then Throw undefined
  else
    Ok (mk (done_writing s) (buffer s)
           (u64 (data_begin s + len) mod max_capacity s)
           (u64 (n_bytes_read s + Z.min len (cur_size s)))
           (n_bytes_written s)
           (Z.max 0 (u64 (cur_size s - len))) (max_capacity s) (_error s)).

Definition read (len : Z) (s : t) : res (bytes * t) :=
  ret ← peek_output len s;
  s' ← pop_output (zlen ret) s;
  Ok (ret, s').

Definition end_input (s : t) : t :=
  mk true (buffer s) (data_begin s) (n_bytes_read s) (n_bytes_written s)
     (cur_size s) (max_capacity s) (_error s).

Definition set_error (s : t) : t :=
  mk (done_writing s) (buffer s) (data_begin s) (n_bytes_read s) (n_bytes_written s)
     (cur_size s) (max_capacity s) true.

#[global] Arguments write : simpl never.
#[global] Arguments peek_output : simpl never.
#[global] Arguments pop_output : simpl never.
#[global] Arguments read : simpl never.

(** ** Invariant and abstraction *)

(** The invariant.  A [std::vector<char>] has at most 2^63 - 1 elements, which
    bounds the capacity of every stream that could be constructed. *)
Record wf (s : t) : Prop := {
  wf_cap : 0 <= max_capacity s < two63;
  wf_buffer : zlen (buffer s) = max_capacity s;
  wf_begin : 0 <= data_begin s <= max_capacity s;
  wf_begin_lt : 0 < max_capacity s -> data_begin s < max_capacity s;
  wf_size : 0 <= cur_size s <= max_capacity s;
  wf_read : 0 <= n_bytes_read s < two64;
  wf_written : n_bytes_written s = u64 (n_bytes_read s + cur_size s)
}.

(** The bytes the stream holds, oldest first. *)
Definition contents (s : t) : bytes :=
  take (Z.to_nat (cur_size s)) (ring (Z.to_nat (data_begin s)) (buffer s)).

Lemma zlen_contents s : wf s -> zlen (contents s) = cur_size s.
Proof.
  intros []. unfold contents. rewrite length_take, length_ring. lia.
Qed.

Lemma stream_make_wf cap : 0 <= cap < two63 -> wf (make cap).
Proof.
  intros. split; cbn; try lia.
  - rewrite length_replicate. lia.
  - usimpl. lia.
Qed.

Lemma contents_make cap : contents (make cap) = [].
Proof. done. Qed.

Lemma remaining_capacity_eq s :
  wf s -> remaining_capacity s = max_capacity s - cur_size s.
Proof. intros []. unfold remaining_capacity. usimpl. done. Qed.

Lemma length_write_loop cap base i data buf :
  length (write_loop cap base i data buf) = length buf.
Proof.
  revert i buf. induction data as [|d data IH]; intros i buf; cbn; [done|].
  by rewrite IH, length_insert.
Qed.

(** Writing at the ring positions that follow the stored bytes appends. *)
Lemma write_loop_ring data : forall cap b cur i buf,
  0 <= b < cap -> cap < two63 -> zlen buf = cap ->
  0 <= cur -> 0 <= i -> cur + i + zlen data <= cap ->
  take (Z.to_nat (cur + i + zlen data))
       (ring (Z.to_nat b) (write_loop cap (b + cur) i data buf)) =
  take (Z.to_nat (cur + i)) (ring (Z.to_nat b) buf) ++ data.
Proof.
  induction data as [|d data IH]; intros cap b cur i buf Hb Hcap Hlen Hcur Hi Hfit; cbn [write_loop length] in *.
  - by rewrite app_nil_r, Z.add_0_r.
  - replace (cur + i + Z.of_nat (S (length data))) with (cur + (i + 1) + zlen data) by lia.
    rewrite IH by (rewrite ?length_insert; lia).
    usimpl.
    assert (Hpos : Z.to_nat ((b + cur + i) mod cap) =
                   ((Z.to_nat b + Z.to_nat (cur + i)) mod length buf)%nat).
    { rewrite Z2Nat.inj_mod by lia. f_equal; lia. }
    rewrite Hpos, ring_insert by lia.
    replace (Z.to_nat (cur + (i + 1))) with (S (Z.to_nat (cur + i))) by lia.
    erewrite take_S_lookup by (apply list_lookup_insert_eq; rewrite length_ring; lia).
    rewrite take_insert_ge by lia. by rewrite <- app_assoc.
Qed.

Lemma write_spec data s :
  wf s ->
  let n := Z.min (zlen data) (max_capacity s - cur_size s) in
  write data s =
    (n, snd (write data s)) /\
  wf (snd (write data s)) /\
  contents (snd (write data s)) = contents s ++ take (Z.to_nat n) data /\
  cur_size (snd (write data s)) = cur_size s + n /\
  n_bytes_written (snd (write data s)) = u64 (n_bytes_written s + n) /\
  n_bytes_read (snd (write data s)) = n_bytes_read s /\
  max_capacity (snd (write data s)) = max_capacity s /\
  done_writing (snd (write data s)) = done_writing s /\
  _error (snd (write data s)) = _error s.
Proof.
  intros Hwf n. pose proof Hwf as [Hcap Hbuf Hb Hblt Hsz Hrd Hwr].
  unfold write. rewrite remaining_capacity_eq by done. fold n. cbn.
  assert (Hn : 0 <= n <= max_capacity s - cur_size s) by lia.
  assert (Hlen : length (take (Z.to_nat n) data) = Z.to_nat n) by (rewrite length_take; lia).
  rewrite (u64_small (cur_size s + n)), (u64_small (data_begin s + cur_size s)) by lia.
  split_and!; try done.
  - split; cbn; rewrite ?length_write_loop; try lia.
    rewrite Hwr, u64_add_l. f_equal. lia.
  - unfold contents. cbn.
    destruct (decide (max_capacity s = 0)) as [Hz|Hnz].
    { assert (Hn0 : n = 0) by lia. rewrite Hn0. cbn.
      by rewrite app_nil_r, Z.add_0_r. }
    pose proof (write_loop_ring (take (Z.to_nat n) data) (max_capacity s) (data_begin s)
                  (cur_size s) 0 (buffer s)) as Hring.
    rewrite Hlen, !Z.add_0_r, Z2Nat.id in Hring by lia.
    apply Hring; lia.
Qed.

Lemma peek_output_spec len s :
  wf s -> 0 <= len -> peek_output len s = Ok (take (Z.to_nat len) (contents s)).
Proof.
  intros [Hcap Hbuf Hb Hblt Hsz Hrd Hwr] Hlen. unfold peek_output, contents.
  set (m := Z.min len (cur_size s)).
  assert (Hm : 0 <= m <= cur_size s) by lia.
  rewrite take_take. replace (Z.to_nat len `min` Z.to_nat (cur_size s))%nat with (Z.to_nat m) by lia.
  usimpl. unfold ring. zcase.
  - rewrite take_app_le by (rewrite length_drop; lia). done.
  - lia.
  - rewrite take_app_ge, length_drop by (rewrite length_drop; lia).
    rewrite take_take. do 3 f_equal.
    replace ((data_begin s + m) mod max_capacity s) with (data_begin s + m - max_capacity s); [lia|].
    apply Z.mod_unique_pos with 1; lia.
Qed.

Lemma pop_output_spec len s :
  wf s -> 0 < max_capacity s -> 0 <= len <= cur_size s ->
  exists s', pop_output len s = Ok s' /\ wf s' /\
    contents s' = drop (Z.to_nat len) (contents s) /\
    cur_size s' = cur_size s - len /\
    n_bytes_read s' = u64 (n_bytes_read s + len) /\
    n_bytes_written s' = n_bytes_written s /\
    max_capacity s' = max_capacity s /\
    done_writing s' = done_writing s /\ _error s' = _error s.
Proof.
  intros [Hcap Hbuf Hb Hblt Hsz Hrd Hwr] Hpos Hlen. unfold pop_output. zcase; [lia|].
  eexists. split; [reflexivity|].
  rewrite Z.min_l by lia. rewrite (u64_small (cur_size s - len)), (u64_small (data_begin s + len)) by lia.
  rewrite Z.max_r by lia.
  pose proof (Z.mod_pos_bound (data_begin s + len) (max_capacity s) ltac:(lia)).
  split_and!; cbn; try done.
  - split; cbn; try lia.
    + apply u64_range.
    + rewrite Hwr, u64_add_l. f_equal. lia.
  - unfold contents. cbn.
    replace (Z.to_nat (cur_size s - len)) with (Z.to_nat (cur_size s) - Z.to_nat len)%nat by lia.
    rewrite Z2Nat.inj_mod by lia.
    replace (Z.to_nat (data_begin s + len)) with (Z.to_nat (data_begin s) + Z.to_nat len)%nat by lia.
    replace (Z.to_nat (max_capacity s)) with (length (buffer s)) by lia.
    apply ring_advance; lia.
Qed.

Lemma read_spec len s :
  wf s -> 0 < max_capacity s -> 0 <= len ->
  exists s', read len s = Ok (take (Z.to_nat len) (contents s), s') /\ wf s' /\
    contents s' = drop (Z.to_nat len) (contents s) /\
    cur_size s' = cur_size s - Z.min len (cur_size s) /\
    n_bytes_read s' = u64 (n_bytes_read s + Z.min len (cur_size s)) /\
    n_bytes_written s' = n_bytes_written s /\
    max_capacity s' = max_capacity s /\
    done_writing s' = done_writing s /\ _error s' = _error s.
Proof.
  intros Hwf Hpos Hlen. unfold read. rewrite peek_output_spec by done. cbn.
  pose proof (zlen_contents s Hwf) as Hc.
  assert (Hl : zlen (take (Z.to_nat len) (contents s)) = Z.min len (cur_size s))
    by (rewrite length_take; lia).
  rewrite Hl.
  destruct (pop_output_spec (Z.min len (cur_size s)) s) as (s' & -> & ? & Hd & ?); [done|done| |].
  { pose proof (wf_size s Hwf). lia. }
  exists s'. cbn. split; [done|]. split; [done|]. split; [|done].
  rewrite Hd. destruct (decide (len <= cur_size s)).
  - do 2 f_equal. lia.
  - rewrite !drop_ge; [done|lia..].
Qed.

Lemma stream_end_input_wf s : wf s -> wf (end_input s).
Proof. by intros []. Qed.
Lemma set_error_wf s : wf s -> wf (set_error s).
Proof. by intros []. Qed.

(** ** Refinement of the abstract stream *)

(** One call of the interface, with the value it returns. *)
Definition step (s : t) (o : Queue.op) : res (t * Queue.out) :=
  match o with
  | Queue.Write data => let '(n, s') := write data s in Ok (s', Queue.Count n)
  | Queue.Peek len => bs ← peek_output len s; Ok (s, Queue.Bytes bs)
  | Queue.Pop len => s' ← pop_output len s; Ok (s', Queue.Unit)
  | Queue.Read len => '(bs, s') ← read len s; Ok (s', Queue.Bytes bs)
  | Queue.EndInput => Ok (end_input s, Queue.Unit)
  | Queue.SetError => Ok (set_error s, Queue.Unit)
  end.

Fixpoint run (s : t) (os : list Queue.op) : res (t * list Queue.out) :=
  match os with
  | [] => Ok (s, [])
  | o :: os' =>
      '(s1, r) ← step s o;
      '(s2, rs) ← run s1 os';
      Ok (s2, r :: rs)
  end.

(** The ring buffer [s] implements the abstract stream [q]. *)
Record refines (s : t) (q : Queue.t) : Prop := {
  ref_wf : wf s;
  ref_pos : 0 < max_capacity s;
  ref_contents : contents s = Queue.pending q;
  ref_consumed : (Queue.consumed q <= length (Queue.accepted q))%nat;
  ref_written : bytes_written s = u64 (zlen (Queue.accepted q));
  ref_read : bytes_read s = u64 (Z.of_nat (Queue.consumed q));
  ref_cap : max_capacity s = Queue.capacity q;
  ref_ended : input_ended s = Queue.ended q;
  ref_error : error s = Queue.failed q
}.

Lemma refines_init cap : 0 < cap < two63 -> refines (make cap) (Queue.init cap).
Proof. intros. split; cbn; try done; try lia. apply stream_make_wf. lia. Qed.

Lemma refines_size s q : refines s q -> cur_size s = zlen (Queue.pending q).
Proof. intros []. rewrite <- ref_contents0. by rewrite zlen_contents. Qed.

Lemma refines_write s q data :
  refines s q ->
  let n := Z.min (zlen data) (Queue.capacity q - zlen (Queue.pending q)) in
  fst (write data s) = n /\
  refines (snd (write data s))
    (Queue.mk (Queue.accepted q ++ take (Z.to_nat n) data) (Queue.consumed q)
              (Queue.capacity q) (Queue.ended q) (Queue.failed q)).
Proof.
  intros Hr n. pose proof (refines_size _ _ Hr) as Hsz. pose proof Hr as [].
  destruct (write_spec data s) as (Hw & Hwf & Hc & Hs & Hwr & Hrd & Hcap & Hd & He); [done|].
  rewrite ref_cap0, Hsz in *. fold n in Hw, Hc, Hs, Hwr.
  split; [by rewrite Hw|]. revert Hwf Hc Hs Hwr Hrd Hcap Hd He.
  generalize (snd (write data s)) as s'. intros s' Hwf Hc Hs Hwr Hrd Hcap Hd He.
  assert (Hn : 0 <= n <= zlen data).
  { pose proof (wf_size _ ref_wf0). lia. }
  unfold input_ended, error, bytes_read in *.
  split; unfold input_ended, error, bytes_read; cbn; try done; try congruence; try lia.
  - rewrite Hc, ref_contents0. unfold Queue.pending. cbn. by rewrite drop_app_le.
  - rewrite length_app. lia.
  - unfold bytes_written in *. rewrite Hwr, ref_written0, u64_add_l, length_app, length_take.
    f_equal. lia.
Qed.

Lemma refines_pop s q len s' :
  refines s q -> 0 <= len <= cur_size s ->
  wf s' -> contents s' = drop (Z.to_nat len) (contents s) ->
  n_bytes_read s' = u64 (n_bytes_read s + len) ->
  n_bytes_written s' = n_bytes_written s ->
  max_capacity s' = max_capacity s ->
  done_writing s' = done_writing s -> _error s' = _error s ->
  refines s' (Queue.mk (Queue.accepted q) (Queue.consumed q + Z.to_nat len)
                (Queue.capacity q) (Queue.ended q) (Queue.failed q)).
Proof.
  intros Hr Hlen Hwf Hc Hrd Hwr Hcap Hd He.
  pose proof (refines_size _ _ Hr) as Hsz. destruct Hr.
  unfold Queue.pending in Hsz. rewrite length_drop in Hsz.
  unfold input_ended, error, bytes_read in *.
  split; unfold input_ended, error, bytes_read; cbn; try done; try congruence; try lia.
  - rewrite Hc, ref_contents0. unfold Queue.pending. cbn. by rewrite drop_drop.
  - unfold bytes_written in *. congruence.
  - rewrite Hrd, ref_read0, u64_add_l. f_equal. lia.
Qed.

Lemma step_refines s q o q' r :
  refines s q -> Queue.step q o = Some (q', r) ->
  exists s', step s o = Ok (s', r) /\ refines s' q'.
Proof.
  intros Hr Hq. pose proof (refines_size _ _ Hr) as Hsz. pose proof Hr as [].
  destruct o; cbn in Hq |- *.
  - destruct (refines_write s q data Hr) as [Hn Hr'].
    destruct (write data s) as [n s'] eqn:E. cbn in Hn, Hr'. simplify_eq. eauto.
  - case_match; simplify_eq. zb. rewrite peek_output_spec by done. cbn.
    rewrite ref_contents0. eauto.
  - case_match; simplify_eq. zb.
    destruct (pop_output_spec len s) as (s' & -> & ? & ? & ? & ? & ? & ? & ? & ?); [done..|lia|].
    cbn. exists s'. split; [done|]. eapply refines_pop; try done; lia.
  - case_match; simplify_eq. zb.
    destruct (read_spec len s) as (s' & -> & ? & Hc & ? & ? & ? & ? & ? & ?); [done..|].
    cbn. rewrite ref_contents0. exists s'. split; [done|].
    replace (length (take (Z.to_nat len) (Queue.pending q)))
      with (Z.to_nat (Z.min len (cur_size s))) by (rewrite length_take; lia).
    pose proof (wf_size s ref_wf0).
    eapply refines_pop; try done; try lia.
    rewrite Hc, ref_contents0. destruct (decide (len <= cur_size s)).
    + do 2 f_equal. lia.
    + rewrite !drop_ge; [done|lia..].
  - simplify_eq. exists (end_input s). split; [done|].
    split; try done. by apply stream_end_input_wf.
  - simplify_eq. exists (set_error s). split; [done|].
    split; try done. by apply set_error_wf.
Qed.

Lemma run_refines os : forall s q q' rs,
  refines s q -> Queue.run q os = Some (q', rs) ->
  exists s', run s os = Ok (s', rs) /\ refines s' q'.
Proof.
  induction os as [|o os IH]; intros s q q' rs Hr Hq; cbn in Hq |- *.
  - simplify_eq. eauto.
  - apply bind_Some in Hq as ([q1 r1] & Hs & Hq).
    apply bind_Some in Hq as ([q2 rs2] & Hrun & [= <- <-]).
    destruct (step_refines _ _ _ _ _ Hr Hs) as (s1 & -> & Hr1). cbn.
    destruct (IH _ _ _ _ Hr1 Hrun) as (s2 & -> & Hr2). cbn. eauto.
Qed.

Lemma run_capacity os : forall q q' rs,
  Queue.run q os = Some (q', rs) -> Queue.capacity q' = Queue.capacity q.
Proof.
  induction os as [|o os IH]; intros q q' rs Hq; cbn in Hq; [by simplify_eq|].
  apply bind_Some in Hq as ([q1 r1] & Hs & Hq).
  apply bind_Some in Hq as ([q2 rs2] & Hrun & [= <- <-]).
  rewrite (IH _ _ _ Hrun). destruct o; cbn in Hs; repeat case_match; by simplify_eq.
Qed.

(** C14: the ring buffer implements the abstract stream: for every sequence of
    calls the interface allows, starting from a fresh stream of capacity [cap],
    every call of the code succeeds and returns what the abstract stream returns
    (so bytes come out in the order they were accepted, exactly once), and the
    buffered bytes, the counters and the flags agree at the end. *)
Theorem stream_implements_queue (cap : Z) (os : list Queue.op) (q : Queue.t) (outs : list Queue.out)
  (Hcap : 0 < cap < two63) (Hrun : Queue.run (Queue.init cap) os = Some (q, outs)) :
  exists s, run (make cap) os = Ok (s, outs) /\
    contents s = Queue.pending q /\
    buffer_size s + remaining_capacity s = cap /\
    bytes_written s = u64 (zlen (Queue.accepted q)) /\
    bytes_read s = u64 (Z.of_nat (Queue.consumed q)) /\
    input_ended s = Queue.ended q /\ error s = Queue.failed q /\
    (eof s = true <-> Queue.ended q = true /\ Queue.pending q = []).
Proof.
  destruct (run_refines os (make cap) (Queue.init cap) q outs) as (s & Hs & Hr);
    [by apply refines_init | done |].
  exists s. pose proof (refines_size _ _ Hr) as Hsz. pose proof Hr as [].
  split_and!; try done.
  - rewrite remaining_capacity_eq by done. unfold buffer_size.
    pose proof (run_capacity _ _ _ _ Hrun). cbn in *. lia.
  - unfold eof, buffer_empty. rewrite ref_ended0, Hsz, andb_true_iff, Z.eqb_eq.
    rewrite <- length_zero_iff_nil.
    split; intros [? ?]; (split; [done | lia]).
Qed.

Lemma stream_implements_queue_witness :
  exists s, run (make 4)
      [Queue.Write [x61; x62; x63]; Queue.Read 2; Queue.Write [x64; x65; x66; x67];
       Queue.Peek 9; Queue.EndInput; Queue.Read 9]
    = Ok (s, [Queue.Count 3; Queue.Bytes [x61; x62]; Queue.Count 3;
              Queue.Bytes [x63; x64; x65; x66]; Queue.Unit;
              Queue.Bytes [x63; x64; x65; x66]]) /\ eof s = true.
Proof.
  edestruct (stream_implements_queue 4
      [Queue.Write [x61; x62; x63]; Queue.Read 2; Queue.Write [x64; x65; x66; x67];
       Queue.Peek 9; Queue.EndInput; Queue.Read 9])
    as (s & Hs & _ & _ & _ & _ & _ & _ & He); [lia | vm_compute; reflexivity |].
  exists s. split; [exact Hs|]. apply He. split; reflexivity.
Defined.

(** What happens outside the contract: removing more bytes than the stream
    holds does not clamp at zero, because the subtraction is unsigned; the stream
    then claims to hold almost 2^64 bytes and its invariant is lost. *)
Theorem pop_output_underflow (s : t) (len : Z)
  (Hwf : wf s) (Hpos : 0 < max_capacity s) (Hlen : cur_size s < len < two63) :
  exists s', pop_output len s = Ok s' /\
    buffer_size s' = two64 - (len - cur_size s) /\
    buffer_empty s' = false /\ ~ wf s'.
Proof.
  destruct Hwf as [Hcap Hbuf Hb Hblt Hsz Hrd Hwr].
  unfold pop_output. zcase; [lia|]. eexists. split; [reflexivity|].
  assert (Hu : u64 (cur_size s - len) = two64 - (len - cur_size s)).
  { unfold u64. symmetry. apply Z.mod_unique_pos with (-1); lia. }
  unfold buffer_size, buffer_empty. cbn. rewrite Hu. split_and!.
  - lia.
  - apply Z.eqb_neq. lia.
  - intros []. cbn in *. lia.
Qed.

Lemma pop_output_underflow_witness :
  exists s', pop_output 2 (snd (write [x61] (make 8))) = Ok s' /\
    buffer_size s' = 18446744073709551615.
Proof.
  destruct (pop_output_underflow (snd (write [x61] (make 8))) 2) as (s' & Hs & Hb & _).
  - apply write_spec, stream_make_wf. lia.
  - vm_compute. reflexivity.
  - vm_compute. split; reflexivity.
  - exists s'. split; [exact Hs|]. rewrite Hb. reflexivity.
Defined.

End ByteStream.
