(* ===== verification/Reassembly.v ===== *)
(** * The stream reassembler

    [Module StreamReassembler] models libsponge/stream_reassembler.{hh,cc}: it
    accepts substrings of a byte stream in any order, keeps the ones that are not
    yet contiguous in a list of chunks, and writes contiguous bytes to a
    [ByteStream]. *)

From S2P Require Import Prelude Stream.
From Stdlib Require Import Strings.Byte Sorting.Sorted.

(** ** Slices of a logical stream

    The stream being reassembled is a function from positions to bytes. *)

Definition slice (D : Z -> byte) (i n : Z) : bytes := D <$> seqZ i n.

(** [d] is what the logical stream holds at position [i]. *)
Definition agrees (D : Z -> byte) (i : Z) (d : bytes) : Prop := d = slice D i (zlen d).

Lemma zlen_slice D i n : 0 <= n -> zlen (slice D i n) = n.
Proof. intros. unfold slice. rewrite length_fmap, length_seqZ. lia. Qed.

Lemma slice_app D i n m :
  0 <= n -> 0 <= m -> slice D i (n + m) = slice D i n ++ slice D (i + n) m.
Proof. intros. unfold slice. by rewrite seqZ_app, fmap_app. Qed.

Lemma agrees_slice D i n : 0 <= n -> agrees D i (slice D i n).
Proof. intros. unfold agrees. by rewrite zlen_slice. Qed.

Lemma agrees_app D i d1 d2 :
  agrees D i d1 -> agrees D (i + zlen d1) d2 -> agrees D i (d1 ++ d2).
Proof.
  unfold agrees. intros H1 H2. rewrite length_app, Nat2Z.inj_add, slice_app by lia.
  by rewrite <- H1, <- H2.
Qed.

Lemma agrees_split D i d k :
  agrees D i d -> 0 <= k <= zlen d ->
  agrees D i (take (Z.to_nat k) d) /\ agrees D (i + k) (drop (Z.to_nat k) d).
Proof.
  intros Hd Hk.
  assert (Hs : d = slice D i k ++ slice D (i + k) (zlen d - k)).
  { rewrite <- slice_app by lia. rewrite Hd at 1. f_equal. lia. }
  assert (Hl : length (slice D i k) = Z.to_nat k).
  { pose proof (zlen_slice D i k ltac:(lia)). lia. }
  rewrite Hs, <- Hl, take_app_length, drop_app_length.
  split; apply agrees_slice; lia.
Qed.

Module StreamReassembler.

(** ** The class *)

(** [struct Chunk]. *)
Record Chunk : Type := mkChunk { data : bytes; index : Z }.

(** [class StreamReassembler]: the private members, in their order. *)
Record t : Type := mk {
  _output : ByteStream.t;
  _capacity : Z;
  unasmb : list Chunk;
  first_unasmb : Z;
  n_unasmb_bytes : Z;
  eof_set : bool;
  last_byte : Z
}.

Definition make (capacity : Z) : t :=
  mk (ByteStream.make capacity) capacity [] 0 0 false 0.

(** [merge]: one pass over the chunk list.  [new0] and [new1] are the bounds of
    the new chunk as it was passed in; [new_chunk] is the chunk being extended,
    [n] the member [n_unasmb_bytes].  The result is the returned flag, the list
    after the erasures, the new chunk and [n_unasmb_bytes]. *)
Fixpoint merge_loop (new0 new1 : Z) (chunks : list Chunk) (new_chunk : Chunk) (n : Z)
  : res (bool * list Chunk * Chunk * Z) :=
  match chunks with
  | [] => Ok (true, [], new_chunk, n)
  | it :: rest =>
      let cur0 := index it in
      let cur1 := u64 (index it + zlen (data it)) in
      if (cur0 <=? new0) && (new1 <=? cur1) then
        Ok (false, chunks, new_chunk, n)
      else if (new0 <=? cur0) && (cur1 <=? new1) then
        merge_loop new0 new1 rest new_chunk (u64 (n - zlen (data it)))
      else if (cur0 <=? new0) && (new0 <=? cur1) then
        pre ← substr (data it) 0 (u64 (new0 - cur0));
        merge_loop new0 new1 rest (mkChunk (pre ++ data new_chunk) cur0)
                   (u64 (n - zlen (data it)))
      else if (new0 <=? cur0) && (cur0 <=? new1) then
        post ← substr_from (data it) (u64 (new1 - cur0));
        merge_loop new0 new1 rest (mkChunk (data new_chunk ++ post) (index new_chunk))
                   (u64 (n - zlen (data it)))
      else
        '(b, kept, c, n') ← merge_loop new0 new1 rest new_chunk n;
        Ok (b, it :: kept, c, n')
  end.

Definition merge (chunks : list Chunk) (new_chunk : Chunk) (n : Z)
  : res (bool * list Chunk * Chunk * Z) :=
  merge_loop (index new_chunk) (u64 (index new_chunk + zlen (data new_chunk)))
             chunks new_chunk n.

(** The last statement of [push_substring]. *)
Definition check_end (r : t) : t :=
  if eof_set r && (last_byte r <=? first_unasmb r) then
    mk (ByteStream.end_input (_output r)) (_capacity r) (unasmb r) (first_unasmb r)
       (n_unasmb_bytes r) (eof_set r) (last_byte r)
  else r.

(** Cutting the new data to the window: the back first, then the front. *)
Definition chop (d : bytes) (idx first first_unacceptable : Z) : res Chunk :=
  d1 ← (if first_unacceptable <? u64 (idx + zlen d)
        then substr d 0 (u64 (first_unacceptable - idx)) else Ok d);
  if idx <? first then
    d2 ← substr_from d1 (u64 (first - idx));
    Ok (mkChunk d2 first)
  else Ok (mkChunk d1 idx).

(** The rest of the accepted case: return early when the chunk is already held,
    write it out when it continues the assembled stream, store it otherwise. *)
Definition insert_chunk (new_chunk : Chunk) (r : t) : res t :=
  '(fresh, chunks, c, n) ← merge (unasmb r) new_chunk (n_unasmb_bytes r);
  if negb fresh then
    Ok (mk (_output r) (_capacity r) chunks (first_unasmb r) n (eof_set r) (last_byte r))
  else if index c =? first_unasmb r then
    let '(_, out) := ByteStream.write (data c) (_output r) in
    Ok (check_end
          (mk out (_capacity r) chunks (u64 (first_unasmb r + zlen (data c))) n
              (eof_set r) (last_byte r)))
  else
    Ok (check_end
          (mk (_output r) (_capacity r) (chunks ++ [c]) (first_unasmb r)
              (u64 (n + zlen (data c))) (eof_set r) (last_byte r))).

Definition push_substring (d : bytes) (idx : Z) (eof : bool) (r : t) : res t :=
  if ByteStream.input_ended (_output r) then Ok r
  else
    let r :=
      if eof then
        mk (_output r) (_capacity r) (unasmb r) (first_unasmb r) (n_unasmb_bytes r)
           true (u64 (idx + zlen d))
      else r in
    let first_unacceptable :=
      u64 (u64 (first_unasmb r + _capacity r) - ByteStream.buffer_size (_output r)) in
    if (first_unasmb r <=? u64 (idx + zlen d)) && (idx <? first_unacceptable) then
      new_chunk ← chop d idx (first_unasmb r) first_unacceptable;
      insert_chunk new_chunk r
    else Ok (check_end r).

Definition unassembled_bytes (r : t) : Z := n_unasmb_bytes r.
Definition empty (r : t) : bool := match unasmb r with [] => true | _ => false end.
Definition stream_out (r : t) : ByteStream.t := _output r.

(** The reader takes bytes out of [stream_out()]. *)
Definition set_output (o : ByteStream.t) (r : t) : t :=
  mk o (_capacity r) (unasmb r) (first_unasmb r) (n_unasmb_bytes r) (eof_set r) (last_byte r).

#[global] Arguments push_substring : simpl never.
#[global] Arguments merge : simpl never.
#[global] Arguments chop : simpl never.

(** ** Geometry of the chunk list *)

(** One past the last position of a chunk. *)
Definition cend (c : Chunk) : Z := index c + zlen (data c).

(** Two chunks neither overlap nor touch. *)
Definition apart (a b : Chunk) : Prop := cend a < index b \/ cend b < index a.

Definition covers (c : Chunk) (i : Z) : Prop := index c <= i < cend c.

(** The position [i] lies in one of the chunks. *)
Definition covered (cs : list Chunk) (i : Z) : Prop := Exists (fun c => covers c i) cs.

Definition total (cs : list Chunk) : Z :=
  Z.of_nat (sum_list_with (fun c => length (data c)) cs).

Definition small (c : Chunk) : Prop := 0 <= index c /\ cend c < two64.

Lemma cend_u64 c : small c -> u64 (index c + zlen (data c)) = cend c.
Proof. unfold small, cend. intros. apply u64_small. lia. Qed.

(** A new chunk that lies inside an existing one leaves the list alone. *)
Lemma merge_loop_contained new0 new1 n c : forall chunks,
  new0 <= new1 -> Forall small chunks -> StronglySorted apart chunks ->
  Exists (fun k => index k <= new0 /\ new1 <= cend k) chunks ->
  merge_loop new0 new1 chunks c n = Ok (false, chunks, c, n).
Proof.
  intros chunks Hnew. induction chunks as [|it rest IH]; intros Hsm Hs Hex.
  { by apply Exists_nil in Hex. }
  apply Forall_cons in Hsm as [Hit Hsm]. inversion Hs as [|? ? Hs' Hap]; subst.
  cbn [merge_loop]. rewrite cend_u64 by done.
  destruct (decide (index it <= new0 /\ new1 <= cend it)) as [[H1 H2]|Hn].
  { by rewrite (proj2 (Z.leb_le _ _) H1), (proj2 (Z.leb_le _ _) H2). }
  apply Exists_cons in Hex as [|Hex]; [done|].
  assert (Hstrict : cend it < new0 \/ new1 < index it).
  { apply Exists_exists in Hex as (k & Hk & ? & ?).
    rewrite Forall_forall in Hap. specialize (Hap k Hk).
    rewrite Forall_forall in Hsm. specialize (Hsm k Hk).
    unfold apart, small, cend in *. lia. }
  assert (index it <= cend it) by (unfold cend; lia).
  rewrite IH by done. zcase; cbn; lia || done.
Qed.

(** What the pass establishes when no chunk contains the new one: starting from
    [c], the new chunk grows to [c'] by exactly the chunks it touches, and the
    others, [kept], stay. *)
Record absorbed (D : Z -> byte) (chunks : list Chunk) (c : Chunk) (kept : list Chunk) (c' : Chunk)
  : Prop := {
  ab_agrees : agrees D (index c') (data c');
  ab_covers : forall i, covered kept i \/ covers c' i <-> covered chunks i \/ covers c i;
  ab_grows : index c' <= index c /\ cend c <= cend c';
  ab_bound : forall lo hi, lo <= index c -> cend c <= hi ->
    (forall k, k ∈ chunks -> lo <= index k /\ cend k <= hi) -> lo <= index c' /\ cend c' <= hi;
  ab_far : forall k, Forall (apart k) chunks -> apart k c -> apart k c';
  ab_apart : Forall (apart c') kept;
  ab_sub : kept `sublist_of` chunks
}.

(** The invariant of the pass: [c] is the new chunk extended so far, and a chunk
    still to be visited that touches an end of the new chunk finds that end as it
    was. *)
Record pass (D : Z -> byte) (new0 new1 : Z) (todo : list Chunk) (c : Chunk) : Prop := {
  ps_agrees : agrees D (index c) (data c);
  ps_lo : 0 <= index c <= new0;
  ps_hi : new1 <= cend c < two64;
  ps_mid : new0 <= new1;
  ps_todo : forall k, k ∈ todo ->
    small k /\ ~ (index k <= new0 /\ new1 <= cend k) /\
    (index k <= new0 <= cend k -> index c = new0) /\
    (index k <= new1 <= cend k -> cend c = new1) /\
    (cend k < new0 \/ new1 < index k -> apart c k)
}.

Lemma pass_tail D new0 new1 it rest c :
  pass D new0 new1 (it :: rest) c -> pass D new0 new1 rest c.
Proof. intros [? ? ? ? Ht]. split; try done. intros k Hk. apply Ht. by right. Qed.

(** Absorbing the chunk at the head of the list. *)
Lemma pass_absorb D new0 new1 it rest c c' :
  pass D new0 new1 (it :: rest) c -> Forall (apart it) rest ->
  agrees D (index c') (data c') ->
  index it <= new1 -> new0 <= cend it ->
  index c' = Z.min (index c) (index it) -> cend c' = Z.max (cend c) (cend it) ->
  (index it < index c -> index it <= new0 <= cend it) ->
  (cend c < cend it -> index it <= new1 <= cend it) ->
  pass D new0 new1 rest c'.
Proof.
  intros [_ Hlo Hhi Hm Ht] Hap Hag H1 H2 Hi He Hif Hib.
  destruct (Ht it) as ((? & ?) & ? & _ & _ & _); [by left|].
  split; try done; try lia. intros k Hk.
  destruct (Ht k) as (Hsm & Hno & Hf & Hb & Ha); [by right|].
  rewrite Forall_forall in Hap. specialize (Hap k Hk).
  assert (index k <= cend k) by (unfold cend; lia).
  assert (index it <= cend it) by (unfold cend; lia).
  unfold apart in *. split_and!; try done; lia.
Qed.

Lemma total_cons c cs : total (c :: cs) = zlen (data c) + total cs.
Proof. unfold total. cbn. lia. Qed.

Lemma total_app cs1 cs2 : total (cs1 ++ cs2) = total cs1 + total cs2.
Proof. unfold total. rewrite sum_list_with_app. lia. Qed.

Lemma total_nil cs : Forall (fun c => data c = []) cs -> total cs = 0.
Proof. induction 1 as [|c cs Hc _ IH]; [done|]. rewrite total_cons, IH, Hc. done. Qed.

(** The three ways the pass absorbs a chunk, as one description of the new chunk:
    [c'] is the hull of [c] and [it]. *)
Lemma hull_covers c it c' i :
  index it <= cend c -> index c <= cend it ->
  index c' = Z.min (index c) (index it) -> cend c' = Z.max (cend c) (cend it) ->
  covers c' i <-> covers c i \/ covers it i.
Proof.
  unfold covers. intros. assert (index it <= cend it) by (unfold cend; lia).
  assert (index c <= cend c) by (unfold cend; lia). lia.
Qed.

Lemma apart_sym a b : apart a b -> apart b a.
Proof. unfold apart. lia. Qed.

(** [absorbed] for a list whose head was taken in, and for one whose head stays. *)
Lemma absorbed_cons D it rest c c1 kept c' :
  index it <= cend c -> index c <= cend it ->
  index c1 = Z.min (index c) (index it) -> cend c1 = Z.max (cend c) (cend it) ->
  absorbed D rest c1 kept c' -> absorbed D (it :: rest) c kept c'.
Proof.
  intros H1 H2 Hi He [Hag Hcov Hgr Hb Hfar Hap Hsub].
  assert (index it <= cend it) by (unfold cend; lia).
  assert (index c <= cend c) by (unfold cend; lia).
  split; try done.
  - intros i. rewrite Hcov, (hull_covers c it c1 i) by done. unfold covered.
    rewrite Exists_cons. tauto.
  - lia.
  - intros lo hi Hlo Hhi Hall. destruct (Hall it) as [? ?]; [by left|].
    apply Hb; [lia..|]. intros k Hk. apply Hall. by right.
  - intros k [Hk Hks]%Forall_cons Hc. apply Hfar; [done|]. unfold apart in *.
    assert (index k <= cend k) by (unfold cend; lia). lia.
  - by apply sublist_cons.
Qed.

Lemma absorbed_keep D it rest c kept c' :
  Forall (apart it) rest -> apart it c ->
  absorbed D rest c kept c' -> absorbed D (it :: rest) c (it :: kept) c'.
Proof.
  intros Hit Hic [Hag Hcov Hgr Hb Hfar Hap Hsub]. split; try done.
  - intros i. specialize (Hcov i). unfold covered in *. rewrite !Exists_cons. tauto.
  - intros lo hi Hlo Hhi Hall. apply Hb; [lia..|]. intros k Hk. apply Hall. by right.
  - intros k [Hk Hks]%Forall_cons Hc. by apply Hfar.
  - constructor; [|done]. by apply apart_sym, Hfar.
  - by apply sublist_skip.
Qed.

(** The part of a chunk before new data, and the part after it. *)
Lemma agrees_prefix D i d k l : agrees D i d -> agrees D (i + k) l -> 0 <= k <= zlen d ->
  zlen (take (Z.to_nat k) d) = k /\ agrees D i (take (Z.to_nat k) d ++ l).
Proof.
  intros Hd Hl Hk. assert (Hlen : zlen (take (Z.to_nat k) d) = k) by (rewrite length_take; lia). split; [done|].
  destruct (agrees_split D i d k Hd Hk) as [Htk _]. apply agrees_app; [done|]. by rewrite Hlen.
Qed.

Lemma agrees_suffix D i d k j l : agrees D i d -> agrees D j l -> 0 <= k <= zlen d -> j + zlen l = i + k ->
  zlen (drop (Z.to_nat k) d) = zlen d - k /\ agrees D j (l ++ drop (Z.to_nat k) d).
Proof.
  intros Hd Hl Hk He. split; [rewrite length_drop; lia|].
  destruct (agrees_split D i d k Hd Hk) as [_ Hdr]. apply agrees_app; [done|]. by rewrite He.
Qed.

Lemma merge_loop_fresh D new0 new1 : forall chunks c n,
  pass D new0 new1 chunks c -> StronglySorted apart chunks ->
  (forall k, k ∈ chunks -> agrees D (index k) (data k)) ->
  total chunks <= n < two64 ->
  exists kept c',
    merge_loop new0 new1 chunks c n = Ok (true, kept, c', n - total chunks + total kept) /\
    absorbed D chunks c kept c'.
Proof.
  induction chunks as [|it rest IH]; intros c n Hp Hs Hag Hn.
  { exists [], c. cbn. split; [f_equal; f_equal; unfold total; cbn; lia|]. destruct Hp.
    split; try done; lia. }
  inversion Hs as [|? ? Hs' Hap]; subst.
  rewrite total_cons in *.
  assert (Hag' : forall k, k ∈ rest -> agrees D (index k) (data k)) by (intros; apply Hag; by right).
  pose proof Hp as [Hca Hlo Hhi Hm Ht].
  destruct (Ht it) as (Hsm & Hno & Hf & Hb & Ha); [by left|]. specialize (Hag it ltac:(by left)).
  assert (Hie : cend it = index it + zlen (data it)) by done.
  assert (Hce : cend c = index c + zlen (data c)) by done.
  assert (0 <= total rest) by (unfold total; lia).
  assert (Habs : forall c1, agrees D (index c1) (data c1) ->
    index it <= new1 -> new0 <= cend it ->
    index c1 = Z.min (index c) (index it) -> cend c1 = Z.max (cend c) (cend it) ->
    exists kept c', merge_loop new0 new1 rest c1 (n - zlen (data it)) =
        Ok (true, kept, c', n - (zlen (data it) + total rest) + total kept) /\
      absorbed D (it :: rest) c kept c').
  { intros c1 Hc1 H1 H2 Hi He.
    destruct (IH c1 (n - zlen (data it))) as (kept & c' & Hrun & Hpost); [|done|done|lia|].
    - apply (pass_absorb D new0 new1 it rest c c1); try done; lia.
    - exists kept, c'. split; [rewrite Hrun; f_equal; f_equal; lia|].
      by apply (absorbed_cons D it rest c c1); try lia. }
  cbn [merge_loop]. rewrite cend_u64 by done.
  rewrite (u64_small (n - zlen (data it))) by lia.
  unfold small in Hsm.
  zcase; try lia.
  - apply Habs; done || lia.
  - rewrite u64_small, substr_prefix by lia. cbn.
    destruct (agrees_prefix D (index it) (data it) (new0 - index it) (data c) Hag) as [Hl Hagr]; [|lia|].
    { by replace (index it + (new0 - index it)) with (index c) by lia. }
    apply Habs; unfold cend; cbn; rewrite ?length_app, ?Nat2Z.inj_add, ?Hl; done || lia.
  - rewrite u64_small, substr_from_ok by lia. cbn.
    destruct (agrees_suffix D (index it) (data it) (new1 - index it) (index c) (data c) Hag Hca) as [Hl Hagr]; [lia|lia|].
    apply Habs; unfold cend; cbn; rewrite ?length_app, ?Nat2Z.inj_add, ?Hl; done || lia.
  - destruct (IH c n) as (kept & c' & Hrun & Hpost); [by eapply pass_tail|done|done|lia|].
    rewrite Hrun. cbn. exists (it :: kept), c'. split.
    + f_equal. f_equal. rewrite total_cons. lia.
    + apply absorbed_keep; [done| |done]. apply apart_sym, Ha. lia.
Qed.

(** ** Memory bound *)

Definition positions (cs : list Chunk) : list Z :=
  concat ((fun c => seqZ (index c) (zlen (data c))) <$> cs).

Lemma length_positions cs : zlen (positions cs) = total cs.
Proof.
  unfold positions, total. induction cs as [|c cs IH]; [done|].
  cbn. rewrite length_app, length_seqZ. lia.
Qed.

Lemma elem_of_positions cs i : i ∈ positions cs <-> covered cs i.
Proof.
  unfold positions, covered, covers, cend. induction cs as [|c cs IH]; cbn.
  - by rewrite elem_of_nil, Exists_nil.
  - rewrite elem_of_app, Exists_cons, elem_of_seqZ, IH. done.
Qed.

Lemma NoDup_positions cs : StronglySorted apart cs -> NoDup (positions cs).
Proof.
  induction 1 as [|c cs Hs IH Hap]; [constructor|].
  unfold positions. cbn. apply NoDup_app. split_and!; [apply NoDup_seqZ| |done].
  intros i Hi%elem_of_seqZ Hj%elem_of_positions.
  apply Exists_exists in Hj as (k & Hk & Hcov). rewrite Forall_forall in Hap.
  specialize (Hap k Hk). unfold covers, apart, cend in *. lia.
Qed.

(** Chunks that are pairwise apart occupy at most the interval they lie in. *)
Lemma total_bound cs lo hi :
  StronglySorted apart cs -> lo <= hi ->
  (forall c, c ∈ cs -> lo <= index c /\ cend c <= hi) -> total cs <= hi - lo.
Proof.
  intros Hs Hle Hin. rewrite <- length_positions.
  assert (Hsub : positions cs ⊆+ seqZ lo (hi - lo)).
  { apply NoDup_submseteq; [by apply NoDup_positions|].
    intros i Hi%elem_of_positions. apply elem_of_seqZ.
    apply Exists_exists in Hi as (k & Hk & Hcov). specialize (Hin k Hk).
    unfold covers in Hcov. lia. }
  apply submseteq_length in Hsub. rewrite length_seqZ in Hsub. lia.
Qed.

(** ** Invariant *)

(** The first position past the receive window. *)
Definition window_end (r : t) : Z :=
  first_unasmb r + _capacity r - ByteStream.cur_size (_output r).

(** The state of a reassembler of the stream [D] of length [N] (whose end may not
    have been announced yet). *)
Record core (D : Z -> byte) (N : Z) (r : t) : Prop := {
  co_out : ByteStream.wf (_output r);
  co_cap : ByteStream.max_capacity (_output r) = _capacity r;
  co_len : N < two63;
  co_first : ByteStream.cur_size (_output r) <= first_unasmb r <= N;
  co_written : ByteStream.bytes_written (_output r) = first_unasmb r;
  co_contents : ByteStream.contents (_output r) =
    slice D (first_unasmb r - ByteStream.cur_size (_output r)) (ByteStream.cur_size (_output r));
  co_chunks : forall c, c ∈ unasmb r ->
    agrees D (index c) (data c) /\ first_unasmb r < index c /\
    (cend c <= N \/ data c = []) /\ cend c <= window_end r;
  co_apart : StronglySorted apart (unasmb r);
  co_count : n_unasmb_bytes r = total (unasmb r);
  co_eof : eof_set r = true -> last_byte r = N
}.

(** The end of the output stream is signalled exactly when the end of the stream
    is known and everything before it has been assembled. *)
Definition end_signalled (N : Z) (r : t) : Prop :=
  ByteStream.input_ended (_output r) = true <-> eof_set r = true /\ first_unasmb r = N.

Definition wf (D : Z -> byte) (N : Z) (r : t) : Prop := core D N r /\ end_signalled N r.

(** The positions the reassembler has received and kept. *)
Definition held (r : t) (i : Z) : Prop := i < first_unasmb r \/ covered (unasmb r) i.

Lemma reassembler_make_wf D N cap : 0 <= N < two63 -> 0 <= cap < two63 -> wf D N (make cap).
Proof.
  intros HN Hc. split.
  - split; cbn; try done; try lia.
    + by apply ByteStream.stream_make_wf.
    + intros c Hc'. by apply elem_of_nil in Hc'.
    + constructor.
  - unfold end_signalled. cbn. split; [done|]. by intros [? ?].
Qed.

Lemma core_total D N r : core D N r ->
  0 <= total (unasmb r) <= _capacity r - ByteStream.cur_size (_output r).
Proof.
  intros []. pose proof (ByteStream.wf_size _ co_out0).
  split; [unfold total; lia|].
  pose proof (total_bound (unasmb r) (first_unasmb r) (window_end r)) as Ht.
  unfold window_end in Ht. etransitivity; [apply Ht; [done|lia|]|lia].
  intros c Hc. destruct (co_chunks0 c Hc) as (_ & ? & _ & ?). unfold window_end in *. lia.
Qed.

(** The last statement of [push_substring] restores the invariant. *)
Lemma check_end_wf D N r :
  core D N r -> ByteStream.input_ended (_output r) = false -> wf D N (check_end r).
Proof.
  intros Hco He. pose proof Hco as []. unfold check_end.
  destruct (eof_set r) eqn:Eeof; cbn.
  - rewrite co_eof0 by done. zcase.
    + split; [|unfold end_signalled; cbn; split; [split; [done|lia]|done]].
      split; cbn; try done. by apply ByteStream.stream_end_input_wf.
    + split; [done|]. unfold end_signalled. split; [by rewrite He|]. intros [_ ?]. lia.
  - split; [done|]. unfold end_signalled. rewrite He, Eeof. split; [done|]. by intros [? _].
Qed.

Lemma check_end_held r i : held (check_end r) i <-> held r i.
Proof. unfold check_end. by zcase. Qed.
Lemma check_end_eof r : eof_set (check_end r) = eof_set r.
Proof. unfold check_end. by zcase. Qed.

(** ** [push_substring] *)

(** A push that is consistent with the stream [D] of length [N].  A push of
    nothing (an empty segment, which only carries an acknowledgment) may be at any
    64-bit index. *)
Record legal (D : Z -> byte) (N : Z) (d : bytes) (idx : Z) (eof : bool) : Prop := {
  lg_agrees : agrees D idx d;
  lg_lo : 0 <= idx;
  lg_hi : idx + zlen d <= N \/ d = [] /\ eof = false /\ idx < two64;
  lg_eof : eof = true -> idx + zlen d = N
}.

(** Recording the end of the stream. *)
Definition note_eof (d : bytes) (idx : Z) (eof : bool) (r : t) : t :=
  if eof then
    mk (_output r) (_capacity r) (unasmb r) (first_unasmb r) (n_unasmb_bytes r)
       true (u64 (idx + zlen d))
  else r.

Lemma note_eof_core D N d idx eof r :
  core D N r -> legal D N d idx eof -> core D N (note_eof d idx eof r).
Proof.
  intros [] [? ? ? He]. unfold note_eof. destruct eof; [|done].
  specialize (He eq_refl). split; cbn; try done. intros _. rewrite u64_small by lia. auto.
Qed.

Lemma chop_spec D N d idx eof first w :
  legal D N d idx eof -> N < two63 -> 0 <= first <= w -> w < two64 ->
  first <= idx + zlen d -> idx < w ->
  exists c, chop d idx first w = Ok c /\ agrees D (index c) (data c) /\
    index c = Z.max idx first /\ cend c = Z.min (idx + zlen d) w.
Proof.
  intros [Hag Hlo Hhi0 _] HN Hf Hw Hi1 Hi2. unfold chop.
  assert (Hhi : idx + zlen d < two64) by (destruct Hhi0 as [?|(-> & _ & ?)]; cbn; lia).
  rewrite (u64_small (idx + zlen d)), (u64_small (w - idx)) by lia.
  assert (Hd1 : exists d1, (if w <? idx + zlen d then substr d 0 (w - idx) else Ok d) = Ok d1 /\
    agrees D idx d1 /\ zlen d1 = Z.min (zlen d) (w - idx)).
  { zcase.
    - rewrite substr_prefix. eexists. split; [done|]. rewrite length_take. split; [|lia].
      apply agrees_split; [done|lia].
    - exists d. split; [done|]. split; [done|lia]. }
  destruct Hd1 as (d1 & -> & Hag1 & Hl1). cbn. zcase.
  - rewrite u64_small, substr_from_ok by lia. cbn. eexists. split; [done|].
    unfold cend. cbn. rewrite length_drop. split; [|lia].
    destruct (agrees_split D idx d1 (first - idx) Hag1 ltac:(lia)) as [_ Hdr].
    by replace (idx + (first - idx)) with first in Hdr by lia.
  - eexists. split; [done|]. unfold cend. cbn. split; [done|lia].
Qed.

Lemma StronglySorted_snoc {A} (R : A -> A -> Prop) l x :
  StronglySorted R l -> Forall (fun y => R y x) l -> StronglySorted R (l ++ [x]).
Proof.
  induction 1 as [|y l Hs IH Hy]; cbn; intros Hf.
  - repeat constructor.
  - apply Forall_cons in Hf as [Hyx Hf]. constructor; [by apply IH|].
    apply Forall_app. by repeat constructor.
Qed.

Lemma StronglySorted_sublist {A} (R : A -> A -> Prop) l k :
  k `sublist_of` l -> StronglySorted R l -> StronglySorted R k.
Proof.
  induction 1 as [|x k l Hsub IH|x k l Hsub IH]; intros Hs; [constructor| |].
  - inversion Hs as [|? ? Hs' Hx]; subst. constructor; [by apply IH|].
    apply Forall_forall. intros y Hy. rewrite Forall_forall in Hx. apply Hx.
    by eapply elem_of_sublist.
  - inversion Hs; subst. by apply IH.
Qed.

(** The new chunk continues the assembled stream: it is written out. *)
Lemma core_write D N r kept c :
  core D N r -> kept `sublist_of` unasmb r -> Forall (apart c) kept ->
  agrees D (index c) (data c) -> index c = first_unasmb r ->
  cend c <= N -> cend c <= window_end r ->
  let out := snd (ByteStream.write (data c) (_output r)) in
  core D N (mk out (_capacity r) kept (cend c) (total kept) (eof_set r) (last_byte r)) /\
  ByteStream.input_ended out = ByteStream.input_ended (_output r).
Proof.
  intros Hco Hsub Hap Hag Hi HN Hw out. pose proof Hco as [].
  destruct (ByteStream.write_spec (data c) (_output r)) as
    (_ & Hwf & Hc & Hs & Hwr & _ & Hcap & Hd & _); [done|]. fold out in Hwf, Hc, Hs, Hwr, Hcap, Hd.
  assert (Hce : cend c = index c + zlen (data c)) by done.
  rewrite co_cap0 in *. pose proof (ByteStream.wf_size _ co_out0). unfold window_end in Hw.
  rewrite (Z.min_l (zlen (data c))) in * by lia.
  unfold ByteStream.bytes_written in *.
  split; [|done]. split; cbn; try done; try lia.
  - unfold ByteStream.bytes_written. rewrite Hwr, co_written0, u64_small by lia. lia.
  - rewrite Hc, co_contents0, Nat2Z.id, take_ge, Hs by lia.
    replace (cend c - _) with (first_unasmb r - ByteStream.cur_size (_output r)) by lia.
    rewrite slice_app by lia. f_equal. rewrite Hag at 1. f_equal. lia.
  - intros k Hk. destruct (co_chunks0 k) as (? & ? & ? & Hkw); [by eapply elem_of_sublist|].
    rewrite Forall_forall in Hap. specialize (Hap k Hk). unfold apart in Hap.
    assert (index k <= cend k) by (unfold cend; lia).
    unfold window_end in *. cbn. split_and!; try done; try lia.
  - by eapply StronglySorted_sublist.
Qed.

(** The new chunk is ahead of the assembled stream: it is stored. *)
Lemma core_store D N r kept c :
  core D N r -> kept `sublist_of` unasmb r -> Forall (apart c) kept ->
  agrees D (index c) (data c) -> first_unasmb r < index c ->
  cend c <= N \/ data c = [] -> cend c <= window_end r ->
  core D N (mk (_output r) (_capacity r) (kept ++ [c]) (first_unasmb r)
               (total kept + zlen (data c)) (eof_set r) (last_byte r)).
Proof.
  intros Hco Hsub Hap Hag Hi HN Hw. pose proof Hco as [].
  split; cbn; try done.
  - intros k [Hk|Hk%list_elem_of_singleton]%elem_of_app.
    + apply co_chunks0. by eapply elem_of_sublist.
    + subst k. done.
  - apply StronglySorted_snoc; [by eapply StronglySorted_sublist|].
    eapply Forall_impl; [done|]. intros k. apply apart_sym.
  - rewrite total_app, total_cons. unfold total. cbn. lia.
Qed.

(** When a stored chunk contains the new one nothing changes. *)
Lemma insert_contained D N new r :
  core D N r -> ByteStream.input_ended (_output r) = false ->
  first_unasmb r <= index new -> cend new < two64 ->
  end_signalled N r \/ index new <= N ->
  Exists (fun k => index k <= index new /\ cend new <= cend k) (unasmb r) ->
  insert_chunk new r = Ok r /\ end_signalled N r.
Proof.
  intros [] He Hlo Hhi Hes Hex. unfold insert_chunk, merge.
  assert (Hi : index new <= cend new) by (unfold cend; lia).
  pose proof (ByteStream.wf_size _ co_out0). pose proof (ByteStream.wf_cap _ co_out0).
  rewrite u64_small by (unfold cend in *; lia). fold (cend new).
  rewrite merge_loop_contained; try done.
  - cbn. split; [by destruct r|]. destruct Hes as [?|Hle]; [done|]. unfold end_signalled.
    split; [by rewrite He|]. intros [_ ?].
    apply Exists_exists in Hex as (k & Hk & ? & _). destruct (co_chunks0 k Hk) as (_ & ? & _ & _). lia.
  - apply Forall_forall. intros k Hk. destruct (co_chunks0 k Hk) as (_ & ? & _ & ?).
    unfold small, window_end in *. lia.
Qed.

(** Otherwise the pass runs to its end. *)
Lemma merge_fresh D N new r :
  core D N r -> agrees D (index new) (data new) ->
  first_unasmb r <= index new -> cend new < two64 ->
  ~ Exists (fun k => index k <= index new /\ cend new <= cend k) (unasmb r) ->
  exists kept c, merge (unasmb r) new (n_unasmb_bytes r) = Ok (true, kept, c, total kept) /\
    absorbed D (unasmb r) new kept c.
Proof.
  intros Hco Hag Hlo Hhi Hex. pose proof (core_total D N r Hco) as Ht. pose proof Hco as [].
  assert (Hi : index new <= cend new) by (unfold cend; lia).
  pose proof (ByteStream.wf_size _ co_out0). pose proof (ByteStream.wf_cap _ co_out0).
  unfold merge. rewrite u64_small by (unfold cend in *; lia). fold (cend new).
  destruct (merge_loop_fresh D (index new) (cend new) (unasmb r) new (n_unasmb_bytes r))
    as (kept & c & Hrun & Hab).
  - split; try done; try lia. intros k Hk. destruct (co_chunks0 k Hk) as (? & ? & ? & ?).
    unfold window_end in *. split_and!; try done; try (unfold small, apart; lia).
    intros Hc. apply Hex, Exists_exists. eauto.
  - done.
  - intros k Hk. by apply co_chunks0.
  - rewrite co_count0. lia.
  - exists kept, c. split; [|done]. rewrite Hrun, co_count0. do 2 f_equal. lia.
Qed.

(** A chunk with data that the pass produces ends within the stream, since its
    last byte comes from a chunk with data. *)
Lemma absorbed_end D N r new kept c :
  core D N r -> cend new <= N \/ data new = [] -> absorbed D (unasmb r) new kept c ->
  cend c <= N \/ data c = [].
Proof.
  intros [] Hnew [_ Hcov _ _ _ _ _]. destruct (data c) as [|b d] eqn:Ed; [by right|left].
  assert (Hl : cend c = index c + zlen (data c)) by done. rewrite Ed in Hl. cbn [length] in Hl.
  destruct (proj1 (Hcov (cend c - 1))) as [Hin|Hin]; [right; unfold covers; lia| |].
  - apply Exists_exists in Hin as (k & Hk & Hck). destruct (co_chunks0 k Hk) as (_ & _ & [?|Hd] & _);
      unfold covers in Hck; [lia|]. unfold cend in Hck. rewrite Hd in Hck. cbn in Hck. lia.
  - unfold covers in Hin. destruct Hnew as [?|Hd]; [lia|]. unfold cend in Hin. rewrite Hd in Hin. cbn in Hin. lia.
Qed.

Lemma insert_chunk_spec D N new r :
  core D N r -> ByteStream.input_ended (_output r) = false ->
  agrees D (index new) (data new) -> first_unasmb r <= index new ->
  cend new <= N \/ data new = [] -> cend new <= window_end r ->
  end_signalled N r \/ index new <= N ->
  exists r', insert_chunk new r = Ok r' /\ wf D N r' /\
    _capacity r' = _capacity r /\ eof_set r' = eof_set r /\
    (forall i, held r' i <-> held r i \/ covers new i).
Proof.
  intros Hco He Hag Hlo HN Hw Hsig. pose proof Hco as [].
  pose proof (ByteStream.wf_cap _ co_out0). pose proof (ByteStream.wf_size _ co_out0).
  assert (Hnew64 : cend new < two64) by (unfold window_end in Hw; lia).
  destruct (decide (Exists (fun k => index k <= index new /\ cend new <= cend k) (unasmb r)))
    as [Hex|Hex].
  - destruct (insert_contained D N new r) as [-> Hes]; [done..|].
    exists r. split_and!; try done. intros i. split; [by left|].
    intros [?|Hc]; [done|]. right. eapply Exists_impl; [exact Hex|].
    unfold covers in *. intros k. cbn. lia.
  - destruct (merge_fresh D N new r) as (kept & c & Hm & Hab); [done..|].
    unfold insert_chunk. rewrite Hm. cbn.
    destruct Hab as [Hcag Hcov Hgr Hb Hfar Hap Hsub].
    destruct (Hb (first_unasmb r) (window_end r)) as [Hci Hce]; [lia..| |].
    { intros k Hk. destruct (co_chunks0 k Hk) as (? & ? & ? & ?). lia. }
    assert (Hlen : zlen (data c) = cend c - index c) by (unfold cend; lia).
    assert (HcN : cend c <= N \/ data c = []) by (by eapply absorbed_end).
    zcase.
    + assert (HcN' : cend c <= N)
        by (destruct HcN as [?|Hd]; [done|unfold cend; rewrite Hd; cbn; lia]).
      destruct (core_write D N r kept c) as [Hco' He']; [done..|].
      destruct (ByteStream.write (data c) (_output r)) as [n out]. cbn in Hco', He'.
      rewrite u64_small by lia. replace (first_unasmb r + zlen (data c)) with (cend c) by lia.
      eexists. split; [done|]. split; [apply check_end_wf; cbn; [done|congruence]|].
      split; [by unfold check_end; zcase|]. split; [by rewrite check_end_eof|].
      clear HcN Hsig HN. intros i. rewrite check_end_held. unfold held. cbn. specialize (Hcov i).
      destruct (decide (i < first_unasmb r)) as [Hi|Hi].
      * assert (index new <= cend new) by (unfold cend; lia).
        assert (i < cend c) by lia. tauto.
      * assert (Hic : i < cend c <-> covers c i) by (unfold covers; lia). tauto.
    + assert (Hst : core D N (mk (_output r) (_capacity r) (kept ++ [c]) (first_unasmb r)
        (total kept + zlen (data c)) (eof_set r) (last_byte r))) by (apply core_store; done || lia).
      pose proof (core_total D N _ Hst) as Ht. rewrite <- (co_count _ _ _ Hst) in Ht.
      cbn in Ht. rewrite u64_small by lia.
      eexists. split; [done|]. split; [by apply check_end_wf|].
      split; [by unfold check_end; zcase|]. split; [by rewrite check_end_eof|].
      clear HcN Hsig HN. intros i. rewrite check_end_held. unfold held. cbn. specialize (Hcov i).
      unfold covered at 1. rewrite Exists_app, Exists_cons, Exists_nil. fold (covered kept i). tauto.
Qed.

(** Noting the end changes nothing else. *)
Lemma note_eof_same d idx eof r : let r1 := note_eof d idx eof r in
  _output r1 = _output r /\ _capacity r1 = _capacity r /\ unasmb r1 = unasmb r /\ first_unasmb r1 = first_unasmb r /\
  (eof_set r1 = true <-> eof_set r = true \/ eof = true).
Proof. unfold note_eof. destruct eof; cbn; split_and!; try done; intuition congruence. Qed.

(** After the end of the stream there is nothing to push. *)
Lemma held_at_end D N d idx eof r : legal D N d idx eof -> first_unasmb r = N ->
  forall i, held r i <-> held r i \/ idx <= i < idx + zlen d /\ i < window_end r.
Proof.
  intros Hleg HF i. split; [by left|]. intros [?|[? ?]]; [done|]. left.
  destruct Hleg as [_ ? [?|(-> & _ & _)] _]; cbn in *; lia.
Qed.

(** One push: it never throws, keeps the invariant, and afterwards the
    reassembler holds what it held before and the bytes of the substring that lie
    inside the window. *)
Lemma push_spec D N d idx eof r :
  wf D N r -> legal D N d idx eof ->
  exists r', push_substring d idx eof r = Ok r' /\ wf D N r' /\
    _capacity r' = _capacity r /\
    (eof_set r' = true <-> eof_set r = true \/ eof = true) /\
    (forall i, held r' i <-> held r i \/ idx <= i < idx + zlen d /\ i < window_end r).
Proof.
  intros [Hco Hend] Hleg. unfold push_substring. fold (note_eof d idx eof r).
  destruct (ByteStream.input_ended (_output r)) eqn:Eended.
  { apply Hend in Eended as [He HF]. exists r. split_and!; try done; [split; [by left|done]|by eapply held_at_end]. }
  cbv zeta. set (r1 := note_eof d idx eof r).
  assert (Hco1 : core D N r1) by by apply note_eof_core.
  assert (Hsig : end_signalled N r1 \/ idx + zlen d <= N).
  { unfold r1, note_eof. destruct eof eqn:Ee; [right|by left].
    destruct Hleg as [_ _ _ Hleof]. specialize (Hleof eq_refl). lia. }
  destruct (note_eof_same d idx eof r) as (Ho & Hc & Hu & Hf & He). fold r1 in Ho, Hc, Hu, Hf, He.
  assert (Hheld : forall i, held r1 i <-> held r i) by (unfold held; by rewrite Hu, Hf).
  assert (Hwe : window_end r1 = window_end r) by (unfold window_end; by rewrite Hf, Hc, Ho).
  rewrite <- Ho in Eended. setoid_rewrite <- Hheld. rewrite <- Hwe, <- Hc.
  setoid_rewrite <- He. clearbody r1. clear Ho Hc Hu Hf He Hheld Hwe Hend Hco r. rename r1 into r.
  pose proof Hco1 as []. pose proof Hleg as [Hag Hlo Hhi0 _].
  assert (Hhi : idx + zlen d < two64) by (destruct Hhi0 as [?|(-> & _ & ?)]; cbn; lia).
  pose proof (ByteStream.wf_size _ co_out0). pose proof (ByteStream.wf_cap _ co_out0).
  rewrite co_cap0 in *. unfold ByteStream.buffer_size.
  rewrite (u64_small (idx + zlen d)), (u64_small (first_unasmb r + _)) by lia.
  rewrite u64_small by lia. fold (window_end r).
  assert (Hw : first_unasmb r <= window_end r < two64) by (unfold window_end; lia).
  destruct (_ && _) eqn:Ewin.
  2: { exists (check_end r). split; [done|]. split; [by apply check_end_wf|].
       split; [by unfold check_end; zcase|]. split; [by rewrite check_end_eof|].
       intros i. rewrite check_end_held. split; [by left|].
       intros [?|[? ?]]; [done|]. left. apply andb_false_iff in Ewin as [?|?]; zb; lia. }
  zb. destruct (chop_spec D N d idx eof (first_unasmb r) (window_end r))
    as (new & Hchop & Hnag & Hn0 & Hn1); try done; [lia..|].
  rewrite Hchop. cbn [mbind res_bind].
  destruct (insert_chunk_spec D N new r) as (r' & Hr & Hwf & Hc & He & Hh); [done..|lia| |lia| |].
  { destruct Hhi0 as [?|(-> & _ & _)]; [left; lia|right]. cbn [length] in *.
    destruct (data new) as [|b l] eqn:Ed; [done|]. exfalso.
    assert (Hl : cend new = index new + zlen (data new)) by done. rewrite Ed in Hl. cbn [length] in Hl. lia. }
  { destruct Hsig as [?|?]; [by left|right]. lia. }
  exists r'. split_and!; try done; [by rewrite He|]. intros i. rewrite Hh.
  destruct (decide (i < first_unasmb r)); [unfold held; tauto|].
  assert (covers new i <-> idx <= i < idx + zlen d /\ i < window_end r) by (unfold covers; lia).
  tauto.
Qed.

(** ** Sequences of pushes and reads *)

Lemma check_end_read r :
  ByteStream.n_bytes_read (_output (check_end r)) = ByteStream.n_bytes_read (_output r).
Proof. unfold check_end. by zcase. Qed.

(** Pushing does not consume output, so the window stays where it is. *)
Lemma push_keeps_read d idx eof r r' :
  push_substring d idx eof r = Ok r' ->
  ByteStream.n_bytes_read (_output r') = ByteStream.n_bytes_read (_output r).
Proof.
  unfold push_substring. fold (note_eof d idx eof r).
  assert (Hn : ByteStream.n_bytes_read (_output (note_eof d idx eof r)) =
               ByteStream.n_bytes_read (_output r)) by (unfold note_eof; by destruct eof).
  rewrite <- Hn. clear Hn. cbv zeta. set (r1 := note_eof d idx eof r). zcase.
  - intros [= <-]. unfold r1, note_eof. by destruct eof.
  - intros (c & _ & Hi)%bind_Ok. unfold insert_chunk in Hi.
    apply bind_Ok in Hi as ([[[fresh chunks] c'] n] & _ & Hi). cbn in Hi.
    revert Hi. zcase.
    + by intros [= <-].
    + destruct (ByteStream.write (data c') (_output r1)) as [m out] eqn:Ew.
      intros [= <-]. rewrite check_end_read. cbn. unfold ByteStream.write in Ew. by simplify_eq.
    + intros [= <-]. by rewrite check_end_read.
  - intros [= <-]. by rewrite check_end_read.
Qed.

Lemma window_end_read D N r :
  core D N r -> window_end r = ByteStream.n_bytes_read (_output r) + _capacity r.
Proof.
  intros []. destruct co_out0. unfold window_end, ByteStream.bytes_written in *.
  rewrite wf_written in co_written0. unfold u64 in co_written0.
  Z.div_mod_to_equations. lia.
Qed.

Fixpoint push_all (ps : list (bytes * Z * bool)) (r : t) : res t :=
  match ps with
  | [] => Ok r
  | (d, idx, eof) :: ps' => r' ← push_substring d idx eof r; push_all ps' r'
  end.

(** Some push of the list carries position [i]. *)
Definition carried (ps : list (bytes * Z * bool)) (i : Z) : Prop :=
  Exists (fun p => snd (fst p) <= i < snd (fst p) + zlen (fst (fst p))) ps.

Lemma push_all_spec D N : forall ps r,
  wf D N r -> N <= window_end r ->
  Forall (fun p => legal D N (fst (fst p)) (snd (fst p)) (snd p)) ps ->
  exists r', push_all ps r = Ok r' /\ wf D N r' /\ window_end r' = window_end r /\
    ByteStream.n_bytes_read (_output r') = ByteStream.n_bytes_read (_output r) /\
    (eof_set r' = true <-> eof_set r = true \/ Exists (fun p => snd p = true) ps) /\
    (forall i, held r' i <-> held r i \/ carried ps i).
Proof.
  induction ps as [|[[d idx] eof] ps IH]; intros r Hwf Hw Hleg.
  - exists r. split_and!; try done.
    + rewrite Exists_nil. tauto.
    + intros i. unfold carried. rewrite Exists_nil. tauto.
  - apply Forall_cons in Hleg as [Hl Hleg]. cbn in Hl.
    destruct (push_spec D N d idx eof r Hwf Hl) as (r1 & Hp & Hwf1 & Hc & He & Hh).
    pose proof (push_keeps_read _ _ _ _ _ Hp) as Hrd.
    assert (Hw1 : window_end r1 = window_end r).
    { rewrite (window_end_read D N r1), (window_end_read D N r) by apply Hwf || apply Hwf1.
      congruence. }
    destruct (IH r1 Hwf1) as (r2 & Hp2 & Hwf2 & Hw2 & Hrd2 & He2 & Hh2); [lia|done|].
    exists r2. cbn. rewrite Hp. cbn. split_and!; try done; try congruence.
    + rewrite He2, He, Exists_cons. cbn. tauto.
    + intros i. rewrite Hh2, Hh. unfold carried. rewrite Exists_cons. cbn.
      assert (idx <= i < idx + zlen d -> i < window_end r)
        by (destruct Hl as [_ _ [?|(-> & _ & _)] _]; cbn in *; lia). tauto.
Qed.

(** C11: one push of a substring that is consistent with the stream [D] of length
    [N] never throws (no [substr] is out of range), keeps the invariant (chunks
    pairwise apart, inside the window, consistent with [D]; buffered output equal
    to a slice of [D]; byte count exact), and afterwards the reassembler holds
    exactly the positions it held before and those of the substring inside the
    window. *)
Theorem push_substring_correct (D : Z -> byte) (N idx : Z) (d : bytes) (eof : bool) (r : t)
  (Hwf : wf D N r) (Hlegal : legal D N d idx eof) :
  exists r', push_substring d idx eof r = Ok r' /\ wf D N r' /\
    (forall i, held r' i <-> held r i \/ idx <= i < idx + zlen d /\ i < window_end r) /\
    ~ held r' (first_unasmb r').
Proof.
  destruct (push_spec D N d idx eof r Hwf Hlegal) as (r' & Hp & Hwf' & _ & _ & Hh).
  exists r'. split_and!; try done. intros [?|Hc]; [lia|].
  apply Exists_exists in Hc as (k & Hk & Hcov).
  destruct (co_chunks _ _ _ (proj1 Hwf') k Hk) as (_ & ? & _). unfold covers in Hcov. lia.
Qed.

Lemma push_substring_correct_witness :
  exists r', push_substring [x63; x64] 2 true (make 8) = Ok r' /\
    wf (fun i => z2b (97 + i)) 4 r' /\ held r' 3 /\ unassembled_bytes r' = 2.
Proof.
  destruct (push_substring_correct (fun i => z2b (97 + i)) 4 2 [x63; x64] true (make 8))
    as (r' & Hp & Hwf & Hh & _).
  - apply reassembler_make_wf; lia.
  - split; try (intros; cbn; lia). reflexivity.
  - exists r'. split; [exact Hp|]. split; [exact Hwf|]. split.
    + apply Hh. right. cbn. split; [lia|reflexivity].
    + vm_compute in Hp. injection Hp as <-. reflexivity.
Defined.

(** Nothing is left to assemble at the end of the stream. *)
Lemma all_assembled D N r : core D N r -> first_unasmb r = N -> unassembled_bytes r = 0.
Proof.
  intros [] Hf. unfold unassembled_bytes. rewrite co_count0. apply total_nil, Forall_forall.
  intros c Hin. destruct (co_chunks0 c Hin) as (_ & Hlt & [Hle|?] & _); [|done].
  unfold cend in Hle. pose proof (zlen_nonneg (data c)). lia.
Qed.

(** C10: the result does not depend on the order, the overlaps or the repetitions
    of the substrings: if they cover a stream of length [N] that fits the
    capacity and one of them announces the end, then pushing them in the given
    order, whatever it is, leaves the whole stream in the output, signals its end
    and keeps nothing unassembled. *)
Theorem reassembles_any_order (D : Z -> byte) (N cap : Z) (ps : list (bytes * Z * bool))
  (HN : 0 <= N <= cap) (Hcap : cap < two63)
  (Hlegal : Forall (fun p => legal D N (fst (fst p)) (snd (fst p)) (snd p)) ps)
  (Hall : forall i, 0 <= i < N -> carried ps i)
  (Hend : Exists (fun p => snd p = true) ps) :
  exists r, push_all ps (make cap) = Ok r /\
    ByteStream.contents (stream_out r) = slice D 0 N /\
    ByteStream.input_ended (stream_out r) = true /\ unassembled_bytes r = 0.
Proof.
  destruct (push_all_spec D N ps (make cap)) as (r & Hp & [Hco Hes] & Hw & Hrd & He & Hh).
  - apply reassembler_make_wf; lia.
  - unfold window_end. cbn. lia.
  - done.
  - exists r. split; [done|]. pose proof Hco as []. pose proof (ByteStream.wf_size _ co_out0).
    assert (HF : first_unasmb r = N).
    { destruct (decide (first_unasmb r < N)) as [Hlt|]; [|lia].
      destruct (proj2 (Hh (first_unasmb r))) as [?|Hc]; [|lia|].
      - right. apply Hall. lia.
      - apply Exists_exists in Hc as (k & Hk & Hcov).
        destruct (co_chunks0 k Hk) as (_ & ? & _). unfold covers in Hcov. lia. }
    assert (Hemp : total (unasmb r) = 0).
    { assert (Hnil : Forall (fun k => data k = []) (unasmb r)).
      { apply Forall_forall. intros k Hk. destruct (co_chunks0 k Hk) as (_ & ? & [?|?] & _); [|done].
        assert (index k <= cend k) by (unfold cend; lia). lia. }
      by apply total_nil. }
    assert (Hcur : ByteStream.cur_size (_output r) = N).
    { pose proof (window_end_read D N r Hco) as Hwr. unfold window_end in Hwr.
      rewrite Hrd in Hwr. cbn in Hwr. lia. }
    unfold stream_out, unassembled_bytes.
    rewrite co_contents0, Hcur, HF, co_count0, Hemp. split_and!; try done.
    + f_equal. lia.
    + apply Hes. split; [|done]. apply He. by right.
Qed.

Lemma reassembles_any_order_witness :
  exists r, push_all [([x63; x64], 2, true); ([x62; x63], 1, false); ([x61], 0, false)] (make 4) = Ok r /\
    ByteStream.contents (stream_out r) = slice (fun i => z2b (97 + i)) 0 4.
Proof.
  destruct (reassembles_any_order (fun i => z2b (97 + i)) 4 4
    [([x63; x64], 2, true); ([x62; x63], 1, false); ([x61], 0, false)]) as (r & Hp & Hc & _);
    [lia | lia | | | | by exists r].
  - repeat constructor; try (cbn; lia); try (intros [=]); reflexivity.
  - intros i Hi. unfold carried. rewrite !Exists_cons. cbn. lia.
  - by left.
Defined.

(** Reading from the output stream. *)
Lemma wf_read D N n r bs o :
  wf D N r -> 0 <= n -> ByteStream.read n (_output r) = Ok (bs, o) ->
  wf D N (set_output o r) /\
  bs = slice D (first_unasmb r - ByteStream.cur_size (_output r)) (zlen bs) /\
  ByteStream.cur_size o = ByteStream.cur_size (_output r) - zlen bs.
Proof.
  intros [Hco Hes] Hn Hr. pose proof Hco as []. pose proof (ByteStream.wf_size _ co_out0).
  pose proof (ByteStream.zlen_contents _ co_out0) as Hzl.
  destruct (decide (0 < ByteStream.max_capacity (_output r))).
  2: { unfold ByteStream.read in Hr. rewrite ByteStream.peek_output_spec in Hr by done.
       cbn in Hr. unfold ByteStream.pop_output in Hr. revert Hr. zcase; [done|lia]. }
  destruct (ByteStream.read_spec n (_output r)) as
    (o' & Hr' & Hwf & Hc & Hs & _ & Hwr & Hcap & Hd & _); [done..|].
  rewrite Hr in Hr'. injection Hr' as -> <-.
  set (bs := take (Z.to_nat n) (ByteStream.contents (_output r))) in *.
  assert (Hl : zlen bs = Z.min n (ByteStream.cur_size (_output r)))
    by (unfold bs; rewrite length_take; lia).
  assert (Hsp : agrees D (first_unasmb r - ByteStream.cur_size (_output r)) bs /\
    agrees D (first_unasmb r - ByteStream.cur_size (_output r) + zlen bs)
      (drop (Z.to_nat n) (ByteStream.contents (_output r)))).
  { destruct (agrees_split D (first_unasmb r - ByteStream.cur_size (_output r))
      (ByteStream.contents (_output r)) (zlen bs)) as [H1 H2].
    - rewrite co_contents0 at 1. apply agrees_slice. lia.
    - lia.
    - rewrite Hl in H1, H2 |- *. unfold bs. destruct (decide (n <= ByteStream.cur_size (_output r))).
      + rewrite Z.min_l in * by done. done.
      + rewrite Z.min_r in * by lia. rewrite take_ge, drop_ge in * by lia. done. }
  destruct Hsp as [Hsp1 Hsp2]. split; [|split; [exact Hsp1|lia]].
  split; [|unfold end_signalled in *; cbn; unfold ByteStream.input_ended in *; by rewrite Hd].
  split; cbn; try done; try lia.
  - unfold ByteStream.bytes_written in *. congruence.
  - rewrite Hc. unfold agrees in Hsp2. rewrite Hsp2, length_drop.
    f_equal; lia.
  - intros c Hc'. destruct (co_chunks0 c Hc') as (? & ? & ? & ?).
    unfold window_end in *. cbn. split_and!; try done. lia.
Qed.

(** A run of the reassembler: pushes that are consistent with the stream [D] of
    length [N], interleaved with reads; [out] is everything read so far. *)
Inductive reach (D : Z -> byte) (N cap : Z) : t -> bytes -> Prop :=
| reach_init : reach D N cap (make cap) []
| reach_push r out d idx eof r' :
    reach D N cap r out -> legal D N d idx eof ->
    push_substring d idx eof r = Ok r' -> reach D N cap r' out
| reach_read r out n bs o :
    reach D N cap r out -> 0 <= n ->
    ByteStream.read n (_output r) = Ok (bs, o) -> reach D N cap (set_output o r) (out ++ bs).

Lemma reach_inv D N cap r out :
  0 <= N < two63 -> 0 <= cap < two63 -> reach D N cap r out ->
  wf D N r /\ _capacity r = cap /\
  out = slice D 0 (first_unasmb r - ByteStream.cur_size (_output r)).
Proof.
  intros HN Hcap. induction 1 as [|r out d idx eof r' Hr (Hwf & Hc & Ho) Hl Hp|r out n bs o Hr (Hwf & Hc & Ho) Hn Hrd].
  - split; [by apply reassembler_make_wf|done].
  - destruct (push_spec D N d idx eof r Hwf Hl) as (r2 & Hp2 & Hwf2 & Hc2 & _ & _).
    rewrite Hp in Hp2. injection Hp2 as <-. split; [done|]. split; [congruence|].
    pose proof (window_end_read D N r (proj1 Hwf)) as Hw1.
    pose proof (window_end_read D N r' (proj1 Hwf2)) as Hw2.
    rewrite (push_keeps_read _ _ _ _ _ Hp) in Hw2. unfold window_end in *. rewrite Ho. f_equal. lia.
  - destruct (wf_read D N n r bs o Hwf Hn Hrd) as (Hwf' & Hbs & Hs).
    split; [done|]. split; [done|]. cbn.
    destruct Hwf as [[] _]. pose proof (ByteStream.wf_size _ co_out0).
    replace (first_unasmb r - ByteStream.cur_size o)
      with (first_unasmb r - ByteStream.cur_size (_output r) + zlen bs) by lia.
    rewrite slice_app by lia. rewrite Ho. f_equal. exact Hbs.
Qed.

(** In every run, what the reader has taken out followed by what is buffered
    is the assembled prefix of the stream: nothing is lost, repeated or reordered.
    The buffered and the unassembled bytes together stay within the capacity, and
    the end is signalled only after the whole stream has been assembled. *)
Theorem reassembler_run_safe (D : Z -> byte) (N cap : Z) (r : t) (out : bytes)
  (HN : 0 <= N < two63) (Hcap : 0 <= cap < two63) (Hreach : reach D N cap r out) :
  out ++ ByteStream.contents (stream_out r) = slice D 0 (first_unasmb r) /\
  ByteStream.buffer_size (stream_out r) + unassembled_bytes r <= cap /\
  (ByteStream.eof (stream_out r) = true -> out = slice D 0 N).
Proof.
  destruct (reach_inv D N cap r out HN Hcap Hreach) as (Hwf & Hc & Ho).
  pose proof Hwf as [Hco Hes]. pose proof (core_total D N r Hco). pose proof Hco as [].
  pose proof (ByteStream.wf_size _ co_out0).
  unfold stream_out, ByteStream.buffer_size, unassembled_bytes. split_and!.
  - rewrite Ho, co_contents0.
    replace (first_unasmb r) with
      (first_unasmb r - ByteStream.cur_size (_output r) + ByteStream.cur_size (_output r)) at 3 by lia.
    by rewrite slice_app by lia.
  - lia.
  - unfold ByteStream.eof, ByteStream.buffer_empty. intros [Hen Hem]%andb_true_iff. zb.
    apply Hes in Hen as [_ HF]. rewrite Ho. f_equal. lia.
Qed.

Lemma reassembler_run_safe_witness :
  exists r, reach (fun i => z2b (97 + i)) 3 2 r [x61; x62] /\
    [x61; x62] ++ ByteStream.contents (stream_out r) = slice (fun i => z2b (97 + i)) 0 2.
Proof.
  set (D := fun i => z2b (97 + i)).
  assert (H1 : exists r1 r2, push_substring [x61; x62; x63] 0 true (make 2) = Ok r1 /\
    ByteStream.read 5 (_output r1) = Ok ([x61; x62], r2) /\ first_unasmb r1 = 2).
  { eexists _, _. split; [vm_compute; reflexivity|].
    split; [vm_compute; reflexivity|].
    reflexivity. }
  destruct H1 as (r1 & o & Hp & Hrd & Hf).
  assert (Hr : reach D 3 2 (set_output o r1) ([] ++ [x61; x62])).
  { eapply reach_read with (n := 5); [|lia|exact Hrd].
    eapply reach_push; [apply reach_init| |exact Hp].
    split; try (intros; cbn; lia). reflexivity. }
  exists (set_output o r1). split; [exact Hr|]. rewrite <- Hf.
  apply (reassembler_run_safe D 3 2 (set_output o r1) [x61; x62]); [lia|lia|exact Hr].
Defined.

End StreamReassembler.
