(* ===== verification/Buffers.v ===== *)
(** * Buffers (util/buffer.hh, util/buffer.cc)

    Packet bytes travel in three classes.  A [Buffer] is a shared read-only
    string with an offset that only grows; a [BufferList] is a queue of buffers;
    a [BufferViewList] is a queue of string views used for scatter output.  All
    three discard bytes from the front, and the theorems say that doing so is
    dropping a prefix of the byte string they denote, however it is split.

    The string behind a [shared_ptr] is never modified after construction, so
    copies of a [Buffer] share nothing that can change and values suffice. *)

From S2P Require Import Prelude.
From Stdlib Require Import Strings.Byte.

Module Buffer.

(** [class Buffer]: the private members. *)
Record t : Type := mk {
  _storage : option bytes;
  _starting_offset : Z
}.

(** [Buffer()] and [Buffer(std::string &&)]. *)
Definition nil : t := mk None 0.
Definition of_string (str : bytes) : t := mk (Some str) 0.

Definition str (b : t) : bytes :=
  match _storage b with
  | None => []
  | Some s => drop (Z.to_nat (_starting_offset b)) s
  end.

(** [str().size()], which the constructor of the view computes by subtraction. *)
Definition size (b : t) : Z :=
  match _storage b with
  | None => 0
  | Some s => zlen s ⊟ _starting_offset b
  end.

(** [at]: [string_view::at] throws past the end. *)
Definition at_ (b : t) (n : Z) : res Z :=
  match str b !! Z.to_nat n with
  | Some c => Ok (b2z c)
  | None => Throw out_of_range
  end.

Definition copy (b : t) : bytes := str b.

Definition remove_prefix (n : Z) (b : t) : res t :=
  if size b <? n then Throw out_of_range
  else
    let off := _starting_offset b ⊞ n in
    match _storage b with
    | Some s => if off =? zlen s then Ok (mk None off) else Ok (mk (Some s) off)
    | None => Ok (mk None off)
    end.

(** The offset stays inside the string (whose length a [size_t] holds). *)
Definition wf (b : t) : Prop :=
  match _storage b with
  | None => True
  | Some s => 0 <= _starting_offset b <= zlen s /\ zlen s < two64
  end.

Lemma buffer_of_string_wf s : zlen s < two64 -> wf (of_string s).
Proof. unfold wf. cbn. lia. Qed.

Lemma str_of_string s : str (of_string s) = s.
Proof. apply drop_0. Qed.

Lemma size_str b : wf b -> size b = zlen (str b).
Proof.
  destruct b as [[s|] off]; unfold wf, size, str; cbn; [|done].
  intros. rewrite length_drop. usimpl. lia.
Qed.

Lemma zlen_str_lt b : wf b -> zlen (str b) < two64.
Proof.
  destruct b as [[s|] off]; unfold wf, str; cbn; [|lia].
  rewrite length_drop. lia.
Qed.

(** [remove_prefix] drops a prefix or throws, and nothing else. *)
Lemma buffer_remove_prefix_spec n b : wf b -> 0 <= n ->
  if n <=? zlen (str b) then
    exists b', remove_prefix n b = Ok b' /\ wf b' /\ str b' = drop (Z.to_nat n) (str b)
  else remove_prefix n b = Throw out_of_range.
Proof.
  intros Hwf Hn. unfold remove_prefix. rewrite size_str by done.
  destruct (n <=? zlen (str b)) eqn:E; zb; zcase; try lia; [|done].
  destruct b as [[s|] off]; unfold wf, str in *; cbn in *.
  - rewrite length_drop in *. usimpl. zcase; eexists; (split; [done|]); cbn.
    + split; [done|]. rewrite drop_drop, drop_ge; [done|lia].
    + split; [lia|]. rewrite drop_drop. f_equal. lia.
  - eexists; split; [done|]. cbn. by rewrite drop_nil.
Qed.

Lemma remove_prefix_ok n b : wf b -> 0 <= n <= zlen (str b) ->
  exists b', remove_prefix n b = Ok b' /\ wf b' /\ str b' = drop (Z.to_nat n) (str b).
Proof.
  intros Hwf Hn. pose proof (buffer_remove_prefix_spec n b Hwf ltac:(lia)) as H.
  rewrite (proj2 (Z.leb_le _ _)) in H by lia. done.
Qed.

Lemma remove_prefix_throws n b : wf b -> zlen (str b) < n ->
  remove_prefix n b = Throw out_of_range.
Proof.
  intros Hwf Hn. unfold remove_prefix. rewrite size_str by done. zcase; [done|lia].
Qed.

End Buffer.

Module BufferList.

(** [class BufferList]: the queue [_buffers]. *)
Definition t : Type := list Buffer.t.

(** The three constructors. *)
Definition nil : t := [].
Definition of_buffer (b : Buffer.t) : t := [b].

(** [append]: one [push_back] per buffer of the other list. *)
Fixpoint append (self other : t) : t :=
  match other with
  | [] => self
  | buf :: rest => append (self ++ [buf]) rest
  end.

Definition of_string (s : bytes) : t := append nil (of_buffer (Buffer.of_string s)).

(** [operator Buffer()]. *)
Definition to_buffer (l : t) : res Buffer.t :=
  match l with
  | [] => Ok Buffer.nil
  | [b] => Ok b
  | _ => Throw runtime_error
  end.

Definition concatenate (l : t) : bytes :=
  foldl (fun ret buf => ret ++ Buffer.str buf) [] l.

Definition size (l : t) : Z := foldl (fun ret buf => ret ⊞ Buffer.size buf) 0 l.

(** [remove_prefix]: the loop consumes one buffer per iteration. *)
Fixpoint remove_prefix (n : Z) (l : t) : res t :=
  if n <=? 0 then Ok l
  else
    match l with
    | [] => Throw out_of_range
    | front :: rest =>
        if n <? Buffer.size front then
          front' ← Buffer.remove_prefix n front;
          Ok (front' :: rest)
        else remove_prefix (n ⊟ Buffer.size front) rest
    end.

Definition wf (l : t) : Prop := Forall Buffer.wf l.

(** The bytes a list of buffers denotes. *)
Definition flat (l : t) : bytes := concat (Buffer.str <$> l).

Lemma append_app l1 l2 : append l1 l2 = l1 ++ l2.
Proof.
  revert l1. induction l2 as [|b l2 IH]; intros; cbn; [by rewrite app_nil_r|].
  rewrite IH, <- app_assoc. done.
Qed.

Lemma flat_append l1 l2 : flat (append l1 l2) = flat l1 ++ flat l2.
Proof. rewrite append_app. unfold flat. by rewrite fmap_app, concat_app. Qed.

Lemma flat_cons b l : flat (b :: l) = Buffer.str b ++ flat l.
Proof. done. Qed.

Lemma flat_of_string s : flat (of_string s) = s.
Proof. unfold of_string. cbn. rewrite app_nil_r. apply Buffer.str_of_string. Qed.

Lemma concatenate_flat l : concatenate l = flat l.
Proof.
  unfold concatenate. assert (H : forall a, foldl (fun ret buf => ret ++ Buffer.str buf) a l = a ++ flat l).
  { induction l as [|b l IH]; intros a; cbn; [by rewrite app_nil_r|].
    rewrite IH, <- app_assoc. done. }
  apply H.
Qed.

Lemma size_flat l : wf l -> size l = u64 (zlen (flat l)).
Proof.
  intros Hwf. unfold size.
  assert (H : forall a, foldl (fun ret buf => ret ⊞ Buffer.size buf) (u64 a) l = u64 (a + zlen (flat l))).
  { induction Hwf as [|b l Hb _ IH]; intros a; cbn [foldl].
    - f_equal. cbn. lia.
    - rewrite u64_add_l, IH, flat_cons, length_app, Buffer.size_str by done. f_equal. lia. }
  change 0 with (u64 0) at 1. apply H.
Qed.

Lemma buffer_list_of_string_wf s : zlen s < two64 -> wf (of_string s).
Proof. intros. apply Forall_singleton. by apply Buffer.buffer_of_string_wf. Qed.

Lemma append_wf l1 l2 : wf l1 -> wf l2 -> wf (append l1 l2).
Proof. rewrite append_app. apply Forall_app_2. Qed.

#[export] Hint Resolve buffer_list_of_string_wf append_wf : sponge.

(** Removing a prefix of the list is removing a prefix of its bytes. *)
Lemma buffer_list_remove_prefix_spec n l : wf l -> 0 <= n < two64 ->
  if n <=? zlen (flat l) then
    exists l', remove_prefix n l = Ok l' /\ wf l' /\ flat l' = drop (Z.to_nat n) (flat l)
  else remove_prefix n l = Throw out_of_range.
Proof.
  intros Hwf. revert n. induction Hwf as [|b l Hb Hl IH]; intros n Hn; cbn [remove_prefix].
  - change (zlen (flat [])) with 0. destruct (n <=? 0) eqn:E; zb; [|done].
    eexists. split; [done|]. split; [constructor|]. symmetry. apply drop_nil.
  - rewrite flat_cons, length_app. destruct (n <=? 0) eqn:E0; zb.
    + rewrite (proj2 (Z.leb_le _ _)) by lia. eexists. split; [done|].
      split; [by constructor|]. replace (Z.to_nat n) with 0%nat by lia. done.
    + rewrite Buffer.size_str by done.
      destruct (n <? zlen (Buffer.str b)) eqn:E1; zb.
      * rewrite (proj2 (Z.leb_le _ _)) by lia.
        destruct (Buffer.remove_prefix_ok n b Hb) as (b' & -> & Hb' & Hs); [lia|].
        eexists. split; [done|]. split; [by constructor|].
        rewrite flat_cons, Hs, drop_app_le by lia. done.
      * rewrite u64_small by lia. specialize (IH (n - zlen (Buffer.str b)) ltac:(lia)).
        revert IH. zcase; intros IH; try lia; [|done].
        destruct IH as (l' & -> & ? & Hf). eexists. split; [done|]. split; [done|].
        rewrite Hf, drop_app_ge by lia. f_equal. lia.
Qed.

End BufferList.

Module BufferViewList.

(** [class BufferViewList]: the queue [_views]; a [std::string_view] is the
    bytes it shows. *)
Definition t : Type := list bytes.

Definition of_string (s : bytes) : t := [s].
Definition of_buffers (buffers : BufferList.t) : t :=
  foldl (fun views x => views ++ [Buffer.str x]) [] buffers.

#[global] Arguments of_buffers : simpl never.

Fixpoint remove_prefix (n : Z) (views : t) : res t :=
  if n <=? 0 then Ok views
  else
    match views with
    | [] => Throw out_of_range
    | front :: rest =>
        if n <? zlen front then Ok (drop (Z.to_nat n) front :: rest)
        else remove_prefix (n ⊟ zlen front) rest
    end.

Definition size (views : t) : Z := foldl (fun ret buf => ret ⊞ zlen buf) 0 views.

(** An [iovec] is a start address, here the bytes found there, and a length. *)
Definition as_iovecs (views : t) : list (bytes * Z) :=
  foldl (fun ret x => ret ++ [(x, zlen x)]) [] views.

Lemma of_buffers_fmap l : of_buffers l = Buffer.str <$> l.
Proof.
  unfold of_buffers. assert (H : forall a, foldl (fun views x => views ++ [Buffer.str x]) a l = a ++ (Buffer.str <$> l)).
  { induction l as [|b l IH]; intros a; cbn; [by rewrite app_nil_r|].
    rewrite IH, <- app_assoc. done. }
  apply H.
Qed.

Lemma view_list_size v : size v = u64 (zlen (concat v)).
Proof.
  unfold size. assert (H : forall a, foldl (fun ret buf => ret ⊞ zlen buf) (u64 a) v = u64 (a + zlen (concat v))).
  { induction v as [|x v IH]; intros a; cbn [foldl concat].
    - f_equal. cbn. lia.
    - rewrite u64_add_l, IH, length_app. f_equal. lia. }
  change 0 with (u64 0) at 1. apply H.
Qed.

Lemma iovecs_bytes v : concat (fst <$> as_iovecs v) = concat v.
Proof.
  unfold as_iovecs. assert (H : forall a,
    concat (fst <$> foldl (fun ret x => ret ++ [(x, zlen x)]) a v) = concat (fst <$> a) ++ concat v).
  { induction v as [|x v IH]; intros a; cbn [foldl concat]; [by rewrite app_nil_r|].
    rewrite IH, fmap_app, concat_app, <- app_assoc. cbn. by rewrite app_nil_r. }
  apply H.
Qed.

(** Removing a prefix the views hold always succeeds. *)
Lemma view_list_remove_prefix n v : 0 <= n <= zlen (concat v) -> n < two64 ->
  exists v', remove_prefix n v = Ok v' /\ concat v' = drop (Z.to_nat n) (concat v).
Proof.
  revert n. induction v as [|x v IH]; intros n Hn Hlt; cbn [remove_prefix]; cbn [concat] in *.
  - cbn in Hn. replace n with 0 by lia. by exists [].
  - destruct (n <=? 0) eqn:E0; zb; [replace n with 0 by lia; by exists (x :: v)|].
    rewrite length_app in Hn. destruct (n <? zlen x) eqn:E1; zb.
    + eexists. split; [done|]. cbn [concat]. by rewrite drop_app_le by lia.
    + rewrite u64_small by lia. destruct (IH (n - zlen x)) as (v' & -> & Hv); [lia..|].
      exists v'. split; [done|]. rewrite Hv, drop_app_ge by lia. f_equal. lia.
Qed.

(** The two [remove_prefix] loops do the same to the same split of the bytes. *)
Lemma remove_prefix_lockstep n l : BufferList.wf l ->
  remove_prefix n (of_buffers l) = of_buffers <$> BufferList.remove_prefix n l.
Proof.
  intros Hwf. rewrite of_buffers_fmap. revert n.
  induction Hwf as [|b l Hb Hl IH]; intros n; cbn [remove_prefix BufferList.remove_prefix fmap list_fmap].
  - by destruct (n <=? 0).
  - destruct (n <=? 0) eqn:E0; zb; [cbn; by rewrite of_buffers_fmap|].
    rewrite <- Buffer.size_str by done.
    destruct (n <? Buffer.size b) eqn:E1; zb; [|apply IH].
    rewrite Buffer.size_str in E1 by done.
    destruct (Buffer.remove_prefix_ok n b Hb) as (b' & -> & _ & Hs); [lia|].
    cbn. rewrite of_buffers_fmap. cbn. by rewrite Hs.
Qed.

End BufferViewList.

(** A list of buffers and the list of views made from it discard bytes as a
    byte string does.  When the list holds at least [n] bytes, both loops finish
    and what remains is the concatenation without its first [n] bytes; otherwise
    both throw [out_of_range].  [size()] is the length of the concatenation. *)
Theorem remove_prefix_drops (n : Z) (l : BufferList.t)
  (Hwf : BufferList.wf l) (Hn : 0 <= n < two64) (Hlen : zlen (BufferList.concatenate l) < two64) :
  BufferList.size l = zlen (BufferList.concatenate l) /\
  if n <=? BufferList.size l then
    exists l', BufferList.remove_prefix n l = Ok l' /\
      BufferList.concatenate l' = drop (Z.to_nat n) (BufferList.concatenate l) /\
      BufferViewList.remove_prefix n (BufferViewList.of_buffers l) =
        Ok (BufferViewList.of_buffers l')
  else
    BufferList.remove_prefix n l = Throw out_of_range /\
    BufferViewList.remove_prefix n (BufferViewList.of_buffers l) = Throw out_of_range.
Proof.
  rewrite BufferViewList.remove_prefix_lockstep by done.
  rewrite BufferList.size_flat by done. rewrite BufferList.concatenate_flat in *.
  rewrite u64_small by lia. split; [done|].
  pose proof (BufferList.buffer_list_remove_prefix_spec n l Hwf Hn) as H. revert H. zcase.
  - intros (l' & -> & _ & Hf). exists l'. rewrite BufferList.concatenate_flat. done.
  - intros ->. done.
Qed.

Lemma remove_prefix_drops_witness :
  exists l', BufferList.remove_prefix 3
      (BufferList.append (BufferList.of_string [x61; x62]) (BufferList.of_string [x63; x64])) = Ok l' /\
    BufferList.concatenate l' = [x64].
Proof.
  destruct (remove_prefix_drops 3
    (BufferList.append (BufferList.of_string [x61; x62]) (BufferList.of_string [x63; x64])))
    as [_ (l' & Hl & Hc & _)].
  - apply BufferList.append_wf; apply BufferList.buffer_list_of_string_wf; cbn; lia.
  - lia.
  - vm_compute. reflexivity.
  - exists l'. split; [exact Hl|]. rewrite Hc. reflexivity.
Defined.
