(* ===== verification/Parsing.v ===== *)
(** * Parsing and serialising integers (util/parser.hh, util/parser.cc)

    [NetParser] consumes a buffer and remembers the first error; [NetUnparser]
    appends to a string.  A parsing routine is a computation of the monad [P],
    which threads the parser and lets an exception escape.  Two judgements carry
    all later proofs about headers: [reads m s a s'] (on input [s], with no error
    so far, [m] returns [a] and leaves [s']) and [safe m] (from every well-formed
    parser, [m] returns normally and leaves a well-formed parser whose error, once
    set, stays set). *)

From stdpp Require Import strings.
From S2P Require Import Prelude Buffers.
From Stdlib Require Import Strings.Byte.

(** [enum class ParseResult]. *)
Inductive ParseResult : Type :=
| NoError
| BadChecksum
| PacketTooShort
| WrongIPVersion
| HeaderTooShort
| TruncatedPacket
| Unsupported.

#[global] Instance ParseResult_eq_dec : EqDecision ParseResult.
Proof. solve_decision. Defined.

Definition is_NoError (r : ParseResult) : bool :=
  match r with NoError => true | _ => false end.

(** The names of [as_string], by the enumerator's position; reading past the end
    of the array is undefined. *)
Definition parse_result_index (r : ParseResult) : nat :=
  match r with
  | NoError => 0 | BadChecksum => 1 | PacketTooShort => 2 | WrongIPVersion => 3
  | HeaderTooShort => 4 | TruncatedPacket => 5 | Unsupported => 6
  end%nat.

Definition as_string (r : ParseResult) : res string :=
  match ["NoError"; "BadChecksum"; "PacketTooShort"; "WrongIPVersion";
         "HeaderTooShort"; "TruncatedPacket"]%string !! parse_result_index r with
  | Some n => Ok n
  | None => Throw undefined
  end.

Module NetParser.

(** [class NetParser]: the private members. *)
Record t : Type := mk { _buffer : Buffer.t; _error : ParseResult }.

Definition make (b : Buffer.t) : t := mk b NoError.
Definition get_error (p : t) : ParseResult := _error p.
Definition set_error (r : ParseResult) (p : t) : t := mk (_buffer p) r.
Definition error (p : t) : bool := negb (is_NoError (get_error p)).
Definition buffer (p : t) : Buffer.t := _buffer p.

Definition _check_size (size : Z) (p : t) : t :=
  if Buffer.size (_buffer p) <? size then set_error PacketTooShort p else p.

(** The monad of parsing routines. *)
Definition P (A : Type) : Type := t -> res (A * t).
#[global] Instance P_ret : MRet P := fun A a p => Ok (a, p).
#[global] Instance P_bind : MBind P := fun A B f m p =>
  match m p with
  | Ok (a, p') => f a p'
  | Throw e => Throw e
  end.

(** The loop of [_parse_int<T>] for [sizeof(T) = len]: [ret] is truncated to the
    width of [T] by each assignment. *)
Definition trunc (len : nat) (x : Z) : Z := x mod 2 ^ (8 * Z.of_nat len).

Fixpoint parse_loop (len : nat) (b : Buffer.t) (i todo : nat) (ret : Z) : res Z :=
  match todo with
  | O => Ok ret
  | S todo' =>
      let ret := trunc len (Z.shiftl ret 8) in
      c ← Buffer.at_ b (Z.of_nat i);
      parse_loop len b (S i) todo' (trunc len (ret + c))
  end.

Definition _parse_int (len : nat) : P Z := fun p =>
  let p := _check_size (Z.of_nat len) p in
  if error p then Ok (0, p)
  else
    ret ← parse_loop len (_buffer p) 0 len 0;
    b ← Buffer.remove_prefix (Z.of_nat len) (_buffer p);
    Ok (ret, mk b (_error p)).

Definition u32 : P Z := _parse_int 4.
Definition u16 : P Z := _parse_int 2.
Definition u8 : P Z := _parse_int 1.

Definition remove_prefix (n : Z) : P unit := fun p =>
  let p := _check_size n p in
  if error p then Ok (tt, p)
  else
    b ← Buffer.remove_prefix n (_buffer p);
    Ok (tt, mk b (_error p)).

(** Reading the parser's state inside a routine. *)
Definition get : P t := fun p => Ok (p, p).

(** A routine that reports an error with a [return] leaves the parser as it is. *)
Definition wf (p : t) : Prop := Buffer.wf (_buffer p).
Definition input (p : t) : bytes := Buffer.str (_buffer p).

(** The equivalence of parsers that no routine can break: the same bytes ahead
    and the same error, wherever the bytes are stored. *)
#[global] Instance t_equiv : Equiv t := fun p q =>
  input p = input q /\ _error p = _error q.
#[global] Instance t_equivalence : Equivalence (≡@{t}).
Proof.
  split.
  - done.
  - intros p q [? ?]. done.
  - intros p q r [Hi He] [Hi' He']. split; congruence.
Qed.
#[global] Instance input_proper : Proper ((≡) ==> (=)) input.
Proof. by intros p q [? _]. Qed.
#[global] Instance error_proper : Proper ((≡) ==> (=)) error.
Proof. intros p q [_ H]. unfold error, get_error. by rewrite H. Qed.

(** [reads m s a s']: with no error so far and [s] ahead, [m] returns [a],
    raises no error and leaves [s']. *)
Definition reads {A} (m : P A) (s : bytes) (a : A) (s' : bytes) : Prop :=
  forall p, wf p -> _error p = NoError -> input p = s ->
  exists p', m p = Ok (a, p') /\ wf p' /\ _error p' = NoError /\ input p' = s'.

(** [safe m]: no exception, whatever the input; errors are never cleared. *)
Definition safe {A} (m : P A) : Prop :=
  forall p, wf p -> exists a p', m p = Ok (a, p') /\ wf p' /\
    (_error p <> NoError -> _error p' <> NoError).

Lemma reads_ret {A} (a : A) s : reads (mret a) s a s.
Proof. intros p ? ? ?. eexists. done. Qed.

Lemma reads_bind {A B} (m : P A) (f : A -> P B) s a s1 b s2 :
  reads m s a s1 -> reads (f a) s1 b s2 -> reads (m ≫= f) s b s2.
Proof.
  intros Hm Hf p Hw He Hi. destruct (Hm p Hw He Hi) as (p1 & E & ? & ? & ?).
  destruct (Hf p1) as (p2 & E2 & ?); [done..|]. exists p2.
  unfold mbind, P_bind. rewrite E. done.
Qed.

Lemma reads_get {B} (f : t -> P B) s b s' :
  (forall p, wf p -> _error p = NoError -> input p = s -> reads (f p) s b s') ->
  reads (get ≫= f) s b s'.
Proof. intros Hf p Hw He Hi. by apply (Hf p). Qed.

Lemma safe_ret {A} (a : A) : safe (mret a).
Proof. intros p Hp. eexists _, _. done. Qed.

Lemma safe_bind {A B} (m : P A) (f : A -> P B) :
  safe m -> (forall a, safe (f a)) -> safe (m ≫= f).
Proof.
  intros Hm Hf p Hp. destruct (Hm p Hp) as (a & p1 & E & Hp1 & ?).
  destruct (Hf a p1 Hp1) as (b & p2 & E2 & ? & ?). exists b, p2.
  unfold mbind, P_bind. rewrite E. naive_solver.
Qed.

Lemma safe_get : safe get.
Proof. intros p Hp. eexists _, _. done. Qed.

Lemma check_size_wf n p : wf p -> wf (_check_size n p).
Proof. unfold _check_size. by case_match. Qed.

Lemma check_size_spec n p : wf p ->
  _check_size n p = if zlen (input p) <? n then set_error PacketTooShort p else p.
Proof. intros. unfold _check_size. by rewrite Buffer.size_str. Qed.

(** ** The value of a big-endian byte string *)

Definition be_val (bs : bytes) : Z := foldl (fun a b => 256 * a + b2z b) 0 bs.

Lemma be_val_app bs b : be_val (bs ++ [b]) = 256 * be_val bs + b2z b.
Proof. unfold be_val. by rewrite foldl_app. Qed.

Lemma be_val_range bs : 0 <= be_val bs < 2 ^ (8 * zlen bs).
Proof.
  induction bs as [|b bs IH] using rev_ind; [cbn; lia|].
  rewrite be_val_app, length_app, Nat2Z.inj_add, Z.mul_add_distr_l, Z.pow_add_r by (cbn; lia).
  cbn [length]. change (2 ^ (8 * Z.of_nat 1)) with 256. pose proof (b2z_range b). lia.
Qed.

Lemma trunc_small len x : 0 <= x < 2 ^ (8 * Z.of_nat len) -> trunc len x = x.
Proof. apply Z.mod_small. Qed.

Lemma parse_loop_spec len b todo : forall i,
  (i + todo <= len)%nat -> (i + todo <= length (Buffer.str b))%nat ->
  parse_loop len b i todo (be_val (take i (Buffer.str b))) =
    Ok (be_val (take (i + todo) (Buffer.str b))).
Proof.
  induction todo as [|todo IH]; intros i Hl Hb; cbn [parse_loop].
  - by rewrite Nat.add_0_r.
  - destruct (lookup_lt_is_Some_2 (Buffer.str b) i ltac:(lia)) as [c Hc].
    unfold Buffer.at_. rewrite Nat2Z.id, Hc. cbn [mbind res_bind].
    pose proof (be_val_range (take i (Buffer.str b))) as Hr.
    pose proof (be_val_range (take (S i) (Buffer.str b))) as Hr'.
    rewrite (take_S_lookup _ _ _ Hc), be_val_app in Hr'.
    rewrite length_app, length_take, Nat.min_l in Hr' by lia. cbn [length] in Hr'.
    assert (2 ^ (8 * Z.of_nat (i + 1)) <= 2 ^ (8 * Z.of_nat len)) by (apply Z.pow_le_mono_r; lia).
    pose proof (b2z_range c). rewrite Z.shiftl_mul_pow2 by lia. change (2 ^ 8) with 256.
    rewrite !trunc_small by (rewrite ?trunc_small; lia).
    replace (be_val (take i (Buffer.str b)) * 256 + b2z c)
      with (be_val (take (S i) (Buffer.str b)))
      by (rewrite (take_S_lookup _ _ _ Hc), be_val_app; lia).
    rewrite IH by lia. do 2 f_equal. f_equal. lia.
Qed.

(** [_parse_int] on every input. *)
Lemma parse_int_spec len p : wf p ->
  (_error p <> NoError -> exists p', _parse_int len p = Ok (0, p') /\ wf p' /\ _error p' <> NoError /\ input p' = input p) /\
  (_error p = NoError ->
     (zlen (input p) < Z.of_nat len -> _parse_int len p = Ok (0, set_error PacketTooShort p)) /\
     (Z.of_nat len <= zlen (input p) ->
        exists p', _parse_int len p = Ok (be_val (take len (input p)), p') /\ wf p' /\
          _error p' = NoError /\ input p' = drop len (input p))).
Proof.
  intros Hw. unfold _parse_int. rewrite check_size_spec by done. split; [|intros He; split; intros Hl].
  - intros He. destruct (zlen (input p) <? Z.of_nat len); cbn.
    + eexists. split; [done|]. done.
    + unfold error, get_error. destruct (_error p) eqn:E; [done|..]; cbn;
        (eexists; split; [done|]; by rewrite E).
  - rewrite (proj2 (Z.ltb_lt _ _)) by done. done.
  - rewrite (proj2 (Z.ltb_ge _ _)) by done.
    unfold error, get_error. rewrite He. cbn [negb is_NoError].
    change 0 with (be_val (take 0 (Buffer.str (_buffer p)))) at 1.
    unfold input in *. rewrite parse_loop_spec by lia. cbn [mbind res_bind].
    destruct (Buffer.remove_prefix_ok (Z.of_nat len) (_buffer p) Hw) as (b & -> & Hb & Hs); [lia|].
    cbn [mbind res_bind]. eexists. split; [done|]. cbn. rewrite Hs, Nat2Z.id. done.
Qed.

Lemma safe_parse_int len : safe (_parse_int len).
Proof.
  intros p Hw. destruct (parse_int_spec len p Hw) as [H1 H2].
  destruct (decide (_error p = NoError)) as [He|He].
  - destruct (H2 He) as [Hs Hl]. destruct (decide (zlen (input p) < Z.of_nat len)).
    + rewrite Hs by done. eexists _, _. split; [done|]. done.
    + destruct Hl as (p' & E & ? & ? & ?); [lia|]. eexists _, _. done.
  - destruct (H1 He) as (p' & E & ? & ? & ?). eexists _, _. done.
Qed.

Lemma reads_parse_int len bs s :
  length bs = len -> reads (_parse_int len) (bs ++ s) (be_val bs) s.
Proof.
  intros Hl p Hw He Hi. destruct (parse_int_spec len p Hw) as [_ H]. destruct (H He) as [_ H2].
  rewrite Hi in H2. destruct H2 as (p' & E & ? & ? & Hi'); [rewrite length_app; lia|].
  exists p'. rewrite E, take_app_length' by done.
  rewrite Hi', drop_app_length' by done. done.
Qed.

Lemma parser_remove_prefix_spec n p : wf p -> 0 <= n ->
  (_error p <> NoError -> exists p', remove_prefix n p = Ok (tt, p') /\ wf p' /\ _error p' <> NoError /\ input p' = input p) /\
  (_error p = NoError ->
     (zlen (input p) < n -> remove_prefix n p = Ok (tt, set_error PacketTooShort p)) /\
     (n <= zlen (input p) ->
        exists p', remove_prefix n p = Ok (tt, p') /\ wf p' /\
          _error p' = NoError /\ input p' = drop (Z.to_nat n) (input p))).
Proof.
  intros Hw Hn. unfold remove_prefix. rewrite check_size_spec by done. split; [|intros He; split; intros Hl].
  - intros He. destruct (zlen (input p) <? n); cbn.
    + eexists. split; [done|]. done.
    + unfold error, get_error. destruct (_error p) eqn:E; [done|..]; cbn;
        (eexists; split; [done|]; by rewrite E).
  - rewrite (proj2 (Z.ltb_lt _ _)) by done. done.
  - rewrite (proj2 (Z.ltb_ge _ _)) by done.
    unfold error, get_error. rewrite He. cbn [negb is_NoError].
    destruct (Buffer.remove_prefix_ok n (_buffer p) Hw) as (b & -> & Hb & Hs); [done|].
    cbn [mbind res_bind]. eexists. split; [done|]. done.
Qed.

Lemma safe_remove_prefix n : 0 <= n -> safe (remove_prefix n).
Proof.
  intros Hn p Hw. destruct (parser_remove_prefix_spec n p Hw Hn) as [H1 H2].
  destruct (decide (_error p = NoError)) as [He|He].
  - destruct (H2 He) as [Hs Hl]. destruct (decide (zlen (input p) < n)).
    + rewrite Hs by done. eexists _, _. split; [done|]. done.
    + destruct Hl as (p' & E & ? & ? & ?); [lia|]. eexists _, _. done.
  - destruct (H1 He) as (p' & E & ? & ? & ?). eexists _, _. done.
Qed.

Lemma reads_remove_prefix n bs s :
  zlen bs = n -> reads (remove_prefix n) (bs ++ s) tt s.
Proof.
  intros Hl p Hw He Hi. destruct (parser_remove_prefix_spec n p Hw ltac:(lia)) as [_ H].
  destruct (H He) as [_ H2]. rewrite Hi in H2.
  destruct H2 as (p' & E & ? & ? & Hi'); [rewrite length_app; lia|].
  exists p'. rewrite E, Hi', drop_app_length' by lia. done.
Qed.

(** [yields m Q]: whatever [m] returns satisfies [Q]. *)
Definition yields {A} (m : P A) (Q : A -> Prop) : Prop :=
  forall p a p', m p = Ok (a, p') -> Q a.

Lemma yields_ret {A} (a : A) (Q : A -> Prop) : Q a -> yields (mret a) Q.
Proof. intros H p a' p' [= <- <-]. done. Qed.

Lemma yields_bind {A B} (m : P A) (f : A -> P B) Q R :
  yields m Q -> (forall a, Q a -> yields (f a) R) -> yields (m ≫= f) R.
Proof.
  intros Hm Hf p b p'. unfold mbind, P_bind. destruct (m p) as [[a p1]|] eqn:E; [|done].
  apply Hf. by eapply Hm.
Qed.

Lemma yields_any {A} (m : P A) : yields m (fun _ => True).
Proof. done. Qed.

Lemma parse_loop_range len b todo : forall i ret v, 0 <= ret < 2 ^ (8 * Z.of_nat len) ->
  parse_loop len b i todo ret = Ok v -> 0 <= v < 2 ^ (8 * Z.of_nat len).
Proof.
  induction todo as [|todo IH]; intros i ret v Hr; cbn [parse_loop]; [by intros [= <-]|].
  destruct (Buffer.at_ b (Z.of_nat i)) as [c|]; cbn; [|done]. apply IH.
  apply Z.mod_pos_bound. apply Z.pow_pos_nonneg; lia.
Qed.

Lemma yields_parse_int len : yields (_parse_int len) (fun v => 0 <= v < 2 ^ (8 * Z.of_nat len)).
Proof.
  assert (H0 : 0 < 2 ^ (8 * Z.of_nat len)) by (apply Z.pow_pos_nonneg; lia).
  intros p v p'. unfold _parse_int. destruct (error _); [intros [= <- _]; lia|].
  destruct (parse_loop _ _ _ _ _) as [r|] eqn:E; cbn; [|done].
  destruct (Buffer.remove_prefix _ _); cbn; [|done]. intros [= <- _].
  eapply parse_loop_range; [|exact E]. lia.
Qed.

Lemma yields_u8 : yields u8 (fun v => 0 <= v < two8).
Proof. apply yields_parse_int. Qed.
Lemma yields_u16 : yields u16 (fun v => 0 <= v < two16).
Proof. apply yields_parse_int. Qed.
Lemma yields_u32 : yields u32 (fun v => 0 <= v < two32).
Proof. apply yields_parse_int. Qed.

Lemma safe_u8 : safe u8.
Proof. apply safe_parse_int. Qed.
Lemma safe_u16 : safe u16.
Proof. apply safe_parse_int. Qed.
Lemma safe_u32 : safe u32.
Proof. apply safe_parse_int. Qed.

End NetParser.

#[export] Hint Resolve NetParser.safe_ret NetParser.safe_get NetParser.safe_u8
  NetParser.safe_u16 NetParser.safe_u32 NetParser.safe_remove_prefix : sponge.

Module NetUnparser.

(** [_unparse_int<T>] for [sizeof(T) = len]. *)
Definition _unparse_int (len : nat) (s : bytes) (val : Z) : bytes :=
  foldl (fun s i =>
    s ++ [z2b (Z.land (Z.shiftr val (Z.of_nat ((len - i - 1) * 8))) 255)]) s (seq 0 len).

Definition u32 (s : bytes) (val : Z) : bytes := _unparse_int 4 s val.
Definition u16 (s : bytes) (val : Z) : bytes := _unparse_int 2 s val.
Definition u8 (s : bytes) (val : Z) : bytes := _unparse_int 1 s val.

(** The big-endian encoding, most significant byte first. *)
Definition be (len : nat) (val : Z) : bytes := _unparse_int len [] val.

Lemma unparse_app len s val : _unparse_int len s val = s ++ be len val.
Proof.
  unfold be, _unparse_int. generalize (seq 0 len). intros js. revert s.
  assert (H : forall s s', foldl (fun s i =>
    s ++ [z2b (Z.land (Z.shiftr val (Z.of_nat ((len - i - 1) * 8))) 255)]) (s ++ s') js =
    s ++ foldl (fun s i =>
    s ++ [z2b (Z.land (Z.shiftr val (Z.of_nat ((len - i - 1) * 8))) 255)]) s' js).
  { induction js as [|i js IH]; intros s s'; cbn; [done|].
    rewrite <- app_assoc. apply IH. }
  intros s. rewrite <- (app_nil_r s) at 1. apply H.
Qed.

Lemma length_be len val : length (be len val) = len.
Proof.
  unfold be, _unparse_int. rewrite <- (length_seq len 0) at 2.
  generalize (seq 0 len). intros js.
  assert (H : forall s, length (foldl (fun s i =>
    s ++ [z2b (Z.land (Z.shiftr val (Z.of_nat ((len - i - 1) * 8))) 255)]) s js) =
    (length s + length js)%nat).
  { induction js as [|i js IH]; intros s; cbn; [lia|].
    rewrite IH, length_app. cbn. lia. }
  apply H.
Qed.

Lemma be_1 v : be 1 v = [z2b v].
Proof.
  unfold be, _unparse_int. cbn. rewrite Z.shiftr_0_r. f_equal.
  change 255 with (Z.ones 8). rewrite Z.land_ones by lia.
  unfold z2b. f_equal. unfold Prelude.u8. rewrite Zmod_mod. done.
Qed.

Lemma be_2 v : be 2 v = [z2b (v / 256); z2b v].
Proof.
  unfold be, _unparse_int. cbn. rewrite Z.shiftr_0_r, Z.shiftr_div_pow2 by lia.
  change 255 with (Z.ones 8). rewrite !Z.land_ones by lia.
  unfold z2b, Prelude.u8. change (2 ^ 8) with 256. by rewrite !Zmod_mod.
Qed.

Lemma be_4 v : be 4 v = [z2b (v / 16777216); z2b (v / 65536); z2b (v / 256); z2b v].
Proof.
  unfold be, _unparse_int. cbn. rewrite Z.shiftr_0_r, !Z.shiftr_div_pow2 by lia.
  change 255 with (Z.ones 8). rewrite !Z.land_ones by lia.
  unfold z2b, Prelude.u8. change (2 ^ 8) with 256. by rewrite !Zmod_mod.
Qed.

(** Decoding an encoding truncates to the width. *)
Lemma be_val_be1 v : NetParser.be_val (be 1 v) = Prelude.u8 v.
Proof. rewrite be_1. unfold NetParser.be_val. cbn [foldl]. rewrite b2z_z2b. lia. Qed.

Lemma be_val_be2 v : NetParser.be_val (be 2 v) = Prelude.u16 v.
Proof.
  rewrite be_2. unfold NetParser.be_val. cbn [foldl]. rewrite !b2z_z2b.
  unfold Prelude.u8, Prelude.u16. Z.div_mod_to_equations. lia.
Qed.

Lemma be_val_be4 v : NetParser.be_val (be 4 v) = Prelude.u32 v.
Proof.
  rewrite be_4. unfold NetParser.be_val. cbn [foldl]. rewrite !b2z_z2b.
  unfold Prelude.u8, Prelude.u32. Z.div_mod_to_equations. lia.
Qed.

Lemma reads_u8 v s : 0 <= v < two8 -> NetParser.reads NetParser.u8 (be 1 v ++ s) v s.
Proof.
  intros. rewrite <- (u8_small v) at 2 by done. rewrite <- be_val_be1.
  apply NetParser.reads_parse_int. apply length_be.
Qed.
Lemma reads_u16 v s : 0 <= v < two16 -> NetParser.reads NetParser.u16 (be 2 v ++ s) v s.
Proof.
  intros. rewrite <- (u16_small v) at 2 by done. rewrite <- be_val_be2.
  apply NetParser.reads_parse_int. apply length_be.
Qed.
Lemma reads_u32 v s : 0 <= v < two32 -> NetParser.reads NetParser.u32 (be 4 v ++ s) v s.
Proof.
  intros. rewrite <- (u32_small v) at 2 by done. rewrite <- be_val_be4.
  apply NetParser.reads_parse_int. apply length_be.
Qed.

End NetUnparser.

(** ** The interface of a header format

    What a header class promises to the packet class that contains it: its parser
    is safe on every input, and parsing what [serialize] wrote gives back the
    header and stops exactly where the payload begins.  [wh_ok h payload] says
    which headers may precede which payload (the IPv4 header records its length). *)
Class WireHeader (H : Type) := {
  wh_parse : H -> NetParser.P (ParseResult * H);
  wh_serialize : H -> res bytes;
  wh_ok : H -> bytes -> Prop;
  wh_safe self : NetParser.safe (wh_parse self);
  wh_roundtrip h payload : wh_ok h payload ->
    exists bs, wh_serialize h = Ok bs /\
      forall self, NetParser.reads (wh_parse self) (bs ++ payload) (NoError, h) payload
}.

Section Packet.
Context {H : Type} `{WireHeader H}.

(** The statements the packet classes share: parse the header in place, keep
    the rest of the buffer as payload, report the parser's error.  The result
    the header parser returns is dropped, as in the sources. *)
Definition parse_header_and_rest (buffer : Buffer.t) (self : H)
  : res (ParseResult * H * Buffer.t) :=
  '((_, h), p) ← wh_parse self (NetParser.make buffer);
  Ok (NetParser.get_error p, h, NetParser.buffer p).

Lemma parse_header_and_rest_safe buffer self : Buffer.wf buffer ->
  exists r h b, parse_header_and_rest buffer self = Ok (r, h, b) /\ Buffer.wf b.
Proof.
  intros Hb. destruct (wh_safe self (NetParser.make buffer) Hb) as ([r h] & p & E & Hp & _).
  unfold parse_header_and_rest. rewrite E. eexists _, _, _. done.
Qed.

Lemma parse_header_and_rest_roundtrip h payload buffer bs self :
  wh_ok h payload -> wh_serialize h = Ok bs ->
  Buffer.wf buffer -> Buffer.str buffer = bs ++ payload ->
  exists b, parse_header_and_rest buffer self = Ok (NoError, h, b) /\
    Buffer.wf b /\ Buffer.str b = payload.
Proof.
  intros Hok Hs Hb Hstr. destruct (wh_roundtrip h payload Hok) as (bs' & Hs' & Hr).
  rewrite Hs in Hs'. injection Hs' as <-.
  destruct (Hr self (NetParser.make buffer)) as (p & E & Hp & He & Hi); [done..|].
  unfold parse_header_and_rest. rewrite E. cbn. unfold NetParser.get_error. rewrite He.
  eexists. done.
Qed.

(** The header that [parse_header_and_rest] returns is one the header's parser returns. *)
Lemma parse_header_and_rest_yields buffer self (Q : H -> Prop) r h b :
  NetParser.yields (wh_parse self) (fun x => Q x.2) ->
  parse_header_and_rest buffer self = Ok (r, h, b) -> Q h.
Proof.
  intros Hy. unfold parse_header_and_rest. destruct (wh_parse _ _) as [[[r' h'] p]|] eqn:E; cbn; [|done].
  intros [= _ <- _]. exact (Hy _ _ _ E).
Qed.
End Packet.

(** Growing a string with zero bytes, or cutting it ([std::string::resize]). *)
Definition resize (n : Z) (s : bytes) : bytes :=
  take (Z.to_nat n) s ++ replicate (Z.to_nat n - length s) x00.

Lemma resize_grow n s : zlen s <= n -> resize n s = s ++ replicate (Z.to_nat n - length s) x00.
Proof. intros. unfold resize. by rewrite take_ge by lia. Qed.

(** [reads_step] peels one integer off a serialised header. *)
Ltac reads_step :=
  eapply NetParser.reads_bind;
  [ lazymatch goal with
    | |- NetParser.reads NetParser.u8 _ _ _ => apply NetUnparser.reads_u8
    | |- NetParser.reads NetParser.u16 _ _ _ => apply NetUnparser.reads_u16
    | |- NetParser.reads NetParser.u32 _ _ _ => apply NetUnparser.reads_u32
    end; auto with sponge
  | cbn beta ].

(** [safe_steps] proves a straight-line parser safe. *)
Ltac safe_steps :=
  repeat (apply NetParser.safe_bind; [by auto with sponge | intros]).

(** [yields_step] notes the range of one integer that is parsed. *)
Ltac yields_step :=
  lazymatch goal with
  | |- NetParser.yields (mret _) _ => apply NetParser.yields_ret
  | |- NetParser.yields (_ ≫= _) _ =>
      eapply NetParser.yields_bind;
      [ first [ apply NetParser.yields_u8 | apply NetParser.yields_u16 | apply NetParser.yields_u32 | apply NetParser.yields_any ]
      | intros ? ?; cbn beta ]
  | |- NetParser.yields (if ?b then _ else _) _ => destruct b
  | |- NetParser.yields (let _ := _ in _) _ => cbv zeta
  end.
