(* ===== verification/Checksum.v ===== *)
(** * The Internet checksum (util/util.hh, util/util.cc)

    [InternetChecksum] adds bytes into a 32-bit accumulator, alternating between
    the high and the low half of a 16-bit word, and folds the carries when the
    value is asked for.  The reference is the definition of RFC 1071: the
    complement of the one's-complement sum of the 16-bit words. *)

From S2P Require Import Prelude Buffers Parsing.
From Stdlib Require Import Strings.Byte.

Module InternetChecksum.

(** [class InternetChecksum]: the private members. *)
Record t : Type := mk { _sum : Z; _parity : bool }.

Definition make (initial_sum : Z) : t := mk initial_sum false.

(** One iteration of the loop of [add]; the [uint16_t] shift cannot overflow. *)
Definition add1 (c : t) (d : byte) : t :=
  let val := b2z d in
  let val := if negb (_parity c) then u16 (Z.shiftl val 8) else val in
  mk (u32 (_sum c + val)) (negb (_parity c)).

Definition add (data : bytes) (c : t) : t := foldl add1 c data.

(** The loop of [value]; two iterations are enough for a 32-bit sum
    ([fold_carry_done]). *)
Fixpoint fold_carry (fuel : nat) (ret : Z) : Z :=
  match fuel with
  | O => ret
  | S fuel' =>
      if 65535 <? ret
      then fold_carry fuel' (u32 (Z.shiftr ret 16 + Z.land ret 65535))
      else ret
  end.

Definition value (c : t) : Z := u16 (Z.lnot (fold_carry 2 (_sum c))).

(** ** The reference definition *)

(** One's-complement addition of 16-bit words: the carry comes back in. *)
Definition ones_add (x y : Z) : Z :=
  let s := x + y in if 65535 <? s then s - 65535 else s.

(** The big-endian 16-bit words of a byte string, an odd one padded with zero. *)
Fixpoint words (d : bytes) : list Z :=
  match d with
  | [] => []
  | [a] => [256 * b2z a]
  | a :: b :: rest => (256 * b2z a + b2z b) :: words rest
  end.

Definition rfc1071 (ws : list Z) : Z := 65535 - foldl ones_add 0 ws.

(** ** Folding *)

(** The representative of [x] modulo 65535 in [1 .. 65535], or 0 for 0. *)
Definition fold16 (x : Z) : Z := if x =? 0 then 0 else (x - 1) mod 65535 + 1.

Lemma fold16_small x : 0 <= x <= 65535 -> fold16 x = x.
Proof. intros. unfold fold16. zcase; [lia|]. rewrite Z.mod_small; lia. Qed.

Lemma fold16_range x : 0 <= x -> 0 <= fold16 x <= 65535.
Proof. intros. unfold fold16. zcase; [lia|]. pose proof (Z.mod_pos_bound (x - 1) 65535). lia. Qed.

Lemma fold16_step x y : 0 <= x -> 0 <= y -> fold16 (fold16 x + y) = fold16 (x + y).
Proof.
  intros. unfold fold16 at 2. destruct (x =? 0) eqn:E; zb; [by subst|].
  unfold fold16. pose proof (Z.mod_pos_bound (x - 1) 65535 ltac:(lia)).
  rewrite !(proj2 (Z.eqb_neq _ _)) by lia.
  replace ((x - 1) mod 65535 + 1 + y - 1) with ((x - 1) mod 65535 + y) by lia.
  rewrite Zplus_mod_idemp_l. do 2 f_equal. lia.
Qed.

Lemma fold16_add_multiple x : 0 <= x -> fold16 (x + (65535 - fold16 x)) = 65535.
Proof.
  intros Hx. pose proof (fold16_range x Hx).
  rewrite <- fold16_step by lia. replace (fold16 x + (65535 - fold16 x)) with 65535 by lia.
  done.
Qed.

Lemma carry_step x : 0 <= x < two32 ->
  u32 (Z.shiftr x 16 + Z.land x 65535) = x / 65536 + x mod 65536.
Proof.
  intros. rewrite Z.shiftr_div_pow2 by lia.
  change 65535 with (Z.ones 16). rewrite Z.land_ones by lia. change (2 ^ 16) with 65536.
  apply u32_small. Z.div_mod_to_equations. lia.
Qed.

Lemma carry_fold16 x : 65535 < x -> fold16 (x / 65536 + x mod 65536) = fold16 x.
Proof.
  intros. unfold fold16.
  assert (0 < x / 65536) by (apply Z.div_str_pos; lia).
  pose proof (Z.mod_pos_bound x 65536 ltac:(lia)).
  rewrite !(proj2 (Z.eqb_neq _ _)) by lia. f_equal.
  replace (x - 1) with (x / 65536 + x mod 65536 - 1 + (x / 65536) * 65535)
    by (pose proof (Z.div_mod x 65536); lia).
  by rewrite Z_mod_plus_full.
Qed.

(** Two rounds fold any 32-bit sum, and the result is the representative of the
    sum modulo 65535: the loop of [value] ends. *)
Lemma fold_carry_done fuel x : 0 <= x < two32 ->
  fold_carry (2 + fuel) x = fold16 x.
Proof.
  intros Hx. cbn [Nat.add fold_carry]. destruct (65535 <? x) eqn:E1; zb; [|rewrite fold16_small by lia; done].
  rewrite carry_step by done.
  assert (Hy : 0 <= x / 65536 + x mod 65536 <= 131070) by (Z.div_mod_to_equations; lia).
  destruct (65535 <? _) eqn:E2; zb; [|rewrite <- (carry_fold16 x), fold16_small by lia; done].
  rewrite carry_step by lia. rewrite <- (carry_fold16 x E1).
  set (y := x / 65536 + x mod 65536) in *.
  assert (Hz : 0 <= y / 65536 + y mod 65536 <= 65535) by (Z.div_mod_to_equations; lia).
  rewrite <- (carry_fold16 y E2), fold16_small by done.
  destruct fuel; cbn [fold_carry]; [done|]. rewrite (proj2 (Z.ltb_ge _ _)) by lia. done.
Qed.

Lemma value_fold16 c : 0 <= _sum c < two32 -> value c = 65535 - fold16 (_sum c).
Proof.
  intros H. unfold value. rewrite (fold_carry_done 0) by done.
  pose proof (fold16_range (_sum c) ltac:(lia)). unfold Z.lnot, u16.
  replace (Z.pred (- fold16 (_sum c))) with (65535 - fold16 (_sum c) + (-1) * 65536) by lia.
  rewrite Z_mod_plus_full. apply Z.mod_small. lia.
Qed.

(** ** Summing *)

(** The exact sum of the bytes, alternating from parity [p] ([true] = low). *)
Fixpoint exact (p : bool) (d : bytes) : Z :=
  match d with
  | [] => 0
  | b :: rest => (if p then b2z b else 256 * b2z b) + exact (negb p) rest
  end.

Lemma exact_range p d : 0 <= exact p d <= 65280 * zlen d.
Proof.
  revert p. induction d as [|b d IH]; intros p; cbn [exact length]; [lia|].
  specialize (IH (negb p)). pose proof (b2z_range b). destruct p; lia.
Qed.

Lemma exact_app p d1 d2 :
  exact p (d1 ++ d2) = exact p d1 + exact (if Nat.even (length d1) then p else negb p) d2.
Proof.
  revert p. induction d1 as [|b d1 IH]; intros p; cbn [exact app]; [done|].
  rewrite IH. cbn [length]. rewrite Nat.even_succ, <- Nat.negb_even.
  destruct (Nat.even (length d1)), p; cbn; lia.
Qed.

Lemma exact_words : forall d, exact false d = foldr Z.add 0 (words d).
Proof.
  fix IH 1. intros [|a [|b d]]; cbn [exact words foldr negb]; [done|lia|].
  rewrite IH. lia.
Qed.

(** [add] is exact as long as the accumulator does not overflow. *)
Lemma add_exact d : forall c,
  0 <= _sum c -> _sum c + exact (_parity c) d < two32 ->
  _sum (add d c) = _sum c + exact (_parity c) d /\
  _parity (add d c) = (if Nat.even (length d) then _parity c else negb (_parity c)).
Proof.
  induction d as [|b d IH]; intros c H0 H1; cbn [add foldl exact length] in *; [split; [lia|done]|].
  pose proof (b2z_range b). pose proof (exact_range (negb (_parity c)) d).
  assert (Hs : _sum (add1 c b) = _sum c + (if _parity c then b2z b else 256 * b2z b)).
  { unfold add1. cbn. rewrite Z.shiftl_mul_pow2 by lia. change (2 ^ 8) with 256.
    destruct (_parity c); cbn; usimpl; lia. }
  destruct (IH (add1 c b)) as [IH1 IH2]; [rewrite Hs; destruct (_parity c); lia|..].
  { rewrite Hs. unfold add1. cbn. destruct (_parity c); lia. }
  unfold add in *. rewrite IH1, IH2, Hs. rewrite Nat.even_succ, <- Nat.negb_even.
  unfold add1. cbn. destruct (_parity c), (Nat.even (length d)); cbn; split; done || lia.
Qed.

Lemma add_app d1 d2 c : add (d1 ++ d2) c = add d2 (add d1 c).
Proof. apply foldl_app. Qed.

(** The value after summing [d] on an initial sum. *)
Lemma value_add init d : 0 <= init -> init + exact false d < two32 ->
  value (add d (make init)) = 65535 - fold16 (init + exact false d).
Proof.
  intros H0 H1. pose proof (exact_range false d).
  destruct (add_exact d (make init)) as [Hs _]; [done..|].
  rewrite value_fold16; rewrite Hs; cbn; [done|lia].
Qed.

(** One's-complement summation is summation followed by one fold. *)
Lemma ones_sum ws : Forall (fun w => 0 <= w <= 65535) ws -> forall a, 0 <= a <= 65535 ->
  foldl ones_add a ws = fold16 (a + foldr Z.add 0 ws) /\ 0 <= foldr Z.add 0 ws.
Proof.
  induction 1 as [|w ws Hw _ IH]; intros a Ha; cbn [foldl foldr].
  - rewrite Z.add_0_r, fold16_small by done. lia.
  - assert (Hs : ones_add a w = fold16 (a + w)).
    { unfold ones_add, fold16. zcase; try lia; [|rewrite Z.mod_small; lia].
      replace (a + w - 1) with (a + w - 1 - 65535 + 1 * 65535) by lia.
      rewrite Z_mod_plus_full, Z.mod_small; lia. }
    rewrite Hs. destruct (IH (fold16 (a + w))) as [-> H0]; [apply fold16_range; lia|].
    rewrite fold16_step by lia. split; [f_equal; lia|lia].
Qed.

Lemma words_range : forall d, Forall (fun w => 0 <= w <= 65535) (words d).
Proof.
  fix IH 1. intros [|a [|b d]]; cbn [words].
  - constructor.
  - constructor; [|constructor]. pose proof (b2z_range a). lia.
  - constructor; [|apply IH]. pose proof (b2z_range a). pose proof (b2z_range b). lia.
Qed.

(** C29: the class computes the checksum of RFC 1071, for any data that fits in an
    IP datagram, and however the data is cut into the calls of [add]. *)
Theorem checksum_is_rfc1071 (pieces : list bytes)
  (Hlen : zlen (concat pieces) <= 65535) :
  value (foldl (fun c d => add d c) (make 0) pieces) = rfc1071 (words (concat pieces)).
Proof.
  assert (Hp : forall c, foldl (fun c d => add d c) c pieces = add (concat pieces) c).
  { clear Hlen. induction pieces as [|d ps IH]; intros c; cbn [foldl concat]; [done|].
    rewrite IH. symmetry. apply add_app. }
  rewrite Hp. pose proof (exact_range false (concat pieces)).
  rewrite value_add by lia. unfold rfc1071.
  destruct (ones_sum _ (words_range (concat pieces)) 0) as [-> _]; [lia|].
  by rewrite exact_words.
Qed.

Lemma checksum_is_rfc1071_witness :
  value (add [x03] (add [x00; x01; xf2] (make 0))) = rfc1071 [1; 61955].
Proof.
  apply (checksum_is_rfc1071 [[x00; x01; xf2]; [x03]]). cbn. lia.
Defined.

(** Storing the value in a two-byte field that was zero, at an even offset,
    makes the checksum of the whole come out as zero. *)
Lemma checksum_field init d1 d2 v :
  Nat.even (length d1) = true -> 0 <= init ->
  init + 65280 * (zlen d1 + 2 + zlen d2) < two32 ->
  v = value (add (d1 ++ [x00; x00] ++ d2) (make init)) ->
  value (add (d1 ++ NetUnparser.be 2 v ++ d2) (make init)) = 0.
Proof.
  intros He H0 Hl Hv.
  assert (Hx : forall f, length f = 2%nat -> init + exact false (d1 ++ f ++ d2) < two32 /\
    exact false (d1 ++ f ++ d2) = exact false d1 + exact false f + exact false d2).
  { intros f Hf. pose proof (exact_range false (d1 ++ f ++ d2)) as Hr.
    rewrite !exact_app, He, Hf in *. cbn [Nat.even] in *.
    rewrite !length_app, Hf in Hr. lia. }
  destruct (Hx [x00; x00]) as [Hb0 Hs0]; [done|].
  destruct (Hx (NetUnparser.be 2 v)) as [Hb Hs]; [apply NetUnparser.length_be|].
  rewrite value_add in Hv by done. rewrite value_add by done. rewrite Hs.
  pose proof (exact_range false d1). pose proof (exact_range false d2).
  pose proof (fold16_range (init + exact false (d1 ++ [x00; x00] ++ d2)) ltac:(rewrite Hs0; cbn; lia)).
  assert (Hf : exact false (NetUnparser.be 2 v) = v).
  { rewrite NetUnparser.be_2. cbn [exact negb]. rewrite !b2z_z2b. unfold u8.
    Z.div_mod_to_equations. lia. }
  rewrite Hf, Hv, Hs0. change (exact false [x00; x00]) with 0.
  set (S := init + (exact false d1 + 0 + exact false d2)).
  replace (init + _) with (S + (65535 - fold16 S)) by lia.
  rewrite fold16_add_multiple by lia. done.
Qed.

(** A packet whose checksum field, at an even offset, holds the value
    computed with that field zero verifies: summing it again gives zero. *)
Theorem checksum_verifies (d1 d2 : bytes)
  (Heven : Nat.even (length d1) = true) (Hlen : zlen d1 + 2 + zlen d2 <= 65535) :
  value (add (d1 ++
    NetUnparser.be 2 (value (add (d1 ++ [x00; x00] ++ d2) (make 0))) ++ d2) (make 0)) = 0.
Proof. apply checksum_field; [done|lia|lia|done]. Qed.

Lemma checksum_verifies_witness :
  NetUnparser.be 2 (value (add [x45; x00; x00; x00; x01] (make 0))) = [xb9; xff] /\
  value (add [x45; x00; xb9; xff; x01] (make 0)) = 0.
Proof.
  split; [vm_compute; reflexivity|].
  apply (checksum_verifies [x45; x00] [x01]); [reflexivity|cbn; lia].
Defined.

End InternetChecksum.
