(* ===== verification/TcpWire.v ===== *)
(** * TCP segments on the wire (tcp_helpers/tcp_header, tcp_helpers/tcp_segment)

    [TCPHeader.parse] reads the fixed header and skips the options,
    [TCPHeader.serialize] writes the header and pads it to its advertised length,
    and [TCPSegment] adds the checksum over a pseudo-header, the header and the
    payload. *)

From S2P Require Import Prelude Wrapping Buffers Parsing Checksum.
From Stdlib Require Import Strings.Byte.

Module TCPHeader.

Definition LENGTH : Z := 20.

(** [struct TCPHeader]. *)
Record t : Type := mk {
  sport : Z;
  dport : Z;
  seqno : WrappingInt32.t;
  ackno : WrappingInt32.t;
  doff : Z;
  urg : bool;
  ack : bool;
  psh : bool;
  rst : bool;
  syn : bool;
  fin : bool;
  win : Z;
  cksum : Z;
  uptr : Z
}.

Definition default : t :=
  mk 0 0 (WrappingInt32.make 0) (WrappingInt32.make 0) (LENGTH / 4)
     false false false false false false 0 0 0.

Definition set_cksum (c : Z) (h : t) : t :=
  mk (sport h) (dport h) (seqno h) (ackno h) (doff h) (urg h) (ack h) (psh h) (rst h)
     (syn h) (fin h) (win h) c (uptr h).

(** The test of a flag bit: [static_cast<bool>(fl_b & mask)]. *)
Definition flag (fl_b mask : Z) : bool := negb (Z.land fl_b mask =? 0).

(** [parse] assigns every field, whatever the outcome. *)
Definition parse (_ : t) : NetParser.P (ParseResult * t) :=
  sport ← NetParser.u16;
  dport ← NetParser.u16;
  seqno ← NetParser.u32;
  ackno ← NetParser.u32;
  d ← NetParser.u8;
  let doff := Z.shiftr d 4 in
  fl_b ← NetParser.u8;
  win ← NetParser.u16;
  cksum ← NetParser.u16;
  uptr ← NetParser.u16;
  let h := mk sport dport (WrappingInt32.make seqno) (WrappingInt32.make ackno) doff
              (flag fl_b 32) (flag fl_b 16) (flag fl_b 8) (flag fl_b 4) (flag fl_b 2)
              (flag fl_b 1) win cksum uptr in
  if doff <? 5 then mret (HeaderTooShort, h)
  else
    _ ← NetParser.remove_prefix (doff * 4 ⊟ LENGTH);
    p ← NetParser.get;
    mret (if NetParser.error p then NetParser.get_error p else NoError, h).

Definition bit (b : bool) (mask : Z) : Z := if b then mask else 0.

(** The byte of flags. *)
Definition flags (h : t) : Z :=
  Z.lor (Z.lor (Z.lor (Z.lor (Z.lor (bit (urg h) 32) (bit (ack h) 16)) (bit (psh h) 8))
    (bit (rst h) 4)) (bit (syn h) 2)) (bit (fin h) 1).

Definition serialize (h : t) : res bytes :=
  if doff h <? 5 then Throw runtime_error
  else
    let ret := [] in
    let ret := NetUnparser.u16 ret (sport h) in
    let ret := NetUnparser.u16 ret (dport h) in
    let ret := NetUnparser.u32 ret (WrappingInt32.raw_value (seqno h)) in
    let ret := NetUnparser.u32 ret (WrappingInt32.raw_value (ackno h)) in
    let ret := NetUnparser.u8 ret (u8 (Z.shiftl (doff h) 4)) in
    let ret := NetUnparser.u8 ret (u8 (flags h)) in
    let ret := NetUnparser.u16 ret (win h) in
    let ret := NetUnparser.u16 ret (cksum h) in
    let ret := NetUnparser.u16 ret (uptr h) in
    Ok (resize (4 * doff h) ret).

(** [operator==] ignores the ports and the checksum. *)
Definition eqb (a b : t) : bool :=
  WrappingInt32.eqb (seqno a) (seqno b) && WrappingInt32.eqb (ackno a) (ackno b) &&
  (doff a =? doff b) && Bool.eqb (urg a) (urg b) && Bool.eqb (ack a) (ack b) &&
  Bool.eqb (psh a) (psh b) && Bool.eqb (rst a) (rst b) && Bool.eqb (syn a) (syn b) &&
  Bool.eqb (fin a) (fin b) && (win a =? win b) && (uptr a =? uptr b).

(** Every field fits its C++ type, and the data offset fits its four bits. *)
Record wf (h : t) : Prop := {
  wf_sport : 0 <= sport h < two16;
  wf_dport : 0 <= dport h < two16;
  wf_seqno : WrappingInt32.wf (seqno h);
  wf_ackno : WrappingInt32.wf (ackno h);
  wf_doff : 5 <= doff h < 16;
  wf_win : 0 <= win h < two16;
  wf_cksum : 0 <= cksum h < two16;
  wf_uptr : 0 <= uptr h < two16
}.

(** The header up to the checksum field, and after it. *)
Definition front (h : t) : bytes :=
  NetUnparser.be 2 (sport h) ++ NetUnparser.be 2 (dport h) ++
  NetUnparser.be 4 (WrappingInt32.raw_value (seqno h)) ++
  NetUnparser.be 4 (WrappingInt32.raw_value (ackno h)) ++
  NetUnparser.be 1 (u8 (Z.shiftl (doff h) 4)) ++ NetUnparser.be 1 (u8 (flags h)) ++
  NetUnparser.be 2 (win h).
Definition back (h : t) : bytes :=
  NetUnparser.be 2 (uptr h) ++ replicate (Z.to_nat (4 * doff h - 20)) x00.

Lemma tcp_header_length_front h : length (front h) = 16%nat.
Proof. unfold front. by rewrite !length_app, !NetUnparser.length_be. Qed.

Lemma tcp_header_serialize_layout h : 5 <= doff h ->
  serialize h = Ok (front h ++ NetUnparser.be 2 (cksum h) ++ back h).
Proof.
  intros Hd. unfold serialize. rewrite (proj2 (Z.ltb_ge _ _)) by done. f_equal.
  unfold NetUnparser.u8, NetUnparser.u16, NetUnparser.u32.
  rewrite !NetUnparser.unparse_app, app_nil_l, <- !app_assoc.
  rewrite resize_grow by (rewrite !length_app, !NetUnparser.length_be; lia).
  rewrite !length_app, !NetUnparser.length_be. unfold front, back.
  rewrite <- !app_assoc. repeat f_equal. lia.
Qed.

Lemma flags_range h : 0 <= flags h < 64.
Proof. unfold flags. destruct (urg h), (ack h), (psh h), (rst h), (syn h), (fin h); (split; vm_compute; congruence). Qed.

Lemma flags_flag h :
  flag (flags h) 32 = urg h /\ flag (flags h) 16 = ack h /\ flag (flags h) 8 = psh h /\
  flag (flags h) 4 = rst h /\ flag (flags h) 2 = syn h /\ flag (flags h) 1 = fin h.
Proof. unfold flags. destruct (urg h), (ack h), (psh h), (rst h), (syn h), (fin h); done. Qed.

Lemma make_raw a : WrappingInt32.wf a -> WrappingInt32.make (WrappingInt32.raw_value a) = a.
Proof.
  intros Ha. apply WrappingInt32.raw_inj. unfold WrappingInt32.make. cbn. by apply u32_small.
Qed.

(** The fields within the types they are declared with; the data offset comes from
    four bits. *)
Definition typed (h : t) : Prop :=
  Forall (fun v => 0 <= v < two16) [sport h; dport h; win h; cksum h; uptr h] /\
  WrappingInt32.wf (seqno h) /\ WrappingInt32.wf (ackno h) /\ 0 <= doff h < 16.

Lemma tcp_header_parse_typed self : NetParser.yields (parse self) (fun x => typed x.2).
Proof.
  unfold parse. repeat yields_step; cbn; (split; [forall_list|]; split_and!;
    try apply WrappingInt32.wrapping_make_wf; by apply high_bits).
Qed.

Lemma tcp_header_parse_safe self : NetParser.safe (parse self).
Proof.
  unfold parse. safe_steps. cbv zeta. case_match; [by auto with sponge|].
  apply NetParser.safe_bind; [apply NetParser.safe_remove_prefix; apply u64_range|intros].
  safe_steps. auto with sponge.
Qed.

Lemma tcp_header_parse_serialize h payload : wf h ->
  exists bs, serialize h = Ok bs /\
    forall self, NetParser.reads (parse self) (bs ++ payload) (NoError, h) payload.
Proof.
  intros [? ? ? ? Hd ? ? ?]. rewrite tcp_header_serialize_layout by lia.
  eexists; split; [done|]. intros self.
  unfold front, back, parse. rewrite <- !app_assoc.
  repeat reads_step; try apply u8_range. cbv zeta.
  rewrite !u8_small by (rewrite ?Z.shiftl_mul_pow2 by lia; pose proof (flags_range h); lia).
  rewrite Z.shiftr_shiftl_l, Z.shiftl_0_r by lia.
  destruct (flags_flag h) as (-> & -> & -> & -> & -> & ->).
  rewrite !make_raw by done. rewrite (proj2 (Z.ltb_ge _ _)) by lia.
  unfold LENGTH. eapply NetParser.reads_bind.
  - apply NetParser.reads_remove_prefix. rewrite length_replicate. usimpl. lia.
  - intros p Hw He Hi. eexists. split; [|done].
    unfold mbind, NetParser.P_bind, NetParser.get. cbn.
    unfold NetParser.error, NetParser.get_error. rewrite He. cbn. by destruct h.
Qed.

#[global] Instance wire_header : WireHeader t := {
  wh_parse := parse;
  wh_serialize := serialize;
  wh_ok h _ := wf h;
  wh_safe := tcp_header_parse_safe;
  wh_roundtrip h payload Hh := tcp_header_parse_serialize h payload Hh
}.

End TCPHeader.

Module TCPSegment.

(** [class TCPSegment]: the private members. *)
Record t : Type := mk { header : TCPHeader.t; payload : Buffer.t }.

Definition default : t := mk TCPHeader.default Buffer.nil.

(** [parse]: a segment whose checksum is wrong is left as it was. *)
Definition parse (buffer : Buffer.t) (datagram_layer_checksum : Z) (self : t)
  : res (ParseResult * t) :=
  let check := InternetChecksum.make datagram_layer_checksum in
  let check := InternetChecksum.add (Buffer.str buffer) check in
  if negb (InternetChecksum.value check =? 0) then Ok (BadChecksum, self)
  else
    '(r, h, b) ← parse_header_and_rest buffer (header self);
    Ok (r, mk h b).

Definition length_in_sequence_space (s : t) : Z :=
  Buffer.size (payload s) ⊞ (if TCPHeader.syn (header s) then 1 else 0)
    ⊞ (if TCPHeader.fin (header s) then 1 else 0).

(** The header as it is sent: its checksum covers the whole segment. *)
Definition header_out (datagram_layer_checksum : Z) (s : t) : res TCPHeader.t :=
  zeroed ← TCPHeader.serialize (TCPHeader.set_cksum 0 (header s));
  let check := InternetChecksum.make datagram_layer_checksum in
  let check := InternetChecksum.add zeroed check in
  let check := InternetChecksum.add (Buffer.str (payload s)) check in
  Ok (TCPHeader.set_cksum (InternetChecksum.value check) (header s)).

Definition serialize (datagram_layer_checksum : Z) (s : t) : res BufferList.t :=
  header_out ← header_out datagram_layer_checksum s;
  bs ← TCPHeader.serialize header_out;
  let ret := BufferList.append BufferList.nil (BufferList.of_string bs) in
  Ok (BufferList.append ret (BufferList.of_buffer (payload s))).

(** A segment that can be sent over a datagram layer with this pseudo-checksum:
    the accumulator of the checksum does not overflow. *)
Record wf (ps : Z) (s : t) : Prop := {
  wf_header : TCPHeader.wf (header s);
  wf_payload : Buffer.wf (payload s);
  wf_ps : 0 <= ps;
  wf_sum : ps + 65280 * (4 * TCPHeader.doff (header s) + zlen (Buffer.str (payload s))) < two32
}.

Lemma value_range c : 0 <= InternetChecksum.value c < two16.
Proof. apply u16_range. Qed.

(** What [serialize] writes: a header whose checksum makes the whole segment
    verify, followed by the payload. *)
Lemma segment_serialize_spec ps s : wf ps s ->
  exists c bl, serialize ps s = Ok bl /\ 0 <= c < two16 /\
    let h := TCPHeader.set_cksum c (header s) in
    header_out ps s = Ok h /\ TCPHeader.wf h /\ BufferList.wf bl /\
    (exists bs, TCPHeader.serialize h = Ok bs /\
       BufferList.flat bl = bs ++ Buffer.str (payload s)) /\
    InternetChecksum.value (InternetChecksum.add (BufferList.flat bl) (InternetChecksum.make ps)) = 0.
Proof.
  intros [Hh Hp H0 Hs]. pose proof Hh as []. unfold serialize, header_out.
  rewrite TCPHeader.tcp_header_serialize_layout by (cbn; lia). cbn [mbind res_bind].
  set (c := InternetChecksum.value _). rewrite TCPHeader.tcp_header_serialize_layout by (cbn; lia).
  cbn [mbind res_bind]. eexists c, _. split; [done|].
  pose proof (value_range (InternetChecksum.add (Buffer.str (payload s))
    (InternetChecksum.add (TCPHeader.front (TCPHeader.set_cksum 0 (header s)) ++
      NetUnparser.be 2 (TCPHeader.cksum (TCPHeader.set_cksum 0 (header s))) ++
      TCPHeader.back (TCPHeader.set_cksum 0 (header s))) (InternetChecksum.make ps)))) as Hc.
  fold c in Hc. split; [done|].
  cbv zeta. rewrite !BufferList.flat_append, BufferList.flat_of_string.
  unfold BufferList.of_buffer. cbn [BufferList.flat BufferList.nil concat fmap list_fmap app].
  rewrite app_nil_r.
  set (f := TCPHeader.front (header s)) in *. set (b := TCPHeader.back (header s)) in *.
  change (TCPHeader.front (TCPHeader.set_cksum c (header s))) with f.
  change (TCPHeader.back (TCPHeader.set_cksum c (header s))) with b.
  change (TCPHeader.cksum (TCPHeader.set_cksum c (header s))) with c.
  assert (Hlf : length f = 16%nat) by apply TCPHeader.tcp_header_length_front.
  assert (Hlb : zlen b = 4 * TCPHeader.doff (header s) - 18).
  { unfold b, TCPHeader.back. rewrite length_app, NetUnparser.length_be, length_replicate. lia. }
  split_and!.
  - done.
  - split; cbn; done.
  - apply BufferList.append_wf; [apply BufferList.append_wf|].
    + constructor.
    + apply BufferList.buffer_list_of_string_wf. rewrite !length_app, NetUnparser.length_be. lia.
    + by apply Forall_singleton.
  - eexists. split; [|done]. apply TCPHeader.tcp_header_serialize_layout. cbn. lia.
  - rewrite <- !app_assoc. apply InternetChecksum.checksum_field.
    + by rewrite Hlf.
    + done.
    + rewrite length_app. lia.
    + unfold c. rewrite <- InternetChecksum.add_app, <- !app_assoc. done.
Qed.

Lemma segment_parse_safe buffer ps self : Buffer.wf buffer ->
  exists r s, parse buffer ps self = Ok (r, s) /\ (s = self \/ Buffer.wf (payload s)).
Proof.
  intros Hb. unfold parse. case_match; [eexists _, _; split; [done|by left]|].
  destruct (parse_header_and_rest_safe buffer (header self) Hb) as (r & h & b & -> & Hw).
  cbn. eexists _, _. split; [done|by right].
Qed.

Lemma segment_parse_serialized ps s self buffer : wf ps s -> Buffer.wf buffer ->
  BufferList.concatenate <$> serialize ps s = Ok (Buffer.str buffer) ->
  exists c s', header_out ps s = Ok (TCPHeader.set_cksum c (header s)) /\
    parse buffer ps self = Ok (NoError, s') /\
    header s' = TCPHeader.set_cksum c (header s) /\
    Buffer.str (payload s') = Buffer.str (payload s).
Proof.
  intros Hwf Hb Hbuf.
  destruct (segment_serialize_spec ps s Hwf) as (c & bl & Hs & _ & Ho & Hh & _ & (bs & Hbs & Hf) & Hv).
  rewrite Hs in Hbuf. injection Hbuf as Hbuf. rewrite BufferList.concatenate_flat in Hbuf.
  rewrite Hbuf in Hf, Hv.
  destruct (parse_header_and_rest_roundtrip (TCPHeader.set_cksum c (header s))
    (Buffer.str (payload s)) buffer bs (header self)) as (b & Hp & _ & Hb'); [done..|].
  exists c. eexists (mk _ b). split; [done|]. unfold parse. rewrite Hv. cbn [negb Z.eqb].
  rewrite Hp. done.
Qed.

(** The header of a segment that was parsed has the types of its fields. *)
Lemma segment_parse_typed buffer ps self r s : TCPHeader.typed (header self) ->
  parse buffer ps self = Ok (r, s) -> TCPHeader.typed (header s).
Proof.
  intros Hself. unfold parse. case_match; [by intros [= _ <-]|].
  intros ([[r' h] b] & E & [= _ <-])%bind_Ok.
  exact (parse_header_and_rest_yields _ _ TCPHeader.typed _ _ _ (TCPHeader.tcp_header_parse_typed _) E).
Qed.

Lemma default_typed : TCPHeader.typed (header default).
Proof. split; [forall_list; cbn; lia|]. split_and!; try apply WrappingInt32.wrapping_make_wf; by vm_compute. Qed.

Lemma parse_sport buffer ps r s : parse buffer ps default = Ok (r, s) ->
  0 <= TCPHeader.sport (header s) < two16.
Proof. intros E. apply segment_parse_typed in E as [[Hf _]%Forall_cons _]; [done|apply default_typed]. Qed.

(** C27: a segment that is serialised over a datagram layer and parsed again over
    the same layer comes back: no error (the checksum verifies), the same header
    up to the checksum that was filled in, the same payload. *)
Theorem segment_roundtrip (ps : Z) (s self : t) (buffer : Buffer.t) (Hwf : wf ps s)
  (Hb : Buffer.wf buffer)
  (Hbuf : BufferList.concatenate <$> serialize ps s = Ok (Buffer.str buffer)) :
  exists c s', header_out ps s = Ok (TCPHeader.set_cksum c (header s)) /\
    parse buffer ps self = Ok (NoError, s') /\
    header s' = TCPHeader.set_cksum c (header s) /\
    Buffer.str (payload s') = Buffer.str (payload s).
Proof. by apply segment_parse_serialized. Qed.

Definition example : t :=
  mk (TCPHeader.mk 80 4660 (WrappingInt32.make 4294967295) (WrappingInt32.make 7) 5
        false true false false true false 1000 0 0) (Buffer.of_string [x68; x69; x21]).

Lemma segment_roundtrip_witness :
  exists c s', parse
      (Buffer.of_string (match serialize 77 example with
                         | Ok bl => BufferList.concatenate bl | Throw _ => [] end)) 77 default
      = Ok (NoError, s') /\ header s' = TCPHeader.set_cksum c (header example).
Proof.
  destruct (segment_roundtrip 77 example default
    (Buffer.of_string (match serialize 77 example with
                       | Ok bl => BufferList.concatenate bl | Throw _ => [] end)))
    as (c & s' & _ & Hp & Hh & _).
  - split; [split; (split; vm_compute; congruence) | apply Buffer.buffer_of_string_wf; cbn; lia | lia | ].
    vm_compute. reflexivity.
  - apply Buffer.buffer_of_string_wf. vm_compute. reflexivity.
  - vm_compute. reflexivity.
  - exists c, s'. split; [exact Hp|exact Hh].
Defined.

End TCPSegment.
