(* ===== verification/Ipv4Wire.v ===== *)
(** * IPv4 datagrams on the wire (tcp_helpers/ipv4_header, tcp_helpers/ipv4_datagram)

    The header carries its own checksum and the length of the whole datagram, so
    [IPv4Header.parse] looks at the size of the buffer before it reads a field. *)

From S2P Require Import Prelude Wrapping Buffers Parsing Checksum.
From Stdlib Require Import Strings.Byte.

Module IPv4Header.

Definition LENGTH : Z := 20.
Definition DEFAULT_TTL : Z := 128.
Definition PROTO_TCP : Z := 6.

(** [struct IPv4Header]. *)
Record t : Type := mk {
  ver : Z;
  hlen : Z;
  tos : Z;
  len : Z;
  id : Z;
  df : bool;
  mf : bool;
  offset : Z;
  ttl : Z;
  proto : Z;
  cksum : Z;
  src : Z;
  dst : Z
}.

Definition default : t := mk 4 (LENGTH / 4) 0 0 0 true false 0 DEFAULT_TTL PROTO_TCP 0 0 0.

Definition set_cksum (c : Z) (h : t) : t :=
  mk (ver h) (hlen h) (tos h) (len h) (id h) (df h) (mf h) (offset h) (ttl h) (proto h) c
     (src h) (dst h).

Definition payload_length (h : t) : Z := u16 (len h - 4 * hlen h).

Definition pseudo_cksum (h : t) : Z :=
  let pcksum := u32 (Z.shiftr (src h) 16 + Z.land (src h) 65535) in
  let pcksum := u32 (pcksum + u32 (Z.shiftr (dst h) 16 + Z.land (dst h) 65535)) in
  let pcksum := u32 (pcksum + proto h) in
  u32 (pcksum + payload_length h).

(** [parse]: too short a buffer leaves the header as it was; the other checks
    come after all the fields have been assigned. *)
Definition parse (self : t) : NetParser.P (ParseResult * t) :=
  original ← NetParser.get;
  let original_serialized_version := NetParser.buffer original in
  let data_size := Buffer.size (NetParser.buffer original) in
  if data_size <? LENGTH then mret (PacketTooShort, self)
  else
    first_byte ← NetParser.u8;
    let ver := Z.shiftr first_byte 4 in
    let hlen := Z.land first_byte 15 in
    tos ← NetParser.u8;
    len ← NetParser.u16;
    id ← NetParser.u16;
    fo_val ← NetParser.u16;
    let df := negb (Z.land fo_val 16384 =? 0) in
    let mf := negb (Z.land fo_val 8192 =? 0) in
    let offset := Z.land fo_val 8191 in
    ttl ← NetParser.u8;
    proto ← NetParser.u8;
    cksum ← NetParser.u16;
    src ← NetParser.u32;
    dst ← NetParser.u32;
    let h := mk ver hlen tos len id df mf offset ttl proto cksum src dst in
    if data_size <? 4 * hlen then mret (PacketTooShort, h)
    else if negb (ver =? 4) then mret (WrongIPVersion, h)
    else if hlen <? 5 then mret (HeaderTooShort, h)
    else if negb (data_size =? len) then mret (TruncatedPacket, h)
    else
      _ ← NetParser.remove_prefix (hlen * 4 ⊟ LENGTH);
      p ← NetParser.get;
      if NetParser.error p then mret (NetParser.get_error p, h)
      else
        let check := InternetChecksum.make 0 in
        let check := InternetChecksum.add
          (take (Z.to_nat (4 * hlen)) (Buffer.str original_serialized_version)) check in
        if negb (InternetChecksum.value check =? 0) then mret (BadChecksum, h)
        else mret (NoError, h).

(** The flags and the fragment offset. *)
Definition fo_val (h : t) : Z :=
  Z.lor (Z.lor (if df h then 16384 else 0) (if mf h then 8192 else 0)) (Z.land (offset h) 8191).

Definition serialize (h : t) : res bytes :=
  if negb (ver h =? 4) then Throw runtime_error
  else if 4 * hlen h <? LENGTH then Throw runtime_error
  else
    let ret := [] in
    let ret := NetUnparser.u8 ret (u8 (Z.lor (Z.shiftl (ver h) 4) (Z.land (hlen h) 15))) in
    let ret := NetUnparser.u8 ret (tos h) in
    let ret := NetUnparser.u16 ret (len h) in
    let ret := NetUnparser.u16 ret (id h) in
    let ret := NetUnparser.u16 ret (u16 (fo_val h)) in
    let ret := NetUnparser.u8 ret (ttl h) in
    let ret := NetUnparser.u8 ret (proto h) in
    let ret := NetUnparser.u16 ret (cksum h) in
    let ret := NetUnparser.u32 ret (src h) in
    let ret := NetUnparser.u32 ret (dst h) in
    Ok (resize (4 * hlen h) ret).

(** Every field fits its type, and the bit fields their bits. *)
Record wf (h : t) : Prop := {
  wf_ver : ver h = 4;
  wf_hlen : 5 <= hlen h < 16;
  wf_tos : 0 <= tos h < two8;
  wf_len : 0 <= len h < two16;
  wf_id : 0 <= id h < two16;
  wf_offset : 0 <= offset h < 8192;
  wf_ttl : 0 <= ttl h < two8;
  wf_proto : 0 <= proto h < two8;
  wf_cksum : 0 <= cksum h < two16;
  wf_src : 0 <= src h < two32;
  wf_dst : 0 <= dst h < two32
}.

(** The fields within the types they are declared with; the version and the header
    length come from four bits each, the offset from thirteen. *)
Definition typed (h : t) : Prop :=
  Forall (fun v => 0 <= v < 16) [ver h; hlen h] /\
  Forall (fun v => 0 <= v < two8) [tos h; ttl h; proto h] /\
  Forall (fun v => 0 <= v < two16) [len h; id h; cksum h] /\
  0 <= offset h < 8192 /\ Forall (fun v => 0 <= v < two32) [src h; dst h].

Lemma ipv4_header_parse_typed self : typed self -> NetParser.yields (parse self) (fun x => typed x.2).
Proof.
  intros Hself. unfold parse. repeat yields_step; try done; cbn; unfold typed; cbn;
    (split_and!; [forall_list|forall_list|forall_list|..|forall_list]);
    first [by apply high_bits|exact (low_bits _ 4 ltac:(done))|apply (low_bits _ 13 ltac:(done))].
Qed.

Definition front (h : t) : bytes :=
  NetUnparser.be 1 (u8 (Z.lor (Z.shiftl (ver h) 4) (Z.land (hlen h) 15))) ++
  NetUnparser.be 1 (tos h) ++ NetUnparser.be 2 (len h) ++ NetUnparser.be 2 (id h) ++
  NetUnparser.be 2 (u16 (fo_val h)) ++ NetUnparser.be 1 (ttl h) ++ NetUnparser.be 1 (proto h).
Definition back (h : t) : bytes :=
  NetUnparser.be 4 (src h) ++ NetUnparser.be 4 (dst h) ++
  replicate (Z.to_nat (4 * hlen h - 20)) x00.

(** The bytes of a header; [set_cksum] changes two of them. *)
Definition encode (h : t) : bytes := front h ++ NetUnparser.be 2 (cksum h) ++ back h.

Lemma ipv4_header_length_front h : length (front h) = 10%nat.
Proof. unfold front. by rewrite !length_app, !NetUnparser.length_be. Qed.

Lemma length_back h : 5 <= hlen h -> zlen (back h) = 4 * hlen h - 12.
Proof. intros. unfold back. rewrite !length_app, !NetUnparser.length_be, length_replicate. lia. Qed.

Lemma ipv4_header_length_encode h : 5 <= hlen h -> zlen (encode h) = 4 * hlen h.
Proof.
  intros. unfold encode. rewrite !length_app, ipv4_header_length_front, NetUnparser.length_be.
  pose proof (length_back h). lia.
Qed.

Lemma ipv4_header_serialize_layout h : ver h = 4 -> 5 <= hlen h -> serialize h = Ok (encode h).
Proof.
  intros Hv Hd. unfold serialize. rewrite Hv. cbn [Z.eqb negb Pos.eqb].
  unfold LENGTH. rewrite (proj2 (Z.ltb_ge _ _)) by lia. f_equal.
  unfold NetUnparser.u8, NetUnparser.u16, NetUnparser.u32.
  rewrite !NetUnparser.unparse_app, app_nil_l, <- !app_assoc.
  rewrite resize_grow by (rewrite !length_app, !NetUnparser.length_be; lia).
  rewrite !length_app, !NetUnparser.length_be. unfold encode, front, back. rewrite Hv.
  rewrite <- !app_assoc. repeat f_equal. lia.
Qed.

Lemma first_byte h : wf h ->
  let b := u8 (Z.lor (Z.shiftl (ver h) 4) (Z.land (hlen h) 15)) in
  Z.shiftr b 4 = 4 /\ Z.land b 15 = hlen h.
Proof.
  intros [Hv Hh _ _ _ _ _ _ _ _ _]. rewrite Hv.
  assert (H : hlen h = 5 \/ hlen h = 6 \/ hlen h = 7 \/ hlen h = 8 \/ hlen h = 9 \/ hlen h = 10 \/
    hlen h = 11 \/ hlen h = 12 \/ hlen h = 13 \/ hlen h = 14 \/ hlen h = 15) by lia.
  repeat destruct H as [->|H]; [done..|]. by rewrite H.
Qed.

(** Packing two flags above a 13-bit field. *)
Lemma fo_val_sum h : wf h ->
  fo_val h = (if df h then 16384 else 0) + (if mf h then 8192 else 0) + offset h.
Proof.
  intros [_ _ _ _ _ Ho _ _ _ _ _]. unfold fo_val.
  change 8191 with (Z.ones 13). rewrite Z.land_ones, Z.mod_small by lia.
  assert (Hx : Z.lor (if df h then 16384 else 0) (if mf h then 8192 else 0) =
    (if df h then 16384 else 0) + (if mf h then 8192 else 0)) by (by destruct (df h), (mf h)).
  rewrite Hx. set (x := (if df h then 16384 else 0) + _).
  pose proof (Z.add_lor_land x (offset h)) as Ha.
  assert (Hl : Z.land x (offset h) = 0); [|lia].
  rewrite <- (Z.mod_small (offset h) (2 ^ 13)) by lia.
  rewrite <- Z.land_ones, (Z.land_comm (offset h)), Z.land_assoc by lia.
  unfold x. by destruct (df h), (mf h).
Qed.

Lemma fo_val_range h : wf h -> 0 <= fo_val h < two16.
Proof.
  intros Hw. rewrite fo_val_sum by done. destruct Hw. destruct (df h), (mf h); lia.
Qed.

Lemma testbit_land x n : 0 <= x -> 0 <= n -> negb (Z.land x (2 ^ n) =? 0) = Z.odd (x / 2 ^ n).
Proof.
  intros Hx Hn. rewrite <- Z.shiftr_div_pow2, <- Z.bit0_odd, Z.shiftr_spec by lia. cbn.
  destruct (Z.testbit x n) eqn:E.
  - assert (Z.land x (2 ^ n) <> 0); [|by rewrite (proj2 (Z.eqb_neq _ _))].
    intros H. apply (f_equal (fun y => Z.testbit y n)) in H.
    rewrite Z.land_spec, E, Z.pow2_bits_true, Z.bits_0 in H by lia. done.
  - rewrite (proj2 (Z.eqb_eq _ _)); [done|]. apply Z.bits_inj'. intros m Hm.
    rewrite Z.land_spec, Z.bits_0. destruct (decide (n = m)) as [->|].
    + by rewrite E.
    + by rewrite Z.pow2_bits_false, andb_false_r by lia.
Qed.

Lemma fo_val_fields h : wf h ->
  negb (Z.land (fo_val h) 16384 =? 0) = df h /\
  negb (Z.land (fo_val h) 8192 =? 0) = mf h /\ Z.land (fo_val h) 8191 = offset h.
Proof.
  intros Hw. pose proof (fo_val_range h Hw). pose proof (fo_val_sum h Hw) as Hs.
  destruct Hw as [_ _ _ _ _ Ho _ _ _ _ _].
  change 16384 with (2 ^ 14). change 8192 with (2 ^ 13). rewrite !testbit_land by lia.
  change 8191 with (Z.ones 13). rewrite Z.land_ones by lia. rewrite Hs.
  change (2 ^ 14) with 16384. change (2 ^ 13) with 8192.
  split_and!.
  - replace ((_ + _ + offset h) / 16384) with (if df h then 1 else 0)
      by (destruct (df h), (mf h); Z.div_mod_to_equations; lia). by destruct (df h).
  - replace ((_ + _ + offset h) / 8192) with ((if df h then 2 else 0) + (if mf h then 1 else 0))
      by (destruct (df h), (mf h); Z.div_mod_to_equations; lia). by destruct (df h), (mf h).
  - destruct (df h), (mf h); Z.div_mod_to_equations; lia.
Qed.

Lemma ipv4_header_parse_safe self : NetParser.safe (parse self).
Proof.
  unfold parse. apply NetParser.safe_bind; [apply NetParser.safe_get|intros p0]. cbv zeta.
  case_match; [by auto with sponge|]. safe_steps.
  do 4 (case_match; [by auto with sponge|]).
  apply NetParser.safe_bind; [apply NetParser.safe_remove_prefix; apply u64_range|intros].
  apply NetParser.safe_bind; [apply NetParser.safe_get|intros].
  repeat case_match; auto with sponge.
Qed.

(** What [parse] makes of a well-formed header followed by a payload whose
    length the header records: the fields, and a verdict on the checksum. *)
Definition verdict (h : t) : ParseResult :=
  if InternetChecksum.value (InternetChecksum.add (encode h) (InternetChecksum.make 0)) =? 0
  then NoError else BadChecksum.

Lemma ipv4_header_parse_encoded h payload self : wf h -> len h = 4 * hlen h + zlen payload ->
  NetParser.reads (parse self) (encode h ++ payload) (verdict h, h) payload.
Proof.
  intros Hw Hlen. pose proof Hw as []. pose proof (ipv4_header_length_encode h ltac:(lia)) as Hle.
  unfold parse. apply NetParser.reads_get. intros p0 Hp0 _ Hi. cbv zeta.
  unfold NetParser.buffer, NetParser.input in *.
  assert (Hsz : Buffer.size (NetParser._buffer p0) = len h)
    by (rewrite Buffer.size_str, Hi, length_app by done; lia).
  assert (Hck : take (Z.to_nat (4 * hlen h)) (Buffer.str (NetParser._buffer p0)) = encode h)
    by (by rewrite Hi, take_app_length' by lia).
  rewrite Hsz. unfold LENGTH. rewrite (proj2 (Z.ltb_ge _ _)) by lia.
  unfold encode at 1, front, back. rewrite <- !app_assoc.
  repeat reads_step.
  pose proof (first_byte h Hw) as [Hf1 Hf2]. cbv zeta in Hf1, Hf2. rewrite Hf1, Hf2.
  rewrite u16_small by (by apply fo_val_range).
  destruct (fo_val_fields h Hw) as (-> & -> & ->).
  rewrite (proj2 (Z.ltb_ge _ (4 * hlen h))) by lia. cbn [Z.eqb negb Pos.eqb].
  rewrite (proj2 (Z.ltb_ge (hlen h) _)) by lia. rewrite Z.eqb_refl. cbn [negb].
  eapply NetParser.reads_bind.
  { apply NetParser.reads_remove_prefix. rewrite length_replicate. usimpl. lia. }
  apply NetParser.reads_get. intros p Hp He Hi'.
  unfold NetParser.error, NetParser.get_error. rewrite He. cbn [is_NoError negb].
  rewrite Hck. replace (mk 4 _ _ _ _ _ _ _ _ _ _ _ _) with h by (by destruct h; cbn in *; subst).
  unfold verdict. destruct (_ =? 0); apply NetParser.reads_ret.
Qed.

(** The headers that may precede a payload: the lengths agree, and the checksum
    of the header verifies. *)
Definition ok (h : t) (payload : bytes) : Prop :=
  wf h /\ len h = 4 * hlen h + zlen payload /\ verdict h = NoError.

Lemma ipv4_header_parse_serialize h payload : ok h payload ->
  exists bs, serialize h = Ok bs /\
    forall self, NetParser.reads (parse self) (bs ++ payload) (NoError, h) payload.
Proof.
  intros (Hw & Hlen & Hv). exists (encode h). split.
  - destruct Hw. apply ipv4_header_serialize_layout; lia.
  - intros self. rewrite <- Hv. by apply ipv4_header_parse_encoded.
Qed.

#[global] Instance wire_header : WireHeader t := {
  wh_parse := parse;
  wh_serialize := serialize;
  wh_ok := ok;
  wh_safe := ipv4_header_parse_safe;
  wh_roundtrip := ipv4_header_parse_serialize
}.

End IPv4Header.

Module IPv4Datagram.

(** [class IPv4Datagram]: the private members. *)
Record t : Type := mk { header : IPv4Header.t; payload : BufferList.t }.

Definition default : t := mk IPv4Header.default BufferList.nil.

Definition parse (buffer : Buffer.t) (self : t) : res (ParseResult * t) :=
  '(r, h, b) ← parse_header_and_rest buffer (header self);
  let d := mk h (BufferList.of_buffer b) in
  if negb (BufferList.size (payload d) =? IPv4Header.payload_length h)
  then Ok (PacketTooShort, d)
  else Ok (r, d).

(** The header as it is sent: its checksum covers the header only. *)
Definition header_out (d : t) : res IPv4Header.t :=
  header_zero_checksum ← IPv4Header.serialize (IPv4Header.set_cksum 0 (header d));
  let check := InternetChecksum.add header_zero_checksum (InternetChecksum.make 0) in
  Ok (IPv4Header.set_cksum (InternetChecksum.value check) (header d)).

Definition serialize (d : t) : res BufferList.t :=
  if negb (BufferList.size (payload d) =? IPv4Header.payload_length (header d))
  then Throw runtime_error
  else
    header_out ← header_out d;
    bs ← IPv4Header.serialize header_out;
    let ret := BufferList.append BufferList.nil (BufferList.of_string bs) in
    Ok (BufferList.append ret (payload d)).

(** A datagram that can be sent: fields in range, lengths that agree. *)
Record wf (d : t) : Prop := {
  wf_header : IPv4Header.wf (header d);
  wf_payload : BufferList.wf (payload d);
  wf_len : IPv4Header.len (header d) =
    4 * IPv4Header.hlen (header d) + zlen (BufferList.flat (payload d))
}.

Lemma wf_size d : wf d ->
  BufferList.size (payload d) = IPv4Header.payload_length (header d) /\
  BufferList.size (payload d) = zlen (BufferList.flat (payload d)).
Proof.
  intros [Hh Hp Hl]. destruct Hh. rewrite BufferList.size_flat by done.
  unfold IPv4Header.payload_length. rewrite u64_small, u16_small by lia. lia.
Qed.

Lemma wf_set_cksum h c : IPv4Header.wf h -> 0 <= c < two16 -> IPv4Header.wf (IPv4Header.set_cksum c h).
Proof. intros [] ?. by split. Qed.

(** What [serialize] writes: a header whose own checksum verifies, followed by
    the payload. *)
Lemma datagram_serialize_spec d : wf d ->
  exists c bl, serialize d = Ok bl /\
    let h := IPv4Header.set_cksum c (header d) in
    header_out d = Ok h /\ IPv4Header.wf h /\ IPv4Header.verdict h = NoError /\
    BufferList.wf bl /\
    BufferList.flat bl = IPv4Header.encode h ++ BufferList.flat (payload d).
Proof.
  intros Hw. pose proof (wf_size d Hw) as [Hs _]. destruct Hw as [Hh Hp Hl]. pose proof Hh as [].
  unfold serialize, header_out. rewrite Hs, Z.eqb_refl. cbn [negb].
  rewrite IPv4Header.ipv4_header_serialize_layout by (cbn; lia). cbn [mbind res_bind].
  set (c := InternetChecksum.value _).
  assert (Hc : 0 <= c < two16) by apply u16_range.
  rewrite IPv4Header.ipv4_header_serialize_layout by (cbn; lia). cbn [mbind res_bind].
  eexists c, _. split; [done|]. cbv zeta.
  pose proof (IPv4Header.length_back (header d) ltac:(lia)) as Hlb.
  split_and!.
  - done.
  - by apply wf_set_cksum.
  - unfold IPv4Header.verdict. rewrite (proj2 (Z.eqb_eq _ _)); [done|].
    unfold IPv4Header.encode. apply InternetChecksum.checksum_field; [|lia| |done].
    + by rewrite IPv4Header.ipv4_header_length_front.
    + rewrite IPv4Header.ipv4_header_length_front.
      change (IPv4Header.back (IPv4Header.set_cksum c (header d))) with (IPv4Header.back (header d)).
      lia.
  - apply BufferList.append_wf; [apply BufferList.append_wf|done].
    + constructor.
    + apply BufferList.buffer_list_of_string_wf. rewrite IPv4Header.ipv4_header_length_encode by (cbn; lia). cbn. lia.
  - by rewrite !BufferList.flat_append, BufferList.flat_of_string.
Qed.

(** Parsing a well-formed header followed by a payload of the recorded length
    reports no error, whatever the verdict on the checksum. *)
Lemma datagram_parse_encoded h pl buffer self :
  IPv4Header.wf h -> IPv4Header.len h = 4 * IPv4Header.hlen h + zlen pl ->
  Buffer.wf buffer -> Buffer.str buffer = IPv4Header.encode h ++ pl ->
  exists d, parse buffer self = Ok (NoError, d) /\ header d = h /\
    BufferList.wf (payload d) /\ BufferList.flat (payload d) = pl.
Proof.
  intros Hw Hl Hb Hs. pose proof (zlen_nonneg pl).
  destruct (IPv4Header.ipv4_header_parse_encoded h pl (header self) Hw Hl (NetParser.make buffer))
    as (p & E & Hp & He & Hi); [done..|].
  unfold parse, parse_header_and_rest. cbn [wh_parse IPv4Header.wire_header]. rewrite E.
  cbn [mbind res_bind payload header]. unfold NetParser.get_error. rewrite He.
  assert (Hf : BufferList.flat (BufferList.of_buffer (NetParser.buffer p)) = pl)
    by (cbn; by rewrite app_nil_r).
  assert (Hwl : BufferList.wf (BufferList.of_buffer (NetParser.buffer p))) by (by apply Forall_singleton).
  rewrite BufferList.size_flat, Hf by done. unfold IPv4Header.payload_length. destruct Hw.
  rewrite u64_small, u16_small by lia. rewrite (proj2 (Z.eqb_eq _ _)) by lia.
  eexists. done.
Qed.

(** The header of a datagram that was parsed has the types of its fields. *)
Lemma datagram_parse_typed buffer self r d : IPv4Header.typed (header self) ->
  parse buffer self = Ok (r, d) -> IPv4Header.typed (header d).
Proof.
  intros Hself. unfold parse. intros ([[r' h] b] & E & Hr)%bind_Ok.
  apply (parse_header_and_rest_yields _ _ IPv4Header.typed) in E; [|by apply IPv4Header.ipv4_header_parse_typed].
  destruct (negb _); by injection Hr as _ <-.
Qed.

Lemma datagram_default_typed : IPv4Header.typed (header default).
Proof. split_and!; forall_list; by vm_compute. Qed.

(** What [parse] leaves behind: one buffer of payload, and addresses that are
    [uint32_t]s. *)
Lemma parse_shape buffer r d : Buffer.wf buffer -> parse buffer default = Ok (r, d) ->
  (exists b, payload d = BufferList.of_buffer b /\ Buffer.wf b) /\
  0 <= IPv4Header.src (header d) < two32 /\ 0 <= IPv4Header.dst (header d) < two32.
Proof.
  intros Hb Hp. pose proof (datagram_parse_typed _ _ _ _ datagram_default_typed Hp) as (_ & _ & _ & _ & [Hs [Hd _]%Forall_cons]%Forall_cons).
  split; [|done]. revert Hp. unfold parse, parse_header_and_rest.
  destruct (wh_safe (header default) (NetParser.make buffer) Hb) as ([r' h] & p & E & Hp & _).
  rewrite E. cbn [mbind res_bind]. destruct (negb _); intros [= _ <-]; by eexists.
Qed.

(** A datagram that is serialised and parsed again comes back: no error, the
    same header up to the checksum that was filled in (and which verifies), the
    same payload bytes. *)
Theorem datagram_roundtrip (d self : t) (buffer : Buffer.t) (Hwf : wf d) (Hb : Buffer.wf buffer)
  (Hbuf : BufferList.concatenate <$> serialize d = Ok (Buffer.str buffer)) :
  exists c d', header_out d = Ok (IPv4Header.set_cksum c (header d)) /\
    IPv4Header.verdict (IPv4Header.set_cksum c (header d)) = NoError /\
    parse buffer self = Ok (NoError, d') /\
    header d' = IPv4Header.set_cksum c (header d) /\
    BufferList.concatenate (payload d') = BufferList.concatenate (payload d).
Proof.
  destruct (datagram_serialize_spec d Hwf) as (c & bl & Hs & Ho & Hh & Hv & _ & Hf).
  rewrite Hs in Hbuf. injection Hbuf as Hbuf. rewrite BufferList.concatenate_flat in Hbuf.
  destruct (datagram_parse_encoded (IPv4Header.set_cksum c (header d)) (BufferList.flat (payload d))
    buffer self) as (d' & Hp & Hd & _ & Hpl); [done|by destruct Hwf|done|congruence|].
  exists c, d'. by rewrite !BufferList.concatenate_flat.
Qed.

Definition example : t :=
  mk (IPv4Header.mk 4 6 0 27 513 true false 7 64 6 0 167772161 3232235777)
     (BufferList.append (BufferList.of_string [x61]) (BufferList.of_string [x62; x63])).

Lemma datagram_roundtrip_witness :
  exists d', parse (Buffer.of_string (match serialize example with
                         | Ok bl => BufferList.concatenate bl | Throw _ => [] end)) default
      = Ok (NoError, d') /\ BufferList.concatenate (payload d') = [x61; x62; x63].
Proof.
  destruct (datagram_roundtrip example default
    (Buffer.of_string (match serialize example with
                       | Ok bl => BufferList.concatenate bl | Throw _ => [] end)))
    as (c & d' & _ & _ & Hp & _ & Hpl).
  - split; [split; try reflexivity; (split; vm_compute; congruence) | | reflexivity].
    apply BufferList.append_wf; apply BufferList.buffer_list_of_string_wf; cbn; lia.
  - apply Buffer.buffer_of_string_wf. vm_compute. reflexivity.
  - vm_compute. reflexivity.
  - exists d'. split; [exact Hp|]. rewrite Hpl. reflexivity.
Defined.

(** A datagram whose header checksum does not verify is nevertheless
    accepted: [IPv4Header::parse] reports [BadChecksum], but
    [IPv4Datagram::parse] drops that result and reports no error. *)
Theorem corrupt_header_accepted (h : IPv4Header.t) (pl : bytes) (self : t) (buffer : Buffer.t)
  (Hw : IPv4Header.wf h) (Hl : IPv4Header.len h = 4 * IPv4Header.hlen h + zlen pl)
  (Hb : Buffer.wf buffer) (Hs : Buffer.str buffer = IPv4Header.encode h ++ pl)
  (Hbad : InternetChecksum.value
            (InternetChecksum.add (IPv4Header.encode h) (InternetChecksum.make 0)) <> 0) :
  (exists p, IPv4Header.parse (header self) (NetParser.make buffer) = Ok ((BadChecksum, h), p)) /\
  (exists d, parse buffer self = Ok (NoError, d) /\ header d = h).
Proof.
  split.
  - destruct (IPv4Header.ipv4_header_parse_encoded h pl (header self) Hw Hl (NetParser.make buffer))
      as (p & E & _); [done..|]. exists p. rewrite E. unfold IPv4Header.verdict.
    by rewrite (proj2 (Z.eqb_neq _ _)).
  - destruct (datagram_parse_encoded h pl buffer self Hw Hl Hb Hs) as (d & ? & ? & _). by exists d.
Qed.

Lemma corrupt_header_accepted_witness :
  exists d, parse (Buffer.of_string (IPv4Header.encode
    (IPv4Header.mk 4 5 0 20 0 true false 0 64 6 12345 167772161 3232235777) ++ [])) default
    = Ok (NoError, d) /\ IPv4Header.cksum (header d) = 12345.
Proof.
  set (h := IPv4Header.mk 4 5 0 20 0 true false 0 64 6 12345 167772161 3232235777).
  destruct (corrupt_header_accepted h [] default (Buffer.of_string (IPv4Header.encode h ++ [])))
    as [_ (d & Hp & Hd)].
  - split; try reflexivity; (split; vm_compute; congruence).
  - reflexivity.
  - apply Buffer.buffer_of_string_wf. vm_compute. reflexivity.
  - apply Buffer.str_of_string.
  - vm_compute. congruence.
  - exists d. split; [exact Hp|]. rewrite Hd. reflexivity.
Defined.

End IPv4Datagram.
