(* ===== verification/EthernetWire.v ===== *)
(** * Ethernet frames and ARP messages on the wire
    (tcp_helpers/ethernet_header, tcp_helpers/ethernet_frame, tcp_helpers/arp_message) *)

From S2P Require Import Prelude Buffers Parsing Checksum TcpWire Ipv4Wire.
From Stdlib Require Import Strings.Byte.

Module EthernetAddress.

(** [std::array<uint8_t, 6>]. *)
Definition t : Type := list Z.

Definition ETHERNET_BROADCAST : t := [255; 255; 255; 255; 255; 255].

Definition wf (a : t) : Prop := length a = 6%nat /\ Forall (fun b => 0 <= b < two8) a.

(** The loop [for (auto &byte : a) byte = p.u8();]. *)
Fixpoint read (a : t) : NetParser.P t :=
  match a with
  | [] => mret []
  | _ :: rest =>
      byte ← NetParser.u8;
      bytes ← read rest;
      mret (byte :: bytes)
  end.

(** The loop [for (auto &byte : a) NetUnparser::u8(ret, byte);]. *)
Definition write (ret : bytes) (a : t) : bytes := foldl NetUnparser.u8 ret a.

Definition eqb (a b : t) : bool := bool_decide (a = b).

(** The bytes of an address. *)
Definition encode (a : t) : bytes := concat (NetUnparser.be 1 <$> a).

Lemma write_app ret a : write ret a = ret ++ encode a.
Proof.
  unfold write. revert ret. unfold encode.
  induction a as [|b a IH]; intros ret; cbn [foldl fmap list_fmap concat]; [by rewrite app_nil_r|].
  rewrite IH. unfold NetUnparser.u8. rewrite NetUnparser.unparse_app, <- app_assoc. done.
Qed.

Lemma ether_address_length_encode a : length (encode a) = length a.
Proof.
  induction a as [|b a IH]; [done|]. unfold encode in *. cbn [fmap list_fmap concat].
  rewrite length_app, NetUnparser.length_be, IH. done.
Qed.

Lemma read_typed a : NetParser.yields (read a) (fun r => length r = length a /\ Forall (fun b => 0 <= b < two8) r).
Proof.
  induction a as [|b a IH]; cbn [read]; [by apply NetParser.yields_ret|]. yields_step.
  eapply NetParser.yields_bind; [exact IH|]. intros r [Hl Hr]. apply NetParser.yields_ret. cbn.
  split; [by rewrite Hl|by apply Forall_cons].
Qed.

Lemma ether_read_wf a : wf a -> NetParser.yields (read a) wf.
Proof. intros [Hl _] p r p' E. destruct (read_typed a p r p' E) as [Hr Hf]. split; [congruence|done]. Qed.

Lemma read_safe a : NetParser.safe (read a).
Proof. induction a as [|b a IH]; cbn [read]; safe_steps; eauto using NetParser.safe_bind with sponge. Qed.

Lemma read_encode a self s : length self = length a -> Forall (fun b => 0 <= b < two8) a ->
  NetParser.reads (read self) (encode a ++ s) a s.
Proof.
  intros Hl Ha. revert self Hl.
  induction Ha as [|b a Hb Ha IH]; intros [|c self] Hl; try done; cbn [read].
  - apply NetParser.reads_ret.
  - unfold encode. cbn [fmap list_fmap concat]. rewrite <- app_assoc. reads_step.
    eapply NetParser.reads_bind; [apply IH; cbn in Hl; lia|]. apply NetParser.reads_ret.
Qed.

Lemma reads_wf a self s : wf self -> wf a -> NetParser.reads (read self) (encode a ++ s) a s.
Proof. intros [? _] [? ?]. apply read_encode; [congruence|done]. Qed.

End EthernetAddress.

#[export] Hint Resolve EthernetAddress.read_safe EthernetAddress.reads_wf : sponge.

Module EthernetHeader.

Definition LENGTH : Z := 14.
Definition TYPE_IPv4 : Z := 2048.
Definition TYPE_ARP : Z := 2054.

(** [struct EthernetHeader]. *)
Record t : Type := mk {
  dst : EthernetAddress.t;
  src : EthernetAddress.t;
  type : Z
}.

(** The member [_header{}] of a frame starts zeroed. *)
Definition default : t := mk (replicate 6 0) (replicate 6 0) 0.

Definition parse (self : t) : NetParser.P (ParseResult * t) :=
  p ← NetParser.get;
  if Buffer.size (NetParser.buffer p) <? LENGTH then mret (PacketTooShort, self)
  else
    dst ← EthernetAddress.read (dst self);
    src ← EthernetAddress.read (src self);
    type ← NetParser.u16;
    p ← NetParser.get;
    mret (NetParser.get_error p, mk dst src type).

Definition serialize (h : t) : bytes :=
  let ret := EthernetAddress.write [] (dst h) in
  let ret := EthernetAddress.write ret (src h) in
  NetUnparser.u16 ret (type h).

Record wf (h : t) : Prop := {
  wf_dst : EthernetAddress.wf (dst h);
  wf_src : EthernetAddress.wf (src h);
  wf_type : 0 <= type h < two16
}.

Lemma ether_header_parse_typed self : wf self -> NetParser.yields (parse self) (fun x => wf x.2).
Proof.
  intros [Hd Hs Ht]. unfold parse. yields_step. case_match; [by apply NetParser.yields_ret|].
  eapply NetParser.yields_bind; [by apply EthernetAddress.ether_read_wf|]. intros dst' Hd'.
  eapply NetParser.yields_bind; [by apply EthernetAddress.ether_read_wf|]. intros src' Hs'.
  repeat yields_step. by split.
Qed.

Lemma ether_header_default_wf : wf default.
Proof. split; cbn; [split; [done|repeat constructor; lia]..|lia]. Qed.

Lemma ether_header_serialize_layout h : serialize h =
  EthernetAddress.encode (dst h) ++ EthernetAddress.encode (src h) ++ NetUnparser.be 2 (type h).
Proof.
  unfold serialize, NetUnparser.u16.
  rewrite NetUnparser.unparse_app, !EthernetAddress.write_app, <- app_assoc. done.
Qed.

Lemma length_serialize h : wf h -> length (serialize h) = 14%nat.
Proof.
  intros [[Hd _] [Hs _] _]. rewrite ether_header_serialize_layout, !length_app, !EthernetAddress.ether_address_length_encode.
  rewrite NetUnparser.length_be, Hd, Hs. done.
Qed.

Lemma ether_header_parse_safe self : NetParser.safe (parse self).
Proof.
  unfold parse. apply NetParser.safe_bind; [apply NetParser.safe_get|intros p].
  case_match; [by auto with sponge|]. safe_steps. auto with sponge.
Qed.

Lemma ether_header_parse_serialize h payload self : wf self -> wf h ->
  NetParser.reads (parse self) (serialize h ++ payload) (NoError, h) payload.
Proof.
  intros [Hsd Hss _] Hh. pose proof (length_serialize h Hh) as Hl. destruct Hh as [Hd Hs Ht].
  unfold parse. apply NetParser.reads_get. intros p Hp _ Hi.
  unfold NetParser.buffer, NetParser.input in *. rewrite Buffer.size_str, Hi, length_app by done.
  unfold LENGTH. rewrite (proj2 (Z.ltb_ge _ _)) by lia.
  rewrite ether_header_serialize_layout, <- !app_assoc.
  eapply NetParser.reads_bind; [by auto with sponge|]. cbn beta.
  eapply NetParser.reads_bind; [by auto with sponge|]. reads_step.
  apply NetParser.reads_get. intros q _ Hq _. unfold NetParser.get_error. rewrite Hq.
  destruct h. apply NetParser.reads_ret.
Qed.

End EthernetHeader.

Module EthernetFrame.

(** [class EthernetFrame]: the private members. *)
Record t : Type := mk { header : EthernetHeader.t; payload : BufferList.t }.

Definition default : t := mk EthernetHeader.default BufferList.nil.

(** [parse]: the header parser's own result is dropped. *)
Definition parse (buffer : Buffer.t) (self : t) : res (ParseResult * t) :=
  '((_, h), p) ← EthernetHeader.parse (header self) (NetParser.make buffer);
  Ok (NetParser.get_error p, mk h (BufferList.of_buffer (NetParser.buffer p))).

Definition serialize (f : t) : BufferList.t :=
  let ret := BufferList.append BufferList.nil
    (BufferList.of_string (EthernetHeader.serialize (header f))) in
  BufferList.append ret (payload f).

Record wf (f : t) : Prop := {
  wf_header : EthernetHeader.wf (header f);
  wf_payload : BufferList.wf (payload f)
}.

Lemma flat_serialize f :
  BufferList.flat (serialize f) = EthernetHeader.serialize (header f) ++ BufferList.flat (payload f).
Proof. unfold serialize. by rewrite !BufferList.flat_append, BufferList.flat_of_string. Qed.

Lemma frame_parse_safe buffer self : Buffer.wf buffer ->
  exists r f, parse buffer self = Ok (r, f) /\ BufferList.wf (payload f) /\
    zlen (BufferList.flat (payload f)) < two64.
Proof.
  intros Hb. destruct (EthernetHeader.ether_header_parse_safe (header self) (NetParser.make buffer) Hb)
    as ([r h] & p & E & Hp & _).
  unfold parse. rewrite E. eexists _, _. split; [done|]. split; [by apply Forall_singleton|].
  cbn. rewrite app_nil_r. by apply Buffer.zlen_str_lt.
Qed.

Lemma frame_parse_serialized f buffer self : EthernetHeader.wf (header self) -> wf f ->
  Buffer.wf buffer -> Buffer.str buffer = BufferList.flat (serialize f) ->
  exists f', parse buffer self = Ok (NoError, f') /\ header f' = header f /\
    BufferList.wf (payload f') /\ BufferList.flat (payload f') = BufferList.flat (payload f).
Proof.
  intros Hs [Hh Hp] Hb Hstr. rewrite flat_serialize in Hstr.
  destruct (EthernetHeader.ether_header_parse_serialize (header f) (BufferList.flat (payload f)) (header self)
    Hs Hh (NetParser.make buffer)) as (p & E & Hw & He & Hi); [done..|].
  unfold parse. rewrite E. cbn. unfold NetParser.get_error. rewrite He.
  eexists. split; [done|]. split; [done|]. split; [by apply Forall_singleton|].
  cbn. by rewrite app_nil_r.
Qed.

(** Fewer bytes than a header are accepted as a frame, with the header that the frame
    had before: the header parser reports [PacketTooShort] without marking the parser. *)
Theorem runt_frame_accepted buffer self : Buffer.size buffer < EthernetHeader.LENGTH ->
  parse buffer self = Ok (NoError, mk (header self) (BufferList.of_buffer buffer)).
Proof.
  intros Hlt%Z.ltb_lt. unfold parse, EthernetHeader.parse, NetParser.get, mbind, res_bind, NetParser.P_bind.
  unfold NetParser.buffer, NetParser.make. cbn [NetParser._buffer]. by rewrite Hlt.
Qed.

End EthernetFrame.

Module ARPMessage.

Definition LENGTH : Z := 28.
Definition TYPE_ETHERNET : Z := 1.
Definition OPCODE_REQUEST : Z := 1.
Definition OPCODE_REPLY : Z := 2.

(** [struct ARPMessage]. *)
Record t : Type := mk {
  hardware_type : Z;
  protocol_type : Z;
  hardware_address_size : Z;
  protocol_address_size : Z;
  opcode : Z;
  sender_ethernet_address : EthernetAddress.t;
  sender_ip_address : Z;
  target_ethernet_address : EthernetAddress.t;
  target_ip_address : Z
}.

Definition default : t :=
  mk TYPE_ETHERNET EthernetHeader.TYPE_IPv4 6 4 0 (replicate 6 0) 0 (replicate 6 0) 0.

Definition supported (m : t) : bool :=
  (hardware_type m =? TYPE_ETHERNET) && (protocol_type m =? EthernetHeader.TYPE_IPv4) &&
  (hardware_address_size m =? 6) && (protocol_address_size m =? 4) &&
  ((opcode m =? OPCODE_REQUEST) || (opcode m =? OPCODE_REPLY)).

(** The body of [parse] once the parser has been set up.  An unsupported message
    keeps its addresses. *)
Definition parse_body (self : t) : NetParser.P (ParseResult * t) :=
  p ← NetParser.get;
  if Buffer.size (NetParser.buffer p) <? LENGTH then mret (PacketTooShort, self)
  else
    hardware_type ← NetParser.u16;
    protocol_type ← NetParser.u16;
    hardware_address_size ← NetParser.u8;
    protocol_address_size ← NetParser.u8;
    opcode ← NetParser.u16;
    let m := mk hardware_type protocol_type hardware_address_size protocol_address_size opcode
                (sender_ethernet_address self) (sender_ip_address self)
                (target_ethernet_address self) (target_ip_address self) in
    if negb (supported m) then mret (Unsupported, m)
    else
      sender_ethernet_address ← EthernetAddress.read (sender_ethernet_address self);
      sender_ip_address ← NetParser.u32;
      target_ethernet_address ← EthernetAddress.read (target_ethernet_address self);
      target_ip_address ← NetParser.u32;
      p ← NetParser.get;
      mret (NetParser.get_error p,
            mk hardware_type protocol_type hardware_address_size protocol_address_size opcode
               sender_ethernet_address sender_ip_address
               target_ethernet_address target_ip_address).

Definition parse (buffer : Buffer.t) (self : t) : res (ParseResult * t) :=
  '(r, _) ← parse_body self (NetParser.make buffer);
  Ok r.

Definition serialize (m : t) : res bytes :=
  if negb (supported m) then Throw runtime_error
  else
    let ret := [] in
    let ret := NetUnparser.u16 ret (hardware_type m) in
    let ret := NetUnparser.u16 ret (protocol_type m) in
    let ret := NetUnparser.u8 ret (hardware_address_size m) in
    let ret := NetUnparser.u8 ret (protocol_address_size m) in
    let ret := NetUnparser.u16 ret (opcode m) in
    let ret := EthernetAddress.write ret (sender_ethernet_address m) in
    let ret := NetUnparser.u32 ret (sender_ip_address m) in
    let ret := EthernetAddress.write ret (target_ethernet_address m) in
    let ret := NetUnparser.u32 ret (target_ip_address m) in
    Ok ret.

Record wf (m : t) : Prop := {
  wf_sender_eth : EthernetAddress.wf (sender_ethernet_address m);
  wf_sender_ip : 0 <= sender_ip_address m < two32;
  wf_target_eth : EthernetAddress.wf (target_ethernet_address m);
  wf_target_ip : 0 <= target_ip_address m < two32
}.

(** All the fields within the types they are declared with. *)
Definition typed (m : t) : Prop :=
  wf m /\ Forall (fun v => 0 <= v < two16) [hardware_type m; protocol_type m; opcode m] /\
  Forall (fun v => 0 <= v < two8) [hardware_address_size m; protocol_address_size m].

Lemma arp_parse_typed buffer self r m : typed self -> parse buffer self = Ok (r, m) -> typed m.
Proof.
  intros Hself. unfold parse. intros ([[r' m'] p] & E & [= _ <-])%bind_Ok. revert E.
  assert (Hy : NetParser.yields (parse_body self) (fun x => typed x.2)); [|intros E; exact (Hy _ _ _ E)].
  pose proof Hself as [[Hse Hsi Hte Hti] _]. unfold parse_body. yields_step. case_match; [by apply NetParser.yields_ret|].
  do 5 yields_step. cbv zeta. case_match.
  { apply NetParser.yields_ret. split_and!; [by split|forall_list..]. }
  eapply NetParser.yields_bind; [by apply EthernetAddress.ether_read_wf|]. intros se Hse'. yields_step.
  eapply NetParser.yields_bind; [by apply EthernetAddress.ether_read_wf|]. intros te Hte'. repeat yields_step.
  split_and!; [by split|forall_list..].
Qed.

Lemma arp_default_wf : wf default.
Proof. split; cbn; [split; [done|repeat constructor; lia]|lia|split; [done|repeat constructor; lia]|lia]. Qed.

Definition encode (m : t) : bytes :=
  NetUnparser.be 2 (hardware_type m) ++ NetUnparser.be 2 (protocol_type m) ++
  NetUnparser.be 1 (hardware_address_size m) ++ NetUnparser.be 1 (protocol_address_size m) ++
  NetUnparser.be 2 (opcode m) ++ EthernetAddress.encode (sender_ethernet_address m) ++
  NetUnparser.be 4 (sender_ip_address m) ++ EthernetAddress.encode (target_ethernet_address m) ++
  NetUnparser.be 4 (target_ip_address m).

Lemma arp_serialize_layout m : serialize m = if supported m then Ok (encode m) else Throw runtime_error.
Proof.
  unfold serialize. destruct (supported m); [|done]. cbn [negb]. f_equal.
  unfold NetUnparser.u8, NetUnparser.u16, NetUnparser.u32.
  repeat rewrite ?NetUnparser.unparse_app, ?EthernetAddress.write_app.
  rewrite app_nil_l, <- !app_assoc. done.
Qed.

Lemma arp_encode_length m : EthernetAddress.wf (sender_ethernet_address m) ->
  EthernetAddress.wf (target_ethernet_address m) -> length (encode m) = 28%nat.
Proof.
  intros [Hs _] [Ht _]. unfold encode.
  rewrite !length_app, !NetUnparser.length_be, !EthernetAddress.ether_address_length_encode, Hs, Ht. done.
Qed.

Lemma arp_length_encode m : wf m -> length (encode m) = 28%nat.
Proof. intros []. by apply arp_encode_length. Qed.

Lemma arp_parse_safe buffer self : Buffer.wf buffer -> exists r m, parse buffer self = Ok (r, m).
Proof.
  intros Hb. assert (Hs : NetParser.safe (parse_body self)).
  { unfold parse_body. apply NetParser.safe_bind; [apply NetParser.safe_get|intros p].
    case_match; [by auto with sponge|]. safe_steps. cbv zeta.
    case_match; [by auto with sponge|]. safe_steps. auto with sponge. }
  destruct (Hs (NetParser.make buffer) Hb) as ([r m] & p & E & _).
  unfold parse. rewrite E. by eexists _, _.
Qed.

Lemma supported_fields m : supported m = true ->
  hardware_type m = 1 /\ protocol_type m = 2048 /\ hardware_address_size m = 6 /\
  protocol_address_size m = 4 /\ (opcode m = 1 \/ opcode m = 2).
Proof.
  unfold supported, TYPE_ETHERNET, EthernetHeader.TYPE_IPv4, OPCODE_REQUEST, OPCODE_REPLY.
  intros H. zb. split_and!; try done.
  match goal with H : (_ || _) = true |- _ => apply orb_true_iff in H as [?|?] end; zb; auto.
Qed.

Lemma arp_parse_encoded m rest buffer self : wf self -> wf m -> supported m = true ->
  Buffer.wf buffer -> Buffer.str buffer = encode m ++ rest ->
  parse buffer self = Ok (NoError, m).
Proof.
  intros [Hss _ Hst _] Hm Hsup Hb Hstr. pose proof (arp_length_encode m Hm) as Hl.
  destruct Hm as [Hse ? Hte ?].
  assert (Hr : NetParser.reads (parse_body self) (encode m ++ rest) (NoError, m) rest).
  { unfold parse_body. apply NetParser.reads_get. intros p Hp _ Hi.
    unfold NetParser.buffer, NetParser.input in *. rewrite Buffer.size_str, Hi, length_app by done.
    unfold LENGTH. rewrite (proj2 (Z.ltb_ge _ _)) by lia.
    unfold encode. rewrite <- !app_assoc.
    destruct (supported_fields m Hsup) as (? & ? & ? & ? & ?).
    do 5 (eapply NetParser.reads_bind;
      [(apply NetUnparser.reads_u16 || apply NetUnparser.reads_u8); lia|cbn beta]).
    cbv zeta. unfold supported in *. cbn [hardware_type protocol_type hardware_address_size
      protocol_address_size opcode]. rewrite Hsup. cbn [negb].
    eapply NetParser.reads_bind; [by auto with sponge|]. reads_step.
    eapply NetParser.reads_bind; [by auto with sponge|]. reads_step.
    apply NetParser.reads_get. intros q _ Hq _. unfold NetParser.get_error. rewrite Hq.
    destruct m. apply NetParser.reads_ret. }
  destruct (Hr (NetParser.make buffer)) as (p & E & _); [done..|].
  unfold parse. by rewrite E.
Qed.

End ARPMessage.

(** An Ethernet frame that is serialised and parsed again comes back with the
    same addresses, type and payload bytes. *)
Theorem frame_roundtrip (f self : EthernetFrame.t) (buffer : Buffer.t)
  (Hf : EthernetFrame.wf f) (Hself : EthernetHeader.wf (EthernetFrame.header self))
  (Hb : Buffer.wf buffer)
  (Hbuf : Buffer.str buffer = BufferList.concatenate (EthernetFrame.serialize f)) :
  exists f', EthernetFrame.parse buffer self = Ok (NoError, f') /\
    EthernetFrame.header f' = EthernetFrame.header f /\
    BufferList.concatenate (EthernetFrame.payload f') =
      BufferList.concatenate (EthernetFrame.payload f).
Proof.
  rewrite BufferList.concatenate_flat in Hbuf.
  destruct (EthernetFrame.frame_parse_serialized f buffer self) as (f' & Hp & Hh & _ & Hpl); [done..|].
  exists f'. by rewrite !BufferList.concatenate_flat.
Qed.

Lemma frame_roundtrip_witness :
  let f := EthernetFrame.mk (EthernetHeader.mk [1; 2; 3; 4; 5; 6] [7; 8; 9; 10; 11; 255] 2048)
             (BufferList.of_string [x61; x62]) in
  exists f', EthernetFrame.parse (Buffer.of_string (BufferList.concatenate (EthernetFrame.serialize f)))
      EthernetFrame.default = Ok (NoError, f') /\
    BufferList.concatenate (EthernetFrame.payload f') = [x61; x62].
Proof.
  intros f.
  destruct (frame_roundtrip f EthernetFrame.default
    (Buffer.of_string (BufferList.concatenate (EthernetFrame.serialize f)))) as (f' & Hp & _ & Hpl).
  - split; [split; cbn; [split; [done|repeat constructor; lia]..|lia]|].
    apply BufferList.buffer_list_of_string_wf. cbn. lia.
  - apply EthernetHeader.ether_header_default_wf.
  - apply Buffer.buffer_of_string_wf. vm_compute. reflexivity.
  - apply Buffer.str_of_string.
  - exists f'. split; [exact Hp|]. rewrite Hpl. reflexivity.
Defined.

(** An ARP message is serialised exactly when it is supported, and parsing
    the result (with any trailing bytes) gives the message back. *)
Theorem arp_roundtrip (m self : ARPMessage.t) (rest : bytes) (buffer : Buffer.t)
  (Hm : ARPMessage.wf m) (Hself : ARPMessage.wf self) (Hb : Buffer.wf buffer) :
  if ARPMessage.supported m then
    exists bs, ARPMessage.serialize m = Ok bs /\
      (Buffer.str buffer = bs ++ rest -> ARPMessage.parse buffer self = Ok (NoError, m))
  else ARPMessage.serialize m = Throw runtime_error.
Proof.
  rewrite ARPMessage.arp_serialize_layout. destruct (ARPMessage.supported m) eqn:E; [|done].
  eexists. split; [done|]. intros Hs. by eapply ARPMessage.arp_parse_encoded.
Qed.

Lemma arp_roundtrip_witness :
  let m := ARPMessage.mk 1 2048 6 4 2 [1; 2; 3; 4; 5; 6] 167772161 [0; 0; 0; 0; 0; 1] 4294967295 in
  ARPMessage.parse (Buffer.of_string (ARPMessage.encode m ++ [x00; x00])) ARPMessage.default
    = Ok (NoError, m).
Proof.
  intros m.
  pose proof (arp_roundtrip m ARPMessage.default [x00; x00]
    (Buffer.of_string (ARPMessage.encode m ++ [x00; x00]))) as H.
  destruct H as (bs & Hs & Hp).
  - split; cbn; [split; [done|repeat constructor; lia]|lia|split; [done|repeat constructor; lia]|lia].
  - apply ARPMessage.arp_default_wf.
  - apply Buffer.buffer_of_string_wf. vm_compute. reflexivity.
  - apply Hp. rewrite Buffer.str_of_string. vm_compute in Hs. injection Hs as <-. reflexivity.
Defined.

(** Whatever bytes arrive, none of the four packet parsers throws: a
    malformed packet is always reported as a [ParseResult]. *)
Theorem parsers_never_throw (s : bytes) (ps : Z) (seg : TCPSegment.t) (dgram : IPv4Datagram.t)
  (frame : EthernetFrame.t) (arp : ARPMessage.t) (Hs : zlen s < two64) :
  let buffer := Buffer.of_string s in
  (exists r, TCPSegment.parse buffer ps seg = Ok r) /\
  (exists r, IPv4Datagram.parse buffer dgram = Ok r) /\
  (exists r, EthernetFrame.parse buffer frame = Ok r) /\
  (exists r, ARPMessage.parse buffer arp = Ok r).
Proof.
  cbv zeta. assert (Hb : Buffer.wf (Buffer.of_string s)) by (by apply Buffer.buffer_of_string_wf).
  split_and!.
  - destruct (TCPSegment.segment_parse_safe _ ps seg Hb) as (? & ? & -> & _). by eexists.
  - destruct (parse_header_and_rest_safe _ (IPv4Datagram.header dgram) Hb) as (? & ? & ? & E & _).
    unfold IPv4Datagram.parse. rewrite E. cbn. case_match; by eexists.
  - destruct (EthernetFrame.frame_parse_safe _ frame Hb) as (? & ? & -> & _). by eexists.
  - destruct (ARPMessage.arp_parse_safe _ arp Hb) as (? & ? & ->). by eexists.
Qed.

Lemma parsers_never_throw_witness :
  exists r, TCPSegment.parse (Buffer.of_string [xff; xff]) 0 TCPSegment.default = Ok r.
Proof.
  apply (parsers_never_throw [xff; xff] 0 TCPSegment.default IPv4Datagram.default
    EthernetFrame.default ARPMessage.default). vm_compute. reflexivity.
Defined.

(** C36: whatever bytes arrive, none of the four packet parsers throws, and whatever a
    parser finds wrong with them, every field of what it leaves behind is in the range of
    the type it is declared with: ports, lengths and checksums are 16-bit numbers, the
    header lengths four bits, the fragment offset thirteen, an Ethernet address six
    octets. *)
Theorem parsed_fields_typed (s : bytes) (ps : Z) (seg : TCPSegment.t) (dgram : IPv4Datagram.t)
  (frame : EthernetFrame.t) (arp : ARPMessage.t) (Hs : zlen s < two64)
  (Hseg : TCPHeader.typed (TCPSegment.header seg)) (Hdgram : IPv4Header.typed (IPv4Datagram.header dgram))
  (Hframe : EthernetHeader.wf (EthernetFrame.header frame)) (Harp : ARPMessage.typed arp) :
  let buffer := Buffer.of_string s in
  (exists r x, TCPSegment.parse buffer ps seg = Ok (r, x) /\ TCPHeader.typed (TCPSegment.header x)) /\
  (exists r x, IPv4Datagram.parse buffer dgram = Ok (r, x) /\ IPv4Header.typed (IPv4Datagram.header x)) /\
  (exists r x, EthernetFrame.parse buffer frame = Ok (r, x) /\ EthernetHeader.wf (EthernetFrame.header x)) /\
  (exists r x, ARPMessage.parse buffer arp = Ok (r, x) /\ ARPMessage.typed x).
Proof.
  cbv zeta. destruct (parsers_never_throw s ps seg dgram frame arp Hs) as ([[r1 x1] E1] & [[r2 x2] E2] & [[r3 x3] E3] & [[r4 x4] E4]).
  split; [exists r1, x1|split; [exists r2, x2|split; [exists r3, x3|exists r4, x4]]]; (split; [done|]).
  - by eapply TCPSegment.segment_parse_typed.
  - by eapply IPv4Datagram.datagram_parse_typed.
  - unfold EthernetFrame.parse in E3. apply bind_Ok in E3 as ([[r' h] p] & E & [= _ <-]).
    exact (EthernetHeader.ether_header_parse_typed _ Hframe _ _ _ E).
  - by eapply ARPMessage.arp_parse_typed.
Qed.

Lemma parsed_fields_typed_witness :
  exists r x, TCPSegment.parse (Buffer.of_string [xff; xff]) 0 TCPSegment.default = Ok (r, x) /\
    TCPHeader.typed (TCPSegment.header x).
Proof.
  refine (proj1 (parsed_fields_typed [xff; xff] 0 TCPSegment.default IPv4Datagram.default
    EthernetFrame.default ARPMessage.default _ _ _ _ _)).
  - vm_compute. reflexivity.
  - apply TCPSegment.default_typed.
  - apply IPv4Datagram.datagram_default_typed.
  - apply EthernetHeader.ether_header_default_wf.
  - split_and!; [apply ARPMessage.arp_default_wf|forall_list; by vm_compute..].
Defined.
