(* ===== verification/TcpReceiver.v ===== *)
(** * The TCP receiver (tcp_receiver.hh, tcp_receiver.cc)

    [TCPReceiver] converts the sequence number of each segment to an index of the
    byte stream and hands the payload to the reassembler; it computes the
    acknowledgment number and the window to advertise.  The theorems are stated
    against the stream the peer is sending: a function [D] from positions to bytes,
    of length [N], whose SYN has sequence number [ISN]. *)

From S2P Require Import Prelude Wrapping Stream Reassembly Buffers TcpWire.
From Stdlib Require Import Strings.Byte.

Module TCPReceiver.

(** [class TCPReceiver]: the private members. *)
Record t : Type := mk {
  _reassembler : StreamReassembler.t;
  _capacity : Z;
  syn_received : bool;
  isn : WrappingInt32.t
}.

Definition make (capacity : Z) : t :=
  mk (StreamReassembler.make capacity) capacity false (WrappingInt32.make 0).

Definition stream_out (r : t) : ByteStream.t := StreamReassembler.stream_out (_reassembler r).

(** The owner reads from [stream_out()] or marks it as failed. *)
Definition set_stream_out (o : ByteStream.t) (r : t) : t :=
  mk (StreamReassembler.set_output o (_reassembler r)) (_capacity r) (syn_received r) (isn r).

Definition segment_received (seg : TCPSegment.t) (r : t) : res t :=
  let hdr := TCPSegment.header seg in
  let r :=
    if TCPHeader.syn hdr
    then mk (_reassembler r) (_capacity r) true (TCPHeader.seqno hdr)
    else r in
  if negb (syn_received r) then Ok r
  else
    let abs_seqno :=
      WrappingInt32.unwrap (TCPHeader.seqno hdr) (isn r)
        (ByteStream.bytes_written (stream_out r) ⊞ 1) in
    reassembler ← StreamReassembler.push_substring
      (Buffer.copy (TCPSegment.payload seg))
      (abs_seqno ⊟ (if TCPHeader.syn hdr then 0 else 1)) (TCPHeader.fin hdr) (_reassembler r);
    Ok (mk reassembler (_capacity r) (syn_received r) (isn r)).

Definition ackno (r : t) : option WrappingInt32.t :=
  if syn_received r then
    Some (WrappingInt32.wrap
            (ByteStream.bytes_written (stream_out r) ⊞ (if syn_received r then 1 else 0)
               ⊞ (if ByteStream.input_ended (stream_out r) then 1 else 0)) (isn r))
  else None.

Definition window_size (r : t) : Z := ByteStream.remaining_capacity (stream_out r).

Definition unassembled_bytes (r : t) : Z := StreamReassembler.unassembled_bytes (_reassembler r).

#[global] Arguments segment_received : simpl never.

(** ** Correctness against the peer's stream *)

Section Stream.
Context (D : Z -> byte) (N cap : Z) (ISN : WrappingInt32.t).

(** [seg] carries the bytes of the stream from position [i] on, with the sequence
    number of that position (a SYN comes before position 0), and the receiver has
    assembled the stream to within 2^31 of it.  An empty segment with the sequence
    number of the SYN has position -1, which is pushed as 2^64 - 1. *)
Record legal (r : t) (seg : TCPSegment.t) (i : Z) : Prop := {
  lg_seqno : TCPHeader.seqno (TCPSegment.header seg) =
    WrappingInt32.wrap (if TCPHeader.syn (TCPSegment.header seg) then 0 else i + 1) ISN;
  lg_syn : TCPHeader.syn (TCPSegment.header seg) = true -> i = 0;
  lg_pos : -1 <= i;
  lg_data : StreamReassembler.legal D N (Buffer.str (TCPSegment.payload seg)) (u64 i)
    (TCPHeader.fin (TCPSegment.header seg));
  lg_near : Z.abs (i - ByteStream.bytes_written (stream_out r)) < two31 - 1
}.

(** The invariant: the reassembler is one of the peer's stream, and the ISN is
    the peer's once a SYN has been seen. *)
Record wf (r : t) : Prop := {
  wf_reasm : StreamReassembler.wf D N (_reassembler r);
  wf_capacity : StreamReassembler._capacity (_reassembler r) = cap;
  wf_isn : syn_received r = true -> isn r = ISN
}.

(** What the receiver has and keeps. *)
Definition holds (r : t) (i : Z) : Prop := StreamReassembler.held (_reassembler r) i.

(** The first position the receiver does not accept. *)
Definition limit (r : t) : Z := StreamReassembler.window_end (_reassembler r).

Lemma bytes_written_range r : wf r -> 0 <= ByteStream.bytes_written (stream_out r) < two63.
Proof.
  intros [[[Hout Hcap Hlen Hfirst Hwr _ _ _ _ _] _] _ _].
  destruct Hout. unfold stream_out, StreamReassembler.stream_out. rewrite Hwr. lia.
Qed.

Context (HISN : WrappingInt32.wf ISN).

(** With a SYN seen (now or before), a legal segment is pushed at its position. *)
Lemma segment_received_push r seg i : wf r -> legal r seg i ->
  syn_received r = true \/ TCPHeader.syn (TCPSegment.header seg) = true ->
  segment_received seg r =
    (fun a => mk a (_capacity r) true ISN) <$>
      StreamReassembler.push_substring (Buffer.str (TCPSegment.payload seg)) (u64 i)
        (TCPHeader.fin (TCPSegment.header seg)) (_reassembler r).
Proof.
  intros Hwf [Hseq Hsyn Hlo _ Hnear] Hs. pose proof (bytes_written_range r Hwf) as Hbw.
  destruct Hwf as [Hr _ Hisn].
  assert (HN : N < two63) by (by destruct Hr as [[] _]).
  unfold segment_received. rewrite Hseq.
  destruct (TCPHeader.syn (TCPSegment.header seg)) eqn:Es.
  - rewrite (Hsyn eq_refl) in *. cbn [_reassembler _capacity syn_received isn negb stream_out].
    change (stream_out (mk (_reassembler r) (_capacity r) true (WrappingInt32.wrap 0 ISN)))
      with (stream_out r).
    rewrite WrappingInt32.wrap_0 by done.
    rewrite (u64_small (ByteStream.bytes_written (stream_out r) + 1)) by lia.
    replace (WrappingInt32.unwrap ISN ISN (ByteStream.bytes_written (stream_out r) + 1)) with 0.
    { unfold Buffer.copy. change (0 ⊟ 0) with (u64 0). by destruct (StreamReassembler.push_substring _ _ _ _). }
    symmetry. rewrite <- (WrappingInt32.wrap_0 ISN) at 1 by done.
    apply WrappingInt32.unwrap_wrap_aux; [done|lia..].
  - destruct Hs as [Hs|?]; [|done]. rewrite Hs. cbn [negb]. rewrite (Hisn Hs).
    rewrite (u64_small (ByteStream.bytes_written (stream_out r) + 1)) by lia.
    rewrite WrappingInt32.unwrap_wrap_aux by (done || lia).
    replace (i + 1 - 1) with i by lia.
    unfold Buffer.copy. by destruct (StreamReassembler.push_substring _ _ _ _).
Qed.

Lemma receiver_segment_received_spec r seg i : wf r -> legal r seg i ->
  syn_received r = true \/ TCPHeader.syn (TCPSegment.header seg) = true ->
  exists r', segment_received seg r = Ok r' /\ wf r' /\ syn_received r' = true /\
    StreamReassembler.push_substring (Buffer.str (TCPSegment.payload seg)) (u64 i)
        (TCPHeader.fin (TCPSegment.header seg)) (_reassembler r) = Ok (_reassembler r') /\
    (forall j, holds r' j <-> holds r j \/
       i <= j < i + zlen (Buffer.str (TCPSegment.payload seg)) /\ j < limit r).
Proof.
  intros Hwf Hl Hs. rewrite (segment_received_push r seg i) by done.
  pose proof (bytes_written_range r Hwf).
  destruct Hwf as [Hr Hcap Hisn]. destruct Hl as [_ _ Hlo Hdata Hnear].
  destruct (StreamReassembler.push_spec D N _ _ _ _ Hr Hdata) as (a & -> & Ha & Hc & _ & Hheld).
  eexists. split; [done|]. split; [split; [done|cbn; congruence|done]|].
  split; [done|]. split; [done|]. intros j. unfold holds. cbn. rewrite Hheld.
  assert (HN : N < two63) by (by destruct Hr as [[] _]).
  destruct (decide (i = -1)) as [Hi|Hi]; [|by rewrite u64_small by lia].
  destruct Hdata as [_ _ [Hb|(-> & _ & _)] _].
  - rewrite Hi in Hb. change (u64 (-1)) with (two64 - 1) in Hb. lia.
  - cbn [length]. split; (intros [?|?]; [by left|lia]).
Qed.

Lemma segment_received_early r seg :
  syn_received r = false -> TCPHeader.syn (TCPSegment.header seg) = false ->
  segment_received seg r = Ok r.
Proof. intros Hs Hh. unfold segment_received. by rewrite Hh, Hs. Qed.

(** A run: legal segments in any order (a segment that arrives before any SYN may
    be anything), interleaved with reads; [out] is everything read so far. *)
Inductive run : t -> bytes -> Prop :=
| run_init : run (make cap) []
| run_segment r out seg i r' :
    run r out -> legal r seg i ->
    syn_received r = true \/ TCPHeader.syn (TCPSegment.header seg) = true ->
    segment_received seg r = Ok r' -> run r' out
| run_early r out seg r' :
    run r out -> syn_received r = false -> TCPHeader.syn (TCPSegment.header seg) = false ->
    segment_received seg r = Ok r' -> run r' out
| run_read r out n bs o :
    run r out -> 0 <= n ->
    ByteStream.read n (stream_out r) = Ok (bs, o) -> run (set_stream_out o r) (out ++ bs).

Context (HN : 0 <= N < two63) (Hcap : 0 <= cap < two63).

Lemma receiver_make_wf : wf (make cap).
Proof. split; cbn; [by apply StreamReassembler.reassembler_make_wf|done|done]. Qed.

(** Every run is a run of the reassembler. *)
Lemma receiver_run_inv r out : run r out ->
  wf r /\ StreamReassembler.reach D N cap (_reassembler r) out.
Proof.
  induction 1 as [|r out seg i r' Hrun [Hwf Hre] Hl Hs E|r out seg r' Hrun [Hwf Hre] Hs Hh E
    |r out n bs o Hrun [Hwf Hre] Hn E].
  - split; [apply receiver_make_wf|constructor].
  - destruct (receiver_segment_received_spec r seg i Hwf Hl Hs) as (r2 & E2 & Hwf2 & _ & Hp & _).
    rewrite E in E2. injection E2 as <-. split; [done|].
    destruct Hl as [_ _ _ Hdata _]. by eapply StreamReassembler.reach_push.
  - rewrite segment_received_early in E by done. by injection E as <-.
  - assert (Hre' : StreamReassembler.reach D N cap
      (StreamReassembler.set_output o (_reassembler r)) (out ++ bs))
      by (by eapply StreamReassembler.reach_read).
    split; [|done]. destruct (StreamReassembler.reach_inv D N cap _ _ HN Hcap Hre') as (? & ? & _).
    destruct Hwf. split; done.
Qed.
End Stream.

Lemma holds_below_limit D N cap ISN r j : wf D N cap ISN r -> holds r j -> j < limit r.
Proof.
  intros [[[Hout Hc _ _ _ _ Hch _ _ _] _] _ _]. unfold holds, limit. intros [Hj|Hj].
  - destruct Hout. unfold StreamReassembler.window_end. lia.
  - unfold StreamReassembler.covered in Hj. apply Exists_exists in Hj as (c & Hin & Hj).
    destruct (Hch c Hin) as (_ & _ & _ & Hw). unfold StreamReassembler.covers in Hj. lia.
Qed.

(** Once a SYN has been seen, receiving a segment of the peer's stream never
    throws; the receiver then has exactly the bytes it had and those bytes of the
    segment that lie in its window, and remains a receiver of that stream. *)
Theorem segment_received_correct (D : Z -> byte) (N cap i : Z) (ISN : WrappingInt32.t) (r : t)
  (seg : TCPSegment.t) (HISN : WrappingInt32.wf ISN) (Hwf : wf D N cap ISN r)
  (Hseg : legal D N ISN r seg i)
  (Hsyn : syn_received r = true \/ TCPHeader.syn (TCPSegment.header seg) = true) :
  exists r', segment_received seg r = Ok r' /\ wf D N cap ISN r' /\
    forall j, holds r' j <-> holds r j \/
      i <= j < i + zlen (Buffer.str (TCPSegment.payload seg)) /\ j < limit r.
Proof.
  destruct (receiver_segment_received_spec D N cap ISN HISN r seg i Hwf Hseg Hsyn)
    as (r' & Hr & Hwf' & _ & _ & Hh). by exists r'.
Qed.

(** A segment whose sequence number is [seqno]. *)
Definition mkseg (seqno : Z) (syn fin : bool) (data : bytes) : TCPSegment.t :=
  TCPSegment.mk (TCPHeader.mk 0 0 (WrappingInt32.make seqno) (WrappingInt32.make 0) 5
    false false false false syn fin 0 0 0) (Buffer.of_string data).

Definition letters (i : Z) : byte := z2b (97 + i).

Lemma segment_received_correct_witness :
  exists r', segment_received (mkseg 4294967295 true false [x61; x62]) (make 10) = Ok r' /\
    (forall j, holds r' j <-> holds (make 10) j \/ 0 <= j < 2 /\ j < 10).
Proof.
  destruct (segment_received_correct letters 3 10 0 (WrappingInt32.make 4294967295) (make 10)
    (mkseg 4294967295 true false [x61; x62])) as (r' & Hr & _ & Hh).
  - apply WrappingInt32.wrapping_make_wf.
  - apply receiver_make_wf; lia.
  - split; try reflexivity; [lia|]. split; [reflexivity|vm_compute; congruence|left; vm_compute; congruence|done].
  - by right.
  - exists r'. split; [exact Hr|exact Hh].
Defined.

(** C9: in every run, what has been read followed by what is buffered is the
    assembled prefix of the peer's stream; the acknowledgment number is the
    sequence number after that prefix (after the FIN when the stream has ended,
    which happens only when all of it is assembled), and absent before a SYN; the
    window is what the capacity leaves, and nothing beyond the acknowledgment
    number plus the window is ever kept. *)
Theorem receiver_run_safe (D : Z -> byte) (N cap : Z) (ISN : WrappingInt32.t) (r : t) (out : bytes)
  (HISN : WrappingInt32.wf ISN) (HN : 0 <= N < two63) (Hcap : 0 <= cap < two63)
  (Hrun : run D N cap ISN r out) :
  let n := ByteStream.bytes_written (stream_out r) in
  let ended := ByteStream.input_ended (stream_out r) in
  out ++ ByteStream.contents (stream_out r) = slice D 0 n /\
  ackno r = (if syn_received r
             then Some (WrappingInt32.wrap (n + 1 + (if ended then 1 else 0)) ISN) else None) /\
  (ended = true -> n = N) /\
  window_size r + ByteStream.buffer_size (stream_out r) = cap /\
  (forall j, holds r j -> j < n + window_size r).
Proof.
  cbv zeta. destruct (receiver_run_inv D N cap ISN HISN HN Hcap r out Hrun) as [Hwf Hre].
  pose proof (bytes_written_range D N cap ISN r Hwf) as Hbw.
  destruct (StreamReassembler.reach_inv D N cap _ _ HN Hcap Hre) as (_ & _ & Ho).
  assert (Hlim : forall j, holds r j -> j < limit r) by (intros j; by eapply holds_below_limit).
  destruct Hwf as [[Hco Hes] Hc Hisn]. pose proof Hco as [].
  pose proof (ByteStream.wf_size _ co_out). unfold limit, StreamReassembler.window_end in Hlim.
  unfold window_size, stream_out, StreamReassembler.stream_out, ByteStream.buffer_size in *.
  rewrite ByteStream.remaining_capacity_eq by done. split_and!.
  - rewrite Ho, co_contents, co_written.
    replace (StreamReassembler.first_unasmb (_reassembler r)) with
      (StreamReassembler.first_unasmb (_reassembler r) -
       ByteStream.cur_size (StreamReassembler._output (_reassembler r)) +
       ByteStream.cur_size (StreamReassembler._output (_reassembler r))) at 3 by lia.
    by rewrite slice_app by lia.
  - unfold ackno, stream_out, StreamReassembler.stream_out.
    destruct (syn_received r); [|done]. rewrite Hisn by done.
    rewrite u64_add_l. rewrite u64_small by (destruct (ByteStream.input_ended _); lia). done.
  - intros He. apply Hes in He as [_ ?]. lia.
  - lia.
  - intros j Hj. apply Hlim in Hj. lia.
Qed.

Lemma receiver_run_safe_witness :
  exists r, run letters 3 10 (WrappingInt32.make 4294967295) r [] /\
    ackno r = Some (WrappingInt32.make 4).
Proof.
  assert (H1 : exists r1 r2, segment_received (mkseg 4294967295 true false [x61; x62]) (make 10) = Ok r1 /\
    segment_received (mkseg 2 false true [x63]) r1 = Ok r2).
  { eexists _, _. split; [vm_compute; reflexivity|]. vm_compute. reflexivity. }
  destruct H1 as (r1 & r2 & E1 & E2).
  assert (Hrun : run letters 3 10 (WrappingInt32.make 4294967295) r2 []).
  { eapply run_segment with (i := 2); [|..|exact E2].
    - eapply run_segment with (i := 0); [apply run_init|..|exact E1].
      + split; try reflexivity; [lia|]. split; [reflexivity|vm_compute; congruence|left; vm_compute; congruence|done].
      + by right.
    - vm_compute in E1. injection E1 as <-. split; try reflexivity; [done|lia|].
      split; [reflexivity|vm_compute; congruence|left; vm_compute; congruence|done].
    - left. vm_compute in E1. injection E1 as <-. reflexivity. }
  exists r2. split; [exact Hrun|].
  destruct (receiver_run_safe letters 3 10 (WrappingInt32.make 4294967295) r2 []) as (_ & Ha & _);
    [apply WrappingInt32.wrapping_make_wf|lia|lia|exact Hrun|].
  rewrite Ha. vm_compute in E1. injection E1 as <-. vm_compute in E2. injection E2 as <-.
  vm_compute. reflexivity.
Defined.

End TCPReceiver.
