(* ===== verification/TcpSender.v ===== *)
(** * The TCP sender (tcp_sender.hh, tcp_sender.cc, tcp_helpers/tcp_config.hh)

    [TCPSender] cuts the outgoing stream into segments that fit the peer's window,
    keeps the segments that are not fully acknowledged, and retransmits the oldest
    one when its timer expires.  As for the receiver, the theorems speak of the
    whole stream that will have been written: a function [D] from positions to
    bytes, of length [N]. *)

From S2P Require Import Prelude Wrapping Stream Reassembly Buffers TcpWire.
From Stdlib Require Import Strings.Byte.

(** [class TCPConfig]. *)
Module TCPConfig.

Definition DEFAULT_CAPACITY : Z := 64000.
Definition MAX_PAYLOAD_SIZE : Z := 1000.
Definition TIMEOUT_DFLT : Z := 1000.
Definition MAX_RETX_ATTEMPTS : Z := 8.

Record t : Type := mk {
  rt_timeout : Z;
  recv_capacity : Z;
  send_capacity : Z;
  fixed_isn : option WrappingInt32.t
}.

Definition default : t := mk TIMEOUT_DFLT DEFAULT_CAPACITY DEFAULT_CAPACITY None.

End TCPConfig.

(** [struct TCPSender::Timer]. *)
Module Timer.

Record t : Type := mk { time_elapsed : Z; timeout : Z }.
Definition expired (x : t) : bool := timeout x <=? time_elapsed x.
Definition start (new_timeout : Z) : t := mk 0 new_timeout.

End Timer.

Module TCPSender.

(** [struct TCPSender::OrderedSegment]. *)
Record OrderedSegment : Type := mkOrdered { seqno : Z; segment : TCPSegment.t }.

(** [class TCPSender]: the private members (the [debug] switch, which only guards
    printing, apart). *)
Record t : Type := mk {
  _isn : WrappingInt32.t;
  _segments_out : list TCPSegment.t;
  _initial_retransmission_timeout : Z;
  _stream : ByteStream.t;
  _next_seqno : Z;
  _abs_ackno : Z;
  _window_size : Z;
  _outstanding_segments : list OrderedSegment;
  _timer : Timer.t;
  _n_consec_retransmissions : Z
}.

(** The constructor; [random] is what [random_device] returns. *)
Definition make (capacity retx_timeout : Z) (fixed_isn : option WrappingInt32.t) (random : Z) : t :=
  mk (match fixed_isn with Some i => i | None => WrappingInt32.make random end)
     [] retx_timeout (ByteStream.make capacity) 0 0 1 [] (Timer.mk 0 retx_timeout) 0.

Definition stream_in (s : t) : ByteStream.t := _stream s.
Definition set_stream (st : ByteStream.t) (s : t) : t :=
  mk (_isn s) (_segments_out s) (_initial_retransmission_timeout s) st (_next_seqno s)
     (_abs_ackno s) (_window_size s) (_outstanding_segments s) (_timer s)
     (_n_consec_retransmissions s).

(** [segments_out()] gives the owner the queue itself. *)
Definition segments_out (s : t) : list TCPSegment.t := _segments_out s.
Definition set_segments_out (q : list TCPSegment.t) (s : t) : t :=
  mk (_isn s) q (_initial_retransmission_timeout s) (_stream s) (_next_seqno s)
     (_abs_ackno s) (_window_size s) (_outstanding_segments s) (_timer s)
     (_n_consec_retransmissions s).

Definition bytes_in_flight (s : t) : Z := _next_seqno s ⊟ _abs_ackno s.
Definition next_seqno_absolute (s : t) : Z := _next_seqno s.
Definition next_seqno (s : t) : WrappingInt32.t := WrappingInt32.wrap (_next_seqno s) (_isn s).
Definition consecutive_retransmissions (s : t) : Z := u32 (_n_consec_retransmissions s).

(** A default header with the fields the sender sets. *)
Definition header (seqno : WrappingInt32.t) (syn fin : bool) : TCPHeader.t :=
  TCPHeader.mk 0 0 seqno (WrappingInt32.make 0) (TCPHeader.LENGTH / 4)
    false false false false syn fin 0 0 0.

(** The room for data that an iteration of [fill_window] starts with (before the
    SYN and the payload are taken out of it), at the [uint16_t] it is kept in. *)
Definition n_bytes_to_send (s : t) : Z :=
  if (_window_size s =? 0) && (bytes_in_flight s =? 0) then 1
  else u16 (_window_size s ⊟ bytes_in_flight s).

(** One iteration of the loop of [fill_window]: the new state, and whether the
    loop goes on. *)
Definition fill_step (s : t) : res (bool * t) :=
  if negb (_next_seqno s <=? _abs_ackno s ⊞ _window_size s) then Ok (false, s)
  else if ByteStream.eof (_stream s) &&
          (ByteStream.bytes_written (_stream s) ⊞ 2 <=? _next_seqno s) then Ok (false, s)
  else
    let n := n_bytes_to_send s in
    let syn := (_next_seqno s =? 0) && (0 <? n) in
    let n := if syn then u16 (n - 1) else n in
    let n := if TCPConfig.MAX_PAYLOAD_SIZE <? n then TCPConfig.MAX_PAYLOAD_SIZE else n in
    '(data, stream) ← ByteStream.read n (_stream s);
    let payload := Buffer.of_string data in
    let n := if n =? TCPConfig.MAX_PAYLOAD_SIZE then 1 else u16 (n ⊟ Buffer.size payload) in
    let fin := ByteStream.eof stream && (0 <? n) in
    let seg := TCPSegment.mk (header (WrappingInt32.wrap (_next_seqno s) (_isn s)) syn fin) payload in
    if TCPSegment.length_in_sequence_space seg =? 0 then Ok (false, set_stream stream s)
    else
      Ok (true,
          mk (_isn s) (_segments_out s ++ [seg]) (_initial_retransmission_timeout s) stream
             (_next_seqno s ⊞ TCPSegment.length_in_sequence_space seg) (_abs_ackno s)
             (_window_size s) (_outstanding_segments s ++ [mkOrdered (_next_seqno s) seg])
             (if Timer.expired (_timer s)
              then Timer.start (_initial_retransmission_timeout s) else _timer s)
             (_n_consec_retransmissions s)).

(** The loop: the result says whether it ended within the fuel. *)
Fixpoint fill_loop (fuel : nat) (s : t) : res (bool * t) :=
  match fuel with
  | O => Ok (false, s)
  | S fuel' =>
      '(continue, s') ← fill_step s;
      if continue : bool then fill_loop fuel' s' else Ok (true, s')
  end.

(** Every iteration but the last takes at least one sequence number of a window
    that is at most 65535 wide: see [fill_loop_ends]. *)
Definition fill_window (s : t) : res t :=
  '(_, s') ← fill_loop (Z.to_nat (_window_size s) + 4) s;
  Ok s'.

(** The loop of [ack_received]: drop the acknowledged segments from the front,
    restarting the timer for each. *)
Fixpoint ack_loop (abs_ackno initial : Z) (l : list OrderedSegment) (timer : Timer.t)
  : list OrderedSegment * Timer.t :=
  match l with
  | [] => ([], timer)
  | it :: rest =>
      if seqno it ⊞ TCPSegment.length_in_sequence_space (segment it) <=? abs_ackno
      then ack_loop abs_ackno initial rest (Timer.start initial)
      else (l, timer)
  end.

Definition ack_received (ackno : WrappingInt32.t) (window_size : Z) (s : t) : res t :=
  let new_abs_ackno := WrappingInt32.unwrap ackno (_isn s) (_abs_ackno s) in
  if (new_abs_ackno <=? _abs_ackno s) || (_next_seqno s <? new_abs_ackno) then
    Ok (mk (_isn s) (_segments_out s) (_initial_retransmission_timeout s) (_stream s)
           (_next_seqno s) (_abs_ackno s) window_size (_outstanding_segments s) (_timer s)
           (_n_consec_retransmissions s))
  else
    let '(outstanding, timer) :=
      ack_loop new_abs_ackno (_initial_retransmission_timeout s) (_outstanding_segments s)
        (_timer s) in
    fill_window
      (mk (_isn s) (_segments_out s) (_initial_retransmission_timeout s) (_stream s)
          (_next_seqno s) new_abs_ackno window_size outstanding timer 0).

Definition tick (ms_since_last_tick : Z) (s : t) : t :=
  let timer := Timer.mk (Timer.time_elapsed (_timer s) ⊞ ms_since_last_tick)
                        (Timer.timeout (_timer s)) in
  if Timer.expired timer then
    match _outstanding_segments s with
    | [] =>
        mk (_isn s) (_segments_out s) (_initial_retransmission_timeout s) (_stream s)
           (_next_seqno s) (_abs_ackno s) (_window_size s) [] timer
           (_n_consec_retransmissions s)
    | it :: _ =>
        let '(n, timeout) :=
          if 0 <? _window_size s
          then (_n_consec_retransmissions s ⊞ 1, u64 (Timer.timeout timer * 2))
          else (_n_consec_retransmissions s, Timer.timeout timer) in
        mk (_isn s) (_segments_out s ++ [segment it]) (_initial_retransmission_timeout s)
           (_stream s) (_next_seqno s) (_abs_ackno s) (_window_size s)
           (_outstanding_segments s) (Timer.start timeout) n
    end
  else
    mk (_isn s) (_segments_out s) (_initial_retransmission_timeout s) (_stream s)
       (_next_seqno s) (_abs_ackno s) (_window_size s) (_outstanding_segments s) timer
       (_n_consec_retransmissions s).

Definition send_empty_segment (s : t) : t :=
  set_segments_out
    (_segments_out s ++ [TCPSegment.mk (header (next_seqno s) false false) Buffer.nil]) s.

#[global] Arguments fill_step : simpl never.
#[global] Arguments fill_window : simpl never.
#[global] Arguments ack_received : simpl never.
#[global] Arguments tick : simpl never.

(** ** The invariant *)

(** Number of sequence numbers a segment takes. *)
Definition slen (seg : TCPSegment.t) : Z := TCPSegment.length_in_sequence_space seg.

(** The stream position of the first payload byte of a segment with absolute
    sequence number [sq]: the SYN comes before position 0. *)
Definition position (sq : Z) : Z := if sq =? 0 then 0 else sq - 1.

Section Stream.
Context (D : Z -> byte) (N : Z).

(** A segment that belongs at the absolute sequence number [sq]: its payload is
    what the stream holds there, the SYN is on the first one, a FIN on the last. *)
Record good (isn : WrappingInt32.t) (sq : Z) (seg : TCPSegment.t) : Prop := {
  gd_header : TCPSegment.header seg =
    header (WrappingInt32.wrap sq isn) (sq =? 0) (TCPHeader.fin (TCPSegment.header seg));
  gd_payload : Buffer.wf (TCPSegment.payload seg);
  gd_legal : StreamReassembler.legal D N (Buffer.str (TCPSegment.payload seg)) (position sq)
    (TCPHeader.fin (TCPSegment.header seg));
  gd_len : 0 < slen seg;
  gd_size : zlen (Buffer.str (TCPSegment.payload seg)) <= TCPConfig.MAX_PAYLOAD_SIZE;
  gd_sq : 0 <= sq
}.

(** The segments of [l] follow one another from [sq] to [last]. *)
Fixpoint chain (isn : WrappingInt32.t) (sq : Z) (l : list OrderedSegment) (last : Z) : Prop :=
  match l with
  | [] => sq = last
  | o :: l' => seqno o = sq /\ good isn sq (segment o) /\ chain isn (sq + slen (segment o)) l' last
  end.

(** How far the stream has been cut into segments. *)
Definition cut (next read : Z) (eof : bool) : Prop :=
  next = 0 /\ read = 0 \/ next = read + 1 \/ next = read + 2 /\ eof = true.

Record wf (s : t) : Prop := {
  wf_isn : WrappingInt32.wf (_isn s);
  wf_stream : ByteStream.wf (_stream s);
  wf_cap : 0 < ByteStream.max_capacity (_stream s);
  wf_N : N < 2 ^ 62;
  wf_written : ByteStream.n_bytes_written (_stream s) =
    ByteStream.n_bytes_read (_stream s) + ByteStream.cur_size (_stream s) /\
    ByteStream.n_bytes_written (_stream s) <= N;
  wf_contents : agrees D (ByteStream.n_bytes_read (_stream s)) (ByteStream.contents (_stream s));
  wf_ended : ByteStream.done_writing (_stream s) = true ->
    ByteStream.n_bytes_written (_stream s) = N;
  wf_next : cut (_next_seqno s) (ByteStream.n_bytes_read (_stream s)) (ByteStream.eof (_stream s));
  wf_ack : 0 <= _abs_ackno s <= _next_seqno s;
  wf_win : 0 <= _window_size s < two16;
  wf_chain : exists sq, chain (_isn s) sq (_outstanding_segments s) (_next_seqno s) /\
    match _outstanding_segments s with
    | [] => _abs_ackno s = _next_seqno s
    | o :: _ => sq <= _abs_ackno s < sq + slen (segment o)
    end
}.

Lemma chain_snoc isn sq l mid seg :
  chain isn sq l mid -> good isn mid seg ->
  chain isn sq (l ++ [mkOrdered mid seg]) (mid + slen seg).
Proof.
  revert sq. induction l as [|o l IH]; intros sq; cbn.
  - intros -> Hg. by split_and!.
  - intros (? & ? & ?) Hg. split_and!; [done..|]. by apply IH.
Qed.

Lemma chain_app isn sq l1 mid l2 last :
  chain isn sq l1 mid -> chain isn mid l2 last -> chain isn sq (l1 ++ l2) last.
Proof.
  revert sq. induction l1 as [|o l IH]; intros sq; cbn; [by intros ->|].
  intros (? & ? & ?) Hc. split_and!; [done..|]. by apply IH.
Qed.

Lemma chain_le isn sq l last : chain isn sq l last -> sq <= last.
Proof.
  revert sq. induction l as [|o l IH]; intros sq; cbn; [lia|].
  intros (_ & [] & Hc). apply IH in Hc. lia.
Qed.

Lemma slen_eq seg : Buffer.wf (TCPSegment.payload seg) ->
  zlen (Buffer.str (TCPSegment.payload seg)) <= TCPConfig.MAX_PAYLOAD_SIZE ->
  slen seg = zlen (Buffer.str (TCPSegment.payload seg)) +
    (if TCPHeader.syn (TCPSegment.header seg) then 1 else 0) +
    (if TCPHeader.fin (TCPSegment.header seg) then 1 else 0).
Proof.
  intros Hw Hl. unfold slen, TCPSegment.length_in_sequence_space. unfold TCPConfig.MAX_PAYLOAD_SIZE in Hl.
  rewrite Buffer.size_str by done. rewrite u64_add_l, u64_small; [done|].
  destruct (TCPHeader.syn _), (TCPHeader.fin _); lia.
Qed.

Lemma wf_next_range s : wf s ->
  0 <= ByteStream.n_bytes_read (_stream s) /\ 0 <= ByteStream.cur_size (_stream s) /\
  0 <= _next_seqno s <= N + 2.
Proof.
  intros [? [] ? ? ? ? ? Hn ? ? ?]. destruct Hn as [[? ?]|[?|[? ?]]]; lia.
Qed.
End Stream.

(** Reading nothing from a stream leaves it as it was. *)
Lemma read_nil n st st' : ByteStream.wf st -> 0 < ByteStream.max_capacity st -> 0 <= n ->
  ByteStream.read n st = Ok ([], st') -> st' = st.
Proof.
  intros Hw Hc Hn. unfold ByteStream.read. rewrite ByteStream.peek_output_spec by done.
  cbn [mbind res_bind]. unfold ByteStream.pop_output. rewrite (proj2 (Z.eqb_neq _ _)) by lia.
  cbn [mbind res_bind]. intros H. injection H as Ht <-. rewrite Ht. destruct Hw as [? ? ? Hlt ? ? ?].
  specialize (Hlt Hc). cbn [length]. change (Z.of_nat 0) with 0.
  rewrite Z.add_0_r, Z.sub_0_r, Z.min_l, Z.add_0_r by lia.
  rewrite !u64_small, Z.mod_small, Z.max_r by lia. by destruct st.
Qed.

(** ** Filling the window *)

(** The end of the window the sender works with: a closed window counts as one. *)
Definition window_limit (s : t) : Z := _abs_ackno s + Z.max 1 (_window_size s).

(** [s'] is [s] after sending the segments [new]. *)
Record grows (D : Z -> byte) (N : Z) (s : t) (new : list OrderedSegment) (s' : t) : Prop := {
  gr_isn : _isn s' = _isn s;
  gr_ack : _abs_ackno s' = _abs_ackno s;
  gr_win : _window_size s' = _window_size s;
  gr_initial : _initial_retransmission_timeout s' = _initial_retransmission_timeout s;
  gr_retx : _n_consec_retransmissions s' = _n_consec_retransmissions s;
  gr_out : _segments_out s' = _segments_out s ++ (segment <$> new);
  gr_outstanding : _outstanding_segments s' = _outstanding_segments s ++ new;
  gr_chain : chain D N (_isn s) (_next_seqno s) new (_next_seqno s');
  gr_written : ByteStream.n_bytes_written (_stream s') = ByteStream.n_bytes_written (_stream s);
  gr_done : ByteStream.done_writing (_stream s') = ByteStream.done_writing (_stream s);
  gr_error : ByteStream._error (_stream s') = ByteStream._error (_stream s);
  gr_limit : new <> [] -> _next_seqno s' <= window_limit s \/
    _next_seqno s' = window_limit s + 1 /\
    exists o, last new = Some o /\ TCPHeader.fin (TCPSegment.header (segment o)) = true;
  gr_timer : (new = [] -> _timer s' = _timer s) /\
    (new <> [] -> 0 < _initial_retransmission_timeout s -> Timer.expired (_timer s') = false)
}.

(** Nothing more can be sent: the SYN is out, and the window is used up or the
    stream is drained (and its FIN sent, if it has ended). *)
Definition settled (N : Z) (s : t) : Prop :=
  0 < _next_seqno s /\
  (window_limit s <= _next_seqno s \/
   ByteStream.cur_size (_stream s) = 0 /\
   (ByteStream.done_writing (_stream s) = true -> _next_seqno s = N + 2)).

Lemma grows_refl D N s : grows D N s [] s.
Proof. split; try done; cbn; by rewrite app_nil_r. Qed.

Lemma grows_cons D N s o s1 new s2 :
  grows D N s [o] s1 -> grows D N s1 new s2 -> grows D N s (o :: new) s2.
Proof.
  intros [] []. split; try congruence.
  - rewrite gr_out1, gr_out0, <- app_assoc. done.
  - rewrite gr_outstanding1, gr_outstanding0, <- app_assoc. done.
  - change (o :: new) with ([o] ++ new). eapply chain_app; [done|]. by rewrite gr_isn0 in gr_chain1.
  - intros _. destruct new as [|o2 new].
    { cbn in gr_chain1. rewrite <- gr_chain1. by apply gr_limit0. }
    unfold window_limit in *. rewrite gr_ack0, gr_win0 in gr_limit1.
    destruct gr_limit1 as [?|[? (o3 & Hl & ?)]]; [done|by left|right].
    split; [done|]. exists o3. by rewrite <- Hl.
  - destruct gr_timer0 as [_ Ht0], gr_timer1 as [Ht1 Ht1']. split; [done|]. intros _ Hi.
    destruct (decide (new = [])) as [->|Hn].
    + rewrite Ht1 by done. by apply Ht0.
    + apply Ht1'; [done|congruence].
Qed.

(** The room an iteration starts with. *)
Lemma n_bytes_to_send_eq D N s : wf D N s -> _next_seqno s <= _abs_ackno s + _window_size s ->
  n_bytes_to_send s = window_limit s - _next_seqno s.
Proof.
  intros Hw Hle. pose proof (wf_next_range D N s Hw). destruct Hw.
  unfold n_bytes_to_send, window_limit, bytes_in_flight.
  rewrite !u64_small by (rewrite ?u64_small; lia).
  destruct (_window_size s =? 0) eqn:E1; destruct (_next_seqno s - _abs_ackno s =? 0) eqn:E2;
    cbn [andb]; zb; rewrite ?u16_small by lia; lia.
Qed.

(** As long as the FIN is out of reach, the next sequence number is that of the next
    byte to read. *)
Lemma next_position D N s : wf D N s ->
  ByteStream.eof (_stream s) && (ByteStream.bytes_written (_stream s) ⊞ 2 <=? _next_seqno s) = false ->
  position (_next_seqno s) = ByteStream.n_bytes_read (_stream s) /\
  (_next_seqno s = 0 /\ ByteStream.n_bytes_read (_stream s) = 0 \/
   _next_seqno s = ByteStream.n_bytes_read (_stream s) + 1).
Proof.
  intros Hw Hg. pose proof (wf_next_range D N s Hw) as (Hr0 & Hc0 & Hnx).
  pose proof Hw as [_ _ _ HN Hwr _ _ Hnext _ _ _].
  unfold position. destruct Hnext as [[Ha Hb]|[Ha|[Ha He]]].
  - rewrite Ha, Hb. auto.
  - rewrite (proj2 (Z.eqb_neq _ _)) by lia. split; [lia|auto].
  - rewrite He in Hg. cbn [andb] in Hg. zb. unfold ByteStream.bytes_written in Hg.
    unfold ByteStream.eof, ByteStream.buffer_empty in He. zb. rewrite u64_small in Hg by lia. lia.
Qed.

(** What an iteration reads and sends, when it gets that far: [n] bytes of room
    (after the SYN, and at most one payload), of which the data takes a part. *)
Lemma fill_step_segment D N s n data st fin :
  wf D N s ->
  ByteStream.eof (_stream s) && (ByteStream.bytes_written (_stream s) ⊞ 2 <=? _next_seqno s) = false ->
  0 <= n <= TCPConfig.MAX_PAYLOAD_SIZE ->
  ByteStream.read n (_stream s) = Ok (data, st) ->
  (fin = true -> ByteStream.eof st = true) ->
  let seg := TCPSegment.mk (header (WrappingInt32.wrap (_next_seqno s) (_isn s))
    (_next_seqno s =? 0) fin) (Buffer.of_string data) in
  slen seg = zlen data + (if _next_seqno s =? 0 then 1 else 0) + (if fin then 1 else 0) /\
  zlen data = Z.min n (ByteStream.cur_size (_stream s)) /\
  (0 < slen seg -> good D N (_isn s) (_next_seqno s) seg) /\
  ByteStream.wf st /\ ByteStream.max_capacity st = ByteStream.max_capacity (_stream s) /\
  ByteStream.n_bytes_written st = ByteStream.n_bytes_written (_stream s) /\
  ByteStream.n_bytes_read st = ByteStream.n_bytes_read (_stream s) + zlen data /\
  ByteStream.cur_size st = ByteStream.cur_size (_stream s) - zlen data /\
  ByteStream.done_writing st = ByteStream.done_writing (_stream s) /\
  ByteStream._error st = ByteStream._error (_stream s) /\
  agrees D (ByteStream.n_bytes_read st) (ByteStream.contents st) /\
  cut (_next_seqno s + slen seg) (ByteStream.n_bytes_read st) (ByteStream.eof st).
Proof.
  intros Hw Hg Hn Hrd Hfin. pose proof (wf_next_range D N s Hw) as (Hr0 & Hc0 & Hnx).
  pose proof Hw as [Hisn Hst Hcap HN Hwr Hcon Hend Hnext Hack Hwin _].
  destruct (ByteStream.read_spec n (_stream s)) as
    (st' & Hrd' & Hwf' & Hcon' & Hsz' & Hr' & Hwr' & Hcap' & Hd' & Her'); [done|done|lia|].
  rewrite Hrd in Hrd'. injection Hrd' as Hdata <-.
  pose proof (ByteStream.zlen_contents _ Hst) as Hzl.
  assert (Hl : zlen data = Z.min n (ByteStream.cur_size (_stream s)))
    by (rewrite Hdata, length_take; lia).
  rewrite <- Hl in Hr', Hsz'. rewrite u64_small in Hr' by lia.
  assert (Hsplit : agrees D (ByteStream.n_bytes_read (_stream s)) data /\
    agrees D (ByteStream.n_bytes_read (_stream s) + zlen data) (ByteStream.contents st)).
  { destruct (agrees_split D _ _ (zlen data) Hcon) as [H1 H2]; [lia|].
    rewrite Hl in H1, H2 |- *. rewrite Hcon', Hdata.
    destruct (decide (n <= ByteStream.cur_size (_stream s))).
    - rewrite Z.min_l in * by done. done.
    - rewrite Z.min_r in * by lia. rewrite take_ge, drop_ge in * by lia. done. }
  destruct Hsplit as [Hs1 Hs2].
  destruct (next_position D N s Hw Hg) as [Hpos Hnext'].
  intros seg. assert (Hlen : slen seg = zlen data + (if _next_seqno s =? 0 then 1 else 0) + (if fin then 1 else 0)).
  { unfold seg. rewrite slen_eq; cbn [TCPSegment.payload TCPSegment.header TCPHeader.syn TCPHeader.fin header];
      rewrite ?Buffer.str_of_string; [done| |unfold TCPConfig.MAX_PAYLOAD_SIZE in *; lia].
    apply Buffer.buffer_of_string_wf. unfold TCPConfig.MAX_PAYLOAD_SIZE in *. lia. }
  assert (Heof : ByteStream.eof st = true -> ByteStream.n_bytes_read (_stream s) + zlen data = N).
  { unfold ByteStream.eof, ByteStream.input_ended, ByteStream.buffer_empty. intros He. zb.
    rewrite Hd' in *. specialize (Hend ltac:(done)). lia. }
  split_and!; try done; try lia.
  - intros Hpl. split; try done; try lia.
    + apply Buffer.buffer_of_string_wf. unfold TCPConfig.MAX_PAYLOAD_SIZE in *. lia.
    + cbn [TCPSegment.payload TCPSegment.header TCPHeader.fin header seg].
      rewrite Buffer.str_of_string, Hpos. split; [done|done|lia|]. intros Hf. auto.
    + cbn [TCPSegment.payload seg]. rewrite Buffer.str_of_string. lia.
  - by rewrite Hr'.
  - unfold cut. rewrite Hlen, Hr'. destruct fin.
    + rewrite Hfin by done. right. right. split; [|done].
      destruct Hnext' as [[-> ?]| -> ]; cbn; [lia|]. rewrite (proj2 (Z.eqb_neq _ _)) by lia. lia.
    + right. left. destruct Hnext' as [[-> ?]| -> ]; cbn; [lia|].
      rewrite (proj2 (Z.eqb_neq _ _)) by lia. lia.
Qed.

(** The invariant after sending a segment at the end of the chain. *)
Lemma wf_send D N s seg st out timer :
  wf D N s -> good D N (_isn s) (_next_seqno s) seg -> ByteStream.wf st ->
  ByteStream.max_capacity st = ByteStream.max_capacity (_stream s) ->
  ByteStream.n_bytes_written st = ByteStream.n_bytes_written (_stream s) ->
  ByteStream.n_bytes_written st = ByteStream.n_bytes_read st + ByteStream.cur_size st ->
  ByteStream.done_writing st = ByteStream.done_writing (_stream s) ->
  agrees D (ByteStream.n_bytes_read st) (ByteStream.contents st) ->
  cut (_next_seqno s + slen seg) (ByteStream.n_bytes_read st) (ByteStream.eof st) ->
  wf D N (mk (_isn s) out (_initial_retransmission_timeout s) st (_next_seqno s + slen seg)
             (_abs_ackno s) (_window_size s)
             (_outstanding_segments s ++ [mkOrdered (_next_seqno s) seg]) timer
             (_n_consec_retransmissions s)).
Proof.
  intros [Hisn Hst Hcap HN Hwr Hcon Hend Hnext Hack Hwin (sq & Hch & Hfst)] Hg Hw Hc1 Hw1 Hw2 Hd Ha Hcut.
  pose proof (gd_len _ _ _ _ _ Hg). split; cbn; try done.
  - lia.
  - rewrite Hw1. lia.
  - rewrite Hd, Hw1. done.
  - lia.
  - exists sq. split; [by apply chain_snoc|].
    destruct (_outstanding_segments s) as [|o l]; cbn in *; [lia|done].
Qed.

Lemma fill_step_plan D N s : wf D N s -> _next_seqno s <= _abs_ackno s + _window_size s ->
  ByteStream.eof (_stream s) && (ByteStream.bytes_written (_stream s) ⊞ 2 <=? _next_seqno s) = false ->
  exists n data st,
    n = Z.min (window_limit s - _next_seqno s - (if _next_seqno s =? 0 then 1 else 0)) 1000 /\ 0 <= n /\
    ByteStream.read n (_stream s) = Ok (data, st) /\
    let fin := ByteStream.eof st && (0 <? (if n =? 1000 then 1 else n - zlen data)) in
    let seg := TCPSegment.mk (header (WrappingInt32.wrap (_next_seqno s) (_isn s))
      (_next_seqno s =? 0) fin) (Buffer.of_string data) in
    fill_step s =
      if slen seg =? 0 then Ok (false, set_stream st s)
      else Ok (true,
        mk (_isn s) (_segments_out s ++ [seg]) (_initial_retransmission_timeout s) st
           (_next_seqno s ⊞ slen seg) (_abs_ackno s) (_window_size s)
           (_outstanding_segments s ++ [mkOrdered (_next_seqno s) seg])
           (if Timer.expired (_timer s)
            then Timer.start (_initial_retransmission_timeout s) else _timer s)
           (_n_consec_retransmissions s)).
Proof.
  intros Hw E1 E2. pose proof (wf_next_range D N s Hw) as (Hr0 & Hc0 & Hnx).
  pose proof Hw as [_ Hst Hcap HN Hwr Hcon Hend Hnext Hack Hwin _].
  unfold fill_step. rewrite (u64_small (_abs_ackno s + _window_size s)) by lia.
  rewrite (proj2 (Z.leb_le _ _)) by done. cbn [negb]. rewrite E2.
  rewrite (n_bytes_to_send_eq D N) by done. set (room := window_limit s - _next_seqno s).
  assert (Hroom : 0 <= room < two16) by (unfold room, window_limit; lia).
  assert (Hsyn : (_next_seqno s =? 0) && (0 <? room) = (_next_seqno s =? 0)).
  { destruct (_next_seqno s =? 0) eqn:E; [|done]. zb. unfold room, window_limit. cbn.
    apply Z.ltb_lt. lia. }
  rewrite Hsyn. cbv zeta.
  set (n1 := if _next_seqno s =? 0 then u16 (room - 1) else room).
  assert (Hn1 : n1 = room - (if _next_seqno s =? 0 then 1 else 0) /\ 0 <= n1).
  { unfold n1. destruct (_next_seqno s =? 0); [|lia]. cbn in Hsyn. zb. rewrite u16_small by lia. lia. }
  set (n := if TCPConfig.MAX_PAYLOAD_SIZE <? n1 then TCPConfig.MAX_PAYLOAD_SIZE else n1).
  assert (Hn : n = Z.min n1 1000) by (unfold n, TCPConfig.MAX_PAYLOAD_SIZE; zcase; lia).
  destruct (ByteStream.read_spec n (_stream s)) as (st & Hrd & _); [done|done|lia|].
  pose proof (ByteStream.zlen_contents _ Hst).
  rewrite Hrd. cbn [mbind res_bind].
  set (data := take (Z.to_nat n) (ByteStream.contents (_stream s))) in *.
  assert (Hdl : zlen data <= n) by (unfold data; rewrite length_take; lia).
  assert (Hn3 : (if n =? TCPConfig.MAX_PAYLOAD_SIZE then 1 else u16 (n ⊟ Buffer.size (Buffer.of_string data)))
    = if n =? 1000 then 1 else n - zlen data).
  { unfold TCPConfig.MAX_PAYLOAD_SIZE. destruct (n =? 1000) eqn:E3; [done|]. zb.
    rewrite Buffer.size_str, Buffer.str_of_string by (apply Buffer.buffer_of_string_wf; lia).
    rewrite u64_small, u16_small by lia. done. }
  rewrite Hn3. exists n, data, st. split; [lia|]. split; [lia|]. done.
Qed.

(** Nothing is left to send when the segment would be empty. *)
Lemma fill_step_idle D N s n st : wf D N s ->
  n = Z.min (window_limit s - _next_seqno s - (if _next_seqno s =? 0 then 1 else 0)) 1000 -> 0 <= n ->
  ByteStream.read n (_stream s) = Ok ([], st) -> (_next_seqno s =? 0) = false ->
  ByteStream.eof st && (0 <? (if n =? 1000 then 1 else n)) = false ->
  st = _stream s /\ settled N s.
Proof.
  intros Hw Hn Hn0 Hrd E5 Hfin. pose proof (wf_next_range D N s Hw) as (Hr0 & Hc0 & Hnx).
  pose proof Hw as [_ Hst Hcap HN Hwr Hcon Hend Hnext Hack Hwin _].
  destruct (ByteStream.read_spec n (_stream s)) as (st' & Hrd' & _); [done|done|lia|].
  rewrite Hrd in Hrd'. injection Hrd' as Hdata _. pose proof (ByteStream.zlen_contents _ Hst) as Hzl.
  assert (Hdl : 0 = Z.min n (ByteStream.cur_size (_stream s))).
  { apply (f_equal length) in Hdata. rewrite length_take in Hdata. cbn in Hdata. lia. }
  apply read_nil in Hrd as ->; [|done|done|lia]. split; [done|].
  rewrite E5 in Hn. zb. unfold settled. split; [lia|].
  destruct (decide (n = 0)); [left; lia|right]. split; [lia|]. intros Hd. exfalso.
  unfold ByteStream.eof, ByteStream.input_ended, ByteStream.buffer_empty in Hfin. rewrite Hd in Hfin.
  rewrite (proj2 (Z.eqb_eq (ByteStream.cur_size _) 0)) in Hfin by lia. cbn in Hfin.
  apply Z.ltb_ge in Hfin. destruct (n =? 1000); lia.
Qed.

Lemma fill_step_spec D N s : wf D N s ->
  exists continue s', fill_step s = Ok (continue, s') /\
    if continue : bool then
      exists o, wf D N s' /\ grows D N s [o] s' /\ 0 < slen (segment o) /\
        _next_seqno s <= _abs_ackno s + _window_size s
    else s' = s /\ settled N s.
Proof.
  intros Hw. pose proof (wf_next_range D N s Hw) as (Hr0 & Hc0 & Hnx).
  pose proof Hw as [Hisn Hst Hcap HN Hwr Hcon Hend Hnext Hack Hwin _].
  destruct (decide (_next_seqno s <= _abs_ackno s + _window_size s)) as [E1|E1].
  2: { exists false, s. unfold fill_step. rewrite (u64_small (_abs_ackno s + _window_size s)) by lia.
       rewrite (proj2 (Z.leb_gt _ _)) by lia. split; [done|]. split; [done|].
       split; [lia|]. left. unfold window_limit. lia. }
  destruct (ByteStream.eof (_stream s) && (ByteStream.bytes_written (_stream s) ⊞ 2 <=? _next_seqno s)) eqn:E2.
  { exists false, s. unfold fill_step. rewrite (u64_small (_abs_ackno s + _window_size s)) by lia.
    rewrite (proj2 (Z.leb_le _ _)), E2 by lia. split; [done|]. split; [done|]. zb.
    unfold ByteStream.eof, ByteStream.input_ended, ByteStream.buffer_empty in *. zb.
    unfold ByteStream.bytes_written in *. rewrite u64_small in * by lia.
    split; [lia|]. right. split; [done|]. intros Hd. specialize (Hend Hd). lia. }
  destruct (fill_step_plan D N s Hw E1 E2) as (n & data & st & Hn & Hn0 & Hrd & ->).
  set (fin := ByteStream.eof st && _).
  assert (Hfin : fin = true -> ByteStream.eof st = true) by (unfold fin; intros ?; by zb).
  pose proof (fill_step_segment D N s n data st fin Hw E2) as Hseg.
  specialize (Hseg ltac:(unfold TCPConfig.MAX_PAYLOAD_SIZE; lia) Hrd Hfin). cbv zeta in Hseg.
  set (seg := TCPSegment.mk _ _) in *.
  destruct Hseg as (Hlen & Hdl & Hgood & Hw' & Hcap' & Hwr' & Hrd' & Hsz' & Hd' & Her' & Hag & Hcut).
  assert (Hpos : 0 <= slen seg) by (rewrite Hlen; destruct (_ =? 0), fin; lia).
  destruct (slen seg =? 0) eqn:E4; zb.
  - assert (Hdn : data = [] /\ (_next_seqno s =? 0) = false /\ fin = false)
      by (destruct data, (_next_seqno s =? 0), fin; cbn [length] in Hlen; repeat split; lia || done).
    destruct Hdn as (-> & Hs0 & Hf0). unfold fin in Hf0. cbn [length] in Hf0. rewrite Z.sub_0_r in Hf0.
    destruct (fill_step_idle D N s n st Hw Hn Hn0 Hrd Hs0 Hf0) as [-> Hset].
    exists false, s. split; [f_equal; f_equal; by destruct s|done].
  - rewrite (u64_small (_next_seqno s + slen seg))
      by (rewrite Hlen; destruct (_ =? 0), fin; lia).
    eexists true, _. split; [done|]. exists (mkOrdered (_next_seqno s) seg).
    assert (Hg : good D N (_isn s) (_next_seqno s) seg) by (apply Hgood; lia).
    split; [apply wf_send; auto; lia|]. split; [|cbn; lia].
    split; cbn; try done.
    + intros _. destruct (decide (_next_seqno s + slen seg <= window_limit s)); [by left|right].
      assert (Hf : fin = true) by (destruct fin; [done|destruct (_ =? 0); lia]).
      rewrite Hf in *. split; [|by exists (mkOrdered (_next_seqno s) seg)].
      unfold fin in Hf. zb.
      destruct (n =? 1000) eqn:E6; zb; destruct (_next_seqno s =? 0); lia.
    + split; [done|]. intros _ Hi. destruct (Timer.expired (_timer s)) eqn:Et; [|done].
      unfold Timer.expired, Timer.start. cbn. apply Z.leb_gt. done.
Qed.

(** The loop ends: its fuel covers the window. *)
Lemma fill_loop_ends D N fuel : forall s, wf D N s ->
  _abs_ackno s + _window_size s + 1 - _next_seqno s < Z.of_nat fuel -> (0 < fuel)%nat ->
  exists new s', fill_loop fuel s = Ok (true, s') /\ wf D N s' /\ grows D N s new s' /\ settled N s'.
Proof.
  induction fuel as [|fuel IH]; intros s Hw Hf Hpos; [lia|]. cbn [fill_loop].
  destruct (fill_step_spec D N s Hw) as (b & s1 & E & Hs). rewrite E. cbn [mbind res_bind].
  destruct b.
  - destruct Hs as (o & Hw1 & Hg & Hl & Hle). pose proof Hg as [].
    destruct gr_chain0 as (_ & _ & Hnx). cbn in Hnx.
    destruct (IH s1 Hw1) as (new & s2 & E2 & Hw2 & Hg2 & Hst); [lia|lia|].
    exists (o :: new), s2. split_and!; try done. by eapply grows_cons.
  - destruct Hs as [-> Hst]. exists [], s. split_and!; try done. apply grows_refl.
Qed.

Lemma fill_window_spec D N s : wf D N s ->
  exists new s', fill_window s = Ok s' /\ wf D N s' /\ grows D N s new s' /\ settled N s'.
Proof.
  intros Hw. pose proof (wf_next_range D N s Hw). pose proof Hw as [].
  destruct (fill_loop_ends D N (Z.to_nat (_window_size s) + 4) s Hw) as (new & s' & E & Hr); [lia|lia|].
  exists new, s'. unfold fill_window. rewrite E. by split.
Qed.

(** ** Acknowledgments *)

(** All sequence numbers of the segment are below [ack]. *)
Definition acked (ack : Z) (o : OrderedSegment) : Prop := seqno o + slen (segment o) <= ack.

Lemma ack_loop_spec D N isn ack initial last : forall l sq timer,
  chain D N isn sq l last -> sq <= ack <= last -> last < two63 ->
  exists dropped rest sq', l = dropped ++ rest /\
    ack_loop ack initial l timer =
      (rest, match dropped with [] => timer | _ => Timer.start initial end) /\
    Forall (acked ack) dropped /\ Forall (fun o => ~ acked ack o) rest /\
    chain D N isn sq' rest last /\
    match rest with [] => ack = last | o :: _ => sq' <= ack < sq' + slen (segment o) end.
Proof.
  induction l as [|o l IH]; intros sq timer Hc Ha Hl; cbn [ack_loop].
  - cbn in Hc. exists [], [], sq. split_and!; try done. lia.
  - destruct Hc as (Hs & Hg & Hc). pose proof (chain_le _ _ _ _ _ _ Hc).
    pose proof Hg as [_ _ _ Hpl _ Hsq].
    change (TCPSegment.length_in_sequence_space (segment o)) with (slen (segment o)).
    rewrite Hs, u64_small by lia. destruct (sq + slen (segment o) <=? ack) eqn:E; zb.
    + destruct (IH (sq + slen (segment o)) (Timer.start initial) Hc) as
        (dr & rest & sq' & -> & Hal & Hdr & Hre & Hch & Hm); [lia|done|].
      exists (o :: dr), rest, sq'. split_and!; try done.
      * rewrite Hal. by destruct dr.
      * constructor; [|done]. unfold acked. lia.
    + exists [], (o :: l), sq. split_and!; try done; try lia.
      * assert (Hall : forall l sq2, chain D N isn sq2 l last -> ack < sq2 ->
          Forall (fun o => ~ acked ack o) l).
        { clear. induction l as [|o l IH]; intros sq2; [constructor|].
          intros (Hs & Hg & Hc) Hlt. destruct Hg as [_ _ _ Hpl _ _]. constructor.
          - unfold acked. lia.
          - eapply IH; [done|lia]. }
        constructor; [unfold acked; lia|]. eapply Hall; [done|lia].
Qed.

(** The sender when an acknowledgment up to [a] has left [rest] outstanding, and when
    one that is old or of nothing sent has brought a window. *)
Definition acknowledged (a window : Z) (dropped rest : list OrderedSegment) (s : t) : t :=
  mk (_isn s) (_segments_out s) (_initial_retransmission_timeout s) (_stream s) (_next_seqno s) a window rest
    (match dropped with [] => _timer s | _ => Timer.start (_initial_retransmission_timeout s) end) 0.
Definition set_window (window : Z) (s : t) : t :=
  mk (_isn s) (_segments_out s) (_initial_retransmission_timeout s) (_stream s) (_next_seqno s) (_abs_ackno s) window
    (_outstanding_segments s) (_timer s) (_n_consec_retransmissions s).

Lemma ack_received_exact D N s ackno window :
  wf D N s -> 0 <= window < two16 ->
  let a := WrappingInt32.unwrap ackno (_isn s) (_abs_ackno s) in
  if (_abs_ackno s <? a) && (a <=? _next_seqno s) then
    exists dropped rest, _outstanding_segments s = dropped ++ rest /\ Forall (acked a) dropped /\
      Forall (fun o => ~ acked a o) rest /\ wf D N (acknowledged a window dropped rest s) /\
      ack_received ackno window s = fill_window (acknowledged a window dropped rest s)
  else ack_received ackno window s = Ok (set_window window s) /\ wf D N (set_window window s).
Proof.
  intros Hw Hwin a. pose proof (wf_next_range D N s Hw) as Hnx.
  pose proof Hw as [Hisn Hst Hcap HN Hwr Hcon Hend Hnext Hack Hwin0 (sq & Hch & Hm)].
  unfold ack_received. fold a.
  destruct (_abs_ackno s <? a) eqn:E1; destruct (a <=? _next_seqno s) eqn:E2; cbn [andb].
  2-4: (zb; rewrite (proj2 (orb_true_iff _ _)) by (zb; lia); split; [done|]; split; cbn; try done; by exists sq).
  zb. rewrite (proj2 (Z.leb_gt _ _)), (proj2 (Z.ltb_ge _ _)) by lia. cbn [orb].
  assert (Hsq : sq <= _abs_ackno s).
  { destruct (_outstanding_segments s); [cbn in Hch; lia|lia]. }
  destruct (ack_loop_spec D N (_isn s) a (_initial_retransmission_timeout s) (_next_seqno s)
    (_outstanding_segments s) sq (_timer s) Hch) as
    (dr & rest & sq' & Hl & -> & Hdr & Hre & Hch' & Hm'); [lia|lia|].
  exists dr, rest. split_and!; try done.
  split; cbn; try done; [lia|]. exists sq'. split; [done|]. destruct rest; [done|lia].
Qed.

Lemma ack_received_spec D N s ackno window :
  wf D N s -> 0 <= window < two16 ->
  let a := WrappingInt32.unwrap ackno (_isn s) (_abs_ackno s) in
  if (_abs_ackno s <? a) && (a <=? _next_seqno s) then
    exists dropped rest s0 new s',
      _outstanding_segments s = dropped ++ rest /\ Forall (acked a) dropped /\
      Forall (fun o => ~ acked a o) rest /\
      wf D N s0 /\ _outstanding_segments s0 = rest /\ _abs_ackno s0 = a /\
      _window_size s0 = window /\ _next_seqno s0 = _next_seqno s /\ _isn s0 = _isn s /\
      _segments_out s0 = _segments_out s /\ _stream s0 = _stream s /\
      _n_consec_retransmissions s0 = 0 /\
      _timer s0 = (match dropped with [] => _timer s
                   | _ => Timer.start (_initial_retransmission_timeout s) end) /\
      ack_received ackno window s = fill_window s0 /\ fill_window s0 = Ok s' /\
      wf D N s' /\ grows D N s0 new s' /\ settled N s'
  else
    exists s', ack_received ackno window s = Ok s' /\ wf D N s' /\
      _segments_out s' = _segments_out s /\ _outstanding_segments s' = _outstanding_segments s /\
      _window_size s' = window /\ _abs_ackno s' = _abs_ackno s /\ _next_seqno s' = _next_seqno s /\
      _timer s' = _timer s /\ _n_consec_retransmissions s' = _n_consec_retransmissions s /\
      _stream s' = _stream s /\ _isn s' = _isn s.
Proof.
  intros Hw Hwin a. pose proof (ack_received_exact D N s ackno window Hw Hwin) as H. cbv zeta in H. fold a in H.
  destruct (_ && _).
  - destruct H as (dr & rest & Ho & Hdr & Hre & Hw0 & E).
    destruct (fill_window_spec D N _ Hw0) as (new & s' & E' & Hw' & Hg & Hse).
    exists dr, rest, (acknowledged a window dr rest s), new, s'. by split_and!.
  - destruct H as [E Hw']. eexists. by split_and!.
Qed.

(** ** Runs of the sender *)

(** What an owner can do to a sender; [Drain] takes the queued segments. *)
Inductive op : Type :=
| Write (data : bytes)
| EndInput
| Fill
| Ack (ackno : WrappingInt32.t) (window_size : Z)
| Tick (ms : Z)
| SendEmpty
| Drain.

Definition step (o : op) (s : t) : res t :=
  match o with
  | Write data => Ok (set_stream (snd (ByteStream.write data (_stream s))) s)
  | EndInput => Ok (set_stream (ByteStream.end_input (_stream s)) s)
  | Fill => fill_window s
  | Ack ackno window_size => ack_received ackno window_size s
  | Tick ms => Ok (tick ms s)
  | SendEmpty => Ok (send_empty_segment s)
  | Drain => Ok (set_segments_out [] s)
  end.

(** The segments a step added to the queue. *)
Definition emitted (s s' : t) : list TCPSegment.t :=
  drop (length (_segments_out s)) (_segments_out s').

Section Runs.
Context (D : Z -> byte) (N : Z).

(** The writer follows the stream [D] of length [N]: what fits of a write is what
    comes next, and the stream is ended at its end.  Acknowledgments may be
    arbitrary. *)
Definition allowed (o : op) (s : t) : Prop :=
  match o with
  | Write data =>
      let n := Z.min (zlen data) (ByteStream.remaining_capacity (_stream s)) in
      ByteStream.done_writing (_stream s) = false /\
      ByteStream.n_bytes_written (_stream s) + n <= N /\
      agrees D (ByteStream.n_bytes_written (_stream s)) (take (Z.to_nat n) data)
  | EndInput => ByteStream.n_bytes_written (_stream s) = N
  | Ack _ window_size => 0 <= window_size < two16
  | _ => True
  end.

(** A segment the sender may emit: a piece of the stream in its place, or an
    empty segment with a sequence number of the stream. *)
Definition sendable (isn : WrappingInt32.t) (seg : TCPSegment.t) : Prop :=
  (exists sq, good D N isn sq seg) \/
  (exists sq, 0 <= sq <= N + 2 /\
     seg = TCPSegment.mk (header (WrappingInt32.wrap sq isn) false false) Buffer.nil).

Lemma wf_set_stream s st : wf D N s -> ByteStream.wf st ->
  ByteStream.max_capacity st = ByteStream.max_capacity (_stream s) ->
  ByteStream.n_bytes_read st = ByteStream.n_bytes_read (_stream s) ->
  ByteStream.n_bytes_written st = ByteStream.n_bytes_read st + ByteStream.cur_size st ->
  ByteStream.n_bytes_written st <= N ->
  agrees D (ByteStream.n_bytes_read st) (ByteStream.contents st) ->
  (ByteStream.done_writing st = true -> ByteStream.n_bytes_written st = N) ->
  (ByteStream.eof (_stream s) = true -> ByteStream.eof st = true) ->
  wf D N (set_stream st s).
Proof.
  intros [] ? ? Hr ? ? ? ? He. split; cbn; try done; try lia.
  rewrite Hr. destruct wf_next0 as [?|[?|[? ?]]]; unfold cut; auto.
Qed.
End Runs.

Lemma wf_set_segments_out D N s q : wf D N s -> wf D N (set_segments_out q s).
Proof. intros []. by split. Qed.

Lemma chain_good D N isn sq l last : chain D N isn sq l last ->
  Forall (fun o => exists sq, good D N isn sq (segment o)) l.
Proof.
  revert sq. induction l as [|o l IH]; intros sq; [constructor|].
  intros (_ & Hg & Hc). constructor; [by exists sq|by eapply IH].
Qed.

Lemma emitted_app s s' new : _segments_out s' = _segments_out s ++ new -> emitted s s' = new.
Proof. intros H. unfold emitted. by rewrite H, drop_app_length. Qed.

Lemma grows_emitted D N s new s' : grows D N s new s' ->
  Forall (sendable D N (_isn s)) (emitted s s').
Proof.
  intros []. rewrite (emitted_app _ _ _ gr_out0).
  pose proof (chain_good _ _ _ _ _ _ gr_chain0) as Hg.
  apply Forall_fmap. eapply Forall_impl; [exact Hg|]. intros o Ho. by left.
Qed.

Lemma write_ok D N s data : wf D N s -> allowed D N (Write data) s ->
  wf D N (set_stream (snd (ByteStream.write data (_stream s))) s).
Proof.
  intros Hw (Hd & Hle & Ha). pose proof (wf_next_range D N s Hw). pose proof Hw as [].
  rewrite ByteStream.remaining_capacity_eq in Hle, Ha by done.
  destruct (ByteStream.write_spec data (_stream s) wf_stream0)
    as (_ & Hw1 & Hc1 & Hs1 & Hn1 & Hr1 & Hm1 & Hd1 & _).
  pose proof (ByteStream.wf_size _ wf_stream0).
  apply wf_set_stream; try done.
  - rewrite Hn1, Hr1, Hs1, u64_small by lia. lia.
  - rewrite Hn1, u64_small by lia. lia.
  - rewrite Hr1, Hc1. apply agrees_app; [done|].
    rewrite ByteStream.zlen_contents by done. destruct wf_written0 as [<- _]. done.
  - rewrite Hd1, Hd. done.
  - unfold ByteStream.eof, ByteStream.input_ended. by rewrite Hd.
Qed.

Lemma tick_ok D N ms s : wf D N s -> wf D N (tick ms s) /\ _isn (tick ms s) = _isn s /\
  Forall (sendable D N (_isn s)) (emitted s (tick ms s)).
Proof.
  intros Hw. pose proof Hw as [? ? ? ? ? ? ? ? ? ? (sq & Hch & Hm)].
  unfold tick, emitted. destruct (Timer.expired _); cbn.
  - destruct (_outstanding_segments s) as [|o l] eqn:E.
    + split_and!; [split; cbn; try done; by exists sq|done|cbn; rewrite drop_all; constructor].
    + destruct (0 <? _window_size s); cbn;
        (split_and!; [split; cbn; try done; by exists sq|done|rewrite drop_app_length;
          constructor; [left; exists sq; apply Hch|constructor]]).
  - split_and!; [split; cbn; try done; by exists sq|done|rewrite drop_all; constructor].
Qed.

(** One step: it returns, keeps the invariant, and emits only sendable segments. *)
Lemma step_spec D N o s : wf D N s -> allowed D N o s ->
  exists s', step o s = Ok s' /\ wf D N s' /\ _isn s' = _isn s /\
    Forall (sendable D N (_isn s)) (emitted s s').
Proof.
  intros Hw Ha. destruct o as [data| | |ackno win|ms| |]; cbn [step].
  - eexists. split; [done|]. split; [by apply write_ok|]. split; [done|].
    unfold emitted. cbn. rewrite drop_all. constructor.
  - eexists. split; [done|]. cbn in Ha. split; [|split; [done|unfold emitted; cbn; rewrite drop_all; constructor]].
    pose proof Hw as []. apply wf_set_stream; try done.
    + by apply ByteStream.stream_end_input_wf.
    + cbn. lia.
    + cbn. lia.
    + unfold ByteStream.eof. cbn. intros He. by zb.
  - destruct (fill_window_spec D N s Hw) as (new & s' & -> & Hw' & Hg & _).
    exists s'. split; [done|]. split; [done|]. split; [apply Hg|by eapply grows_emitted].
  - pose proof (ack_received_spec D N s ackno win Hw Ha) as H. cbv zeta in H. case_match.
    + destruct H as (dr & rest & s0 & new & s' & _ & _ & _ & _ & _ & _ & _ & _ & Hi & Hq & _ & _ & _ & -> & -> & Hw' & Hg & _).
      exists s'. split; [done|]. split; [done|]. rewrite <- Hi. split; [apply Hg|].
      replace (emitted s s') with (emitted s0 s') by (unfold emitted; by rewrite Hq).
      by eapply grows_emitted.
    + destruct H as (s' & -> & Hw' & Hq & _ & _ & _ & _ & _ & _ & _ & Hi).
      exists s'. split_and!; try done. rewrite (emitted_app s s' []); [constructor|].
      by rewrite app_nil_r.
  - destruct (tick_ok D N ms s Hw) as (? & ? & ?). eexists. done.
  - eexists. split; [done|]. split; [by apply wf_set_segments_out|]. split; [done|].
    rewrite (emitted_app s _ [TCPSegment.mk (header (next_seqno s) false false) Buffer.nil]) by done.
    pose proof (wf_next_range D N s Hw). constructor; [right|constructor].
    exists (_next_seqno s). split; [lia|done].
  - eexists. split; [done|]. split; [by apply wf_set_segments_out|]. split; [done|].
    unfold emitted. cbn. rewrite drop_nil. constructor.
Qed.

(** A run from a fresh sender; [em] is every segment emitted so far. *)
Inductive run (D : Z -> byte) (N : Z) : t -> list TCPSegment.t -> Prop :=
| run_init capacity retx fixed_isn random :
    0 < capacity < two63 ->
    (forall i, fixed_isn = Some i -> WrappingInt32.wf i) ->
    run D N (make capacity retx fixed_isn random) []
| run_step s em o s' :
    run D N s em -> allowed D N o s -> step o s = Ok s' -> run D N s' (em ++ emitted s s').

Lemma sender_make_wf D N capacity retx fixed_isn random :
  0 <= N < 2 ^ 62 -> 0 < capacity < two63 ->
  (forall i, fixed_isn = Some i -> WrappingInt32.wf i) ->
  wf D N (make capacity retx fixed_isn random).
Proof.
  intros HN Hc Hi. split; cbn; try done; try lia.
  - destruct fixed_isn; [by apply Hi|apply WrappingInt32.wrapping_make_wf].
  - apply ByteStream.stream_make_wf. lia.
  - left. done.
  - by exists 0.
Qed.

Lemma sender_run_inv D N s em : 0 <= N < 2 ^ 62 -> run D N s em ->
  wf D N s /\ Forall (sendable D N (_isn s)) em.
Proof.
  intros HN. induction 1 as [cap retx fi rnd Hc Hi|s em o s' Hrun [Hw Hem] Ha E].
  - split; [by apply sender_make_wf|constructor].
  - destruct (step_spec D N o s Hw Ha) as (s2 & E2 & Hw2 & Hi & Hs).
    rewrite E in E2. injection E2 as <-. split; [done|].
    rewrite Hi. by apply Forall_app.
Qed.

(** ** Theorems *)

(** C12: [fill_window] returns: its loop ends.  It sends consecutive segments that
    continue the stream where the last one stopped, both queued and remembered as
    outstanding; it stops only when the window is used up or there is nothing left
    to send; and it stays within the window, except that a FIN may take the sequence
    number just after it. *)
Theorem fill_window_correct (D : Z -> byte) (N : Z) (s : t) (Hwf : wf D N s) :
  exists new s',
    fill_loop (Z.to_nat (_window_size s) + 4) s = Ok (true, s') /\ fill_window s = Ok s' /\
    wf D N s' /\
    chain D N (_isn s) (_next_seqno s) new (_next_seqno s') /\
    _segments_out s' = _segments_out s ++ (segment <$> new) /\
    _outstanding_segments s' = _outstanding_segments s ++ new /\
    settled N s' /\
    (new <> [] -> _next_seqno s' <= window_limit s \/
       _next_seqno s' = window_limit s + 1 /\
       exists o, last new = Some o /\ TCPHeader.fin (TCPSegment.header (segment o)) = true).
Proof.
  pose proof (wf_next_range D N s Hwf). pose proof Hwf as [].
  destruct (fill_loop_ends D N (Z.to_nat (_window_size s) + 4) s Hwf) as (new & s' & E & Hw & [] & Hs);
    [lia|lia|].
  exists new, s'. unfold fill_window. by rewrite E.
Qed.

Definition letter_a (_ : Z) : byte := x61.

Lemma fill_window_correct_witness :
  exists s', fill_window (make 10 1000 (Some (WrappingInt32.make 5)) 0) = Ok s' /\
    wf letter_a 3 s' /\ settled 3 s'.
Proof.
  destruct (fill_window_correct letter_a 3 (make 10 1000 (Some (WrappingInt32.make 5)) 0))
    as (new & s' & _ & E & Hw & _ & _ & _ & Hs & _).
  - apply sender_make_wf; [lia|lia|]. intros i [= <-]. apply WrappingInt32.wrapping_make_wf.
  - exists s'. split; [exact E|]. split; [exact Hw|exact Hs].
Defined.

(** C13: what an acknowledgment does to a sender in any state of its invariant.  One of
    something new and sent moves the left edge of the window there, drops exactly the
    outstanding segments it covers, resets the count of retransmissions, restarts the
    timer if a segment was dropped, changes nothing else, and then fills the window.
    After any other acknowledgment the sender is the same but for the size of the
    window: neither the count of retransmissions nor the timer, the stream, the next
    sequence number or a queue has changed. *)
Theorem ack_received_correct (D : Z -> byte) (N window : Z) (s : t) (ackno : WrappingInt32.t)
  (Hwf : wf D N s) (Hwin : 0 <= window < two16) :
  let a := WrappingInt32.unwrap ackno (_isn s) (_abs_ackno s) in
  if (_abs_ackno s <? a) && (a <=? _next_seqno s) then
    exists dropped rest s',
      _outstanding_segments s = dropped ++ rest /\ Forall (acked a) dropped /\
      Forall (fun o => ~ acked a o) rest /\
      fill_window (mk (_isn s) (_segments_out s) (_initial_retransmission_timeout s) (_stream s) (_next_seqno s)
        a window rest
        (match dropped with [] => _timer s | _ => Timer.start (_initial_retransmission_timeout s) end) 0) = Ok s' /\
      ack_received ackno window s = Ok s' /\ wf D N s' /\ settled N s'
  else
    ack_received ackno window s =
      Ok (mk (_isn s) (_segments_out s) (_initial_retransmission_timeout s) (_stream s) (_next_seqno s)
            (_abs_ackno s) window (_outstanding_segments s) (_timer s) (_n_consec_retransmissions s)) /\
    wf D N (set_window window s).
Proof.
  cbv zeta. pose proof (ack_received_exact D N s ackno window Hwf Hwin) as H. cbv zeta in H.
  destruct (_ && _); [|exact H]. destruct H as (dr & rest & Ho & Hdr & Hre & Hw0 & E).
  destruct (fill_window_spec D N _ Hw0) as (new & s' & E' & Hw' & _ & Hse).
  exists dr, rest, s'. rewrite E. by split_and!.
Qed.

Lemma ack_received_correct_witness :
  exists s0 s', fill_window (make 10 1000 (Some (WrappingInt32.make 5)) 0) = Ok s0 /\
    ack_received (WrappingInt32.make 6) 7 s0 = Ok s' /\ wf letter_a 3 s'.
Proof.
  destruct (fill_window_spec letter_a 3 (make 10 1000 (Some (WrappingInt32.make 5)) 0))
    as (new & s0 & E & Hw & _ & _).
  { apply sender_make_wf; [lia|lia|]. intros i [= <-]. apply WrappingInt32.wrapping_make_wf. }
  exists s0. pose proof (ack_received_correct letter_a 3 7 s0 (WrappingInt32.make 6) Hw) as H.
  specialize (H ltac:(lia)). cbv zeta in H.
  replace (_ && _) with true in H
    by (symmetry; vm_compute in E; injection E as <-; vm_compute; reflexivity).
  destruct H as (dr & rest & s' & _ & _ & _ & _ & Ha & Hw' & _).
  exists s'. split; [exact E|]. split; [exact Ha|exact Hw'].
Defined.

(** C8: in every run, whatever acknowledgments arrive, every segment the sender
    has emitted is a piece of the written stream under the sequence number of its
    position (the SYN first, a FIN only at the end), or empty; and no further
    operation the writer is allowed throws. *)
Theorem sender_run_safe (D : Z -> byte) (N : Z) (s : t) (em : list TCPSegment.t)
  (HN : 0 <= N < 2 ^ 62) (Hrun : run D N s em) :
  Forall (sendable D N (_isn s)) em /\
  forall o, allowed D N o s -> exists s', step o s = Ok s'.
Proof.
  destruct (sender_run_inv D N s em HN Hrun) as [Hw Hem]. split; [done|].
  intros o Ha. destruct (step_spec D N o s Hw Ha) as (s' & E & _). by exists s'.
Qed.

Lemma sender_run_safe_witness :
  exists s em, run letter_a 3 s em /\ length em = 1%nat /\
    Forall (sendable letter_a 3 (_isn s)) em.
Proof.
  assert (H : exists s, step Fill (make 10 1000 (Some (WrappingInt32.make 5)) 0) = Ok s /\
    length (emitted (make 10 1000 (Some (WrappingInt32.make 5)) 0) s) = 1%nat).
  { eexists. split; [vm_compute; reflexivity|reflexivity]. }
  destruct H as (s & E & Hl).
  exists s, ([] ++ emitted (make 10 1000 (Some (WrappingInt32.make 5)) 0) s).
  assert (Hrun : run letter_a 3 s ([] ++ emitted (make 10 1000 (Some (WrappingInt32.make 5)) 0) s)).
  { eapply run_step with (o := Fill); [|exact I|exact E]. apply run_init; [lia|].
    intros i [= <-]. apply WrappingInt32.wrapping_make_wf. }
  split; [exact Hrun|]. split; [exact Hl|].
  apply (sender_run_safe letter_a 3 s _ ltac:(lia) Hrun).
Defined.

(** ** The timer *)

(** The timer runs out [k] times in a row. *)
Fixpoint expire (k : nat) (s : t) : t :=
  match k with
  | O => s
  | S k' => expire k' (tick (Timer.timeout (_timer s)) s)
  end.

Lemma tick_expired ms s o l :
  _outstanding_segments s = o :: l -> 0 < _window_size s ->
  Timer.timeout (_timer s) <= u64 (Timer.time_elapsed (_timer s) + ms) ->
  tick ms s =
    mk (_isn s) (_segments_out s ++ [segment o]) (_initial_retransmission_timeout s) (_stream s)
       (_next_seqno s) (_abs_ackno s) (_window_size s) (_outstanding_segments s)
       (Timer.start (u64 (Timer.timeout (_timer s) * 2))) (_n_consec_retransmissions s ⊞ 1).
Proof.
  intros Ho Hw He. unfold tick. unfold Timer.expired at 1. cbn [Timer.timeout Timer.time_elapsed].
  rewrite (proj2 (Z.leb_le _ _)) by done. rewrite Ho, (proj2 (Z.ltb_lt _ _)) by done. done.
Qed.

(** While the timer has not run out, a tick only moves it; each time it runs
    out with the peer's window open, the oldest outstanding segment is sent again
    and the timeout doubles, so after [k] times in a row there are [k] more copies
    of it in the queue and the timeout is [2^k] times what it was. *)
Theorem backoff_doubles (k : nat) (s : t) (o : OrderedSegment) (l : list OrderedSegment)
  (Hout : _outstanding_segments s = o :: l) (Hwin : 0 < _window_size s)
  (Htime : 0 <= Timer.time_elapsed (_timer s) < Timer.timeout (_timer s))
  (Hsmall : Timer.timeout (_timer s) * 2 ^ Z.of_nat k < two63)
  (Hcount : 0 <= _n_consec_retransmissions s /\ _n_consec_retransmissions s + Z.of_nat k < two32) :
  (forall ms, 0 <= ms < Timer.timeout (_timer s) - Timer.time_elapsed (_timer s) ->
     tick ms s = mk (_isn s) (_segments_out s) (_initial_retransmission_timeout s) (_stream s)
       (_next_seqno s) (_abs_ackno s) (_window_size s) (_outstanding_segments s)
       (Timer.mk (Timer.time_elapsed (_timer s) + ms) (Timer.timeout (_timer s)))
       (_n_consec_retransmissions s)) /\
  Timer.timeout (_timer (expire k s)) = Timer.timeout (_timer s) * 2 ^ Z.of_nat k /\
  consecutive_retransmissions (expire k s) = _n_consec_retransmissions s + Z.of_nat k /\
  _segments_out (expire k s) = _segments_out s ++ replicate k (segment o) /\
  _outstanding_segments (expire k s) = o :: l.
Proof.
  assert (Hp : forall j : nat, 1 <= 2 ^ Z.of_nat j) by (intros; apply (Z.pow_le_mono_r 2 0); lia).
  split.
  - intros ms Hms. pose proof (Hp k). unfold tick. unfold Timer.expired at 1.
    cbn [Timer.timeout Timer.time_elapsed].
    rewrite u64_small by nia. rewrite (proj2 (Z.leb_gt _ _)) by lia. done.
  - revert s Hout Hwin Htime Hsmall Hcount. induction k as [|k IH]; intros s Hout Hwin Htime Hsmall Hcount.
    + cbn [expire replicate]. rewrite app_nil_r, Z.mul_1_r.
      unfold consecutive_retransmissions. rewrite u32_small by lia. split_and!; try done; lia.
    + rewrite Nat2Z.inj_succ, Z.pow_succ_r in * by lia. pose proof (Hp k). cbn [expire].
      rewrite (tick_expired _ s o l) by (try done; rewrite u64_small by nia; lia).
      rewrite !u64_small by nia.
      destruct (IH (mk (_isn s) (_segments_out s ++ [segment o]) (_initial_retransmission_timeout s)
        (_stream s) (_next_seqno s) (_abs_ackno s) (_window_size s) (_outstanding_segments s)
        (Timer.start (Timer.timeout (_timer s) * 2)) (_n_consec_retransmissions s + 1)))
        as (H1 & H2 & H3 & H4); cbn [_outstanding_segments _window_size _timer
          Timer.timeout Timer.time_elapsed Timer.start _n_consec_retransmissions _segments_out] in *;
        try done; try nia.
      rewrite H1, H2, H3, H4, <- app_assoc. cbn [replicate app]. split_and!; try done; nia.
Qed.

Lemma backoff_doubles_witness :
  exists s, fill_window (make 10 1000 (Some (WrappingInt32.make 5)) 0) = Ok s /\
    Timer.timeout (_timer (expire 3 s)) = 8000 /\ consecutive_retransmissions (expire 3 s) = 3.
Proof.
  assert (H : exists s o, fill_window (make 10 1000 (Some (WrappingInt32.make 5)) 0) = Ok s /\
    _outstanding_segments s = [o] /\ _window_size s = 1 /\ _timer s = Timer.mk 0 1000 /\
    _n_consec_retransmissions s = 0).
  { eexists _, _. split; [vm_compute; reflexivity|]. repeat split. }
  destruct H as (s & o & E & Ho & Hw & Ht & Hn). exists s. split; [exact E|].
  destruct (backoff_doubles 3 s o [] Ho) as (_ & H1 & H2 & _);
    rewrite ?Hw, ?Ht, ?Hn; cbn [Timer.timeout Timer.time_elapsed]; try lia.
  split; [rewrite H1, Ht; reflexivity|rewrite H2, Hn; reflexivity].
Defined.

(** The exception to the bound on what [fill_window] sends does happen: there is a run in which a sender with a
    window of 1000 has 1001 sequence numbers in flight, the last one a FIN that the
    peer's window has no room for. *)
Theorem fin_beyond_window :
  exists s em, run letter_a 1000 s em /\ _window_size s = 1000 /\ bytes_in_flight s = 1001.
Proof.
  set (s0 := make 2000 1000 (Some (WrappingInt32.make 5)) 0).
  assert (H : exists s1 s2 s3 s4 s5, step Fill s0 = Ok s1 /\
    step (Ack (WrappingInt32.make 6) 1000) s1 = Ok s2 /\
    step (Write (replicate 1000 x61)) s2 = Ok s3 /\ step EndInput s3 = Ok s4 /\
    step Fill s4 = Ok s5 /\ allowed letter_a 1000 (Write (replicate 1000 x61)) s2 /\
    allowed letter_a 1000 EndInput s3 /\ _window_size s5 = 1000 /\ bytes_in_flight s5 = 1001).
  { eexists _, _, _, _, _. do 5 (split; [vm_compute; reflexivity|]).
    split; [split; [reflexivity|split; [vm_compute; congruence|vm_compute; reflexivity]]|].
    split; [reflexivity|]. split; reflexivity. }
  destruct H as (s1 & s2 & s3 & s4 & s5 & E1 & E2 & E3 & E4 & E5 & A3 & A4 & Hw & Hb).
  exists s5. eexists. split; [|by split].
  eapply (run_step _ _ s4 _ Fill); [|exact I|exact E5].
  eapply (run_step _ _ s3 _ EndInput); [|exact A4|exact E4].
  eapply (run_step _ _ s2 _ (Write (replicate 1000 x61))); [|exact A3|exact E3].
  eapply (run_step _ _ s1 _ (Ack (WrappingInt32.make 6) 1000)); [|cbn; lia|exact E2].
  eapply (run_step _ _ s0 _ Fill); [|exact I|exact E1].
  apply run_init; [lia|]. intros i [= <-]. apply WrappingInt32.wrapping_make_wf.
Qed.

End TCPSender.
