(* ===== verification/Transfer.v ===== *)
(** * A sender and a receiver over an unreliable network

    The composition of [TCPSender] and [TCPReceiver].  The network holds every
    segment the sender has emitted and may deliver any of them at any time, any
    number of times, in any order, or never; acknowledgments that reach the sender
    are arbitrary.  The theorem says that the reader still sees a prefix of the
    stream that was written, and the end of it only after all of it. *)

From S2P Require Import Prelude Wrapping Stream Reassembly Buffers TcpWire TcpReceiver TcpSender.
From Stdlib Require Import Strings.Byte.

Section Transfer.
Context (D : Z -> byte) (N cap : Z).

(** [transfer s em r out]: the sender is in state [s] and has emitted [em], the
    receiver is in state [r], and [out] has been read from it. *)
Inductive transfer : TCPSender.t -> list TCPSegment.t -> TCPReceiver.t -> bytes -> Prop :=
| transfer_start s :
    TCPSender.run D N s [] -> transfer s [] (TCPReceiver.make cap) []
| transfer_send s em r out o s' :
    transfer s em r out -> TCPSender.allowed D N o s -> TCPSender.step o s = Ok s' ->
    transfer s' (em ++ TCPSender.emitted s s') r out
| transfer_deliver s em r out seg r' :
    transfer s em r out -> seg ∈ em ->
    TCPReceiver.segment_received seg r = Ok r' -> transfer s em r' out
| transfer_read s em r out n bs o :
    transfer s em r out -> 0 <= n ->
    ByteStream.read n (TCPReceiver.stream_out r) = Ok (bs, o) ->
    transfer s em (TCPReceiver.set_stream_out o r) (out ++ bs).

Context (HN : 0 <= N < two31 - 2) (Hcap : 0 <= cap < two63).

(** What the sender may emit is legal for a receiver of the same stream: a piece of
    the stream at its position, and an empty segment wherever it is. *)
Lemma receiver_written isn r : TCPReceiver.wf D N cap isn r ->
  0 <= ByteStream.bytes_written (TCPReceiver.stream_out r) <= N.
Proof.
  intros Hr. pose proof (TCPReceiver.bytes_written_range _ _ _ _ _ Hr).
  destruct Hr as [[[] _] _ _]. unfold TCPReceiver.stream_out, StreamReassembler.stream_out in *.
  rewrite co_written in *. lia.
Qed.

Lemma good_legal isn sq seg r : TCPReceiver.wf D N cap isn r -> TCPSender.good D N isn sq seg ->
  TCPReceiver.legal D N isn r seg (TCPSender.position sq).
Proof.
  intros Hr [Hh Hpw Hl Hlen Hpl Hsq]. pose proof (receiver_written _ _ Hr) as Hbw.
  assert (Hsyn : TCPHeader.syn (TCPSegment.header seg) = (sq =? 0)) by (by rewrite Hh).
  pose proof (StreamReassembler.lg_lo _ _ _ _ _ Hl).
  assert (Hhi : TCPSender.position sq <= N).
  { destruct (StreamReassembler.lg_hi _ _ _ _ _ Hl) as [?|(Hp & Hf & _)]; [lia|].
    unfold TCPSender.position. destruct (sq =? 0) eqn:E; [lia|]. exfalso.
    rewrite TCPSender.slen_eq in Hlen by done. rewrite Hp, Hf, Hsyn in Hlen.
    cbn in Hlen. lia. }
  assert (Hpu : u64 (TCPSender.position sq) = TCPSender.position sq) by (apply u64_small; lia).
  split; [| |lia|by rewrite Hpu|lia]; rewrite Hh; cbn [TCPHeader.seqno TCPHeader.syn TCPSender.header];
    unfold TCPSender.position; destruct (sq =? 0) eqn:E; zb; subst; try done.
  f_equal. lia.
Qed.

Lemma blank_legal isn sq r : TCPReceiver.wf D N cap isn r -> 0 <= sq <= N + 2 ->
  TCPReceiver.legal D N isn r
    (TCPSegment.mk (TCPSender.header (WrappingInt32.wrap sq isn) false false) Buffer.nil) (sq - 1).
Proof.
  intros Hr Hsq. pose proof (receiver_written _ _ Hr) as Hbw.
  split; cbn [TCPSegment.header TCPHeader.seqno TCPHeader.syn TCPSender.header
    TCPSegment.payload TCPHeader.fin]; try done; try lia.
  - f_equal. lia.
  - pose proof (u64_range (sq - 1)). split; [done|lia|right; split_and!; try done; lia|done].
Qed.

Lemma sendable_legal isn seg r :
  TCPReceiver.wf D N cap isn r -> TCPSender.sendable D N isn seg ->
  exists i, TCPReceiver.legal D N isn r seg i.
Proof.
  intros Hr [[sq Hg]|(sq & Hsq & ->)]; eexists; [by apply good_legal|by apply blank_legal].
Qed.

Lemma transfer_inv s em r out : transfer s em r out ->
  TCPSender.run D N s em /\ WrappingInt32.wf (TCPSender._isn s) /\
  TCPReceiver.run D N cap (TCPSender._isn s) r out.
Proof.
  induction 1 as [s Hs|s em r out o s' _ (Hs & Hi & Hr) Ha E|s em r out seg r' _ (Hs & Hi & Hr) Hin E
    |s em r out n bs o _ (Hs & Hi & Hr) Hn E].
  - split; [done|]. destruct (TCPSender.sender_run_inv D N s [] ltac:(lia) Hs) as [[] _].
    split; [done|constructor].
  - destruct (TCPSender.sender_run_inv D N s em ltac:(lia) Hs) as [Hw _].
    destruct (TCPSender.step_spec D N o s Hw Ha) as (s2 & E2 & _ & Hisn & _).
    rewrite E in E2. injection E2 as <-. rewrite Hisn. split; [|done].
    by eapply TCPSender.run_step.
  - split; [done|]. split; [done|].
    destruct (TCPSender.sender_run_inv D N s em ltac:(lia) Hs) as [_ Hem].
    rewrite Forall_forall in Hem.
    destruct (TCPReceiver.receiver_run_inv D N cap _ Hi ltac:(lia) Hcap r out Hr) as [Hwr _].
    destruct (sendable_legal _ _ r Hwr (Hem seg Hin)) as [i Hlg].
    destruct (TCPReceiver.syn_received r) eqn:Esyn; [|destruct (TCPHeader.syn (TCPSegment.header seg)) eqn:Eh].
    + eapply TCPReceiver.run_segment; [done|done|by left|done].
    + eapply TCPReceiver.run_segment; [done|done|by right|done].
    + eapply TCPReceiver.run_early; done.
  - split; [done|]. split; [done|]. by eapply TCPReceiver.run_read.
Qed.

(** Delivering any emitted segment returns. *)
Lemma transfer_deliverable s em r out : transfer s em r out ->
  forall seg, seg ∈ em -> exists r', TCPReceiver.segment_received seg r = Ok r'.
Proof.
  intros H seg Hin. destruct (transfer_inv s em r out H) as (Hs & Hi & Hr).
  destruct (TCPReceiver.receiver_run_inv D N cap _ Hi ltac:(lia) Hcap r out Hr) as [Hwr _].
  destruct (TCPSender.sender_run_inv D N s em ltac:(lia) Hs) as [_ Hem]. rewrite Forall_forall in Hem.
  destruct (sendable_legal _ _ r Hwr (Hem seg Hin)) as [i Hlg].
  destruct (TCPReceiver.syn_received r) eqn:Esyn;
    [|destruct (TCPHeader.syn (TCPSegment.header seg)) eqn:Eh].
  - destruct (TCPReceiver.receiver_segment_received_spec _ _ _ _ Hi r seg _ Hwr Hlg) as (r' & E & _);
      [by left|by exists r'].
  - destruct (TCPReceiver.receiver_segment_received_spec _ _ _ _ Hi r seg _ Hwr Hlg) as (r' & E & _);
      [by right|by exists r'].
  - exists r. by apply TCPReceiver.segment_received_early.
Qed.
End Transfer.

(** C4: whatever the network does to the segments and whatever acknowledgments
    come back, what has been read followed by what the receiver buffers is a prefix
    of the stream written to the sender, delivering any emitted segment never
    throws, and the reader sees the end of the stream only after all of it. *)
Theorem transfer_safe (D : Z -> byte) (N cap : Z) (s : TCPSender.t) (em : list TCPSegment.t)
  (r : TCPReceiver.t) (out : bytes)
  (HN : 0 <= N < two31 - 2) (Hcap : 0 <= cap < two63) (H : transfer D N cap s em r out) :
  (exists n, 0 <= n <= N /\ out ++ ByteStream.contents (TCPReceiver.stream_out r) = slice D 0 n) /\
  (forall seg, seg ∈ em -> exists r', TCPReceiver.segment_received seg r = Ok r') /\
  (ByteStream.eof (TCPReceiver.stream_out r) = true -> out = slice D 0 N).
Proof.
  destruct (transfer_inv D N cap HN Hcap s em r out H) as (Hs & Hi & Hr).
  destruct (TCPReceiver.receiver_run_inv D N cap _ Hi ltac:(lia) Hcap r out Hr) as [Hwr Hre].
  destruct (StreamReassembler.reach_inv D N cap _ _ ltac:(lia) Hcap Hre) as (_ & _ & Ho).
  pose proof Hwr as [[Hco Hes] _ _]. pose proof Hco as []. pose proof (ByteStream.wf_size _ co_out).
  unfold TCPReceiver.stream_out, StreamReassembler.stream_out in *. split_and!.
  - exists (StreamReassembler.first_unasmb (TCPReceiver._reassembler r)). split; [lia|].
    rewrite Ho, co_contents.
    set (c := ByteStream.cur_size _) in *. set (f := StreamReassembler.first_unasmb _) in *.
    replace f with (f - c + c) at 3 by lia. by rewrite slice_app by lia.
  - by eapply transfer_deliverable.
  - unfold ByteStream.eof, ByteStream.buffer_empty. intros He. zb.
    match goal with H : ByteStream.input_ended _ = true |- _ => apply Hes in H as [_ HF] end.
    rewrite Ho, HF. f_equal. lia.
Qed.

(** A SYN is sent and delivered twice; then a byte is written, sent, delivered and
    read. *)
Lemma transfer_safe_witness :
  exists s em r, transfer TCPSender.letter_a 1 5 s em r [x61] /\ length em = 2%nat /\
    exists n, 0 <= n <= 1 /\
      [x61] ++ ByteStream.contents (TCPReceiver.stream_out r) = slice TCPSender.letter_a 0 n.
Proof.
  set (s0 := TCPSender.make 10 1000 (Some (WrappingInt32.make 5)) 0).
  set (r0 := TCPReceiver.make 5).
  set (Wr := TCPSender.Write [x61]). set (Ak := TCPSender.Ack (WrappingInt32.make 6) 5).
  assert (H : exists s1 s2 s3 s4 g1 g2 r1 r2 r3 o,
    TCPSender.step TCPSender.Fill s0 = Ok s1 /\ TCPSender.step Ak s1 = Ok s2 /\
    TCPSender.step Wr s2 = Ok s3 /\ TCPSender.step TCPSender.Fill s3 = Ok s4 /\
    TCPSender.emitted s0 s1 = [g1] /\ TCPSender.emitted s1 s2 = [] /\
    TCPSender.emitted s2 s3 = [] /\ TCPSender.emitted s3 s4 = [g2] /\
    TCPReceiver.segment_received g1 r0 = Ok r1 /\ TCPReceiver.segment_received g1 r1 = Ok r2 /\
    TCPReceiver.segment_received g2 r2 = Ok r3 /\
    ByteStream.read 3 (TCPReceiver.stream_out r3) = Ok ([x61], o) /\
    TCPSender.allowed TCPSender.letter_a 1 Wr s2).
  { eexists _, _, _, _, _, _, _, _, _, _. do 12 (split; [vm_compute; reflexivity|]).
    split; [reflexivity|split; [vm_compute; congruence|vm_compute; reflexivity]]. }
  destruct H as (s1 & s2 & s3 & s4 & g1 & g2 & r1 & r2 & r3 & o & E1 & E2 & E3 & E4 & M1 & M2 & M3 &
    M4 & R1 & R2 & R3 & Rd & A3).
  assert (T : transfer TCPSender.letter_a 1 5 s0 [] r0 []).
  { apply transfer_start. apply TCPSender.run_init; [lia|]. intros i [= <-]. apply WrappingInt32.wrapping_make_wf. }
  apply (transfer_send _ _ _ _ _ _ _ TCPSender.Fill s1) in T; [|exact I|exact E1]. rewrite M1 in T.
  apply (transfer_deliver _ _ _ _ _ _ _ g1 r1) in T; [| set_solver |exact R1].
  apply (transfer_deliver _ _ _ _ _ _ _ g1 r2) in T; [| set_solver |exact R2].
  apply (transfer_send _ _ _ _ _ _ _ Ak s2) in T; [|cbn; lia|exact E2]. rewrite M2 in T.
  apply (transfer_send _ _ _ _ _ _ _ Wr s3) in T; [|exact A3|exact E3]. rewrite M3 in T.
  apply (transfer_send _ _ _ _ _ _ _ TCPSender.Fill s4) in T; [|exact I|exact E4]. rewrite M4 in T.
  apply (transfer_deliver _ _ _ _ _ _ _ g2 r3) in T; [| set_solver |exact R3].
  pose proof (transfer_read _ _ _ _ _ _ _ 3 _ _ T ltac:(lia) Rd) as Ht.
  exists s4, [g1; g2], (TCPReceiver.set_stream_out o r3). split; [exact Ht|]. split; [reflexivity|].
  destruct (transfer_safe TCPSender.letter_a 1 5 s4 [g1; g2] (TCPReceiver.set_stream_out o r3) [x61])
    as (Hn & _); [lia|lia|exact Ht|exact Hn].
Defined.
