(* ===== verification/Liveness.v ===== *)
(** * Delivery over a network that starts to work

    The composition of [TCPSender] and [TCPReceiver] again, now with the receiver's
    own acknowledgments on the way back.  The network may lose, duplicate, reorder
    and delay everything for as long as it likes.  From any state reached in this
    way, if from then on the segment that the sender's timer retransmits and the
    acknowledgment it causes get through, the whole stream is delivered and
    acknowledged within a number of rounds bounded by its length. *)

From S2P Require Import Prelude Wrapping Stream Reassembly Buffers TcpWire TcpReceiver TcpSender Transfer.
From Stdlib Require Import Strings.Byte.

(** ** A round

    The reader takes what has been assembled, the sender fills its window (what it
    sends now is lost), its timer runs out, the retransmitted segment arrives and the
    acknowledgment that the receiver would put into its next segment arrives. *)

Definition pull (r : TCPReceiver.t) : res (bytes * TCPReceiver.t) :=
  '(bs, o) ← ByteStream.read (ByteStream.buffer_size (TCPReceiver.stream_out r)) (TCPReceiver.stream_out r);
  Ok (bs, TCPReceiver.set_stream_out o r).

Fixpoint deliver (segs : list TCPSegment.t) (r : TCPReceiver.t) : res TCPReceiver.t :=
  match segs with
  | [] => Ok r
  | seg :: segs' => r' ← TCPReceiver.segment_received seg r; deliver segs' r'
  end.

(** The time until the timer has run out. *)
Definition remaining_time (s : TCPSender.t) : Z :=
  Timer.timeout (TCPSender._timer s) ⊟ Timer.time_elapsed (TCPSender._timer s).

Definition acknowledge (r : TCPReceiver.t) (s : TCPSender.t) : res TCPSender.t :=
  match TCPReceiver.ackno r with
  | Some a => TCPSender.ack_received a (u16 (TCPReceiver.window_size r)) s
  | None => Ok s
  end.

Definition round (x : TCPSender.t * TCPReceiver.t * bytes) : res (TCPSender.t * TCPReceiver.t * bytes) :=
  let '(s, r, out) := x in
  '(bs, r) ← pull r;
  s ← TCPSender.fill_window s;
  let s' := TCPSender.tick (remaining_time s) s in
  r ← deliver (TCPSender.emitted s s') r;
  s' ← acknowledge r s';
  Ok (s', r, out ++ bs).

Fixpoint rounds (n : nat) (x : TCPSender.t * TCPReceiver.t * bytes) : res (TCPSender.t * TCPReceiver.t * bytes) :=
  match n with
  | O => Ok x
  | S n' => x' ← round x; rounds n' x'
  end.

Section Link.
Context (D : Z -> byte) (N cap : Z).

(** [link s em r out acks]: as in [transfer], and [acks] are the acknowledgments the
    receiver has sent.  Only those reach the sender. *)
Inductive link : TCPSender.t -> list TCPSegment.t -> TCPReceiver.t -> bytes -> list (WrappingInt32.t * Z) -> Prop :=
| link_start capacity retx fixed_isn random :
    0 < capacity < two63 -> (forall i, fixed_isn = Some i -> WrappingInt32.wf i) -> 0 <= retx < two64 ->
    link (TCPSender.make capacity retx fixed_isn random) [] (TCPReceiver.make cap) [] []
| link_owner s em r out acks o s' :
    link s em r out acks -> (forall a w, o <> TCPSender.Ack a w) -> TCPSender.allowed D N o s ->
    TCPSender.step o s = Ok s' -> link s' (em ++ TCPSender.emitted s s') r out acks
| link_deliver s em r out acks seg r' :
    link s em r out acks -> seg ∈ em -> TCPReceiver.segment_received seg r = Ok r' -> link s em r' out acks
| link_read s em r out acks n bs o :
    link s em r out acks -> 0 <= n -> ByteStream.read n (TCPReceiver.stream_out r) = Ok (bs, o) ->
    link s em (TCPReceiver.set_stream_out o r) (out ++ bs) acks
| link_ack s em r out acks a :
    link s em r out acks -> TCPReceiver.ackno r = Some a ->
    link s em r out (acks ++ [(a, u16 (TCPReceiver.window_size r))])
| link_acked s em r out acks a w s' :
    link s em r out acks -> (a, w) ∈ acks -> TCPSender.step (TCPSender.Ack a w) s = Ok s' ->
    link s' (em ++ TCPSender.emitted s s') r out acks.

(** ** What the sender's steps do to its sequence numbers *)

(** A segment whose sequence numbers lie below [last], or an empty one. *)
Definition placed (isn : WrappingInt32.t) (last : Z) (seg : TCPSegment.t) : Prop :=
  (exists sq, TCPSender.good D N isn sq seg /\ sq + TCPSender.slen seg <= last) \/
  (exists sq, 0 <= sq <= N + 2 /\
     seg = TCPSegment.mk (TCPSender.header (WrappingInt32.wrap sq isn) false false) Buffer.nil).

Lemma placed_le isn last last' seg : last <= last' -> placed isn last seg -> placed isn last' seg.
Proof. intros Hl [(sq & Hg & Hs)|Hb]; [left; exists sq; split; [done|lia]|by right]. Qed.

Lemma chain_placed isn l : forall sq last, TCPSender.chain D N isn sq l last ->
  Forall (placed isn last) (TCPSender.segment <$> l).
Proof.
  induction l as [|o l IH]; intros sq last; cbn; [constructor|]. intros (_ & Hg & Hc).
  constructor; [|by eapply IH]. left. exists sq. split; [done|]. by eapply TCPSender.chain_le.
Qed.

(** The timer's fields are [size_t]. *)
Definition timer_ok (s : TCPSender.t) : Prop :=
  0 <= Timer.timeout (TCPSender._timer s) < two64 /\ 0 <= TCPSender._initial_retransmission_timeout s < two64.

Lemma fill_step_timer s b s' : timer_ok s -> TCPSender.fill_step s = Ok (b, s') -> timer_ok s'.
Proof.
  intros Ht. unfold TCPSender.fill_step. repeat (case_match; [by intros [= <- <-]|]).
  intros ([data st] & _ & E)%bind_Ok. cbv zeta in E. case_match; injection E as <- <-; [done|].
  destruct Ht as [Ht Hi]. split; cbn; [|done]. by destruct (Timer.expired _).
Qed.

Lemma fill_timer s s' : timer_ok s -> TCPSender.fill_window s = Ok s' -> timer_ok s'.
Proof.
  unfold TCPSender.fill_window. generalize (Z.to_nat (TCPSender._window_size s) + 4)%nat. intros fuel Ht E.
  apply bind_Ok in E as ([b s1] & E & [= <-]). revert s Ht E.
  induction fuel as [|fuel IH]; intros s Ht; cbn [TCPSender.fill_loop]; [by intros [= _ <-]|].
  intros ([c s2] & E1 & E2)%bind_Ok. apply fill_step_timer in E1; [|done].
  destruct c; [by eapply IH|by injection E2 as _ <-].
Qed.

Lemma tick_timer ms s : timer_ok s -> timer_ok (TCPSender.tick ms s).
Proof.
  intros [Ht Hi]. unfold TCPSender.tick. destruct (Timer.expired _); [|by split].
  destruct (TCPSender._outstanding_segments s); [by split|]. destruct (0 <? _); split; cbn; try done. apply u64_range.
Qed.

Lemma step_timer o s s' : timer_ok s -> TCPSender.step o s = Ok s' -> timer_ok s'.
Proof.
  intros Ht. destruct o as [data| | |a w|ms| |]; cbn [TCPSender.step]; try by intros [= <-].
  - by apply fill_timer.
  - unfold TCPSender.ack_received. cbv zeta. case_match; [by intros [= <-]|].
    destruct (TCPSender.ack_loop _ _ _ _) as [l tm] eqn:El. apply fill_timer. destruct Ht as [Ht Hi].
    split; [|done]. cbn. revert El Ht. generalize (TCPSender._timer s) as t0.
    induction (TCPSender._outstanding_segments s) as [|o l0 IH]; intros t0; cbn [TCPSender.ack_loop];
      [by intros [= _ <-]|]. case_match; [|by intros [= _ <-]]. intros El _. by apply (IH _ El).
  - intros [= <-]. by apply tick_timer.
Qed.

(** What a step leaves: sequence numbers only grow, what it emits lies below the next
    one, and only an acknowledgment moves the left edge of the window. *)
Record advances (s s' : TCPSender.t) : Prop := {
  av_isn : TCPSender._isn s' = TCPSender._isn s;
  av_next : TCPSender._next_seqno s <= TCPSender._next_seqno s';
  av_emitted : Forall (placed (TCPSender._isn s) (TCPSender._next_seqno s')) (TCPSender.emitted s s');
  av_done : ByteStream.done_writing (TCPSender._stream s) = true ->
    ByteStream.done_writing (TCPSender._stream s') = true
}.

Lemma grows_advances s0 s new s' : TCPSender.grows D N s new s' ->
  TCPSender._isn s = TCPSender._isn s0 -> TCPSender._next_seqno s = TCPSender._next_seqno s0 ->
  TCPSender._segments_out s = TCPSender._segments_out s0 -> TCPSender._stream s = TCPSender._stream s0 ->
  advances s0 s'.
Proof.
  intros [] Hi Hn Hq Hst. rewrite Hi in *. split.
  - done.
  - rewrite <- Hn. by eapply TCPSender.chain_le.
  - rewrite Hq in gr_out. rewrite (TCPSender.emitted_app _ _ _ gr_out). by eapply chain_placed.
  - by rewrite gr_done, Hst.
Qed.

(** A step that emits nothing and leaves the sequence numbers alone. *)
Lemma still_advances s s' : TCPSender._isn s' = TCPSender._isn s ->
  TCPSender._next_seqno s' = TCPSender._next_seqno s -> TCPSender.emitted s s' = [] ->
  (ByteStream.done_writing (TCPSender._stream s) = true -> ByteStream.done_writing (TCPSender._stream s') = true) ->
  advances s s'.
Proof. intros Hi Hn He Hd. split; [done|lia|by rewrite He|done]. Qed.

Lemma emitted_none s s' : TCPSender._segments_out s' = TCPSender._segments_out s -> TCPSender.emitted s s' = [].
Proof. intros Hq. apply TCPSender.emitted_app. by rewrite Hq, app_nil_r. Qed.

(** A tick: what it emits is the oldest outstanding segment, when the timer runs out. *)
Lemma tick_effect ms s : TCPSender.wf D N s ->
  advances s (TCPSender.tick ms s) /\ TCPSender._abs_ackno (TCPSender.tick ms s) = TCPSender._abs_ackno s /\
  TCPSender._next_seqno (TCPSender.tick ms s) = TCPSender._next_seqno s /\
  TCPSender._outstanding_segments (TCPSender.tick ms s) = TCPSender._outstanding_segments s /\
  TCPSender.emitted s (TCPSender.tick ms s) =
    (if Timer.timeout (TCPSender._timer s) <=? Timer.time_elapsed (TCPSender._timer s) ⊞ ms
     then match TCPSender._outstanding_segments s with [] => [] | o :: _ => [TCPSender.segment o] end else []).
Proof.
  intros Hw. destruct Hw as [? ? ? ? ? ? ? ? ? ? (sq & Hch & Hm)]. unfold TCPSender.tick, Timer.expired. cbn [Timer.timeout Timer.time_elapsed].
  destruct (_ <=? _); [|split; [apply still_advances; try done; by apply emitted_none|by rewrite emitted_none]].
  destruct (TCPSender._outstanding_segments s) as [|o l] eqn:Eo;
    [split; [apply still_advances; try done; by apply emitted_none|by rewrite emitted_none]|].
  assert (Hp : placed (TCPSender._isn s) (TCPSender._next_seqno s) (TCPSender.segment o)).
  { pose proof (chain_placed _ _ _ _ Hch) as Hf. by inversion Hf. }
  destruct (0 <? _); (split; [split; try done; rewrite (TCPSender.emitted_app s _ [TCPSender.segment o]) by done;
    by apply Forall_singleton|by rewrite (TCPSender.emitted_app s _ [TCPSender.segment o])]).
Qed.

Lemma step_effect o s s' : TCPSender.wf D N s -> TCPSender.allowed D N o s -> TCPSender.step o s = Ok s' ->
  advances s s' /\
  match o with
  | TCPSender.Ack a w =>
      TCPSender._abs_ackno s' =
        (let x := WrappingInt32.unwrap a (TCPSender._isn s) (TCPSender._abs_ackno s) in
         if (TCPSender._abs_ackno s <? x) && (x <=? TCPSender._next_seqno s) then x else TCPSender._abs_ackno s)
  | _ => TCPSender._abs_ackno s' = TCPSender._abs_ackno s
  end.
Proof.
  intros Hw Ha. destruct o as [data| | |a w|ms| |]; cbn [TCPSender.step].
  - intros [= <-]. split; [|done]. apply still_advances; try done. by apply emitted_none.
  - intros [= <-]. split; [|done]. apply still_advances; try done. by apply emitted_none.
  - destruct (TCPSender.fill_window_spec D N s Hw) as (new & s1 & -> & _ & Hg & _). intros [= <-].
    split; [by eapply grows_advances|apply Hg].
  - pose proof (TCPSender.ack_received_spec D N s a w Hw Ha) as Hs. cbv zeta in Hs |- *. case_match.
    + destruct Hs as (dr & rest & s0 & new & s1 & _ & _ & _ & _ & _ & Hab & _ & Hn & Hi & Hq & Hst & _ & _ & -> & -> & _ & Hg & _).
      intros [= <-]. split; [by eapply grows_advances|]. rewrite <- Hab. apply Hg.
    + destruct Hs as (s1 & -> & _ & Hq & _ & _ & Hab & Hn & _ & _ & Hst & Hi). intros [= <-].
      split; [|done]. apply still_advances; try done; [by apply emitted_none|by rewrite Hst].
  - intros [= <-]. by destruct (tick_effect ms s Hw) as (? & ? & _).
  - intros [= <-]. split; [|done]. split; try done.
    rewrite (TCPSender.emitted_app s _ [TCPSegment.mk (TCPSender.header (TCPSender.next_seqno s) false false) Buffer.nil]) by done.
    apply Forall_singleton. right. exists (TCPSender._next_seqno s). split; [|done].
    by pose proof (TCPSender.wf_next_range D N s Hw) as (_ & _ & ?).
  - intros [= <-]. split; [|done]. apply still_advances; try done. apply drop_nil.
Qed.

(** ** The receiver's acknowledgment *)

(** The absolute sequence number that the receiver asks for. *)
Definition rack (r : TCPReceiver.t) : Z :=
  if TCPReceiver.syn_received r
  then StreamReassembler.first_unasmb (TCPReceiver._reassembler r) + 1 +
    (if ByteStream.input_ended (TCPReceiver.stream_out r) then 1 else 0)
  else 0.

(** Everything up to a position that is held has been assembled. *)
Lemma held_assembled r x : StreamReassembler.core D N r -> (forall j, j <= x -> StreamReassembler.held r j) ->
  x < StreamReassembler.first_unasmb r.
Proof.
  intros Hc Hh. destruct (decide (x < StreamReassembler.first_unasmb r)) as [|Hge]; [done|].
  destruct (Hh (StreamReassembler.first_unasmb r)) as [?|Hcov]; [lia|lia|].
  apply Exists_exists in Hcov as (c & Hin & Hc1).
  destruct (StreamReassembler.co_chunks _ _ _ Hc c Hin) as (_ & Hlt & _). unfold StreamReassembler.covers in Hc1. lia.
Qed.

Context (HN : 0 <= N < two31 - 2) (Hcap : 0 < cap < two63).

Section Receiver.
Context (isn : WrappingInt32.t) (HIsn : WrappingInt32.wf isn).
#[local] Abbreviation rwf := (TCPReceiver.wf D N cap isn).

Lemma rack_range r : rwf r -> 0 <= rack r <= N + 2 /\
  (rack r = N + 2 -> ByteStream.input_ended (TCPReceiver.stream_out r) = true /\
     StreamReassembler.first_unasmb (TCPReceiver._reassembler r) = N) /\
  TCPReceiver.ackno r =
    if TCPReceiver.syn_received r then Some (WrappingInt32.wrap (rack r) isn) else None.
Proof.
  intros [[[] He] _ Hi]. pose proof (ByteStream.wf_size _ co_out) as Hs.
  unfold rack, TCPReceiver.ackno. destruct (TCPReceiver.syn_received r); [|split; [lia|split; [lia|done]]].
  unfold TCPReceiver.stream_out, StreamReassembler.stream_out in *.
  split; [case_match; lia|]. split.
  - intros Heq. destruct (ByteStream.input_ended _); [split; [done|]; lia|lia].
  - rewrite Hi, co_written, u64_add_l by done. by rewrite u64_small by (case_match; lia).
Qed.

(** More held, more acknowledged. *)
Lemma rack_mono r r' : rwf r -> rwf r' ->
  (TCPReceiver.syn_received r = true -> TCPReceiver.syn_received r' = true) ->
  (StreamReassembler.eof_set (TCPReceiver._reassembler r) = true ->
   StreamReassembler.eof_set (TCPReceiver._reassembler r') = true) ->
  (forall j, TCPReceiver.holds r j -> TCPReceiver.holds r' j) ->
  StreamReassembler.first_unasmb (TCPReceiver._reassembler r) <=
    StreamReassembler.first_unasmb (TCPReceiver._reassembler r') /\ rack r <= rack r'.
Proof.
  intros Hw Hw' Hsyn Heof Hh. pose proof (rack_range r' Hw') as [Hr' _].
  destruct Hw as [[Hc He] _ _], Hw' as [[Hc' He'] _ _].
  assert (Hf : StreamReassembler.first_unasmb (TCPReceiver._reassembler r) <=
    StreamReassembler.first_unasmb (TCPReceiver._reassembler r')).
  { apply Z.lt_pred_le. apply held_assembled; [done|]. intros j Hj. apply Hh. left. lia. }
  split; [done|]. unfold rack in *. destruct (TCPReceiver.syn_received r); [|lia]. rewrite Hsyn in * by done.
  destruct (ByteStream.input_ended (TCPReceiver.stream_out r)) eqn:Ee; [|case_match; lia].
  apply He in Ee as [Hes Hfn]. pose proof (StreamReassembler.co_first _ _ _ Hc').
  assert (Ee' : ByteStream.input_ended (TCPReceiver.stream_out r') = true)
    by (apply He'; split; [by apply Heof|lia]).
  rewrite Ee'. lia.
Qed.

(** Delivering a piece of the stream, and an empty segment. *)
Lemma deliver_good sq seg r : rwf r -> TCPSender.good D N isn sq seg ->
  TCPReceiver.syn_received r = true \/ sq = 0 ->
  exists r', TCPReceiver.segment_received seg r = Ok r' /\ rwf r' /\ TCPReceiver.syn_received r' = true /\
    (StreamReassembler.eof_set (TCPReceiver._reassembler r') = true <->
     StreamReassembler.eof_set (TCPReceiver._reassembler r) = true \/ TCPHeader.fin (TCPSegment.header seg) = true) /\
    (forall j, TCPReceiver.holds r' j <-> TCPReceiver.holds r j \/
       TCPSender.position sq <= j < TCPSender.position sq + zlen (Buffer.str (TCPSegment.payload seg)) /\
       j < TCPReceiver.limit r).
Proof.
  intros Hw Hg Hs. pose proof (good_legal D N cap HN isn sq seg r Hw Hg) as Hl.
  assert (Hs' : TCPReceiver.syn_received r = true \/ TCPHeader.syn (TCPSegment.header seg) = true)
    by (destruct Hs as [?| ->]; [by left|right; by destruct Hg as [-> _ _ _ _ _]]).
  destruct (TCPReceiver.receiver_segment_received_spec D N cap isn HIsn r seg _ Hw Hl Hs') as (r' & E & Hw' & Hsyn & Hp & Hh).
  exists r'. split_and!; try done; try apply Hh.
  destruct Hw as [Hr _ _], Hl as [_ _ _ Hd _].
  destruct (StreamReassembler.push_spec D N _ _ _ _ Hr Hd) as (a & Ea & _ & _ & He & _).
  rewrite Hp in Ea. injection Ea as <-. done.
Qed.

Lemma deliver_blank sq r : rwf r -> 0 <= sq <= N + 2 ->
  exists r', TCPReceiver.segment_received
      (TCPSegment.mk (TCPSender.header (WrappingInt32.wrap sq isn) false false) Buffer.nil) r = Ok r' /\
    rwf r' /\ TCPReceiver.syn_received r' = TCPReceiver.syn_received r /\
    (StreamReassembler.eof_set (TCPReceiver._reassembler r') = true <->
     StreamReassembler.eof_set (TCPReceiver._reassembler r) = true) /\
    (forall j, TCPReceiver.holds r' j <-> TCPReceiver.holds r j).
Proof.
  intros Hw Hsq. destruct (TCPReceiver.syn_received r) eqn:Es.
  2:{ exists r. rewrite TCPReceiver.segment_received_early by done. done. }
  pose proof (blank_legal D N cap HN isn sq r Hw Hsq) as Hl.
  destruct (TCPReceiver.receiver_segment_received_spec D N cap isn HIsn r _ _ Hw Hl (or_introl Es))
    as (r' & E & Hw' & Hsyn & Hp & Hh).
  exists r'. split_and!; try done.
  - destruct Hw as [Hr _ _], Hl as [_ _ _ Hd _].
    destruct (StreamReassembler.push_spec D N _ _ _ _ Hr Hd) as (a & Ea & _ & _ & He & _).
    rewrite Hp in Ea. injection Ea as <-. rewrite He. cbn. split; [by intros [?|?]|by left].
  - intros j. rewrite Hh. cbn. split; [intros [?|?]; [done|lia]|by left].
Qed.

(** Reading changes none of this. *)
Lemma read_effect n r bs o : rwf r -> 0 <= n -> ByteStream.read n (TCPReceiver.stream_out r) = Ok (bs, o) ->
  rwf (TCPReceiver.set_stream_out o r) /\ rack (TCPReceiver.set_stream_out o r) = rack r.
Proof.
  intros [Hr Hc Hi] Hn E. destruct (StreamReassembler.wf_read D N n _ _ _ Hr Hn E) as (Hr' & _).
  split; [by split|]. unfold rack. cbn.
  replace (ByteStream.input_ended o) with (ByteStream.input_ended (TCPReceiver.stream_out r)); [done|].
  destruct Hr as [_ He], Hr' as [_ He']. apply Bool.eq_iff_eq_true.
  etransitivity; [exact He|symmetry; exact He'].
Qed.

End Receiver.

(** ** The invariant of the link *)

(** The receiver has only what was sent, the sender has been told only what the
    receiver has, and so have the acknowledgments on the way. *)
Record honest (s : TCPSender.t) (em : list TCPSegment.t) (r : TCPReceiver.t) (acks : list (WrappingInt32.t * Z)) : Prop := {
  hn_timer : timer_ok s;
  hn_em : Forall (placed (TCPSender._isn s) (TCPSender._next_seqno s)) em;
  hn_held : forall j, TCPReceiver.holds r j -> j < 0 \/ j + 1 < TCPSender._next_seqno s;
  hn_eof : StreamReassembler.eof_set (TCPReceiver._reassembler r) = true -> TCPSender._next_seqno s = N + 2;
  hn_syn : TCPReceiver.syn_received r = true -> 0 < TCPSender._next_seqno s;
  hn_ack : TCPSender._abs_ackno s <= rack r;
  hn_acks : Forall (fun x => exists n, x.1 = WrappingInt32.wrap n (TCPSender._isn s) /\ 0 <= n <= rack r /\
    0 <= x.2 < two16) acks
}.

(** The sender's and the receiver's own invariants, from [transfer]. *)
Lemma link_transfer s em r out acks : link s em r out acks -> 
  Forall (fun x => 0 <= x.2 < two16) acks /\ transfer D N cap s em r out.
Proof.
  induction 1 as [c retx fi rnd Hc Hi Ht|s em r out acks o s' _ [Ha IH] Hno Hal E|s em r out acks seg r' _ [Ha IH] Hin E
    |s em r out acks n bs o _ [Ha IH] Hn E|s em r out acks a _ [Ha IH] E|s em r out acks a w s' _ [Ha IH] Hin E].
  - split; [constructor|]. by apply transfer_start, TCPSender.run_init.
  - split; [done|]. by eapply transfer_send.
  - split; [done|]. by eapply transfer_deliver.
  - split; [done|]. by eapply transfer_read.
  - split; [|done]. apply Forall_app. split; [done|]. apply Forall_singleton, u16_range.
  - split; [done|]. eapply transfer_send; [done| |done]. rewrite Forall_forall in Ha. exact (Ha _ Hin).
Qed.

Lemma link_wf s em r out acks : link s em r out acks ->
  TCPSender.wf D N s /\ TCPReceiver.wf D N cap (TCPSender._isn s) r /\
  StreamReassembler.reach D N cap (TCPReceiver._reassembler r) out.
Proof.
  intros Hl. apply link_transfer in Hl as [_ Ht].
  destruct (transfer_inv D N cap HN ltac:(lia) _ _ _ _ Ht) as (Hs & Hi & Hr).
  destruct (TCPSender.sender_run_inv D N _ _ ltac:(lia) Hs) as [Hw _].
  destruct (TCPReceiver.receiver_run_inv D N cap _ Hi ltac:(lia) ltac:(lia) _ _ Hr) as [Hwr Hre]. done.
Qed.

(** The receiver asks for nothing that has not been sent. *)
Lemma rack_sent s em r acks : honest s em r acks -> TCPReceiver.wf D N cap (TCPSender._isn s) r ->
  TCPSender.wf D N s -> rack r <= TCPSender._next_seqno s.
Proof.
  intros [_ _ Hh He Hs _ _] Hw Hws. pose proof (rack_range _ r Hw) as (Hr & _).
  pose proof (TCPSender.wf_next_range D N s Hws) as (_ & _ & Hnx).
  unfold rack in *. destruct (TCPReceiver.syn_received r); [|lia]. specialize (Hs eq_refl).
  set (f := StreamReassembler.first_unasmb (TCPReceiver._reassembler r)) in *.
  destruct (ByteStream.input_ended (TCPReceiver.stream_out r)) eqn:Ee.
  - destruct Hw as [[_ Hes] _ _]. apply Hes in Ee as [Hset _]. rewrite He by done. lia.
  - destruct (Hh (f - 1)) as [?|?]; [left; fold f; lia|lia|lia].
Qed.

Lemma honest_advance s em r acks s' : honest s em r acks -> TCPSender.wf D N s' -> advances s s' -> timer_ok s' ->
  TCPSender._abs_ackno s' <= rack r -> honest s' (em ++ TCPSender.emitted s s') r acks.
Proof.
  intros [_ Hem Hh He Hs _ Hac] Hw [Hi Hn Hnew _] Ht Ha.
  pose proof (TCPSender.wf_next_range D N s' Hw) as (_ & _ & Hnx).
  split; rewrite ?Hi; try done.
  - apply Forall_app. split; [|done]. eapply Forall_impl; [exact Hem|]. intros seg. by apply placed_le.
  - intros j Hj. apply Hh in Hj. lia.
  - intros Hset. apply He in Hset. lia.
  - intros Hsyn. apply Hs in Hsyn. lia.
Qed.

(** A segment that ends with the stream takes its last sequence numbers. *)
Lemma good_end isn sq seg : TCPSender.good D N isn sq seg ->
  TCPSender.position sq + zlen (Buffer.str (TCPSegment.payload seg)) +
    (if TCPHeader.fin (TCPSegment.header seg) then 1 else 0) + 1 = sq + TCPSender.slen seg /\
  (TCPHeader.fin (TCPSegment.header seg) = true -> sq + TCPSender.slen seg = N + 2).
Proof.
  intros [Hh Hpw Hl _ Hsz Hsq].
  assert (Hsyn : TCPHeader.syn (TCPSegment.header seg) = (sq =? 0)) by (by rewrite Hh).
  assert (Heq : TCPSender.position sq + zlen (Buffer.str (TCPSegment.payload seg)) +
    (if TCPHeader.fin (TCPSegment.header seg) then 1 else 0) + 1 = sq + TCPSender.slen seg).
  { rewrite TCPSender.slen_eq by done. rewrite Hsyn. unfold TCPSender.position.
    destruct (sq =? 0) eqn:E; zb; subst; destruct (TCPHeader.fin _); lia. }
  split; [done|]. intros Hf. pose proof (StreamReassembler.lg_eof _ _ _ _ _ Hl Hf). rewrite Hf in Heq. lia.
Qed.

Lemma honest_deliver s em r acks seg r' : honest s em r acks -> TCPSender.wf D N s ->
  TCPReceiver.wf D N cap (TCPSender._isn s) r -> seg ∈ em -> TCPReceiver.segment_received seg r = Ok r' ->
  honest s em r' acks /\ rack r <= rack r'.
Proof.
  intros [Ht Hem Hh He Hs Ha Hac] Hws Hw Hin E. pose proof Hws as [Hisn _ _ _ _ _ _ _ _ _ _].
  pose proof (TCPSender.wf_next_range D N s Hws) as (_ & _ & Hnx).
  assert (Hsame : rack r <= rack r' -> Forall (fun x => exists n, x.1 = WrappingInt32.wrap n (TCPSender._isn s) /\
    0 <= n <= rack r' /\ 0 <= x.2 < two16) acks).
  { intros Hm. eapply Forall_impl; [exact Hac|]. intros x (n & Hx & Hn & Hwd). exists n. split; [done|]. split; [lia|done]. }
  rewrite Forall_forall in Hem. destruct (Hem seg Hin) as [(sq & Hg & Hle)|(sq & Hsq & ->)].
  - destruct (good_end _ _ _ Hg) as [Hend Hfin].
    destruct (decide (TCPReceiver.syn_received r = true \/ sq = 0)) as [Hor|Hno].
    + destruct (deliver_good _ Hisn sq seg r Hw Hg Hor) as (r2 & E2 & Hw2 & Hsyn2 & Heof2 & Hh2).
      rewrite E in E2. injection E2 as <-.
      destruct (rack_mono _ r r' Hw Hw2) as [_ Hm]; [done|by intros ?; apply Heof2; left|by intros j Hj; apply Hh2; left|].
      split; [|done]. split; try done; [| | | |lia|by apply Hsame].
      * by apply Forall_forall.
      * intros j [Hj|[Hj _]]%Hh2; [by apply Hh|]. destruct (TCPHeader.fin _); lia.
      * intros [Hj|Hj]%Heof2; [by apply He|]. specialize (Hfin Hj). lia.
      * intros _. pose proof (TCPSender.gd_len _ _ _ _ _ Hg). pose proof (TCPSender.gd_sq _ _ _ _ _ Hg). lia.
    + rewrite TCPReceiver.segment_received_early in E.
      * injection E as <-. split; [|done]. split; try done. by apply Forall_forall.
      * apply not_true_iff_false. tauto.
      * destruct Hg as [-> _ _ _ _ _]. cbn. apply Z.eqb_neq. tauto.
  - destruct (deliver_blank _ Hisn sq r Hw Hsq) as (r2 & E2 & Hw2 & Hsyn2 & Heof2 & Hh2).
    rewrite E in E2. injection E2 as <-.
    destruct (rack_mono _ r r' Hw Hw2) as [_ Hm]; [by rewrite Hsyn2|by apply Heof2|by intros j Hj; apply Hh2|].
    split; [|done]. split; try done; [by apply Forall_forall| | |by rewrite Hsyn2|lia|by apply Hsame].
    + intros j Hj%Hh2. by apply Hh.
    + intros Hj%Heof2. by apply He.
Qed.

(** The steps of the sender, and an acknowledgment that the receiver issues. *)
Lemma honest_owner s em r acks o s' : honest s em r acks -> TCPSender.wf D N s -> (forall a w, o <> TCPSender.Ack a w) ->
  TCPSender.allowed D N o s -> TCPSender.step o s = Ok s' -> honest s' (em ++ TCPSender.emitted s s') r acks.
Proof.
  intros Hh Hw Hno Hal E. destruct (step_effect _ _ _ Hw Hal E) as [Hadv Hab].
  destruct (TCPSender.step_spec D N o s Hw Hal) as (s2 & E2 & Hw2 & _). rewrite E in E2. injection E2 as <-.
  apply (honest_advance s); try done; [by eapply step_timer; [apply Hh|]|].
  destruct Hh as [_ _ _ _ _ Ha _]. destruct o; try by rewrite Hab. by destruct (Hno ackno window_size).
Qed.

Lemma honest_acked s em r acks a w s' : honest s em r acks -> TCPSender.wf D N s ->
  TCPReceiver.wf D N cap (TCPSender._isn s) r -> (a, w) ∈ acks -> TCPSender.step (TCPSender.Ack a w) s = Ok s' ->
  honest s' (em ++ TCPSender.emitted s s') r acks.
Proof.
  intros Hh Hw Hwr Hin E. destruct (rack_range _ _ Hwr) as (Hr & _ & _).
  pose proof Hh as [Ht _ _ _ _ Ha Hac]. rewrite Forall_forall in Hac.
  destruct (Hac _ Hin) as (n & Hn & Hnr & Hwd). cbn in Hn, Hwd.
  destruct (step_effect (TCPSender.Ack a w) s s' Hw Hwd E) as [Hadv Hab]. cbv zeta in Hab.
  destruct (TCPSender.step_spec D N (TCPSender.Ack a w) s Hw Hwd) as (s2 & E2 & Hw2 & _). rewrite E in E2. injection E2 as <-.
  apply (honest_advance s); try done; [by eapply step_timer|]. pose proof Hw as [Hisn _ _ _ _ _ _ _ Hack _ _].
  rewrite Hab, Hn, WrappingInt32.unwrap_wrap_aux by (done || lia). clear Hab. destruct (_ && _); lia.
Qed.

Lemma honest_issue s em r acks a : honest s em r acks -> TCPReceiver.wf D N cap (TCPSender._isn s) r ->
  TCPReceiver.ackno r = Some a -> honest s em r (acks ++ [(a, u16 (TCPReceiver.window_size r))]).
Proof.
  intros Hh Hwr E. destruct (rack_range _ _ Hwr) as (Hr & _ & Hk).
  destruct Hh. split; try done. apply Forall_app. split; [done|]. apply Forall_singleton. exists (rack r).
  rewrite E in Hk. destruct (TCPReceiver.syn_received r); [|done]. injection Hk as ->.
  split; [done|]. split; [lia|apply u16_range].
Qed.

(** A receiver that holds as much: [honest] sees nothing else of it. *)
Lemma honest_receiver s em r r' acks : honest s em r acks -> rack r' = rack r ->
  (forall j, TCPReceiver.holds r' j <-> TCPReceiver.holds r j) ->
  StreamReassembler.eof_set (TCPReceiver._reassembler r') = StreamReassembler.eof_set (TCPReceiver._reassembler r) ->
  TCPReceiver.syn_received r' = TCPReceiver.syn_received r -> honest s em r' acks.
Proof.
  intros [] Hr Hh He Hs. split; rewrite ?Hr, ?He, ?Hs; try done. intros j Hj%Hh. by apply hn_held0.
Qed.

Lemma link_honest s em r out acks : link s em r out acks -> honest s em r acks.
Proof.
  induction 1 as [c retx fi rnd Hc Hi Ht|s em r out acks o s' Hl IH Hno Hal E|s em r out acks seg r' Hl IH Hin E
    |s em r out acks n bs o Hl IH Hn E|s em r out acks a Hl IH E|s em r out acks a w s' Hl IH Hin E];
    [|destruct (link_wf _ _ _ _ _ Hl) as (Hw & Hwr & _)..].
  - split; cbn; try done.
    intros j [?|Hc1]; [by left|]. by apply Exists_nil in Hc1.
  - by eapply honest_owner.
  - by eapply honest_deliver.
  - destruct (read_effect _ n r bs o Hwr Hn E) as [_ Hrk]. by apply (honest_receiver _ _ r).
  - by apply honest_issue.
  - by eapply honest_acked.
Qed.

(** ** Progress *)

(** A receiver whose reader has caught up makes progress with every segment that
    brings the sequence number it asks for. *)
Lemma deliver_progress isn sq seg r : WrappingInt32.wf isn -> TCPReceiver.wf D N cap isn r ->
  TCPSender.good D N isn sq seg -> sq <= rack r < sq + TCPSender.slen seg ->
  ByteStream.buffer_size (TCPReceiver.stream_out r) = 0 ->
  exists r', TCPReceiver.segment_received seg r = Ok r' /\ rack r < rack r'.
Proof.
  intros Hisn Hw Hg Hsq Hempty. destruct (good_end _ _ _ Hg) as [Hend Hfin].
  assert (Hor : TCPReceiver.syn_received r = true \/ sq = 0).
  { unfold rack in Hsq. pose proof (TCPSender.gd_sq _ _ _ _ _ Hg). destruct (TCPReceiver.syn_received r); [by left|lia]. }
  destruct (deliver_good isn Hisn sq seg r Hw Hg Hor) as (r' & E & Hw' & Hsyn & Heof & Hh).
  exists r'. split; [done|].
  destruct (rack_mono isn r r' Hw Hw') as [Hf Hm]; [done|by intros ?; apply Heof; left|by intros j Hj; apply Hh; left|].
  destruct (rack_range isn r Hw) as (Hr & Hr2 & _). destruct (rack_range isn r' Hw') as (Hr' & _).
  destruct Hw as [[Hc He] Hcp _], Hw' as [[Hc' He'] _ _].
  unfold rack in *. rewrite Hsyn in *. destruct (TCPReceiver.syn_received r); [|case_match; pose proof (StreamReassembler.co_first _ _ _ Hc');
    pose proof (ByteStream.wf_size _ (StreamReassembler.co_out _ _ _ Hc')); lia].
  set (f := StreamReassembler.first_unasmb (TCPReceiver._reassembler r)) in *.
  set (f' := StreamReassembler.first_unasmb (TCPReceiver._reassembler r')) in *.
  destruct (ByteStream.input_ended (TCPReceiver.stream_out r)) eqn:Ee.
  { apply He in Ee as [_ Hfn]. fold f in Hfn. destruct (StreamReassembler.co_first _ _ _ Hc').
    pose proof (StreamReassembler.lg_hi _ _ _ _ _ (TCPSender.gd_legal _ _ _ _ _ Hg)) as Hhi.
    destruct (TCPHeader.fin _) eqn:Ef; [specialize (Hfin eq_refl); lia|]. exfalso.
    destruct Hhi as [?|(Hnil & _)]; [lia|]. rewrite Hnil in Hend. cbn in Hend.
    pose proof (TCPSender.gd_len _ _ _ _ _ Hg). unfold TCPSender.position in Hend. destruct (sq =? 0) eqn:Es; zb; lia. }
  assert (Hpos : TCPSender.position sq <= f).
  { unfold TCPSender.position. destruct (sq =? 0) eqn:Es; zb; [|lia].
    pose proof (StreamReassembler.co_first _ _ _ Hc). pose proof (ByteStream.wf_size _ (StreamReassembler.co_out _ _ _ Hc)). lia. }
  destruct (decide (f < TCPSender.position sq + zlen (Buffer.str (TCPSegment.payload seg)))) as [Hin|Hout].
  - assert (f < f'); [|case_match; lia]. apply held_assembled; [done|]. intros j Hj. apply Hh.
    destruct (decide (j < f)) as [Hlt|Hge]; [left; by left|right]. assert (j = f) as -> by lia. split; [lia|].
    unfold TCPReceiver.limit, StreamReassembler.window_end. fold f. rewrite Hcp.
    unfold ByteStream.buffer_size, TCPReceiver.stream_out, StreamReassembler.stream_out in Hempty. lia.
  - destruct (TCPHeader.fin (TCPSegment.header seg)) eqn:Ef; [|lia]. specialize (Hfin eq_refl).
    pose proof (StreamReassembler.co_first _ _ _ Hc') as Hf'. fold f' in Hf'.
    assert (Ee' : ByteStream.input_ended (TCPReceiver.stream_out r') = true); [|rewrite Ee'; lia].
    apply He'. split; [by apply Heof; right|]. fold f'. lia.
Qed.

(** The reader takes everything that has been assembled. *)
Lemma pull_effect s em r out acks : link s em r out acks ->
  exists bs r', pull r = Ok (bs, r') /\ link s em r' (out ++ bs) acks /\
    ByteStream.buffer_size (TCPReceiver.stream_out r') = 0 /\ rack r' = rack r.
Proof.
  intros Hl. destruct (link_wf _ _ _ _ _ Hl) as (_ & Hwr & _). pose proof Hwr as [[[] _] Hcp _].
  unfold pull. set (st := TCPReceiver.stream_out r). change (StreamReassembler._output _) with st in *.
  pose proof (ByteStream.wf_size _ co_out) as Hs.
  destruct (ByteStream.read_spec (ByteStream.buffer_size st) st) as (o & E & _ & _ & Hsz & _); [done|lia|by apply Hs|].
  rewrite E. cbn [mbind res_bind]. destruct (read_effect _ _ r _ o Hwr (proj1 Hs) E) as [_ Hrk].
  eexists _, _. split; [done|]. split; [eapply link_read; [done|apply Hs|done]|]. split; [|done].
  cbn. unfold ByteStream.buffer_size in *. lia.
Qed.

(** Filling the window and letting the timer run out: the oldest outstanding segment
    is sent again, unless everything has been acknowledged. *)
Lemma timeout_effect s em r out acks : link s em r out acks ->
  ByteStream.done_writing (TCPSender._stream s) = true ->
  exists s1 em', TCPSender.fill_window s = Ok s1 /\
    let s2 := TCPSender.tick (remaining_time s1) s1 in
    link s2 em' r out acks /\ ByteStream.done_writing (TCPSender._stream s2) = true /\
    TCPSender._isn s2 = TCPSender._isn s /\ TCPSender._abs_ackno s2 = TCPSender._abs_ackno s /\
    (TCPSender.emitted s1 s2 = [] /\ TCPSender._abs_ackno s = N + 2 \/
     exists sq seg, TCPSender.emitted s1 s2 = [seg] /\ seg ∈ em' /\ TCPSender.good D N (TCPSender._isn s) sq seg /\
       sq <= TCPSender._abs_ackno s < sq + TCPSender.slen seg /\ TCPSender._abs_ackno s < N + 2).
Proof.
  intros Hl Hdone. destruct (link_wf _ _ _ _ _ Hl) as (Hw & _).
  destruct (TCPSender.fill_window_spec D N s Hw) as (new & s1 & E1 & Hw1 & Hg & Hset).
  assert (Hl1 : link s1 (em ++ TCPSender.emitted s s1) r out acks)
    by (eapply (link_owner _ _ _ _ _ TCPSender.Fill); done).
  assert (Hd1 : ByteStream.done_writing (TCPSender._stream s1) = true) by (destruct Hg; congruence).
  pose proof (tick_effect (remaining_time s1) s1 Hw1) as ([Hi2 _ _ Hd2] & Ha2 & _ & _ & Hem2).
  set (s2 := TCPSender.tick (remaining_time s1) s1) in *.
  assert (Hl2 : link s2 ((em ++ TCPSender.emitted s s1) ++ TCPSender.emitted s1 s2) r out acks)
    by (eapply (link_owner _ _ _ _ _ (TCPSender.Tick _)); done).
  exists s1, ((em ++ TCPSender.emitted s s1) ++ TCPSender.emitted s1 s2). split; [done|]. cbv zeta. fold s2.
  split; [done|]. split; [by apply Hd2|]. split; [destruct Hg; congruence|]. split; [destruct Hg; congruence|].
  rewrite (proj2 (Z.leb_le _ _)) in Hem2.
  2:{ destruct (link_honest _ _ _ _ _ Hl1) as [[Ht _] _ _ _ _ _ _]. unfold remaining_time.
      rewrite u64_add_r, Z.add_comm, Z.sub_add, u64_small; lia. }
  pose proof (TCPSender.wf_next_range D N s1 Hw1) as (_ & _ & Hnx).
  assert (Hab : TCPSender._abs_ackno s1 = TCPSender._abs_ackno s) by (by destruct Hg).
  pose proof Hw1 as [_ _ _ _ _ _ _ _ Hack _ (sq & Hch & Hm)].
  destruct (TCPSender._outstanding_segments s1) as [|o l].
  - left. split; [done|]. destruct Hset as [_ [Hlim|[_ Hend]]]; [unfold TCPSender.window_limit in Hlim; lia|].
    rewrite <- Hab, Hm. by apply Hend.
  - right. exists sq, (TCPSender.segment o). destruct Hch as (_ & Hgood & Hch). apply TCPSender.chain_le in Hch.
    split; [done|]. split; [rewrite Hem2; apply elem_of_app; right; constructor|]. destruct Hg as [Hisn _]. rewrite Hisn in Hgood.
    rewrite <- Hab. split; [done|]. split; [done|lia].
Qed.

(** The acknowledgment of a receiver that is ahead is accepted. *)
Lemma acknowledge_effect s em r out acks : link s em r out acks ->
  exists s' em' acks', acknowledge r s = Ok s' /\ link s' em' r out acks' /\
    TCPSender._isn s' = TCPSender._isn s /\ TCPSender._abs_ackno s' = Z.max (TCPSender._abs_ackno s) (rack r) /\
    (ByteStream.done_writing (TCPSender._stream s) = true -> ByteStream.done_writing (TCPSender._stream s') = true).
Proof.
  intros Hl. destruct (link_wf _ _ _ _ _ Hl) as (Hw & Hwr & _). pose proof (link_honest _ _ _ _ _ Hl) as Hh.
  pose proof (rack_sent _ _ _ _ Hh Hwr Hw) as Hsent. pose proof Hh as [_ _ _ _ _ Ha _].
  destruct (rack_range _ _ Hwr) as (Hr & _ & Hk). unfold acknowledge. rewrite Hk.
  pose proof Hw as [Hisn _ _ _ _ _ _ _ Hack _ _].
  destruct (TCPReceiver.syn_received r) eqn:Es.
  2:{ exists s, em, acks. split_and!; try done. unfold rack in *. rewrite Es in *. lia. }
  set (a := WrappingInt32.wrap (rack r) (TCPSender._isn s)) in *. set (w := u16 (TCPReceiver.window_size r)).
  assert (Hwd : 0 <= w < two16) by apply u16_range.
  destruct (TCPSender.step_spec D N (TCPSender.Ack a w) s Hw Hwd) as (s' & E & _ & Hi & _).
  destruct (step_effect (TCPSender.Ack a w) s s' Hw Hwd E) as [Hadv Hab]. cbv zeta in Hab.
  exists s', (em ++ TCPSender.emitted s s'), (acks ++ [(a, w)]). split; [done|]. split.
  { eapply link_acked; [by apply link_ack| |exact E]. apply elem_of_app; right; constructor. }
  split; [done|]. split; [|apply Hadv]. unfold a in Hab. rewrite Hab, WrappingInt32.unwrap_wrap_aux by (done || lia).
  clear Hab. destruct (TCPSender._abs_ackno s <? rack r) eqn:E1, (rack r <=? TCPSender._next_seqno s) eqn:E2; cbn [andb]; zb; lia.
Qed.

(** When everything has been acknowledged, everything has been assembled, and a
    reader that has caught up has read it all. *)
Lemma all_read s em r out acks : link s em r out acks -> TCPSender._abs_ackno s = N + 2 ->
  ByteStream.buffer_size (TCPReceiver.stream_out r) = 0 ->
  out = slice D 0 N /\ ByteStream.eof (TCPReceiver.stream_out r) = true.
Proof.
  intros Hl Hab Hempty. destruct (link_wf _ _ _ _ _ Hl) as (_ & Hwr & Hre).
  destruct (link_honest _ _ _ _ _ Hl) as [_ _ _ _ _ Ha _]. destruct (rack_range _ _ Hwr) as (Hr & Hend & _).
  destruct Hend as [He Hf]; [lia|]. destruct (StreamReassembler.reach_inv D N cap _ _ ltac:(lia) ltac:(lia) Hre) as (_ & _ & ->).
  unfold ByteStream.eof, ByteStream.buffer_empty. unfold ByteStream.buffer_size in Hempty. rewrite He, Hempty, Hf.
  unfold TCPReceiver.stream_out, StreamReassembler.stream_out in Hempty. rewrite Hempty. by rewrite Z.sub_0_r.
Qed.

(** A round completes and acknowledges at least one more sequence number. *)
Lemma round_progress s em r out acks : link s em r out acks ->
  ByteStream.done_writing (TCPSender._stream s) = true ->
  exists s' em' r' out' acks', round (s, r, out) = Ok (s', r', out') /\ link s' em' r' out' acks' /\
    ByteStream.done_writing (TCPSender._stream s') = true /\
    Z.min (N + 2) (TCPSender._abs_ackno s + 1) <= TCPSender._abs_ackno s' /\
    (TCPSender._abs_ackno s = N + 2 -> out' = slice D 0 N /\ ByteStream.eof (TCPReceiver.stream_out r') = true).
Proof.
  intros Hl Hdone. destruct (pull_effect _ _ _ _ _ Hl) as (bs & r1 & E1 & Hl1 & Hempty & Hrk).
  destruct (timeout_effect _ _ _ _ _ Hl1 Hdone) as (s1 & em2 & E2 & Hl2 & Hd2 & Hi2 & Ha2 & Hcase).
  set (s2 := TCPSender.tick (remaining_time s1) s1) in *.
  unfold round. rewrite E1. cbn [mbind res_bind]. rewrite E2. cbn [mbind res_bind]. fold s2.
  destruct Hcase as [[-> Hab]|(sq & seg & -> & Hin & Hg & Hsq & Hlt)]; cbn [deliver mbind res_bind].
  - destruct (acknowledge_effect _ _ _ _ _ Hl2) as (s3 & em3 & acks3 & E3 & Hl3 & _ & Ha3 & Hd3). rewrite E3.
    exists s3, em3, r1, (out ++ bs), acks3. split_and!; try done; [by apply Hd3|lia|intros _; exact (all_read _ _ _ _ _ Hl1 Hab Hempty)].
  - destruct (link_wf _ _ _ _ _ Hl1) as (Hw & Hwr & _). pose proof Hw as [Hisn _ _ _ _ _ _ _ _ _ _].
    pose proof (link_honest _ _ _ _ _ Hl1) as [_ _ _ _ _ Hk _].
    destruct (link_wf _ _ _ _ _ Hl2) as (Hw2 & Hwr2 & _). pose proof (link_honest _ _ _ _ _ Hl2) as Hh2.
    assert (Hr : exists r2, TCPReceiver.segment_received seg r1 = Ok r2 /\ TCPSender._abs_ackno s < rack r2).
    { destruct (decide (rack r1 < sq + TCPSender.slen seg)) as [Hlt1|Hge].
      - destruct (deliver_progress _ sq seg r1 Hisn Hwr Hg) as (r2 & E & Hp); [lia|done|]. exists r2. split; [done|lia].
      - apply link_transfer in Hl2 as [_ Ht].
        destruct (transfer_deliverable D N cap HN ltac:(lia) _ _ _ _ Ht seg Hin) as [r2 E].
        exists r2. split; [done|]. destruct (honest_deliver _ _ _ _ _ _ Hh2 Hw2 Hwr2 Hin E). lia. }
    destruct Hr as (r2 & E & Hp). rewrite E. cbn [mbind res_bind].
    pose proof (link_deliver _ _ _ _ _ _ _ Hl2 Hin E) as Hl3.
    destruct (acknowledge_effect _ _ _ _ _ Hl3) as (s3 & em3 & acks3 & E3 & Hl4 & _ & Ha3 & Hd3). rewrite E3.
    exists s3, em3, r2, (out ++ bs), acks3. split_and!; try done; [by apply Hd3|lia|lia].
Qed.

Lemma rounds_progress n : forall s em r out acks, link s em r out acks ->
  ByteStream.done_writing (TCPSender._stream s) = true -> N + 2 - TCPSender._abs_ackno s < Z.of_nat n ->
  exists s' r' out', rounds n (s, r, out) = Ok (s', r', out') /\
    out' = slice D 0 N /\ ByteStream.eof (TCPReceiver.stream_out r') = true /\
    TCPSender._abs_ackno s' = N + 2 /\ TCPSender.bytes_in_flight s' = 0.
Proof.
  induction n as [|n IH]; intros s em r out acks Hl Hdone Hn.
  { destruct (link_wf _ _ _ _ _ Hl) as (Hw & _). pose proof (TCPSender.wf_next_range D N s Hw).
    pose proof (TCPSender.wf_ack _ _ _ Hw). lia. }
  destruct (round_progress _ _ _ _ _ Hl Hdone) as (s1 & em1 & r1 & out1 & acks1 & E & Hl1 & Hd1 & Hp & Hfin).
  cbn [rounds]. rewrite E. cbn [mbind res_bind].
  destruct (link_wf _ _ _ _ _ Hl1) as (Hw1 & _). pose proof (TCPSender.wf_next_range D N s1 Hw1) as (_ & _ & Hnx).
  pose proof (TCPSender.wf_ack _ _ _ Hw1) as Hack.
  destruct n as [|n]; [|eapply (IH _ _ _ _ _ Hl1 Hd1)].
  - destruct (link_wf _ _ _ _ _ Hl) as (Hw & _). pose proof (TCPSender.wf_next_range D N s Hw).
    pose proof (TCPSender.wf_ack _ _ _ Hw). destruct Hfin as [Ho He]; [lia|].
    exists s1, r1, out1. split_and!; try done; [lia|]. unfold TCPSender.bytes_in_flight.
    replace (TCPSender._next_seqno s1 - TCPSender._abs_ackno s1) with 0 by lia. done.
  - lia.
Qed.

End Link.

(** C6: a transfer completes.  Take any state that the sender and the receiver can
    reach over a network that loses, duplicates, delays and reorders segments and
    acknowledgments, with the stream of length [N] written to the sender and ended.
    [N + 3] rounds in which only the segment that the timer retransmits and one
    acknowledgment get through deliver all of it: the reader has the whole stream and
    sees its end, and the sender has everything acknowledged, SYN and FIN included.
    None of the calls throws, whatever the receiver's capacity (if not zero). *)
Theorem transfer_completes (D : Z -> byte) (N cap : Z) (s : TCPSender.t) (em : list TCPSegment.t)
  (r : TCPReceiver.t) (out : bytes) (acks : list (WrappingInt32.t * Z))
  (HN : 0 <= N < two31 - 2) (Hcap : 0 < cap < two63) (Hlink : link D N cap s em r out acks)
  (Hended : ByteStream.done_writing (TCPSender._stream s) = true) :
  exists s' r' out', rounds (Z.to_nat (N + 3)) (s, r, out) = Ok (s', r', out') /\
    out' = slice D 0 N /\ ByteStream.eof (TCPReceiver.stream_out r') = true /\
    TCPSender._abs_ackno s' = N + 2 /\ TCPSender.bytes_in_flight s' = 0.
Proof.
  eapply rounds_progress; [done|done|exact Hlink|done|].
  destruct (link_wf D N cap HN Hcap _ _ _ _ _ Hlink) as (Hw & _). pose proof (TCPSender.wf_ack _ _ _ Hw). lia.
Qed.

(** Three letters through a receiver that holds one at a time; nothing has arrived
    before the rounds begin. *)
Lemma transfer_completes_witness :
  let s0 := TCPSender.make 10 1000 (Some (WrappingInt32.make 5)) 0 in
  let s1 := TCPSender.set_stream (snd (ByteStream.write [x61; x61; x61] (TCPSender._stream s0))) s0 in
  let s2 := TCPSender.set_stream (ByteStream.end_input (TCPSender._stream s1)) s1 in
  exists s' r', rounds 6 (s2, TCPReceiver.make 1, []) = Ok (s', r', [x61; x61; x61]) /\
    TCPSender.bytes_in_flight s' = 0.
Proof.
  intros s0 s1 s2.
  assert (L0 : link TCPSender.letter_a 3 1 s0 [] (TCPReceiver.make 1) [] []).
  { apply link_start; [lia| |lia]. intros i [= <-]. apply WrappingInt32.wrapping_make_wf. }
  assert (L1 : link TCPSender.letter_a 3 1 s1 [] (TCPReceiver.make 1) [] []).
  { apply (link_owner _ _ _ _ _ _ _ _ (TCPSender.Write [x61; x61; x61]) s1) in L0; [exact L0|discriminate| |reflexivity].
    split; [reflexivity|split; [vm_compute; congruence|vm_compute; reflexivity]]. }
  assert (L2 : link TCPSender.letter_a 3 1 s2 [] (TCPReceiver.make 1) [] []).
  { apply (link_owner _ _ _ _ _ _ _ _ TCPSender.EndInput s2) in L1; [exact L1|discriminate|vm_compute; reflexivity|reflexivity]. }
  destruct (transfer_completes TCPSender.letter_a 3 1 s2 [] (TCPReceiver.make 1) [] [])
    as (s' & r' & out' & E & Ho & _ & _ & Hf); [lia|lia|exact L2|reflexivity|].
  exists s', r'. split; [|exact Hf]. change (Z.to_nat (3 + 3)) with 6%nat in E. rewrite E, Ho. reflexivity.
Defined.
