(* ===== verification/TcpConnection.v ===== *)
(** * A TCP endpoint (tcp_connection.hh, tcp_connection.cc)

    [TCPConnection] joins a sender and a receiver: it stamps the sender's segments
    with the receiver's acknowledgment number and window, answers incoming
    segments, and decides when the connection is over (reset, or closed cleanly,
    possibly after lingering). *)

From S2P Require Import Prelude Wrapping Stream Reassembly Buffers TcpWire TcpReceiver TcpSender Transfer.
From Stdlib Require Import Strings.Byte.

Module TCPConnection.

(** [class TCPConnection]: the private members (the [debug] switch apart). *)
Record t : Type := mk {
  _cfg : TCPConfig.t;
  _receiver : TCPReceiver.t;
  _sender : TCPSender.t;
  _segments_out : list TCPSegment.t;
  _linger_after_streams_finish : bool;
  _active : bool;
  _last_segm_recv_timer : Z
}.

(** The constructor; [random] is what [random_device] returns. *)
Definition make (cfg : TCPConfig.t) (random : Z) : t :=
  mk cfg (TCPReceiver.make (TCPConfig.recv_capacity cfg))
     (TCPSender.make (TCPConfig.send_capacity cfg) (TCPConfig.rt_timeout cfg)
        (TCPConfig.fixed_isn cfg) random) [] true true 0.

Definition set_receiver (x : TCPReceiver.t) (c : t) : t :=
  mk (_cfg c) x (_sender c) (_segments_out c) (_linger_after_streams_finish c) (_active c)
     (_last_segm_recv_timer c).
Definition set_sender (x : TCPSender.t) (c : t) : t :=
  mk (_cfg c) (_receiver c) x (_segments_out c) (_linger_after_streams_finish c) (_active c)
     (_last_segm_recv_timer c).
Definition set_linger (x : bool) (c : t) : t :=
  mk (_cfg c) (_receiver c) (_sender c) (_segments_out c) x (_active c) (_last_segm_recv_timer c).
Definition set_active (x : bool) (c : t) : t :=
  mk (_cfg c) (_receiver c) (_sender c) (_segments_out c) (_linger_after_streams_finish c) x
     (_last_segm_recv_timer c).
Definition set_timer (x : Z) (c : t) : t :=
  mk (_cfg c) (_receiver c) (_sender c) (_segments_out c) (_linger_after_streams_finish c) (_active c) x.

(** [segments_out()] gives the owner the queue itself. *)
Definition set_segments_out (q : list TCPSegment.t) (c : t) : t :=
  mk (_cfg c) (_receiver c) (_sender c) q (_linger_after_streams_finish c) (_active c)
     (_last_segm_recv_timer c).

Definition stream_in (c : t) : ByteStream.t := TCPSender.stream_in (_sender c).
Definition inbound_stream (c : t) : ByteStream.t := TCPReceiver.stream_out (_receiver c).

Definition remaining_outbound_capacity (c : t) : Z := ByteStream.remaining_capacity (stream_in c).
Definition bytes_in_flight (c : t) : Z := TCPSender.bytes_in_flight (_sender c).
Definition unassembled_bytes (c : t) : Z := TCPReceiver.unassembled_bytes (_receiver c).
Definition time_since_last_segment_received (c : t) : Z := _last_segm_recv_timer c.
Definition syn_sent (c : t) : bool := 0 <? TCPSender.next_seqno_absolute (_sender c).
Definition active (c : t) : bool := _active c.

(** What [send_segments] writes into the header of a segment. *)
Definition stamp (r : TCPReceiver.t) (rst : bool) (seg : TCPSegment.t) : TCPSegment.t :=
  let h := TCPSegment.header seg in
  let h :=
    match TCPReceiver.ackno r with
    | Some a =>
        TCPHeader.mk (TCPHeader.sport h) (TCPHeader.dport h) (TCPHeader.seqno h) a (TCPHeader.doff h)
          (TCPHeader.urg h) true (TCPHeader.psh h) (TCPHeader.rst h) (TCPHeader.syn h)
          (TCPHeader.fin h) (u16 (TCPReceiver.window_size r)) (TCPHeader.cksum h) (TCPHeader.uptr h)
    | None => h
    end in
  let h :=
    if rst then
      TCPHeader.mk (TCPHeader.sport h) (TCPHeader.dport h) (TCPHeader.seqno h) (TCPHeader.ackno h)
        (TCPHeader.doff h) (TCPHeader.urg h) (TCPHeader.ack h) (TCPHeader.psh h) true (TCPHeader.syn h)
        (TCPHeader.fin h) (TCPHeader.win h) (TCPHeader.cksum h) (TCPHeader.uptr h)
    else h in
  TCPSegment.mk h (TCPSegment.payload seg).

(** The loop of [send_segments]: one segment of the sender's queue per iteration. *)
Fixpoint send_loop (r : TCPReceiver.t) (rst : bool) (queue out : list TCPSegment.t)
  : list TCPSegment.t :=
  match queue with
  | [] => out
  | seg :: queue' => send_loop r rst queue' (out ++ [stamp r rst seg])
  end.

Definition send_segments (rst : bool) (c : t) : t :=
  if negb (active c) then c
  else
    set_segments_out
      (send_loop (_receiver c) rst (TCPSender.segments_out (_sender c)) (_segments_out c))
      (set_sender (TCPSender.set_segments_out [] (_sender c)) c).

Definition reset (c : t) : t :=
  let c := set_sender (TCPSender.set_stream (ByteStream.set_error (stream_in c)) (_sender c)) c in
  let c := set_receiver
    (TCPReceiver.set_stream_out (ByteStream.set_error (inbound_stream c)) (_receiver c)) c in
  set_active false c.

Definition try_switching_close_mode (c : t) : t :=
  if negb (ByteStream.eof (stream_in c)) && ByteStream.input_ended (inbound_stream c)
  then set_linger false c else c.

(** The prerequisites of a clean shutdown. *)
Definition istream_done (c : t) : bool :=
  ByteStream.input_ended (inbound_stream c) && (unassembled_bytes c =? 0).
Definition ostream_done (c : t) : bool :=
  ByteStream.eof (stream_in c) &&
  (TCPSender.next_seqno_absolute (_sender c) =? ByteStream.bytes_written (stream_in c) ⊞ 2) &&
  (TCPSender.bytes_in_flight (_sender c) =? 0).
Definition active_close (c : t) : bool :=
  _linger_after_streams_finish c &&
  (10 * TCPConfig.rt_timeout (_cfg c) <=? _last_segm_recv_timer c).
Definition passive_close (c : t) : bool := negb (_linger_after_streams_finish c).

Definition try_closing_connection (c : t) : t :=
  if negb (active c) then c
  else
    let c := send_segments false c in
    if (active_close c || passive_close c) && istream_done c && ostream_done c
    then set_active false c else c.

(** Lifting an operation of the sender. *)
Definition on_sender (f : TCPSender.t -> res TCPSender.t) (c : t) : res t :=
  s ← f (_sender c);
  Ok (set_sender s c).

Definition connect (c : t) : res t :=
  c ← on_sender TCPSender.fill_window c;
  Ok (send_segments false c).

Definition end_input_stream (c : t) : res t :=
  let c := set_sender (TCPSender.set_stream (ByteStream.end_input (stream_in c)) (_sender c)) c in
  c ← on_sender TCPSender.fill_window c;
  Ok (try_closing_connection c).

Definition write (data : bytes) (c : t) : res (Z * t) :=
  if ByteStream.input_ended (stream_in c) || negb (syn_sent c) then Ok (0, c)
  else
    let '(n_bytes_written, stream) := ByteStream.write data (stream_in c) in
    let c := set_sender (TCPSender.set_stream stream (_sender c)) c in
    c ← on_sender TCPSender.fill_window c;
    Ok (n_bytes_written, send_segments false c).

(** Part of [segment_received]: when the SYN has been sent, a segment that takes
    sequence numbers gets a reply. *)
Definition reply (seg : TCPSegment.t) (c : t) : t :=
  if syn_sent c then
    let c :=
      if (0 <? TCPSegment.length_in_sequence_space seg) &&
         match TCPSender.segments_out (_sender c) with [] => true | _ => false end
      then set_sender (TCPSender.send_empty_segment (_sender c)) c else c in
    send_segments false c
  else c.

Definition segment_received (seg : TCPSegment.t) (c : t) : res t :=
  let h := TCPSegment.header seg in
  receiver ← TCPReceiver.segment_received seg (_receiver c);
  let c := set_timer 0 (set_receiver receiver c) in
  let c := if TCPHeader.rst h then reset c else c in
  c ← (if TCPHeader.ack h
       then on_sender (TCPSender.ack_received (TCPHeader.ackno h) (TCPHeader.win h)) c
       else Ok c);
  let c := reply seg c in
  c ← (if TCPHeader.syn h && negb (syn_sent c) then connect c else Ok c);
  Ok (try_switching_close_mode c).

(** Sending a RST: an empty segment is made when there is none to carry it. *)
Definition abort (c : t) : t :=
  let c :=
    match TCPSender.segments_out (_sender c) with
    | [] => set_sender (TCPSender.send_empty_segment (_sender c)) c
    | _ => c
    end in
  reset (send_segments true c).

Definition tick (ms_since_last_tick : Z) (c : t) : t :=
  if negb (active c) then c
  else
    let c := set_sender (TCPSender.tick ms_since_last_tick (_sender c)) c in
    let c := set_timer (_last_segm_recv_timer c ⊞ ms_since_last_tick) c in
    let c :=
      if TCPConfig.MAX_RETX_ATTEMPTS <? TCPSender.consecutive_retransmissions (_sender c)
      then abort c else send_segments false c in
    try_closing_connection c.

(** The destructor: what it leaves in the queue. *)
Definition destroy (c : t) : t := if active c then abort c else c.

(** ** Sending *)

Lemma send_loop_map r rst queue : forall out,
  send_loop r rst queue out = out ++ (stamp r rst <$> queue).
Proof.
  induction queue as [|seg queue IH]; intros out; cbn; [by rewrite app_nil_r|].
  rewrite IH, <- app_assoc. done.
Qed.

Lemma send_segments_spec rst c : active c = true ->
  send_segments rst c =
    set_segments_out (_segments_out c ++ (stamp (_receiver c) rst <$> TCPSender.segments_out (_sender c)))
      (set_sender (TCPSender.set_segments_out [] (_sender c)) c).
Proof. intros Ha. unfold send_segments. rewrite Ha. cbn [negb]. by rewrite send_loop_map. Qed.

Lemma send_segments_dead rst c : active c = false -> send_segments rst c = c.
Proof. intros Ha. unfold send_segments. by rewrite Ha. Qed.

(** ** Operations of the owner *)

Inductive op : Type :=
| Connect
| Write (data : bytes)
| EndInputStream
| SegmentReceived (seg : TCPSegment.t)
| Tick (ms : Z)
| ReadInbound (n : Z).

Definition step (o : op) (c : t) : res t :=
  match o with
  | Connect => connect c
  | Write data => '(_, c') ← write data c; Ok c'
  | EndInputStream => end_input_stream c
  | SegmentReceived seg => segment_received seg c
  | Tick ms => Ok (tick ms c)
  | ReadInbound n =>
      '(_, st) ← ByteStream.read n (inbound_stream c);
      Ok (set_receiver (TCPReceiver.set_stream_out st (_receiver c)) c)
  end.

(** The connection is over and the queue is [q]. *)
Definition dead (q : list TCPSegment.t) (c : t) : Prop := active c = false /\ _segments_out c = q.

Lemma dead_send q rst c : dead q c -> dead q (send_segments rst c).
Proof. intros [Ha Hq]. by rewrite send_segments_dead. Qed.

Lemma dead_set_sender q s c : dead q c -> dead q (set_sender s c).
Proof. done. Qed.

Lemma dead_on_sender q f c c' : on_sender f c = Ok c' -> dead q c -> dead q c'.
Proof. unfold on_sender. intros (s & _ & [= <-])%bind_Ok. done. Qed.

Lemma dead_try_closing q c : dead q c -> dead q (try_closing_connection c).
Proof. intros [Ha Hq]. unfold try_closing_connection. by rewrite Ha. Qed.

Lemma dead_connect q c c' : connect c = Ok c' -> dead q c -> dead q c'.
Proof.
  unfold connect. intros (c1 & Hc & [= <-])%bind_Ok Hd.
  apply dead_send. by eapply dead_on_sender.
Qed.

Lemma dead_segment_received q seg c c' :
  segment_received seg c = Ok c' -> dead q c -> dead q c'.
Proof.
  unfold segment_received. intros (r & _ & H)%bind_Ok Hd.
  apply bind_Ok in H as (c1 & H1 & H). apply bind_Ok in H as (c2 & H2 & [= <-]).
  assert (Hd0 : dead q (if TCPHeader.rst (TCPSegment.header seg)
    then reset (set_timer 0 (set_receiver r c)) else set_timer 0 (set_receiver r c))).
  { destruct Hd as [Ha Hq]. by destruct (TCPHeader.rst _). }
  assert (Hd1 : dead q c1).
  { destruct (TCPHeader.ack _); [by eapply dead_on_sender|]. by injection H1 as <-. }
  set (c1' := reply seg c1) in H2.
  assert (Hd1' : dead q c1').
  { unfold c1', reply. destruct (syn_sent c1); [|done]. apply dead_send. by destruct ((0 <? _) && _). }
  assert (Hd2 : dead q c2).
  { destruct (TCPHeader.syn _ && _); [exact (dead_connect q _ _ H2 Hd1')|by injection H2 as <-]. }
  unfold try_switching_close_mode. destruct Hd2 as [Ha Hq]. by destruct (negb _ && _).
Qed.

Lemma dead_step q o c c' : step o c = Ok c' -> dead q c -> dead q c'.
Proof.
  destruct o as [|data| |seg|ms|n]; cbn [step]; intros H Hd.
  - by eapply dead_connect.
  - apply bind_Ok in H as ([n c1] & H & [= <-]). unfold write in H.
    destruct (_ || _); [by injection H as _ <-|].
    destruct (ByteStream.write _ _) as [m st]. apply bind_Ok in H as (c2 & H & [= _ <-]).
    apply dead_send. by eapply dead_on_sender.
  - unfold end_input_stream in H. apply bind_Ok in H as (c1 & H & [= <-]).
    apply dead_try_closing. by eapply dead_on_sender.
  - by eapply dead_segment_received.
  - injection H as <-. unfold tick. destruct Hd as [Ha Hq]. by rewrite Ha.
  - apply bind_Ok in H as ([bs st] & _ & [= <-]). done.
Qed.

(** ** The invariant *)

Section Invariant.
(** The stream written here, the stream the peer writes, and the two initial
    sequence numbers. *)
Context (Ds : Z -> byte) (Ns : Z) (Is : WrappingInt32.t).
Context (Dr : Z -> byte) (Nr cap : Z) (Ir : WrappingInt32.t).

(** [seg] carries what the sender put into [seg0]: stamping leaves these alone. *)
Definition carries (seg seg0 : TCPSegment.t) : Prop :=
  TCPSegment.payload seg = TCPSegment.payload seg0 /\
  TCPHeader.seqno (TCPSegment.header seg) = TCPHeader.seqno (TCPSegment.header seg0) /\
  TCPHeader.syn (TCPSegment.header seg) = TCPHeader.syn (TCPSegment.header seg0) /\
  TCPHeader.fin (TCPSegment.header seg) = TCPHeader.fin (TCPSegment.header seg0).

(** A segment the connection may put on the network: one of the sender's, stamped. *)
Definition outgoing (seg : TCPSegment.t) : Prop :=
  exists seg0 r rst, TCPSender.sendable Ds Ns Is seg0 /\ seg = stamp r rst seg0.

(** A segment that brings what the sender put into one of its own. *)
Definition conveys (seg : TCPSegment.t) : Prop :=
  exists seg0, TCPSender.sendable Ds Ns Is seg0 /\ carries seg seg0.

Record wf (c : t) : Prop := {
  wf_sender : TCPSender.wf Ds Ns (_sender c);
  wf_isn : TCPSender._isn (_sender c) = Is;
  wf_queue : Forall (TCPSender.sendable Ds Ns Is) (TCPSender.segments_out (_sender c));
  wf_receiver : TCPReceiver.wf Dr Nr cap Ir (_receiver c);
  wf_out : Forall outgoing (_segments_out c)
}.

Lemma stamp_carries r rst seg : carries (stamp r rst seg) seg.
Proof. unfold stamp, carries. by destruct (TCPReceiver.ackno r), rst. Qed.

Lemma outgoing_conveys seg : outgoing seg -> conveys seg.
Proof. intros (seg0 & r & rst & Hs & ->). exists seg0. split; [done|apply stamp_carries]. Qed.

(** What goes out can be serialised: the header is well formed and the payload short. *)
Lemma outgoing_wf seg : outgoing seg ->
  TCPHeader.wf (TCPSegment.header seg) /\ Buffer.wf (TCPSegment.payload seg) /\
  TCPHeader.doff (TCPSegment.header seg) = 5 /\
  zlen (Buffer.str (TCPSegment.payload seg)) <= TCPConfig.MAX_PAYLOAD_SIZE.
Proof.
  intros (seg0 & r & rst & Hs & ->).
  assert (H0 : (exists sq syn fin, TCPSegment.header seg0 = TCPSender.header (WrappingInt32.wrap sq Is) syn fin) /\
    Buffer.wf (TCPSegment.payload seg0) /\
    zlen (Buffer.str (TCPSegment.payload seg0)) <= TCPConfig.MAX_PAYLOAD_SIZE).
  { destruct Hs as [[sq [Hh Hp _ _ Hsz _]]|(sq & _ & ->)]; 
      (split; [|by split]); [rewrite Hh|]; by eauto. }
  destruct H0 as ((sq & syn & fin & Hh) & Hp & Hsz). unfold stamp. rewrite Hh.
  assert (Hw : TCPHeader.wf (TCPSender.header (WrappingInt32.wrap sq Is) syn fin)).
  { split; cbn; try lia; [apply WrappingInt32.wrap_wf|apply WrappingInt32.wrapping_make_wf|change (TCPHeader.LENGTH / 4) with 5; lia]. }
  destruct Hw. unfold TCPReceiver.ackno. split_and!; try done.
  - destruct (TCPReceiver.syn_received r), rst; split; cbn in *; try done; try lia;
      try apply u16_range; apply WrappingInt32.wrap_wf.
  - by destruct (TCPReceiver.syn_received r), rst.
Qed.

Lemma wf_send_segments rst c : wf c -> wf (send_segments rst c).
Proof.
  intros Hw. destruct (active c) eqn:Ha; [|by rewrite send_segments_dead].
  rewrite send_segments_spec by done. destruct Hw as [Hs Hi Hq Hr Ho]. split; cbn; try done.
  - by apply TCPSender.wf_set_segments_out.
  - apply Forall_app. split; [done|]. apply Forall_fmap. eapply Forall_impl; [exact Hq|].
    intros seg Hseg. by exists seg, (_receiver c), rst.
Qed.

(** An operation of the sender keeps the invariant of the connection. *)
Lemma wf_sender_step o c : wf c -> TCPSender.allowed Ds Ns o (_sender c) ->
  TCPSender.segments_out (_sender c) `prefix_of`
    match TCPSender.step o (_sender c) with Ok s => TCPSender.segments_out s | Throw _ => [] end ->
  exists s, TCPSender.step o (_sender c) = Ok s /\ wf (set_sender s c).
Proof.
  intros [Hs Hi Hq Hr Ho] Ha [k Hk].
  destruct (TCPSender.step_spec Ds Ns o (_sender c) Hs Ha) as (s & E & Hw & Hisn & Hem).
  rewrite E in *. exists s. split; [done|]. split; cbn; try done; [congruence|].
  unfold TCPSender.emitted in Hem. unfold TCPSender.segments_out in *. rewrite Hk in *.
  rewrite drop_app_length in Hem. rewrite Hi in Hem. by apply Forall_app.
Qed.

Lemma wf_fill c : wf c -> exists c', on_sender TCPSender.fill_window c = Ok c' /\ wf c' /\
  syn_sent c' = true /\ _receiver c' = _receiver c /\ active c' = active c /\
  _segments_out c' = _segments_out c /\
  ByteStream.error (stream_in c') = ByteStream.error (stream_in c) /\
  (syn_sent c = false -> TCPSender.segments_out (_sender c') <> []).
Proof.
  intros Hw. destruct (TCPSender.fill_window_spec Ds Ns (_sender c)) as (new & s & E & _ & Hg & Hst);
    [apply Hw|].
  destruct (wf_sender_step TCPSender.Fill c Hw I) as (s' & E' & Hw').
  { cbn. rewrite E. destruct Hg. eexists. exact gr_out. }
  cbn in E'. rewrite E in E'. injection E' as <-.
  exists (set_sender s c). unfold on_sender. rewrite E. split_and!; try done.
  - apply Z.ltb_lt. apply Hst.
  - destruct Hg. unfold stream_in, TCPSender.stream_in, ByteStream.error. done.
  - unfold syn_sent, TCPSender.next_seqno_absolute. intros Hn Hq. zb. destruct Hg, Hst as [Hst _].
    unfold TCPSender.segments_out in Hq. cbn in Hq. rewrite gr_out in Hq.
    apply app_eq_nil in Hq as [_ Hq]. apply fmap_nil_inv in Hq. subst new. cbn in gr_chain. lia.
Qed.

Lemma wf_set_error_sender c : wf c ->
  wf (set_sender (TCPSender.set_stream (ByteStream.set_error (stream_in c)) (_sender c)) c).
Proof.
  intros [Hs Hi Hq Hr Ho]. split; cbn; try done. pose proof Hs as [].
  unfold stream_in, TCPSender.stream_in.
  apply TCPSender.wf_set_stream; try done; [by apply ByteStream.set_error_wf|cbn; lia|cbn; lia].
Qed.

Lemma wf_set_error_receiver r : TCPReceiver.wf Dr Nr cap Ir r ->
  TCPReceiver.wf Dr Nr cap Ir
    (TCPReceiver.set_stream_out (ByteStream.set_error (TCPReceiver.stream_out r)) r).
Proof.
  intros [[[] Hes] Hc Hisn]. split; [|done..]. split; [|done]. split; try done.
  by apply ByteStream.set_error_wf.
Qed.

Lemma wf_reset c : wf c -> wf (reset c).
Proof.
  intros Hw. apply wf_set_error_sender in Hw as [Hs Hi Hq Hr Ho].
  split; cbn; try done. by apply wf_set_error_receiver.
Qed.

Lemma wf_try_closing c : wf c -> wf (try_closing_connection c).
Proof.
  intros Hw. unfold try_closing_connection. destruct (active c) eqn:Ha; [|done]. cbn [negb].
  apply (wf_send_segments false) in Hw. destruct (_ && _ && _); [|done].
  destruct Hw. by split.
Qed.

Lemma wf_send_empty c : wf c -> wf (set_sender (TCPSender.send_empty_segment (_sender c)) c).
Proof.
  intros Hw. destruct (wf_sender_step TCPSender.SendEmpty c Hw I) as (s & [= <-] & Hw'); [|done].
  eexists. reflexivity.
Qed.

Lemma wf_abort c : wf c -> wf (abort c).
Proof.
  intros Hw. apply wf_reset, wf_send_segments.
  destruct (TCPSender.segments_out (_sender c)); [by apply wf_send_empty|done].
Qed.

Lemma wf_connect c : wf c -> exists c', connect c = Ok c' /\ wf c'.
Proof.
  intros Hw. destruct (wf_fill c Hw) as (c1 & E & Hw1 & _). unfold connect. rewrite E.
  eexists. split; [done|]. by apply wf_send_segments.
Qed.

Lemma wf_ack c ackno win : wf c -> 0 <= win < two16 ->
  exists c', on_sender (TCPSender.ack_received ackno win) c = Ok c' /\ wf c' /\
    _receiver c' = _receiver c /\ active c' = active c /\ _segments_out c' = _segments_out c /\
    ByteStream.error (stream_in c') = ByteStream.error (stream_in c) /\
    (syn_sent c = true -> syn_sent c' = true).
Proof.
  intros Hw Hwin.
  pose proof (TCPSender.ack_received_spec Ds Ns (_sender c) ackno win (wf_sender c Hw) Hwin) as Hspec.
  cbv zeta in Hspec.
  destruct (wf_sender_step (TCPSender.Ack ackno win) c Hw Hwin) as (s & E & Hw').
  { cbn [TCPSender.step]. case_match.
    - destruct Hspec as (dr & rest & s0 & new & s' & _ & _ & _ & _ & _ & _ & _ & _ & _ & Hq & _ & _ & _ &
        -> & -> & _ & [] & _). unfold TCPSender.segments_out. rewrite gr_out, Hq. by eexists.
    - destruct Hspec as (s' & -> & _ & Hq & _). unfold TCPSender.segments_out. rewrite Hq. done. }
  exists (set_sender s c). unfold on_sender. cbn [TCPSender.step] in E. rewrite E. split_and!; try done.
  - unfold stream_in, TCPSender.stream_in, ByteStream.error. cbn. case_match.
    + destruct Hspec as (dr & rest & s0 & new & s' & _ & _ & _ & _ & _ & _ & _ & _ & _ & _ & Hst & _ & _ &
        E1 & E2 & _ & [] & _). rewrite E1, E2 in E. injection E as <-. congruence.
    + destruct Hspec as (s' & E1 & Hspec). rewrite E1 in E. injection E as <-.
      destruct Hspec as (_ & _ & _ & _ & _ & _ & _ & _ & Hst & _). congruence.
  - unfold syn_sent, TCPSender.next_seqno_absolute. cbn. intros Hs. zb. apply Z.ltb_lt. case_match.
    + destruct Hspec as (dr & rest & s0 & new & s' & _ & _ & _ & _ & _ & _ & _ & Hn & _ & _ & _ & _ & _ &
        E1 & E2 & _ & [] & _). rewrite E1, E2 in E. injection E as <-.
      apply TCPSender.chain_le in gr_chain. lia.
    + destruct Hspec as (s' & E1 & Hspec). rewrite E1 in E. injection E as <-.
      destruct Hspec as (_ & _ & _ & _ & _ & Hn & _). lia.
Qed.

(** What may happen to the connection: the local writer follows its stream, and
    segments come from the peer's stream (or arrive before any SYN). *)
Definition allowed (o : op) (c : t) : Prop :=
  match o with
  | Write data => ByteStream.input_ended (stream_in c) || negb (syn_sent c) = true \/
      TCPSender.allowed Ds Ns (TCPSender.Write data) (_sender c)
  | EndInputStream => TCPSender.allowed Ds Ns TCPSender.EndInput (_sender c)
  | SegmentReceived seg =>
      0 <= TCPHeader.win (TCPSegment.header seg) < two16 /\
      (TCPReceiver.syn_received (_receiver c) = false /\
         TCPHeader.syn (TCPSegment.header seg) = false \/
       (TCPReceiver.syn_received (_receiver c) = true \/
          TCPHeader.syn (TCPSegment.header seg) = true) /\
       exists i, TCPReceiver.legal Dr Nr Ir (_receiver c) seg i)
  | ReadInbound n => 0 <= n
  | _ => True
  end.

Context (HIr : WrappingInt32.wf Ir) (Hcap : 0 < cap).

Lemma receiver_step c seg : wf c -> allowed (SegmentReceived seg) c ->
  exists r, TCPReceiver.segment_received seg (_receiver c) = Ok r /\ TCPReceiver.wf Dr Nr cap Ir r.
Proof.
  intros [_ _ _ Hr _] [_ [[Hs Hh]|[Hs [i Hl]]]].
  - exists (_receiver c). by rewrite TCPReceiver.segment_received_early.
  - destruct (TCPReceiver.receiver_segment_received_spec Dr Nr cap Ir HIr (_receiver c) seg i Hr Hl Hs)
      as (r & E & Hw & _). by exists r.
Qed.
End Invariant.

Section Steps.
Context (Ds : Z -> byte) (Ns : Z) (Is : WrappingInt32.t).
Context (Dr : Z -> byte) (Nr cap : Z) (Ir : WrappingInt32.t).
Context (HIr : WrappingInt32.wf Ir) (Hcap : 0 < cap).

#[local] Abbreviation wf := (wf Ds Ns Is Dr Nr cap Ir).
#[local] Abbreviation allowed := (allowed Ds Ns Dr Nr Ir).

Lemma wf_switch c : wf c -> wf (try_switching_close_mode c).
Proof.
  intros Hw. unfold try_switching_close_mode. destruct (_ && _); [|done]. destruct Hw. by split.
Qed.

(** What the steps of [segment_received] keep: [c'] is [c] later in the same call,
    and has sent [new] in between. *)
Record later (c : t) (new : list TCPSegment.t) (c' : t) : Prop := {
  lt_wf : wf c';
  lt_active : active c' = active c;
  lt_receiver : _receiver c' = _receiver c;
  lt_error : ByteStream.error (stream_in c') = ByteStream.error (stream_in c);
  lt_out : _segments_out c' = _segments_out c ++ new;
  lt_stamped : exists q, new = stamp (_receiver c) false <$> q
}.

Lemma later_refl c : wf c -> later c [] c.
Proof. intros Hw. split; try done; [by rewrite app_nil_r|by exists []]. Qed.

Lemma later_send c c' : later c [] c' ->
  exists new, later c new (send_segments false c') /\
    (active c = true -> TCPSender.segments_out (_sender c') <> [] -> new <> []).
Proof.
  intros [Hw Ha Hr He Ho _]. destruct (active c') eqn:E.
  - exists (stamp (_receiver c') false <$> TCPSender.segments_out (_sender c')).
    pose proof (wf_send_segments _ _ _ _ _ _ _ false c' Hw) as Hw'.
    rewrite send_segments_spec in Hw' |- * by done.
    split; [split|].
    + exact Hw'.
    + change (active c' = active c). congruence.
    + exact Hr.
    + exact He.
    + cbn. by rewrite Ho, app_nil_r.
    + rewrite Hr. by eexists.
    + intros _ Hq Hn. by apply fmap_nil_inv in Hn.
  - exists []. rewrite send_segments_dead by done. split; [|congruence].
    split; try done; [congruence|by exists []].
Qed.

Lemma later_switch c new c' : later c new c' -> later c new (try_switching_close_mode c').
Proof.
  intros []. pose proof (wf_switch c' lt_wf0) as Hw. revert Hw.
  unfold try_switching_close_mode. destruct (_ && _); intros Hw; by split.
Qed.

(** The replies: what [segment_received] does after the receiver and the
    acknowledgment have been dealt with. *)
Lemma reply_spec seg c : wf c ->
  exists c' new,
    (c ← (if TCPHeader.syn (TCPSegment.header seg) && negb (syn_sent (reply seg c))
          then connect (reply seg c) else Ok (reply seg c));
     Ok (try_switching_close_mode c)) = Ok c' /\
    later c new c' /\
    (active c = true -> 0 < TCPSegment.length_in_sequence_space seg ->
     syn_sent c || TCPHeader.syn (TCPSegment.header seg) = true -> new <> []).
Proof.
  intros Hw. unfold reply. destruct (syn_sent c) eqn:Es.
  - set (c1 := if _ && _ then _ else c).
    assert (H1 : later c [] c1 /\ (0 < TCPSegment.length_in_sequence_space seg ->
      TCPSender.segments_out (_sender c1) <> []) /\ syn_sent c1 = true).
    { unfold c1. destruct (0 <? TCPSegment.length_in_sequence_space seg) eqn:El; zb.
      - destruct (TCPSender.segments_out (_sender c)) eqn:Eq; cbn [andb].
        + split_and!; [|intros _; cbn; by destruct (TCPSender._segments_out _)|done].
          split; try done; [by apply wf_send_empty|cbn; by rewrite app_nil_r|by exists []].
        + rewrite Eq. split_and!; [by apply later_refl|done|done].
      - cbn [andb]. split_and!; [by apply later_refl|lia|done]. }
    clearbody c1. destruct H1 as (Hl & Hq & Hs1).
    destruct (later_send c c1 Hl) as (new & Hl' & Hn).
    assert (Hss : syn_sent (send_segments false c1) = true).
    { unfold send_segments. by destruct (active c1). }
    rewrite Hss, andb_false_r. cbn [mbind res_bind]. eexists _, new. split; [done|].
    split; [by apply later_switch|]. intros Ha Hlen _. auto.
  - rewrite Es. cbn [negb orb]. rewrite andb_true_r.
    destruct (TCPHeader.syn (TCPSegment.header seg)).
    + destruct (wf_fill Ds Ns Is Dr Nr cap Ir c Hw) as (c1 & E & Hw1 & _ & Hr & Ha & Ho & He & Hq).
      assert (Hl : later c [] c1) by (split; try done; [by rewrite app_nil_r|by exists []]).
      destruct (later_send c c1 Hl) as (new & Hl' & Hn).
      unfold connect. rewrite E. cbn [mbind res_bind]. eexists _, new. split; [done|].
      split; [by apply later_switch|]. intros Hact _ _. auto.
    + cbn [mbind res_bind]. eexists _, []. split; [done|]. split; [by apply later_switch, later_refl|done].
Qed.

(** The whole call. *)
Lemma connection_segment_received_spec c seg : wf c -> allowed (SegmentReceived seg) c ->
  exists c', segment_received seg c = Ok c' /\ wf c' /\
    (TCPHeader.rst (TCPSegment.header seg) = true ->
       active c' = false /\ ByteStream.error (stream_in c') = true /\
       ByteStream.error (inbound_stream c') = true) /\
    (TCPHeader.rst (TCPSegment.header seg) = false -> active c = true ->
       exists q, _segments_out c' = _segments_out c ++ (stamp (_receiver c') false <$> q) /\
         (0 < TCPSegment.length_in_sequence_space seg ->
          syn_sent c || TCPHeader.syn (TCPSegment.header seg) = true -> q <> [])).
Proof.
  intros Hw Ha. destruct (receiver_step Ds Ns Is Dr Nr cap Ir HIr c seg Hw Ha) as (r & Er & Hr).
  unfold segment_received. rewrite Er. cbn [mbind res_bind].
  set (c0 := set_timer 0 (set_receiver r c)).
  assert (Hw0 : wf c0) by (destruct Hw; by split).
  set (c1 := if TCPHeader.rst _ then _ else _).
  assert (Hw1 : wf c1) by (unfold c1; destruct (TCPHeader.rst _); [by apply wf_reset|done]).
  assert (H2 : exists c2, (if TCPHeader.ack (TCPSegment.header seg)
    then on_sender (TCPSender.ack_received (TCPHeader.ackno (TCPSegment.header seg))
           (TCPHeader.win (TCPSegment.header seg))) c1 else Ok c1) = Ok c2 /\ wf c2 /\
    _receiver c2 = _receiver c1 /\ active c2 = active c1 /\ _segments_out c2 = _segments_out c1 /\
    ByteStream.error (stream_in c2) = ByteStream.error (stream_in c1) /\
    (syn_sent c1 = true -> syn_sent c2 = true)).
  { destruct (TCPHeader.ack _); [|by exists c1]. apply wf_ack; [done|apply Ha]. }
  destruct H2 as (c2 & -> & Hw2 & Hr2 & Ha2 & Ho2 & He2 & Hs2). cbn [mbind res_bind].
  destruct (reply_spec seg c2 Hw2) as (c' & new & E & [Hw' Ha' Hr' He' Ho' (q & Hq)] & Hne).
  exists c'. split; [exact E|]. split; [done|]. unfold inbound_stream. rewrite Ha', Hr', He', Ho', Ha2, Hr2, He2, Ho2.
  unfold c1. split.
  - intros Hrst. rewrite Hrst. done.
  - intros Hrst Hact. rewrite Hrst in *. exists q. subst new. rewrite Hr2. unfold c1. rewrite Hrst.
    split; [done|]. intros Hlen Hsyn Hq.
    apply Hne; [by rewrite Ha2; unfold c1; rewrite Hrst|done| |by rewrite Hq].
    destruct (TCPHeader.syn _); [apply orb_true_r|]. rewrite orb_false_r in *. apply Hs2.
    unfold c1. rewrite Hrst. done.
Qed.

Lemma segment_received_wf c seg : wf c -> allowed (SegmentReceived seg) c ->
  exists c', segment_received seg c = Ok c' /\ wf c'.
Proof. intros Hw Ha. destruct (connection_segment_received_spec c seg Hw Ha) as (c' & E & Hw' & _). by exists c'. Qed.

Lemma connection_tick_wf c ms : wf c -> wf (tick ms c).
Proof.
  intros Hw. unfold tick. destruct (active c); [|done]. cbn [negb]. apply wf_try_closing.
  assert (Hw1 : wf (set_sender (TCPSender.tick ms (_sender c)) c)).
  { destruct (wf_sender_step Ds Ns Is Dr Nr cap Ir (TCPSender.Tick ms) c Hw I) as (s & [= <-] & Hw1); [|done].
    cbn [TCPSender.step]. unfold TCPSender.tick, TCPSender.segments_out.
    destruct (Timer.expired _); [|done].
    destruct (TCPSender._outstanding_segments (_sender c)); [done|].
    destruct (0 <? _); by eexists. }
  set (c1 := set_timer _ _). assert (Hw2 : wf c1) by (destruct Hw1; by split).
  destruct (_ <? _); [by apply wf_abort|by apply wf_send_segments].
Qed.

Lemma write_wf c data : wf c -> allowed (Write data) c ->
  exists n c', write data c = Ok (n, c') /\ wf c'.
Proof.
  intros Hw Ha. unfold write. cbn in Ha.
  destruct (ByteStream.input_ended (stream_in c) || negb (syn_sent c)); [by exists 0, c|].
  destruct Ha as [|Ha]; [done|].
  destruct (wf_sender_step Ds Ns Is Dr Nr cap Ir (TCPSender.Write data) c Hw Ha) as (s & <-%Ok_inj & Hw1);
    [by eexists [] ; rewrite app_nil_r|].
  unfold stream_in, TCPSender.stream_in. destruct (ByteStream.write _ _) as [n st]. cbn in Hw1.
  destruct (wf_fill Ds Ns Is Dr Nr cap Ir _ Hw1) as (c2 & -> & Hw2 & _). cbn [mbind res_bind].
  eexists _, _. split; [done|]. by apply wf_send_segments.
Qed.

Lemma connection_end_input_wf c : wf c -> allowed EndInputStream c ->
  exists c', end_input_stream c = Ok c' /\ wf c'.
Proof.
  intros Hw Ha. unfold end_input_stream.
  destruct (wf_sender_step Ds Ns Is Dr Nr cap Ir TCPSender.EndInput c Hw Ha) as (s & [= <-] & Hw1);
    [by eexists [] ; rewrite app_nil_r|].
  destruct (wf_fill Ds Ns Is Dr Nr cap Ir _ Hw1) as (c2 & E & Hw2 & _).
  unfold stream_in, TCPSender.stream_in. rewrite E. cbn [mbind res_bind].
  eexists. split; [done|]. by apply wf_try_closing.
Qed.

Lemma read_wf c n : wf c -> 0 <= n -> exists c', step (ReadInbound n) c = Ok c' /\ wf c'.
Proof.
  intros Hw Hn. pose proof Hw as [? ? ? [Hr Hc Hisn] ?]. cbn [step].
  unfold inbound_stream, TCPReceiver.stream_out, StreamReassembler.stream_out.
  pose proof Hr as [[] _].
  destruct (ByteStream.read_spec n (StreamReassembler._output (TCPReceiver._reassembler (_receiver c))))
    as (o & E & _); [done|lia|done|].
  destruct (StreamReassembler.wf_read Dr Nr n _ _ o Hr Hn E) as (Hr' & _).
  rewrite E. eexists. split; [done|]. split; cbn; done.
Qed.

Lemma connection_step_wf o c : wf c -> allowed o c -> exists c', step o c = Ok c' /\ wf c'.
Proof.
  intros Hw Ha. destruct o as [|data| |seg|ms|n]; cbn [step].
  - by apply wf_connect.
  - destruct (write_wf c data Hw Ha) as (n & c' & -> & Hw'). by exists c'.
  - by apply connection_end_input_wf.
  - by apply segment_received_wf.
  - eexists. split; [done|]. by apply connection_tick_wf.
  - by apply read_wf.
Qed.

Lemma connection_make_isn_wf cfg random :
  0 <= Ns < 2 ^ 62 -> 0 <= Nr < two63 -> cap < two63 ->
  TCPConfig.recv_capacity cfg = cap -> 0 < TCPConfig.send_capacity cfg < two63 ->
  match TCPConfig.fixed_isn cfg with Some i => i | None => WrappingInt32.make random end = Is ->
  WrappingInt32.wf Is -> wf (make cfg random).
Proof.
  intros HNs HNr Hc Hrc Hsc Hfi HIs. split; cbn; [|done|constructor| |constructor].
  - apply TCPSender.sender_make_wf; [done|done|]. intros i Hi. rewrite Hi in Hfi. by subst.
  - rewrite Hrc. apply TCPReceiver.receiver_make_wf; lia.
Qed.

Lemma connection_make_wf cfg random :
  0 <= Ns < 2 ^ 62 -> 0 <= Nr < two63 -> cap < two63 ->
  TCPConfig.recv_capacity cfg = cap -> 0 < TCPConfig.send_capacity cfg < two63 ->
  TCPConfig.fixed_isn cfg = Some Is -> WrappingInt32.wf Is ->
  wf (make cfg random).
Proof. intros ? ? ? ? ? Hfi ?. apply connection_make_isn_wf; try done. by rewrite Hfi. Qed.
End Steps.

(** A sequence of operations. *)
Fixpoint exec (os : list op) (c : t) : res t :=
  match os with
  | [] => Ok c
  | o :: os' => c' ← step o c; exec os' c'
  end.

(** Every operation of the sequence is allowed when it is performed. *)
Fixpoint all_allowed (Ds : Z -> byte) (Ns : Z) (Dr : Z -> byte) (Nr : Z) (Ir : WrappingInt32.t)
  (os : list op) (c : t) : Prop :=
  match os with
  | [] => True
  | o :: os' => allowed Ds Ns Dr Nr Ir o c /\
      forall c', step o c = Ok c' -> all_allowed Ds Ns Dr Nr Ir os' c'
  end.

Lemma connection_exec_wf Ds Ns Is Dr Nr cap Ir os : WrappingInt32.wf Ir -> 0 < cap -> forall c,
  wf Ds Ns Is Dr Nr cap Ir c -> all_allowed Ds Ns Dr Nr Ir os c ->
  exists c', exec os c = Ok c' /\ wf Ds Ns Is Dr Nr cap Ir c'.
Proof.
  intros HIr Hcap. induction os as [|o os IH]; intros c Hw Ha; [by exists c|].
  destruct Ha as [Ha Hos]. cbn [exec].
  destruct (connection_step_wf Ds Ns Is Dr Nr cap Ir HIr Hcap o c Hw Ha) as (c1 & E & Hw1). rewrite E.
  cbn [mbind res_bind]. by apply IH; [|apply Hos].
Qed.

(** ** Theorems *)

(** C7: a connection whose writer follows one stream and whose peer sends another
    never throws, whatever the order of the operations and whatever the
    acknowledgments; its receiver stays a receiver of the peer's stream, and every
    segment it puts on the network carries a piece of its own stream in its place
    (or nothing). *)
Theorem connection_safe (Ds Dr : Z -> byte) (Ns Nr random : Z) (Is Ir : WrappingInt32.t)
  (cfg : TCPConfig.t) (os : list op)
  (HNs : 0 <= Ns < 2 ^ 62) (HNr : 0 <= Nr < two63)
  (Hrecv : 0 < TCPConfig.recv_capacity cfg < two63) (Hsend : 0 < TCPConfig.send_capacity cfg < two63)
  (Hisn : TCPConfig.fixed_isn cfg = Some Is) (HIs : WrappingInt32.wf Is) (HIr : WrappingInt32.wf Ir)
  (Hos : all_allowed Ds Ns Dr Nr Ir os (make cfg random)) :
  exists c, exec os (make cfg random) = Ok c /\
    TCPSender.wf Ds Ns (_sender c) /\
    TCPReceiver.wf Dr Nr (TCPConfig.recv_capacity cfg) Ir (_receiver c) /\
    Forall (outgoing Ds Ns Is) (_segments_out c).
Proof.
  destruct (connection_exec_wf Ds Ns Is Dr Nr (TCPConfig.recv_capacity cfg) Ir os HIr ltac:(lia) (make cfg random))
    as (c & E & []); [|done|by exists c].
  apply connection_make_wf; done || lia.
Qed.

(** The letters [a], and a configuration with a fixed ISN. *)
Definition demo_cfg : TCPConfig.t := TCPConfig.mk 1000 100 100 (Some (WrappingInt32.make 5)).

Lemma connection_safe_witness :
  exists c, exec [Connect; Tick 10; Tick 2000] (make demo_cfg 0) = Ok c /\
    Forall (outgoing TCPSender.letter_a 3 (WrappingInt32.make 5)) (_segments_out c).
Proof.
  destruct (connection_safe TCPSender.letter_a TCPSender.letter_a 3 3 0 (WrappingInt32.make 5)
    (WrappingInt32.make 9) demo_cfg [Connect; Tick 10; Tick 2000]) as (c & E & _ & _ & Ho);
    try (cbn; lia); try apply WrappingInt32.wrapping_make_wf; try reflexivity.
  - repeat split.
  - exists c. split; [exact E|exact Ho].
Defined.

(** Once a connection is over it stays over and sends nothing more, whatever
    is done to it. *)
Theorem dead_stays_silent (os : list op) (c c' : t)
  (Hdead : active c = false) (Hexec : exec os c = Ok c') :
  active c' = false /\ _segments_out c' = _segments_out c.
Proof.
  assert (Hd : dead (_segments_out c) c) by done. revert Hd Hexec. generalize (_segments_out c).
  clear Hdead. revert c. induction os as [|o os IH]; intros c q Hd Hexec; cbn [exec] in Hexec.
  - injection Hexec as <-. done.
  - apply bind_Ok in Hexec as (c1 & H1 & H2). eapply IH; [|done]. by eapply dead_step.
Qed.

Lemma dead_stays_silent_witness :
  exists c', exec [Connect; Tick 5000] (reset (make demo_cfg 0)) = Ok c' /\ _segments_out c' = [].
Proof.
  assert (E : exists c', exec [Connect; Tick 5000] (reset (make demo_cfg 0)) = Ok c')
    by (eexists; vm_compute; reflexivity).
  destruct E as [c' E]. exists c'. split; [exact E|].
  apply (dead_stays_silent [Connect; Tick 5000] (reset (make demo_cfg 0)) c'); [reflexivity|exact E].
Defined.

(** ** What a tick does *)

Lemma sender_tick_same ms s :
  TCPSender._stream (TCPSender.tick ms s) = TCPSender._stream s /\
  TCPSender._next_seqno (TCPSender.tick ms s) = TCPSender._next_seqno s /\
  TCPSender._abs_ackno (TCPSender.tick ms s) = TCPSender._abs_ackno s.
Proof.
  unfold TCPSender.tick. destruct (Timer.expired _); [|done].
  destruct (TCPSender._outstanding_segments s); [done|]. by destruct (0 <? _).
Qed.

(** What has to go out, in one segment at least. *)
Definition pending (s : TCPSender.t) : list TCPSegment.t :=
  match TCPSender.segments_out s with
  | [] => [TCPSegment.mk (TCPSender.header (TCPSender.next_seqno s) false false) Buffer.nil]
  | q => q
  end.

Lemma abort_spec c : active c = true ->
  active (abort c) = false /\ ByteStream.error (stream_in (abort c)) = true /\
  ByteStream.error (inbound_stream (abort c)) = true /\
  _segments_out (abort c) = _segments_out c ++ (stamp (_receiver c) true <$> pending (_sender c)).
Proof.
  intros Ha. split; [done|]. split; [done|]. split; [done|]. unfold abort. cbn [reset _segments_out].
  set (c1 := match TCPSender.segments_out (_sender c) with [] => _ | _ => c end).
  assert (H1 : active c1 = true /\ _segments_out c1 = _segments_out c /\ _receiver c1 = _receiver c /\
    TCPSender.segments_out (_sender c1) = pending (_sender c)).
  { unfold c1, pending. destruct (TCPSender.segments_out (_sender c)) eqn:E; [|done].
    split; [done|]. split; [done|]. split; [done|]. cbn. unfold TCPSender.segments_out in E. by rewrite E. }
  destruct H1 as (Ha1 & Hq & Hr & Hp). change (_segments_out (reset ?x)) with (_segments_out x).
  rewrite send_segments_spec by done. cbn. by rewrite Hq, Hr, Hp.
Qed.

Lemma tick_spec (ms : Z) (c : t) : active c = true ->
  let s := TCPSender.tick ms (_sender c) in
  let idle := _last_segm_recv_timer c ⊞ ms in
  if TCPConfig.MAX_RETX_ATTEMPTS <? TCPSender.consecutive_retransmissions s then
    active (tick ms c) = false /\
    ByteStream.error (stream_in (tick ms c)) = true /\
    ByteStream.error (inbound_stream (tick ms c)) = true /\
    _segments_out (tick ms c) = _segments_out c ++ (stamp (_receiver c) true <$> pending s)
  else
    active (tick ms c) =
      negb ((negb (_linger_after_streams_finish c) || (10 * TCPConfig.rt_timeout (_cfg c) <=? idle)) &&
            istream_done c && ostream_done c) /\
    ByteStream.error (stream_in (tick ms c)) = ByteStream.error (stream_in c) /\
    ByteStream.error (inbound_stream (tick ms c)) = ByteStream.error (inbound_stream c) /\
    _segments_out (tick ms c) =
      _segments_out c ++ (stamp (_receiver c) false <$> TCPSender.segments_out s) /\
    _receiver (tick ms c) = _receiver c /\
    TCPSender._stream (_sender (tick ms c)) = TCPSender._stream (_sender c) /\
    TCPSender._next_seqno (_sender (tick ms c)) = TCPSender._next_seqno (_sender c) /\
    TCPSender._abs_ackno (_sender (tick ms c)) = TCPSender._abs_ackno (_sender c).
Proof.
  intros Ha. cbv zeta. unfold tick. rewrite Ha. cbn [negb].
  set (c1 := set_timer _ _).
  change (TCPSender.consecutive_retransmissions (_sender c1)) with
    (TCPSender.consecutive_retransmissions (TCPSender.tick ms (_sender c))).
  assert (Ha1 : active c1 = true) by done.
  destruct (_ <? _).
  - unfold try_closing_connection. change (active (abort c1)) with false. cbn [negb].
    exact (abort_spec c1 Ha1).
  - rewrite send_segments_spec by done. unfold try_closing_connection.
    set (c2 := set_segments_out _ _).
    change (active c2) with (active c). rewrite Ha. cbn [negb].
    rewrite send_segments_spec by done. set (c3 := set_segments_out _ (set_sender _ c2)).
    assert (Hout : _segments_out c3 = _segments_out c ++
      (stamp (_receiver c) false <$> TCPSender.segments_out (TCPSender.tick ms (_sender c))))
      by (cbn; by rewrite app_nil_r).
    destruct (sender_tick_same ms (_sender c)) as (Hst & Hnx & Hack).
    assert (Ho : ostream_done c3 = ostream_done c).
    { unfold ostream_done, stream_in, TCPSender.stream_in, TCPSender.next_seqno_absolute,
        TCPSender.bytes_in_flight. cbn. by rewrite Hst, Hnx, Hack. }
    assert (Hc : active_close c3 || passive_close c3 =
      (negb (_linger_after_streams_finish c) ||
       (10 * TCPConfig.rt_timeout (_cfg c) <=? _last_segm_recv_timer c ⊞ ms))).
    { unfold active_close, passive_close. cbn [c3 c2 c1 set_segments_out set_sender set_timer
        _linger_after_streams_finish _cfg _last_segm_recv_timer].
      destruct (_linger_after_streams_finish c); cbn; [by rewrite orb_false_r|done]. }
    rewrite Ho, Hc. change (istream_done c3) with (istream_done c).
    assert (He : ByteStream.error (stream_in c3) = ByteStream.error (stream_in c)).
    { unfold stream_in, TCPSender.stream_in. cbn. by rewrite Hst. }
    destruct (_ && _ && _); cbn [negb]; split_and!; done.
Qed.

(** *** When a connection may end *)

(** [seg] takes [g] to the network: its data and its place in the stream, the flag RST
    if asked for, and the acknowledgment and the window of the receiver [r], if there is
    something to acknowledge. *)
Record announces (r : TCPReceiver.t) (rst : bool) (g seg : TCPSegment.t) : Prop := {
  an_carries : carries seg g;
  an_rst : TCPHeader.rst (TCPSegment.header seg) = rst || TCPHeader.rst (TCPSegment.header g);
  an_ack : forall a, TCPReceiver.ackno r = Some a ->
    TCPHeader.ack (TCPSegment.header seg) = true /\ TCPHeader.ackno (TCPSegment.header seg) = a /\
    TCPHeader.win (TCPSegment.header seg) = u16 (TCPReceiver.window_size r)
}.

Lemma stamped_announces r rst gs : Forall2 (announces r rst) gs (stamp r rst <$> gs).
Proof.
  induction gs as [|g gs IH]; constructor; [|exact IH].
  split; [apply stamp_carries| |]; unfold stamp; [by destruct (TCPReceiver.ackno r), rst|].
  intros a ->. by destruct rst.
Qed.

Section Closing.
Context (Ds Dr : Z -> byte) (Ns Nr cap : Z) (Is Ir : WrappingInt32.t).

(** The inbound stream is done when its end is there, after all of its bytes. *)
Lemma istream_done_iff c : wf Ds Ns Is Dr Nr cap Ir c ->
  istream_done c = true <->
  ByteStream.input_ended (inbound_stream c) = true /\ ByteStream.bytes_written (inbound_stream c) = Nr.
Proof.
  intros [_ _ _ [[Hc He] _ _] _]. unfold istream_done. rewrite andb_true_iff, Z.eqb_eq. split.
  - intros [Hi _]. split; [done|]. apply He in Hi as [_ Hf]. rewrite <- Hf. apply Hc.
  - intros [Hi _]. split; [done|]. apply He in Hi as [_ Hf]. by eapply StreamReassembler.all_assembled.
Qed.

(** The outbound stream is done when the peer has acknowledged the SYN, the bytes and
    the FIN. *)
Lemma ostream_done_iff c : wf Ds Ns Is Dr Nr cap Ir c ->
  ostream_done c = true <-> TCPSender._abs_ackno (_sender c) = Ns + 2.
Proof.
  intros [Hs _ _ _ _]. pose proof (TCPSender.wf_next_range _ _ _ Hs) as Hnr.
  pose proof Hs as [_ Hst _ HN Hwr _ Hend Hcut Hk _ _]. pose proof (ByteStream.wf_size _ Hst).
  unfold ostream_done, stream_in, TCPSender.stream_in, ByteStream.bytes_written, TCPSender.next_seqno_absolute,
    TCPSender.bytes_in_flight. rewrite !andb_true_iff, !Z.eqb_eq. split.
  - intros [[Heof Hn] Hfl]. apply andb_true_iff in Heof as [Hended _].
    rewrite Hend, u64_small in Hn by done || lia. rewrite u64_small in Hfl by lia. lia.
  - intros Ha. destruct Hcut as [?|[?|[? Heof]]]; [lia|lia|]. rewrite !u64_small by lia.
    split; [|lia]. split; [done|]. lia.
Qed.

End Closing.

(** C25: what a tick does to an active connection, in any state of its invariant [wf],
    which all operations preserve.  After more than eight retransmissions in a row every
    segment that the sender has queued (an empty one if there is none) goes out with the
    flag RST, both streams fail and the connection ends.  Otherwise the queued segments
    go out as they are, and the connection ends exactly when all of the inbound stream
    and its end have arrived, the peer has acknowledged the SYN, every byte and the FIN
    of the outbound one, and the connection need not linger or has heard nothing for ten
    timeouts.  In both cases each segment carries the acknowledgment and the window of
    the receiver. *)
Theorem tick_outcome (Ds Dr : Z -> byte) (Ns Nr cap ms : Z) (Is Ir : WrappingInt32.t) (c : t)
  (Hwf : wf Ds Ns Is Dr Nr cap Ir c) (Ha : active c = true) :
  let s := TCPSender.tick ms (_sender c) in
  let idle := _last_segm_recv_timer c ⊞ ms in
  exists new, _segments_out (tick ms c) = _segments_out c ++ new /\
    if 8 <? TCPSender.consecutive_retransmissions s then
      active (tick ms c) = false /\
      ByteStream.error (stream_in (tick ms c)) = true /\
      ByteStream.error (inbound_stream (tick ms c)) = true /\
      Forall2 (announces (_receiver c) true) (pending s) new
    else
      Forall2 (announces (_receiver c) false) (TCPSender.segments_out s) new /\
      ByteStream.error (stream_in (tick ms c)) = ByteStream.error (stream_in c) /\
      ByteStream.error (inbound_stream (tick ms c)) = ByteStream.error (inbound_stream c) /\
      (active (tick ms c) = false <->
        (ByteStream.input_ended (inbound_stream c) = true /\ ByteStream.bytes_written (inbound_stream c) = Nr) /\
        TCPSender._abs_ackno (_sender c) = Ns + 2 /\
        (_linger_after_streams_finish c = false \/ 10 * TCPConfig.rt_timeout (_cfg c) <= idle)).
Proof.
  cbv zeta. pose proof (tick_spec ms c Ha) as H. cbv zeta in H. change TCPConfig.MAX_RETX_ATTEMPTS with 8 in H.
  destruct (_ <? _).
  - destruct H as (? & ? & ? & Hout). eexists. split; [exact Hout|]. split_and!; try done. apply stamped_announces.
  - destruct H as (Hact & ? & ? & Hout & _). eexists. split; [exact Hout|]. split; [apply stamped_announces|].
    split; [done|]. split; [done|]. rewrite Hact, negb_false_iff, !andb_true_iff, orb_true_iff, negb_true_iff, Z.leb_le.
    rewrite (istream_done_iff _ _ _ _ _ _ _ c Hwf), (ostream_done_iff _ _ _ _ _ _ _ c Hwf). tauto.
Qed.

Lemma tick_outcome_witness :
  exists c, connect (make demo_cfg 0) = Ok c /\ active (tick 20000 c) = true /\
    length (_segments_out (tick 20000 c)) = 2%nat.
Proof.
  destruct (wf_connect TCPSender.letter_a 3 (WrappingInt32.make 5) TCPSender.letter_a 3 100 (WrappingInt32.make 9)
    (make demo_cfg 0)) as (c & E & Hw).
  { apply connection_make_wf; try apply WrappingInt32.wrapping_make_wf; try reflexivity; cbn; lia. }
  exists c. split; [exact E|].
  destruct (tick_outcome TCPSender.letter_a TCPSender.letter_a 3 3 100 20000 (WrappingInt32.make 5)
    (WrappingInt32.make 9) c Hw) as (new & Hn & Hrest); [clear Hw; vm_compute in E; injection E as <-; reflexivity|].
  replace (_ <? _) with false in Hrest by (clear Hw Hn; vm_compute in E; injection E as <-; vm_compute; reflexivity).
  destruct Hrest as (Hlen%Forall2_length & _ & _ & Hiff). split.
  - destruct (active (tick 20000 c)); [reflexivity|]. destruct (proj1 Hiff eq_refl) as ([He _] & _).
    exfalso. clear Hw. vm_compute in E. injection E as <-. discriminate He.
  - rewrite Hn, length_app, <- Hlen. clear Hw Hn Hlen Hiff. vm_compute in E. injection E as <-. vm_compute. reflexivity.
Defined.



(** ** What the calls leave alone

    [keeps c c']: between [c] and [c'] nothing was written to the outbound stream,
    nothing was read from the inbound one, and a SYN stays sent. *)
Record keeps (c c' : t) : Prop := {
  kp_written : ByteStream.n_bytes_written (stream_in c') = ByteStream.n_bytes_written (stream_in c);
  kp_ended : ByteStream.done_writing (stream_in c') = ByteStream.done_writing (stream_in c);
  kp_syn : syn_sent c = true -> syn_sent c' = true;
  kp_read : ByteStream.n_bytes_read (inbound_stream c') = ByteStream.n_bytes_read (inbound_stream c)
}.

#[global] Instance keeps_preorder : PreOrder keeps.
Proof.
  split; [by split|]. intros a b c [H1 H2 H3 H4] [K1 K2 K3 K4].
  split; [congruence|congruence|by auto|congruence].
Qed.

Lemma keeps_send rst c : keeps c (send_segments rst c).
Proof. unfold send_segments. by destruct (active c). Qed.

Lemma keeps_reset c : keeps c (reset c).
Proof. by split. Qed.

Lemma keeps_try_closing c : keeps c (try_closing_connection c).
Proof.
  unfold try_closing_connection. destruct (active c); [cbn [negb]|done].
  transitivity (send_segments false c); [apply keeps_send|]. by destruct (_ && _ && _).
Qed.

Lemma keeps_switch c : keeps c (try_switching_close_mode c).
Proof. unfold try_switching_close_mode. by destruct (_ && _). Qed.

Lemma keeps_send_empty c : keeps c (set_sender (TCPSender.send_empty_segment (_sender c)) c).
Proof. by split. Qed.

Lemma keeps_abort c : keeps c (abort c).
Proof.
  unfold abort. set (c1 := match _ with [] => _ | _ => _ end).
  transitivity c1; [unfold c1; destruct (TCPSender.segments_out _); [apply keeps_send_empty|done]|].
  transitivity (send_segments true c1); [apply keeps_send|apply keeps_reset].
Qed.

Lemma keeps_tick ms c : keeps c (tick ms c).
Proof.
  unfold tick. destruct (active c); [cbn [negb]|done].
  destruct (sender_tick_same ms (_sender c)) as (Hst & Hn & _).
  set (c1 := set_timer _ _).
  transitivity c1.
  { split; unfold stream_in, TCPSender.stream_in, syn_sent, TCPSender.next_seqno_absolute; cbn;
      by rewrite ?Hst, ?Hn. }
  destruct (_ <? _); (etransitivity; [|apply keeps_try_closing]); [apply keeps_abort|apply keeps_send].
Qed.

Section Keeps.
Context (Ds : Z -> byte) (Ns : Z) (Is : WrappingInt32.t).
Context (Dr : Z -> byte) (Nr cap : Z) (Ir : WrappingInt32.t).
Context (HIr : WrappingInt32.wf Ir).
#[local] Abbreviation wf := (wf Ds Ns Is Dr Nr cap Ir).
#[local] Abbreviation allowed := (allowed Ds Ns Dr Nr Ir).

Lemma keeps_grows new s s' c : TCPSender.grows Ds Ns s new s' ->
  keeps (set_sender s c) (set_sender s' c).
Proof.
  intros []. split; unfold stream_in, TCPSender.stream_in, syn_sent, TCPSender.next_seqno_absolute; cbn; try done.
  intros Hs. zb. apply Z.ltb_lt. apply TCPSender.chain_le in gr_chain. lia.
Qed.

Lemma set_sender_id c : set_sender (_sender c) c = c.
Proof. by destruct c. Qed.

Lemma keeps_fill c c' : wf c -> on_sender TCPSender.fill_window c = Ok c' -> keeps c c'.
Proof.
  intros Hw. destruct (TCPSender.fill_window_spec Ds Ns (_sender c)) as (new & s & E & _ & Hg & _); [apply Hw|].
  unfold on_sender. rewrite E. intros [= <-]. apply (keeps_grows _ _ _ c) in Hg. by rewrite set_sender_id in Hg.
Qed.

Lemma keeps_ack c c' ackno win : wf c -> 0 <= win < two16 ->
  on_sender (TCPSender.ack_received ackno win) c = Ok c' -> keeps c c'.
Proof.
  intros Hw Hwin.
  pose proof (TCPSender.ack_received_spec Ds Ns (_sender c) ackno win (wf_sender _ _ _ _ _ _ _ c Hw) Hwin) as H.
  cbv zeta in H. unfold on_sender. case_match.
  - destruct H as (dr & rest & s0 & new & s' & _ & _ & _ & _ & _ & _ & _ & Hn & _ & _ & Hst & _ & _ &
      E1 & E2 & _ & Hg & _). rewrite E1, E2. intros [= <-].
    transitivity (set_sender s0 c); [|by eapply keeps_grows].
    split; unfold stream_in, TCPSender.stream_in, syn_sent, TCPSender.next_seqno_absolute; cbn;
      by rewrite ?Hst, ?Hn.
  - destruct H as (s' & -> & _ & _ & _ & _ & _ & Hn & _ & _ & Hst & _). intros [= <-].
    split; unfold stream_in, TCPSender.stream_in, syn_sent, TCPSender.next_seqno_absolute; cbn;
      by rewrite ?Hst, ?Hn.
Qed.

Lemma keeps_connect c c' : wf c -> connect c = Ok c' -> keeps c c'.
Proof.
  intros Hw (c1 & E & [= <-])%bind_Ok. transitivity c1; [by eapply keeps_fill|apply keeps_send].
Qed.

(** Receiving a segment consumes nothing. *)
Lemma receiver_keeps_read seg r r' : TCPReceiver.segment_received seg r = Ok r' ->
  ByteStream.n_bytes_read (TCPReceiver.stream_out r') = ByteStream.n_bytes_read (TCPReceiver.stream_out r).
Proof.
  unfold TCPReceiver.segment_received. set (r0 := if TCPHeader.syn _ then _ else r).
  assert (H0 : TCPReceiver._reassembler r0 = TCPReceiver._reassembler r) by (unfold r0; by destruct (TCPHeader.syn _)).
  destruct (negb _); [intros [= <-]; unfold TCPReceiver.stream_out; by rewrite H0|].
  intros (a & E & [= <-])%bind_Ok. apply StreamReassembler.push_keeps_read in E. by rewrite H0 in E.
Qed.

Lemma keeps_reply seg c : keeps c (reply seg c).
Proof.
  unfold reply. destruct (syn_sent c); [|done]. etransitivity; [|apply keeps_send].
  destruct (_ && _); [apply keeps_send_empty|done].
Qed.

Lemma wf_reply seg c : wf c -> wf (reply seg c).
Proof.
  intros Hw. unfold reply. destruct (syn_sent c); [|done]. apply wf_send_segments.
  destruct (_ && _); [by apply wf_send_empty|done].
Qed.

Lemma keeps_segment_received seg c c' : wf c -> allowed (SegmentReceived seg) c ->
  segment_received seg c = Ok c' -> keeps c c'.
Proof.
  intros Hw Ha E. destruct (receiver_step Ds Ns Is Dr Nr cap Ir HIr c seg Hw Ha) as (r & Er & Hr).
  unfold segment_received in E. rewrite Er in E. cbn [mbind res_bind] in E.
  apply bind_Ok in E as (c2 & E2 & E). apply bind_Ok in E as (c3 & E3 & [= <-]).
  set (c0 := set_timer 0 (set_receiver r c)) in *.
  set (c1 := if TCPHeader.rst _ then reset c0 else c0) in *.
  assert (K0 : keeps c c0) by (apply receiver_keeps_read in Er; by split).
  assert (K1 : keeps c0 c1) by (unfold c1; destruct (TCPHeader.rst _); [apply keeps_reset|done]).
  assert (Hw0 : wf c0) by (destruct Hw; by split).
  assert (Hw1 : wf c1) by (unfold c1; destruct (TCPHeader.rst _); [by apply wf_reset|done]).
  assert (K2 : keeps c1 c2 /\ wf c2).
  { destruct (TCPHeader.ack _); [|injection E2 as <-; done]. destruct Ha as [Hwin _].
    destruct (wf_ack Ds Ns Is Dr Nr cap Ir c1 (TCPHeader.ackno (TCPSegment.header seg))
      (TCPHeader.win (TCPSegment.header seg)) Hw1 Hwin) as (c2' & E2' & Hw2 & _).
    rewrite E2 in E2'. injection E2' as <-. split; [by eapply keeps_ack|done]. }
  destruct K2 as [K2 Hw2].
  assert (K3 : keeps (reply seg c2) c3).
  { destruct (_ && _); [eapply keeps_connect; [by apply wf_reply|done]|by injection E3 as <-]. }
  etransitivity; [|apply keeps_switch]. etransitivity; [|exact K3].
  etransitivity; [|apply keeps_reply]. etransitivity; [|exact K2]. by transitivity c0.
Qed.

(** Writing what fits into an open stream: all of it is accepted. *)
Lemma write_accepts data c : wf c -> allowed (Write data) c -> syn_sent c = true ->
  ByteStream.done_writing (stream_in c) = false -> zlen data <= remaining_outbound_capacity c ->
  exists c', write data c = Ok (zlen data, c') /\ wf c' /\ syn_sent c' = true /\
    ByteStream.n_bytes_written (stream_in c') = ByteStream.n_bytes_written (stream_in c) + zlen data /\
    ByteStream.done_writing (stream_in c') = false /\
    ByteStream.n_bytes_read (inbound_stream c') = ByteStream.n_bytes_read (inbound_stream c).
Proof.
  intros Hw Ha Hs He Hfit. pose proof Hw as [[? Hst ? HN [Hwr HwN] ? ? ? ? ? ?] _ _ _ _].
  unfold write, ByteStream.input_ended. rewrite Hs, He. cbn [orb negb].
  assert (Ha' : TCPSender.allowed Ds Ns (TCPSender.Write data) (_sender c)).
  { destruct Ha as [Ha|Ha]; [|done]. unfold ByteStream.input_ended in Ha. rewrite He, Hs in Ha. done. }
  destruct (wf_sender_step Ds Ns Is Dr Nr cap Ir (TCPSender.Write data) c Hw Ha') as (s & <-%Ok_inj & Hw1);
    [by eexists []; rewrite app_nil_r|].
  pose proof (ByteStream.write_spec data (stream_in c) Hst) as Hspec. cbv zeta in Hspec.
  destruct Hspec as (E & _ & _ & _ & Hn & _ & _ & Hd & _).
  unfold remaining_outbound_capacity in Hfit. rewrite ByteStream.remaining_capacity_eq in Hfit by done.
  rewrite Z.min_l in E, Hn by lia. unfold TCPSender.stream_in in *. change (TCPSender._stream (_sender c)) with (stream_in c) in Hw1.
  destruct (ByteStream.write data (stream_in c)) as [m st] eqn:Ew. cbn [snd] in *. injection E as ->.
  destruct (wf_fill Ds Ns Is Dr Nr cap Ir _ Hw1) as (c2 & E2 & Hw2 & Hs2 & _). rewrite E2. cbn [mbind res_bind].
  pose proof (keeps_fill _ _ Hw1 E2) as K. pose proof (keeps_send false c2) as K2.
  destruct (PreOrder_Transitive _ _ _ K K2) as [Kw Ke _ Kr].
  eexists. split; [done|]. split; [by apply wf_send_segments|]. split; [by apply K2|].
  rewrite Kw, Ke, Kr. cbn. split_and!; [|congruence|done].
  rewrite Hn. apply u64_small. destruct Hst as [? ? ? ? ? ? ?]. unfold stream_in, TCPSender.stream_in in *.
  pose proof (zlen_nonneg data). lia.
Qed.

Lemma end_input_effect c : wf c -> allowed EndInputStream c ->
  exists c', end_input_stream c = Ok c' /\ wf c' /\ (syn_sent c' = true) /\
    ByteStream.n_bytes_written (stream_in c') = ByteStream.n_bytes_written (stream_in c) /\
    ByteStream.done_writing (stream_in c') = true /\
    ByteStream.n_bytes_read (inbound_stream c') = ByteStream.n_bytes_read (inbound_stream c).
Proof.
  intros Hw Ha. unfold end_input_stream.
  destruct (wf_sender_step Ds Ns Is Dr Nr cap Ir TCPSender.EndInput c Hw Ha) as (s & [= <-] & Hw1);
    [by eexists [] ; rewrite app_nil_r|].
  destruct (wf_fill Ds Ns Is Dr Nr cap Ir _ Hw1) as (c2 & E2 & Hw2 & Hs2 & _).
  unfold stream_in, TCPSender.stream_in. rewrite E2. cbn [mbind res_bind].
  pose proof (keeps_fill _ _ Hw1 E2) as K. pose proof (keeps_try_closing c2) as K2.
  destruct (PreOrder_Transitive _ _ _ K K2) as [Kw Ke _ Kr].
  eexists. split; [done|]. split; [by apply wf_try_closing|]. split; [by apply K2|].
  unfold stream_in, TCPSender.stream_in in Kw, Ke. rewrite Kw, Ke, Kr. done.
Qed.
End Keeps.

(** ** The peer

    Segments that another connection has sent, and reading what they brought. *)

Section Peer.
Context (Ds : Z -> byte) (Ns : Z) (Is : WrappingInt32.t).
Context (Dr : Z -> byte) (Nr cap : Z) (Ir : WrappingInt32.t).
#[local] Abbreviation wf := (wf Ds Ns Is Dr Nr cap Ir).

(** A segment from the peer. *)
Definition incoming (seg : TCPSegment.t) : Prop :=
  conveys Dr Nr Ir seg /\ 0 <= TCPHeader.win (TCPSegment.header seg) < two16.

(** What a connection at the other end has sent is such a segment. *)
Lemma outgoing_incoming seg : outgoing Dr Nr Ir seg -> incoming seg.
Proof.
  intros Ho. split; [by apply outgoing_conveys|].
  destruct (outgoing_wf _ _ _ _ Ho) as ([] & _). done.
Qed.

(** A segment from the peer may be given to the connection. *)
Lemma incoming_allowed seg c : 0 <= Nr < two31 - 2 -> wf c -> incoming seg ->
  allowed Ds Ns Dr Nr Ir (SegmentReceived seg) c.
Proof.
  intros HNr Hw [(seg0 & Hs & Hp & Hsq & Hsyn & Hfin) Hwin]. split; [done|].
  destruct Hw as [_ _ _ Hr _].
  destruct (sendable_legal Dr Nr cap HNr Ir seg0 _ Hr Hs) as [i [L1 L2 L3 L4 L5]].
  assert (Hl : TCPReceiver.legal Dr Nr Ir (_receiver c) seg i)
    by (split; rewrite ?Hp, ?Hsq, ?Hsyn, ?Hfin; done).
  destruct (TCPReceiver.syn_received (_receiver c)) eqn:E1; [right; split; [by left|by exists i]|].
  destruct (TCPHeader.syn (TCPSegment.header seg)) eqn:E2; [right; split; [by right|by exists i]|by left].
Qed.

(** The bytes read so far are those before what is buffered. *)
Lemma inbound_position c : wf c -> ByteStream.n_bytes_read (inbound_stream c) =
  StreamReassembler.first_unasmb (TCPReceiver._reassembler (_receiver c)) - ByteStream.cur_size (inbound_stream c).
Proof.
  intros [_ _ _ [[[] _] _ _] _].
  change (StreamReassembler._output (TCPReceiver._reassembler (_receiver c))) with (inbound_stream c) in *.
  destruct co_out. unfold ByteStream.bytes_written in co_written. rewrite wf_written in co_written.
  unfold u64 in co_written. Z.div_mod_to_equations. lia.
Qed.

(** Reading some of what is buffered. *)
Lemma read_inbound_ok c n : 0 < cap -> wf c -> 0 <= n <= ByteStream.cur_size (inbound_stream c) ->
  exists st, ByteStream.read n (inbound_stream c) =
      Ok (slice Dr (ByteStream.n_bytes_read (inbound_stream c)) n, st) /\
    wf (set_receiver (TCPReceiver.set_stream_out st (_receiver c)) c) /\
    0 <= ByteStream.n_bytes_read (inbound_stream c) /\
    ByteStream.n_bytes_read st = ByteStream.n_bytes_read (inbound_stream c) + n.
Proof.
  intros Hcap Hw Hn. pose proof (inbound_position c Hw) as Hrd. destruct Hw as [Hs Hisn Hq [Hr Hcp Hri] Ho].
  pose proof Hr as [[] _]. set (ib := inbound_stream c) in *.
  change (StreamReassembler._output (TCPReceiver._reassembler (_receiver c))) with ib in *.
  pose proof (ByteStream.wf_size _ co_out) as Hsz. pose proof (ByteStream.wf_read _ co_out) as Hr0.
  destruct (ByteStream.read_spec n ib) as (st & E1 & _ & _ & _ & Hnr & _); [done|lia|lia|].
  destruct (StreamReassembler.wf_read Dr Nr n _ _ st Hr (proj1 Hn) E1) as (Hr' & Hbs & _).
  change (StreamReassembler._output (TCPReceiver._reassembler (_receiver c))) with ib in Hbs.
  pose proof (ByteStream.zlen_contents ib co_out) as Hct.
  assert (Hlen : zlen (take (Z.to_nat n) (ByteStream.contents ib)) = n) by (rewrite length_take; lia).
  rewrite Hlen, <- Hrd in Hbs. rewrite Hbs in E1. exists st. split_and!; [done|by split|lia|].
  rewrite Hnr, Z.min_l by lia. apply u64_small. lia.
Qed.

(** The end of the inbound stream is seen only after all of the peer's stream. *)
Lemma inbound_eof c : wf c -> ByteStream.eof (inbound_stream c) = true ->
  ByteStream.n_bytes_read (inbound_stream c) = Nr.
Proof.
  intros Hw. rewrite inbound_position by done. destruct Hw as [_ _ _ [[_ Hes] _ _] _].
  unfold ByteStream.eof, ByteStream.buffer_empty. intros He. zb.
  match goal with H : ByteStream.input_ended _ = true |- _ => apply Hes in H as [_ HF] end. lia.
Qed.

(** What was read lies within the peer's stream. *)
Lemma inbound_read_bound c : wf c -> 0 <= ByteStream.n_bytes_read (inbound_stream c) <= Nr.
Proof.
  intros Hw. rewrite inbound_position by done. destruct Hw as [_ _ _ [[[] _] _ _] _].
  pose proof (ByteStream.wf_size _ co_out).
  change (StreamReassembler._output (TCPReceiver._reassembler (_receiver c))) with (inbound_stream c) in *. lia.
Qed.
End Peer.

End TCPConnection.
