(* ===== verification/Session.v ===== *)
(** * Two connections over an unreliable network

    Two [TCPConnection]s that talk to each other, each with its own owner.  What a
    connection puts on the network may be lost, duplicated, delayed and reordered;
    the owners write, end their streams, let time pass, read and may destroy their
    connection at any time.  Both directions of the data are followed together, since
    the acknowledgments of one travel with the segments of the other. *)

From S2P Require Import Prelude Wrapping Stream Reassembly Buffers TcpWire TcpReceiver TcpSender Transfer Liveness TcpConnection.
From Stdlib Require Import Strings.Byte.
From stdpp Require Import functions relations.
#[local] Open Scope list_scope.
#[local] Open Scope Z_scope.

(** ** The elementary moves of a connection

    Every operation of a [TCPConnection] is a sequence of these; [arr] are the
    segments that can arrive. *)

Section Moves.
Context (Ds : Z -> byte) (Ns : Z) (arr : list TCPSegment.t).

Inductive move : TCPConnection.t -> TCPConnection.t -> Prop :=
| move_sender c o s :
    (forall a w, o <> TCPSender.Ack a w) -> o <> TCPSender.Drain ->
    TCPSender.allowed Ds Ns o (TCPConnection._sender c) -> TCPSender.step o (TCPConnection._sender c) = Ok s ->
    move c (TCPConnection.set_sender s c)
| move_ack c seg s :
    seg ∈ arr -> TCPHeader.ack (TCPSegment.header seg) = true ->
    TCPSender.step (TCPSender.Ack (TCPHeader.ackno (TCPSegment.header seg)) (TCPHeader.win (TCPSegment.header seg)))
      (TCPConnection._sender c) = Ok s ->
    move c (TCPConnection.set_sender s c)
| move_send c rst : move c (TCPConnection.send_segments rst c)
| move_receive c seg r :
    seg ∈ arr -> TCPReceiver.segment_received seg (TCPConnection._receiver c) = Ok r ->
    move c (TCPConnection.set_receiver r c)
| move_timer c x : move c (TCPConnection.set_timer x c)
| move_linger c x : move c (TCPConnection.set_linger x c)
| move_reset c : move c (TCPConnection.reset c)
| move_close c :
    TCPConnection.istream_done c = true -> TCPConnection.ostream_done c = true ->
    move c (TCPConnection.set_active false c).

#[local] Abbreviation moves := (rtc move).

Lemma moves_fill c c' : TCPConnection.on_sender TCPSender.fill_window c = Ok c' -> moves c c'.
Proof.
  intros (s & E & [= <-])%bind_Ok. apply rtc_once. by apply (move_sender c TCPSender.Fill).
Qed.

Lemma moves_empty c : moves c (TCPConnection.set_sender (TCPSender.send_empty_segment (TCPConnection._sender c)) c).
Proof. apply rtc_once. by apply (move_sender c TCPSender.SendEmpty). Qed.

Lemma moves_connect c c' : TCPConnection.connect c = Ok c' -> moves c c'.
Proof. intros (c1 & E & [= <-])%bind_Ok. eapply rtc_r; [by apply moves_fill|apply move_send]. Qed.

Lemma moves_try_closing c : moves c (TCPConnection.try_closing_connection c).
Proof.
  unfold TCPConnection.try_closing_connection. destruct (TCPConnection.active c); cbn [negb]; [|done].
  eapply rtc_l; [apply (move_send c false)|].
  destruct (_ && TCPConnection.istream_done _ && _) eqn:E; [|done]. zb. apply rtc_once. by apply move_close.
Qed.

Lemma moves_abort c : moves c (TCPConnection.abort c).
Proof.
  unfold TCPConnection.abort. eapply rtc_r; [eapply rtc_r; [|apply (move_send _ true)]|apply move_reset].
  destruct (TCPSender.segments_out _); [apply moves_empty|done].
Qed.

Lemma moves_switch c : moves c (TCPConnection.try_switching_close_mode c).
Proof. unfold TCPConnection.try_switching_close_mode. destruct (_ && _); [apply rtc_once, move_linger|done]. Qed.

Lemma moves_reply seg c : moves c (TCPConnection.reply seg c).
Proof.
  unfold TCPConnection.reply. destruct (TCPConnection.syn_sent c); [|done].
  eapply rtc_r; [|apply (move_send _ false)]. destruct (_ && _); [apply moves_empty|done].
Qed.

Lemma moves_tick ms c : moves c (TCPConnection.tick ms c).
Proof.
  unfold TCPConnection.tick. destruct (TCPConnection.active c); cbn [negb]; [|done].
  eapply rtc_l; [by apply (move_sender c (TCPSender.Tick ms))|]. eapply rtc_l; [apply move_timer|].
  etransitivity; [|apply moves_try_closing].
  destruct (_ <? _); [apply moves_abort|apply rtc_once, (move_send _ false)].
Qed.

Lemma moves_segment_received seg c c' : seg ∈ arr -> TCPConnection.segment_received seg c = Ok c' -> moves c c'.
Proof.
  intros Hin (r & Er & E)%bind_Ok. apply bind_Ok in E as (c2 & E2 & E). apply bind_Ok in E as (c3 & E3 & [= <-]).
  eapply rtc_l; [by apply (move_receive _ seg)|]. eapply rtc_l; [apply (move_timer _ 0)|].
  set (c0 := TCPConnection.set_timer 0 _) in *.
  transitivity c2.
  { set (c1 := if TCPHeader.rst _ then _ else _) in *. transitivity c1.
    - unfold c1. destruct (TCPHeader.rst _); [apply rtc_once, move_reset|done].
    - clearbody c1. destruct (TCPHeader.ack _) eqn:Ea; [|by injection E2 as <-].
      apply bind_Ok in E2 as (s & E2 & [= <-]). apply rtc_once. by apply (move_ack c1 seg). }
  transitivity (TCPConnection.reply seg c2); [apply moves_reply|]. transitivity c3; [|apply moves_switch].
  destruct (_ && _); [by apply moves_connect|by injection E3 as <-].
Qed.

Lemma moves_destroy c : moves c (TCPConnection.destroy c).
Proof. unfold TCPConnection.destroy. destruct (TCPConnection.active c); [apply moves_abort|done]. Qed.

(** The owner's operations, reading apart. *)
Lemma moves_write data c n c' : TCPConnection.write data c = Ok (n, c') ->
  ByteStream.input_ended (TCPConnection.stream_in c) || negb (TCPConnection.syn_sent c) = true \/
    TCPSender.allowed Ds Ns (TCPSender.Write data) (TCPConnection._sender c) -> moves c c'.
Proof.
  unfold TCPConnection.write. destruct (_ || _); [by intros [= _ <-]|]. intros E [?|Ha]; [done|].
  destruct (ByteStream.write data (TCPConnection.stream_in c)) as [m st] eqn:Ew.
  apply bind_Ok in E as (c2 & E & [= _ <-]).
  eapply rtc_l; [eapply (move_sender c (TCPSender.Write data)); [done|done|done|reflexivity]|].
  unfold TCPConnection.stream_in, TCPSender.stream_in in Ew. rewrite Ew.
  eapply rtc_r; [by apply moves_fill|apply move_send].
Qed.

Lemma moves_end_input c c' : TCPConnection.end_input_stream c = Ok c' ->
  TCPSender.allowed Ds Ns TCPSender.EndInput (TCPConnection._sender c) -> moves c c'.
Proof.
  intros (c2 & E & [= <-])%bind_Ok Ha.
  eapply rtc_l; [eapply (move_sender c TCPSender.EndInput); [done|done|done|reflexivity]|].
  etransitivity; [by apply moves_fill|apply moves_try_closing].
Qed.

(** None of them changes the configuration or consumes what has been assembled. *)
Lemma moves_keep_cfg c c' : moves c c' -> TCPConnection._cfg c' = TCPConnection._cfg c.
Proof.
  induction 1 as [|c c1 c2 H1 _ IH]; [done|]. rewrite IH. destruct H1 as [| |c rst| | | | |]; try done.
  unfold TCPConnection.send_segments. by destruct (TCPConnection.active c).
Qed.

Lemma moves_keep_read c c' : moves c c' -> ByteStream.n_bytes_read (TCPConnection.inbound_stream c') =
  ByteStream.n_bytes_read (TCPConnection.inbound_stream c).
Proof.
  induction 1 as [|c c1 c2 H1 _ IH]; [done|]. rewrite IH. destruct H1 as [| |c rst|c seg r _ E| | | |]; try done.
  - unfold TCPConnection.send_segments. by destruct (TCPConnection.active c).
  - exact (TCPConnection.receiver_keeps_read _ _ _ E).
Qed.
End Moves.

(** ** One endpoint and its peer *)

(** Stamping is invisible to the receiver. *)
Lemma received_as_carried seg seg0 r : TCPConnection.carries seg seg0 ->
  TCPReceiver.segment_received seg r = TCPReceiver.segment_received seg0 r.
Proof. intros (Hp & Hs & Hy & Hf). unfold TCPReceiver.segment_received. by rewrite Hp, Hs, Hy, Hf. Qed.

(** The end of the stream is known only after its beginning. *)
Definition eof_after_syn (r : TCPReceiver.t) : Prop :=
  StreamReassembler.eof_set (TCPReceiver._reassembler r) = true -> TCPReceiver.syn_received r = true.

Lemma eof_after_syn_received seg r r' : eof_after_syn r -> TCPReceiver.segment_received seg r = Ok r' -> eof_after_syn r'.
Proof.
  unfold TCPReceiver.segment_received. intros He. set (r0 := if TCPHeader.syn _ then _ else r).
  assert (H0 : eof_after_syn r0) by (unfold r0; destruct (TCPHeader.syn _); [by intros _|done]).
  clearbody r0. destruct (TCPReceiver.syn_received r0) eqn:E; cbn [negb]; [|by intros [= <-]].
  by intros (a & _ & [= <-])%bind_Ok.
Qed.

(** A step of the sender other than [Drain] only appends to its queue, and none clears
    the error of its stream. *)
Lemma step_appends D N o s s' : TCPSender.wf D N s -> TCPSender.allowed D N o s -> o <> TCPSender.Drain ->
  TCPSender.step o s = Ok s' ->
  TCPSender._segments_out s' = TCPSender._segments_out s ++ TCPSender.emitted s s' /\
  ByteStream._error (TCPSender._stream s') = ByteStream._error (TCPSender._stream s).
Proof.
  assert (Hsame : forall x, TCPSender._segments_out x = TCPSender._segments_out s ->
    TCPSender._segments_out x = TCPSender._segments_out s ++ TCPSender.emitted s x)
    by (intros x Hx; by rewrite emitted_none, app_nil_r).
  intros Hw Ha Hd. destruct o as [data| | |a w|ms| |]; cbn [TCPSender.step]; [by intros [= <-]; auto..| | | | |done].
  - destruct (TCPSender.fill_window_spec D N s Hw) as (new & s1 & -> & _ & [] & _). intros [= <-].
    by rewrite (TCPSender.emitted_app _ _ _ gr_out).
  - pose proof (TCPSender.ack_received_spec D N s a w Hw Ha) as Hs. cbv zeta in Hs. case_match.
    + destruct Hs as (dr & rest & s0 & new & s1 & _ & _ & _ & _ & _ & _ & _ & _ & _ & Hq & Hst & _ & _ & -> & -> & _ & [] & _).
      intros [= <-]. rewrite Hq in gr_out. rewrite (TCPSender.emitted_app _ _ _ gr_out). split; [done|congruence].
    + destruct Hs as (s1 & -> & _ & Hq & _ & _ & _ & _ & _ & _ & Hst & _). intros [= <-]. split; [by apply Hsame|by rewrite Hst].
  - intros [= <-]. unfold TCPSender.tick. destruct (Timer.expired _); [|by auto].
    destruct (TCPSender._outstanding_segments s) as [|o l]; [by auto|].
    destruct (0 <? _); by rewrite (TCPSender.emitted_app s _ [TCPSender.segment o]).
  - intros [= <-]. by erewrite TCPSender.emitted_app by reflexivity.
Qed.

Lemma app_subseteq {A} (q em new : list A) : q ⊆ em -> em ⊆ em ++ new /\ q ++ new ⊆ em ++ new.
Proof. intros Hq. split; intros x; rewrite ?elem_of_app; [by left|]. intros [?|?]; [left; by apply Hq|by right]. Qed.

(** A segment that a connection has sent whose sender follows the stream [D]: one of
    those the sender has emitted ([em]), stamped, if at all, with an acknowledgment its
    receiver has issued ([acks]). *)
Definition sent (D : Z -> byte) (N : Z) (isn : WrappingInt32.t) (em : list TCPSegment.t) (acks : list (WrappingInt32.t * Z))
  (seg : TCPSegment.t) : Prop :=
  TCPConnection.outgoing D N isn seg /\
  (exists seg0, seg0 ∈ em /\ TCPConnection.carries seg seg0) /\
  (TCPHeader.ack (TCPSegment.header seg) = true ->
   (TCPHeader.ackno (TCPSegment.header seg), TCPHeader.win (TCPSegment.header seg)) ∈ acks).

Lemma sent_more D N isn em em' acks acks' seg : em ⊆ em' -> acks ⊆ acks' -> sent D N isn em acks seg -> sent D N isn em' acks' seg.
Proof. intros He Ha (Ho & (g & Hg & Hc) & Hk). split; [done|]. split; [exists g; by auto|by auto]. Qed.

Section Endpoint.
(** The stream written here and the one written by the peer, the two initial sequence
    numbers and the capacities of the two receivers. *)
Context (Ds : Z -> byte) (Ns : Z) (Is : WrappingInt32.t) (caps : Z).
Context (Dr : Z -> byte) (Nr : Z) (Ir : WrappingInt32.t) (capr : Z).

(** The connection [c], of which [n] is on the network.  A connection that is over has
    failed, or both streams are complete here: the peer's has been assembled and
    everything of ours has been acknowledged. *)
Record endpoint (c : TCPConnection.t) (n em : list TCPSegment.t) (acks : list (WrappingInt32.t * Z)) : Prop := {
  ep_wf : TCPConnection.wf Ds Ns Is Dr Nr caps Ir c;
  ep_queue : TCPSender.segments_out (TCPConnection._sender c) ⊆ em;
  ep_sent : Forall (sent Ds Ns Is em acks) (TCPConnection._segments_out c ++ n);
  ep_eof : eof_after_syn (TCPConnection._receiver c);
  ep_over : TCPConnection.active c = false -> ByteStream.error (TCPConnection.stream_in c) = true \/
    rack (TCPConnection._receiver c) = Nr + 2 /\ TCPSender._abs_ackno (TCPConnection._sender c) = Ns + 2
}.

(** An endpoint whose sender has moved on. *)
Lemma endpoint_sender c n em acks s em' : endpoint c n em acks ->
  TCPConnection.wf Ds Ns Is Dr Nr caps Ir (TCPConnection.set_sender s c) -> em ⊆ em' ->
  TCPSender.segments_out s ⊆ em' -> TCPSender._abs_ackno (TCPConnection._sender c) <= TCPSender._abs_ackno s ->
  (ByteStream.error (TCPConnection.stream_in c) = true -> ByteStream.error (TCPSender._stream s) = true) ->
  endpoint (TCPConnection.set_sender s c) n em' acks.
Proof.
  intros [Hw Hq Hs He Ho] Hw' Hem Hq' Ha Herr. split; try done.
  - eapply Forall_impl; [exact Hs|]. intros seg. by apply sent_more.
  - cbn. intros Hd. destruct (Ho Hd) as [?|[Hr Hk]]; [left; by apply Herr|right]. split; [done|].
    destruct Hw' as [Hws _ _ _ _]. cbn in Hws. pose proof (TCPSender.wf_ack _ _ _ Hws).
    pose proof (TCPSender.wf_next_range _ _ _ Hws) as (_ & _ & ?). lia.
Qed.

Context (HNs : 0 <= Ns < two31 - 2) (HNr : 0 <= Nr < two31 - 2) (Hcaps : 0 < caps < two63) (Hcapr : 0 < capr < two63).
Context (HIs : WrappingInt32.wf Is) (HIr : WrappingInt32.wf Ir).

(** The endpoint with what it owes to the sender [s] and the receiver [r] of the peer:
    [emr] is what the peer's sender has emitted and [acks] what its receiver has
    issued. *)
Record facing (c : TCPConnection.t) (n em : list TCPSegment.t) (ackr : list (WrappingInt32.t * Z))
  (s : TCPSender.t) (r : TCPReceiver.t) (emr : list TCPSegment.t) (acks : list (WrappingInt32.t * Z)) : Prop := {
  fc_end : endpoint c n em ackr;
  fc_sends : honest Ds Ns (TCPConnection._sender c) em r acks;
  fc_receives : honest Dr Nr s emr (TCPConnection._receiver c) ackr;
  fc_sender : TCPSender.wf Dr Nr s;
  fc_isn : TCPSender._isn s = Ir;
  fc_receiver : TCPReceiver.wf Ds Ns capr Is r
}.

(** Steps of the sender: its owner's, and an acknowledgment that the peer has issued. *)
Lemma facing_step c n em ackr s r emr acks o s' :
  facing c n em ackr s r emr acks ->
  (forall a w, o = TCPSender.Ack a w -> (a, w) ∈ acks) -> o <> TCPSender.Drain ->
  TCPSender.allowed Ds Ns o (TCPConnection._sender c) -> TCPSender.step o (TCPConnection._sender c) = Ok s' ->
  exists em', em ⊆ em' /\ facing (TCPConnection.set_sender s' c) n em' ackr s r emr acks.
Proof.
  intros [Hep Hs Hr Hws Hi Hwr] Hack Hd Hal E. pose proof Hep as [[Hwc Hic Hqc Hrc Hoc] Hq _ _ _].
  destruct (step_appends _ _ _ _ _ Hwc Hal Hd E) as [Hout Herr].
  destruct (step_effect _ _ _ _ _ Hwc Hal E) as [_ Hab].
  destruct (TCPConnection.wf_sender_step Ds Ns Is Dr Nr caps Ir o c) as (s2 & E2 & Hw2); [apply Hep|done| |].
  { rewrite E. unfold TCPSender.segments_out. rewrite Hout. by eexists. }
  rewrite E in E2. injection E2 as <-.
  exists (em ++ TCPSender.emitted (TCPConnection._sender c) s').
  destruct (app_subseteq _ _ (TCPSender.emitted (TCPConnection._sender c) s') Hq) as [Hem Hq']. split; [done|]. split; try done.
  - apply (endpoint_sender _ _ em); try done.
    + unfold TCPSender.segments_out in *. by rewrite Hout.
    + destruct o; try (by rewrite Hab). cbv zeta in Hab. rewrite Hab. destruct (_ && _) eqn:Ec; zb; lia.
    + unfold ByteStream.error, TCPConnection.stream_in, TCPSender.stream_in. by rewrite Herr.
  - cbn. destruct o as [data| | |a w|ms| |]; try (eapply honest_owner; [..|exact E]; done).
    eapply honest_acked; try done; [by rewrite Hic|by apply Hack].
Qed.

(** Moves that touch neither the sender nor the receiver. *)
Lemma facing_same c n em ackr s r emr acks c' : facing c n em ackr s r emr acks ->
  TCPConnection._sender c' = TCPConnection._sender c -> TCPConnection._receiver c' = TCPConnection._receiver c ->
  TCPConnection._segments_out c' = TCPConnection._segments_out c ->
  (TCPConnection.active c' = false -> TCPConnection.active c = false \/
     rack (TCPConnection._receiver c) = Nr + 2 /\ TCPSender._abs_ackno (TCPConnection._sender c) = Ns + 2) ->
  facing c' n em ackr s r emr acks.
Proof.
  intros [[[] Hq Hse Hef Hov] Hs Hr Hws Hi Hwr] Es Er Eo Ea.
  split; rewrite ?Es, ?Er; try done. split; rewrite ?Es, ?Er, ?Eo; try done.
  - split; by rewrite ?Es, ?Er, ?Eo.
  - unfold TCPConnection.stream_in. rewrite Es. intros [Hd|Hd]%Ea; [by apply Hov|by right].
Qed.

(** Both streams are complete when the connection closes. *)
Lemma close_complete c : TCPConnection.wf Ds Ns Is Dr Nr caps Ir c -> eof_after_syn (TCPConnection._receiver c) ->
  TCPConnection.istream_done c = true -> TCPConnection.ostream_done c = true ->
  rack (TCPConnection._receiver c) = Nr + 2 /\ TCPSender._abs_ackno (TCPConnection._sender c) = Ns + 2.
Proof.
  intros [Hs _ _ [[_ Hes] _ _] _] He Hi Ho. unfold TCPConnection.istream_done in Hi. unfold TCPConnection.ostream_done in Ho.
  apply andb_true_iff in Hi as [Hi _]. rewrite !andb_true_iff, !Z.eqb_eq in Ho. destruct Ho as [[Heof Hn] Hfl].
  pose proof Hi as [Hset Hf]%Hes. split.
  - unfold rack. rewrite (He Hset), Hf. unfold TCPConnection.inbound_stream in Hi. rewrite Hi. lia.
  - pose proof Hs as [_ Hst _ _ _ _ Hend _ Hk _ _]. apply andb_true_iff in Heof as [Hended _].
    unfold TCPConnection.stream_in, TCPSender.stream_in, ByteStream.input_ended, ByteStream.bytes_written,
      TCPSender.next_seqno_absolute, TCPSender.bytes_in_flight in *.
    rewrite Hend, u64_small in Hn by done || lia. rewrite u64_small in Hfl by lia. lia.
Qed.

(** A segment of the peer arrives. *)
Lemma facing_receive c n em ackr s r emr acks seg r' : facing c n em ackr s r emr acks ->
  (exists seg0, seg0 ∈ emr /\ TCPConnection.carries seg seg0) ->
  TCPReceiver.wf Dr Nr caps Ir r' ->
  TCPReceiver.segment_received seg (TCPConnection._receiver c) = Ok r' ->
  facing (TCPConnection.set_receiver r' c) n em ackr s r emr acks.
Proof.
  intros [[Hw Hq Hse Hef Hov] Hs Hr Hws Hi Hwr] (seg0 & Hin & Hc) Hw' E.
  pose proof (eof_after_syn_received _ _ _ Hef E) as Hef'. rewrite (received_as_carried _ _ _ Hc) in E.
  pose proof Hw as [Hw1 Hw2 Hw3 Hw4 Hw5].
  destruct (honest_deliver Dr Nr caps HNr Hcaps _ _ _ _ _ _ Hr Hws ltac:(by rewrite Hi) Hin E) as [Hr' Hm].
  split; try done. split; try done. cbn. intros Hd. destruct (Hov Hd) as [?|[Hk ?]]; [by left|right].
  split; [|done]. destruct (rack_range Dr Nr caps HNr Ir r' Hw') as [? _]. lia.
Qed.

(** Sending what the sender has queued. *)
Lemma facing_send c n em ackr s r emr acks rst : facing c n em ackr s r emr acks ->
  exists ackr', ackr ⊆ ackr' /\ facing (TCPConnection.send_segments rst c) n em ackr' s r emr acks.
Proof.
  intros Hf. destruct (TCPConnection.active c) eqn:Ea; [|exists ackr; by rewrite TCPConnection.send_segments_dead].
  pose proof Hf as [[Hw Hq Hse Hef Hov] Hs Hr Hws Hi Hwr].
  exists (ackr ++ match TCPReceiver.ackno (TCPConnection._receiver c) with
    | Some a => [(a, u16 (TCPReceiver.window_size (TCPConnection._receiver c)))] | None => [] end).
  set (ak := match _ with Some _ => _ | None => _ end). destruct (app_subseteq ackr ackr ak) as [Hak _]; [done|].
  split; [done|]. pose proof (TCPConnection.wf_send_segments _ _ _ _ _ _ _ rst c Hw) as Hw'.
  rewrite TCPConnection.send_segments_spec in Hw' |- * by done. pose proof Hw as [Hw1 Hw2 Hw3 Hw4 Hw5].
  split; try done.
  - split; try done; [apply list_subseteq_nil|]. cbn. rewrite <- app_assoc, (Permutation_app_comm _ n), app_assoc.
    apply Forall_app. split; [eapply Forall_impl; [exact Hse|]; intros g; by apply sent_more|].
    apply Forall_fmap. rewrite Forall_forall in Hw3 |- *. intros g Hg. specialize (Hw3 _ Hg). unfold compose.
    split; [by exists g, (TCPConnection._receiver c), rst|]. split; [exists g; split; [by apply Hq|apply TCPConnection.stamp_carries]|].
    assert (Hah : TCPHeader.ack (TCPSegment.header g) = false)
      by (by destruct Hw3 as [[sq [-> _ _ _ _ _]]|(sq & _ & ->)]).
    unfold TCPConnection.stamp, ak. destruct (TCPReceiver.ackno _); [|destruct rst; cbn; by rewrite Hah].
    intros _. apply elem_of_app. right. destruct rst; constructor.
  - pose proof (honest_owner Ds Ns _ _ _ _ TCPSender.Drain _ Hs Hw1 ltac:(done) I eq_refl) as Hd.
    unfold TCPSender.emitted in Hd. cbn in Hd. by rewrite drop_nil, app_nil_r in Hd.
  - cbn. unfold ak. destruct (TCPReceiver.ackno _) eqn:Ek; [|by rewrite app_nil_r].
    apply (honest_issue Dr Nr caps); try done. by rewrite Hi.
Qed.

(** A reset: both streams fail. *)
Lemma facing_reset c n em ackr s r emr acks : facing c n em ackr s r emr acks ->
  facing (TCPConnection.reset c) n em ackr s r emr acks.
Proof.
  intros [[Hw Hq Hse Hef Hov] Hs Hr Hws Hi Hwr]. pose proof (TCPConnection.wf_reset _ _ _ _ _ _ _ c Hw) as Hw'.
  split; try done.
  - split; try done. by left.
  - pose proof (honest_advance Ds Ns _ _ _ _ (TCPConnection._sender (TCPConnection.reset c)) Hs) as Hd.
    rewrite emitted_none, app_nil_r in Hd by done. apply Hd; [apply Hw'| |apply Hs|apply Hs].
    apply still_advances; try done. by apply emitted_none.
  - by eapply honest_receiver.
Qed.

(** A segment from the peer may be given to the connection. *)
Lemma sent_allowed c n em ackr s r emr acks seg : facing c n em ackr s r emr acks -> sent Dr Nr Ir emr acks seg ->
  TCPConnection.allowed Ds Ns Dr Nr Ir (TCPConnection.SegmentReceived seg) c.
Proof.
  intros [[Hw _ _ _ _] _ _ _ _ _] [Ho _].
  eapply TCPConnection.incoming_allowed; [done|exact Hw|by apply TCPConnection.outgoing_incoming].
Qed.

Lemma facing_move arr c n em ackr s r emr acks c' : facing c n em ackr s r emr acks ->
  Forall (sent Dr Nr Ir emr acks) arr -> move Ds Ns arr c c' ->
  exists em' ackr', em ⊆ em' /\ ackr ⊆ ackr' /\ facing c' n em' ackr' s r emr acks.
Proof.
  intros Hf Harr. rewrite Forall_forall in Harr.
  destruct 1 as [c o s' Hno Hd Ha E|c seg s' Hin Hack E|c rst|c seg r' Hin E|c x|c x|c|c Hi Ho].
  - destruct (facing_step c n em ackr s r emr acks o s' Hf) as (em' & Hem & Hf'); try done; [by intros a w Heq; destruct (Hno a w)|].
    by exists em', ackr.
  - destruct (Harr _ Hin) as (Hog & _ & Hak).
    destruct (TCPConnection.outgoing_wf _ _ _ _ Hog) as ([] & _).
    destruct (facing_step c n em ackr s r emr acks (TCPSender.Ack (TCPHeader.ackno (TCPSegment.header seg))
      (TCPHeader.win (TCPSegment.header seg))) s' Hf) as (em' & Hem & Hf'); [|done..|by exists em', ackr].
    intros a w [= <- <-]. by apply Hak.
  - destruct (facing_send _ _ _ _ _ _ _ _ rst Hf) as (ackr' & Hk & Hf'). by exists em, ackr'.
  - exists em, ackr. split; [done|]. split; [done|]. destruct (Harr _ Hin) as (_ & Hex & _).
    eapply facing_receive; [exact Hf|exact Hex| |exact E].
    destruct (TCPConnection.receiver_step Ds Ns Is Dr Nr caps Ir HIr c seg) as (r2 & E2 & Hw2);
      [apply Hf|by eapply sent_allowed; [|apply Harr]|]. rewrite E in E2. by injection E2 as <-.
  - exists em, ackr. split; [done|]. split; [done|]. apply (facing_same c); try done. by left.
  - exists em, ackr. split; [done|]. split; [done|]. apply (facing_same c); try done. by left.
  - exists em, ackr. split; [done|]. split; [done|]. by apply facing_reset.
  - exists em, ackr. split; [done|]. split; [done|]. apply (facing_same c); try done. right.
    apply close_complete; [apply Hf|apply Hf|done|done].
Qed.

Lemma facing_moves arr c c' : rtc (move Ds Ns arr) c c' -> forall n em ackr s r emr acks, facing c n em ackr s r emr acks ->
  Forall (sent Dr Nr Ir emr acks) arr ->
  exists em' ackr', em ⊆ em' /\ ackr ⊆ ackr' /\ facing c' n em' ackr' s r emr acks.
Proof.
  induction 1 as [c|c c1 c2 H1 _ IH]; intros n em ackr s r emr acks Hf Ha; [by exists em, ackr|].
  destruct (facing_move _ _ _ _ _ _ _ _ _ _ Hf Ha H1) as (em1 & ackr1 & He1 & Hk1 & Hf1).
  destruct (IH _ _ _ _ _ _ _ Hf1 Ha) as (em2 & ackr2 & He2 & Hk2 & Hf2).
  exists em2, ackr2. split; [by etransitivity|]. split; [by etransitivity|done].
Qed.

(** The network takes what is queued. *)
Lemma facing_transmit c n em ackr s r emr acks : facing c n em ackr s r emr acks ->
  facing (TCPConnection.set_segments_out [] c) (n ++ TCPConnection._segments_out c) em ackr s r emr acks.
Proof.
  intros [[[] Hq Hse Hef Hov] Hs Hr Hws Hi Hwr]. split; try done. split; try done.
  cbn. by rewrite Permutation_app_comm.
Qed.

(** The owner reads. *)
Lemma facing_read c n em ackr s r emr acks k bs st : facing c n em ackr s r emr acks -> 0 <= k ->
  ByteStream.read k (TCPConnection.inbound_stream c) = Ok (bs, st) ->
  facing (TCPConnection.set_receiver (TCPReceiver.set_stream_out st (TCPConnection._receiver c)) c) n em ackr s r emr acks.
Proof.
  intros [[[Hw1 Hw2 Hw3 Hw4 Hw5] Hq Hse Hef Hov] Hs Hr Hws Hi Hwr] Hk E.
  destruct (read_effect Dr Nr caps Ir k _ bs st Hw4 Hk E) as [Hw4' Hrk].
  split; try done; [split; try done; cbn; by rewrite Hrk|]. by apply (honest_receiver _ _ _ _ (TCPConnection._receiver c)).
Qed.
End Endpoint.

(** Reading continues what has been read. *)
Lemma read_continues Ds Ns Is Dr Nr cap Ir c k bs st : TCPConnection.wf Ds Ns Is Dr Nr cap Ir c -> 0 <= k ->
  ByteStream.read k (TCPConnection.inbound_stream c) = Ok (bs, st) ->
  slice Dr 0 (ByteStream.n_bytes_read (TCPConnection.inbound_stream c)) ++ bs = slice Dr 0 (ByteStream.n_bytes_read st).
Proof.
  intros Hw Hk E. pose proof Hw as [Hw1 Hw2 Hw3 [Hr Hc Hi] Hw5].
  destruct (StreamReassembler.wf_read Dr Nr k _ bs st Hr Hk E) as (Hr' & Hbs & Hsz).
  pose proof (TCPConnection.inbound_position _ _ _ _ _ _ _ c Hw) as Hpos.
  pose proof (TCPConnection.inbound_read_bound _ _ _ _ _ _ _ c Hw) as Hb.
  set (c' := TCPConnection.set_receiver (TCPReceiver.set_stream_out st (TCPConnection._receiver c)) c).
  assert (Hw' : TCPConnection.wf Ds Ns Is Dr Nr cap Ir c') by (split; done).
  pose proof (TCPConnection.inbound_position _ _ _ _ _ _ _ c' Hw') as Hpos'.
  change (TCPConnection.inbound_stream c') with st in Hpos'.
  change (StreamReassembler.first_unasmb (TCPReceiver._reassembler (TCPConnection._receiver c'))) with
    (StreamReassembler.first_unasmb (TCPReceiver._reassembler (TCPConnection._receiver c))) in Hpos'.
  change (StreamReassembler._output (TCPReceiver._reassembler (TCPConnection._receiver c))) with (TCPConnection.inbound_stream c) in *.
  rewrite Hbs, <- Hpos. replace (ByteStream.n_bytes_read st) with
    (ByteStream.n_bytes_read (TCPConnection.inbound_stream c) + zlen bs) by lia.
  by rewrite slice_app by lia.
Qed.

(** ** The session *)

Inductive side : Type := Client | Server.
#[global] Instance side_eq_dec : EqDecision side.
Proof. solve_decision. Defined.
Definition other (d : side) : side := match d with Client => Server | Server => Client end.

(** The two connections, every segment that each of them has put on the network, and
    what each owner has read. *)
Record session : Type := mk_session {
  conn : side -> TCPConnection.t;
  net : side -> list TCPSegment.t;
  got : side -> bytes
}.

Inductive event : Type :=
| Owner (d : side) (o : TCPConnection.op)
| Destroy (d : side)
| Transmit (d : side)
| Deliver (d : side) (seg : TCPSegment.t)
| Read (d : side) (n : Z).

Definition set_conn (d : side) (c : TCPConnection.t) (x : session) : session :=
  mk_session (<[d := c]> (conn x)) (net x) (got x).

Definition perform (e : event) (x : session) : res session :=
  match e with
  | Owner d o => c ← TCPConnection.step o (conn x d); Ok (set_conn d c x)
  | Destroy d => Ok (set_conn d (TCPConnection.destroy (conn x d)) x)
  | Transmit d =>
      Ok (mk_session (<[d := TCPConnection.set_segments_out [] (conn x d)]> (conn x))
            (<[d := net x d ++ TCPConnection._segments_out (conn x d)]> (net x)) (got x))
  | Deliver d seg => c ← TCPConnection.segment_received seg (conn x d); Ok (set_conn d c x)
  | Read d n =>
      '(bs, st) ← ByteStream.read n (TCPConnection.inbound_stream (conn x d));
      Ok (mk_session (<[d := TCPConnection.set_receiver (TCPReceiver.set_stream_out st
            (TCPConnection._receiver (conn x d))) (conn x d)]> (conn x)) (net x) (<[d := got x d ++ bs]> (got x)))
  end.

Fixpoint perform_all (es : list event) (x : session) : res session :=
  match es with
  | [] => Ok x
  | e :: es' => x' ← perform e x; perform_all es' x'
  end.

(** Updates of a function on [side] compute once both sides are known. *)
Ltac exact_at H d d' := specialize (H d'); destruct d, d'; exact H.

Section Session.
(** The stream each side writes, its configuration, and what [random_device] gives it. *)
Context (D : side -> Z -> byte) (N : side -> Z) (cfg : side -> TCPConfig.t) (random : side -> Z).

Definition opening : session :=
  mk_session (fun d => TCPConnection.make (cfg d) (random d)) (fun _ => []) (fun _ => []).

Definition isn_of (d : side) : WrappingInt32.t :=
  match TCPConfig.fixed_isn (cfg d) with Some i => i | None => WrappingInt32.make (random d) end.
#[local] Abbreviation cap d := (TCPConfig.recv_capacity (cfg d)).

(** The owners write their streams, and only what was sent arrives. *)
Definition permitted (e : event) (x : session) : Prop :=
  match e with
  | Owner d (TCPConnection.Write data) =>
      TCPConnection.allowed (D d) (N d) (D (other d)) (N (other d)) (isn_of (other d)) (TCPConnection.Write data) (conn x d)
  | Owner d TCPConnection.EndInputStream =>
      TCPConnection.allowed (D d) (N d) (D (other d)) (N (other d)) (isn_of (other d)) TCPConnection.EndInputStream (conn x d)
  | Owner d TCPConnection.Connect | Owner d (TCPConnection.Tick _) => True
  | Owner d _ => False
  | Destroy d | Transmit d => True
  | Deliver d seg => seg ∈ net x (other d)
  | Read d n => 0 <= n
  end.

(** The states of a session. *)
Inductive reaches : session -> Prop :=
| reaches_opening : reaches opening
| reaches_event x e x' : reaches x -> permitted e x -> perform e x = Ok x' -> reaches x'.

(** The invariant: both endpoints, both directions, and what has been read. *)
Record joint (x : session) (em : side -> list TCPSegment.t) (acks : side -> list (WrappingInt32.t * Z)) : Prop := {
  jt_end d : endpoint (D d) (N d) (isn_of d) (cap d) (D (other d)) (N (other d)) (isn_of (other d))
    (conn x d) (net x d) (em d) (acks (other d));
  jt_flow d : honest (D d) (N d) (TCPConnection._sender (conn x d)) (em d)
    (TCPConnection._receiver (conn x (other d))) (acks d);
  jt_got d : got x d = slice (D (other d)) 0 (ByteStream.n_bytes_read (TCPConnection.inbound_stream (conn x d)))
}.

#[local] Abbreviation faces d := (facing (D d) (N d) (isn_of d) (cap d) (D (other d)) (N (other d)) (isn_of (other d))
  (cap (other d))).

Lemma joint_facing x em acks d : joint x em acks ->
  faces d (conn x d) (net x d) (em d) (acks (other d)) (TCPConnection._sender (conn x (other d)))
    (TCPConnection._receiver (conn x (other d))) (em (other d)) (acks d) /\
  Forall (sent (D (other d)) (N (other d)) (isn_of (other d)) (em (other d)) (acks d)) (net x (other d)).
Proof.
  intros [He Hf _]. pose proof (He (other d)) as Ho. pose proof (Hf (other d)) as Hfo.
  destruct d; cbn [other] in *; (split; [split; [apply He|apply Hf|exact Hfo|apply Ho..]|];
    destruct Ho as [_ _ Hs _ _]; by apply Forall_app in Hs as [_ Hs]).
Qed.

Lemma facing_joint x em acks d c n g em' ackr' : joint x em acks ->
  faces d c n em' ackr' (TCPConnection._sender (conn x (other d)))
    (TCPConnection._receiver (conn x (other d))) (em (other d)) (acks d) ->
  g = slice (D (other d)) 0 (ByteStream.n_bytes_read (TCPConnection.inbound_stream c)) ->
  joint (mk_session (<[d := c]> (conn x)) (<[d := n]> (net x)) (<[d := g]> (got x)))
    (<[d := em']> em) (<[other d := ackr']> acks).
Proof.
  intros [He Hf Hg] [Fe Fs Fr _ _ _] Hr. pose proof (He (other d)) as Ho. pose proof (Hg (other d)) as Hgo.
  split; intros []; destruct d; done.
Qed.

Context (HN : forall d, 0 <= N d < two31 - 2) (Hrecv : forall d, 0 < cap d < two63)
  (Hsend : forall d, 0 < TCPConfig.send_capacity (cfg d) < two63)
  (Hrt : forall d, 0 <= TCPConfig.rt_timeout (cfg d) < two64) (Hisn : forall d, WrappingInt32.wf (isn_of d)).

Lemma joint_opening : joint opening (fun _ => []) (fun _ => []).
Proof.
  split; intros d; cbn.
  - split; cbn; try done. pose proof (HN d). pose proof (HN (other d)). pose proof (Hrecv d).
    apply TCPConnection.connection_make_isn_wf; try done; lia.
  - split; cbn; try done; [by split; cbn|]. intros j [?|Hc]; [by left|]. by apply Exists_nil in Hc.
  - done.
Qed.

(** Moves of one side. *)
Lemma joint_moves x em acks d c : joint x em acks -> rtc (move (D d) (N d) (net x (other d))) (conn x d) c ->
  exists em' acks', joint (set_conn d c x) em' acks'.
Proof.
  intros Hj Hm. destruct (joint_facing _ _ _ d Hj) as [Hf Hs].
  destruct (facing_moves _ _ _ _ _ _ _ _ (HN _) (HN _) (Hrecv _) (Hisn _) _ _ _ Hm _ _ _ _ _ _ _ Hf Hs)
    as (em' & ackr' & _ & _ & Hf').
  assert (Hr : got x d = slice (D (other d)) 0 (ByteStream.n_bytes_read (TCPConnection.inbound_stream c))).
  { rewrite (jt_got _ _ _ Hj). by rewrite (moves_keep_read _ _ _ _ _ Hm). }
  pose proof (facing_joint _ _ _ d _ _ _ _ _ Hj Hf' Hr) as Hj'.
  eexists _, _. destruct Hj' as [H1 H2 H3].
  split; intros d'; [exact_at H1 d d'|exact_at H2 d d'|exact_at H3 d d'].
Qed.

(** Every event that is permitted can be performed. *)
Lemma perform_returns x em acks e : joint x em acks -> permitted e x -> exists x', perform e x = Ok x'.
Proof.
  intros Hj Hp.
  assert (Hstep : forall d o, TCPConnection.allowed (D d) (N d) (D (other d)) (N (other d)) (isn_of (other d)) o (conn x d) ->
    exists c, TCPConnection.step o (conn x d) = Ok c).
  { intros d o Ha. destruct (jt_end _ _ _ Hj d) as [Hw _ _ _ _].
    destruct (TCPConnection.connection_step_wf _ _ _ _ _ _ _ (Hisn _) (proj1 (Hrecv _)) o _ Hw Ha) as (c & E & _). by exists c. }
  destruct e as [d o|d|d|d seg|d n]; cbn [perform].
  - destruct (Hstep d o) as [c ->]; [by destruct o|by eexists].
  - by eexists.
  - by eexists.
  - destruct (joint_facing _ _ _ d Hj) as [Hf Hs]. rewrite Forall_forall in Hs.
    destruct (Hstep d (TCPConnection.SegmentReceived seg)) as [c E];
      [eapply sent_allowed; [apply HN|exact Hf|by apply Hs]|]. cbn in E. rewrite E. by eexists.
  - destruct (Hstep d (TCPConnection.ReadInbound n)) as [c E]; [exact Hp|]. cbn in E.
    apply bind_Ok in E as ([bs st] & -> & _). by eexists.
Qed.

(** The owner's operations, the destructor and an arrival are moves of one side. *)
Lemma perform_moves x e x' : permitted e x -> perform e x = Ok x' ->
  match e with
  | Owner d _ | Destroy d | Deliver d _ =>
      exists c, x' = set_conn d c x /\ rtc (move (D d) (N d) (net x (other d))) (conn x d) c
  | _ => True
  end.
Proof.
  intros Hp. destruct e as [d o|d|d|d seg|d n]; cbn [perform]; [| |done| |done].
  - intros (c & E & [= <-])%bind_Ok. exists c. split; [done|].
    destruct o as [|data| |seg|ms|n]; cbn in Hp, E; try done.
    + by apply moves_connect.
    + apply bind_Ok in E as ([n c1] & E & [= <-]). by eapply moves_write.
    + by apply moves_end_input.
    + injection E as <-. apply moves_tick.
  - intros [= <-]. eexists. split; [done|]. apply moves_destroy.
  - intros (c & E & [= <-])%bind_Ok. exists c. split; [done|]. by eapply moves_segment_received.
Qed.

Lemma joint_perform x em acks e x' : joint x em acks -> permitted e x -> perform e x = Ok x' ->
  exists em' acks', joint x' em' acks'.
Proof.
  intros Hj Hp E. pose proof (perform_moves x e x' Hp E) as Hm. revert E. destruct e as [d o|d|d|d seg|d n].
  1, 2, 4: intros _; destruct Hm as (c & -> & Hm); exact (joint_moves x em acks d c Hj Hm).
  - intros [= <-]. destruct (joint_facing _ _ _ d Hj) as [Hf _]. apply facing_transmit in Hf.
    destruct (facing_joint _ _ _ d _ _ (got x d) _ _ Hj Hf) as [H1 H2 H3]; [apply Hj|].
    eexists _, _. split; intros d'; [exact_at H1 d d'|exact_at H2 d d'|exact_at H3 d d'].
  - intros ([bs st] & E & [= <-])%bind_Ok. destruct (joint_facing _ _ _ d Hj) as [Hf _].
    pose proof (ep_wf _ _ _ _ _ _ _ _ _ _ _ (jt_end _ _ _ Hj d)) as Hw.
    apply (facing_read _ _ _ _ _ _ _ _ _ _ _ _ _ _ _ _ n bs st) in Hf; [|done|exact E].
    pose proof (read_continues _ _ _ _ _ _ _ _ _ _ _ Hw Hp E) as Hbs. rewrite <- (jt_got _ _ _ Hj d) in Hbs.
    destruct (facing_joint _ _ _ d _ _ (got x d ++ bs) _ _ Hj Hf Hbs) as [H1 H2 H3].
    eexists _, _. split; intros d'; [exact_at H1 d d'|exact_at H2 d d'|exact_at H3 d d'].
Qed.

Lemma reaches_cfg x : reaches x -> forall d, TCPConnection._cfg (conn x d) = cfg d.
Proof.
  induction 1 as [|x e x' _ IH Hp E]; [done|]. pose proof (perform_moves x e x' Hp E) as Hm. intros d'. specialize (IH d').
  revert E. destruct e as [d o|d|d|d seg|d n].
  1, 2, 4: intros _; destruct Hm as (c & -> & Hm%moves_keep_cfg); destruct d, d'; first [exact IH|exact (eq_trans Hm IH)].
  - intros [= <-]. by destruct d, d'.
  - intros ([bs st] & _ & [= <-])%bind_Ok. by destruct d, d'.
Qed.

Lemma reaches_joint x : reaches x -> exists em acks, joint x em acks.
Proof.
  induction 1 as [|x e x' _ (em & acks & Hj) Hp E]; [by eexists _, _; apply joint_opening|by eapply joint_perform].
Qed.

(** What a side has assembled, read or not, is the beginning of what its peer writes. *)
Lemma assembled_prefix x em acks d : joint x em acks ->
  let f := StreamReassembler.first_unasmb (TCPReceiver._reassembler (TCPConnection._receiver (conn x d))) in
  0 <= f <= N (other d) /\
  got x d ++ ByteStream.contents (TCPConnection.inbound_stream (conn x d)) = slice (D (other d)) 0 f.
Proof.
  intros Hj f. pose proof (ep_wf _ _ _ _ _ _ _ _ _ _ _ (jt_end _ _ _ Hj d)) as Hw.
  pose proof (TCPConnection.inbound_position _ _ _ _ _ _ _ _ Hw) as Hpos. rewrite (jt_got _ _ _ Hj d).
  destruct Hw as [_ _ _ [[[] _] _ _] _]. fold f in Hpos, co_first, co_contents |- *.
  change (StreamReassembler._output (TCPReceiver._reassembler (TCPConnection._receiver (conn x d)))) with
    (TCPConnection.inbound_stream (conn x d)) in *.
  pose proof (ByteStream.wf_size _ co_out). split; [lia|]. rewrite co_contents, Hpos.
  set (k := ByteStream.cur_size _) in *. replace f with (f - k + k) at 3 by lia. by rewrite slice_app by lia.
Qed.

(** A side whose receiver has acknowledged the FIN has the whole stream. *)
Lemma complete_side x em acks d : joint x em acks ->
  rack (TCPConnection._receiver (conn x d)) = N (other d) + 2 ->
  ByteStream.input_ended (TCPConnection.inbound_stream (conn x d)) = true /\
  got x d ++ ByteStream.contents (TCPConnection.inbound_stream (conn x d)) = slice (D (other d)) 0 (N (other d)).
Proof.
  intros Hj Hr. destruct (assembled_prefix _ _ _ d Hj) as [_ Hs].
  destruct (jt_end _ _ _ Hj d) as [[_ _ _ Hw _] _ _ _ _].
  destruct (rack_range _ _ _ (HN _) _ _ Hw) as (_ & Hend & _). destruct (Hend Hr) as [He Hf].
  rewrite Hf in Hs. done.
Qed.

(** The acknowledgments of the peer vouch for what it has. *)
Lemma over_complete x em acks d : joint x em acks -> TCPConnection.active (conn x d) = false ->
  ByteStream.error (TCPConnection.stream_in (conn x d)) = false ->
  rack (TCPConnection._receiver (conn x d)) = N (other d) + 2 /\
  rack (TCPConnection._receiver (conn x (other d))) = N d + 2.
Proof.
  intros Hj Ha He. destruct (jt_end _ _ _ Hj d) as [_ _ _ _ Ho].
  destruct (Ho Ha) as [?|[Hr Hk]]; [congruence|]. split; [done|].
  destruct (jt_flow _ _ _ Hj d) as [_ _ _ _ _ Hack _]. destruct (jt_end _ _ _ Hj (other d)) as [[_ _ _ Hw _] _ _ _ _].
  replace (other (other d)) with d in Hw by (by destruct d).
  destruct (rack_range _ _ _ (HN _) _ _ Hw) as (? & _ & _). lia.
Qed.

(** Everything that has been sent may arrive, again and again. *)
Lemma reaches_deliveries d segs : forall x, reaches x -> segs ⊆ net x (other d) ->
  exists x', perform_all (Deliver d <$> segs) x = Ok x' /\ reaches x' /\ net x' = net x.
Proof.
  induction segs as [|seg segs IH]; intros x Hx Hs; [by exists x|].
  destruct (reaches_joint x Hx) as (em & acks & Hj).
  assert (Hp : permitted (Deliver d seg) x) by (apply Hs; constructor).
  destruct (perform_returns _ _ _ _ Hj Hp) as [x1 E]. pose proof (reaches_event _ _ _ Hx Hp E) as Hx1.
  assert (Hn : net x1 = net x) by (cbn in E; by apply bind_Ok in E as (c & _ & [= <-])).
  destruct (IH x1 Hx1) as (x2 & E2 & Hx2 & Hn2); [rewrite Hn; intros g Hg; apply Hs; by constructor|].
  exists x2. cbn [fmap list_fmap perform_all]. rewrite E. split; [exact E2|]. split; [done|congruence].
Qed.
End Session.

(** ** Theorems *)

(** *** A session to look at

    A turn is one event, or a side's segments all reaching the other side, those of
    earlier turns again. *)
Inductive turn : Type := Once (e : event) | Exchange (d : side).

Definition take_turn (t : turn) (x : session) : res session :=
  match t with
  | Once e => perform e x
  | Exchange d => x1 ← perform (Transmit d) x; perform_all (Deliver (other d) <$> net x1 d) x1
  end.

Fixpoint take_turns (ts : list turn) (x : session) : res session :=
  match ts with
  | [] => Ok x
  | t :: ts' => x' ← take_turn t x; take_turns ts' x'
  end.

Fixpoint in_order (D : side -> Z -> byte) (N : side -> Z) (cfg : side -> TCPConfig.t) (random : side -> Z)
  (ts : list turn) (x : session) : Prop :=
  match ts with
  | [] => True
  | t :: ts' => match t with Once e => permitted D N cfg random e x | Exchange _ => True end /\
      match take_turn t x with Ok x' => in_order D N cfg random ts' x' | Throw _ => False end
  end.

(** Client: three letters to write and room for two; server: one letter. *)
Definition demo_length (d : side) : Z := match d with Client => 3 | Server => 1 end.
Definition demo_cfgs (d : side) : TCPConfig.t :=
  TCPConfig.mk 1000 2 10 (Some (WrappingInt32.make (match d with Client => 5 | Server => 4294967295 end))).
Definition demo_opening : session := opening demo_cfgs (fun _ => 0).
Definition demo_half : list turn :=
  [Once (Owner Client TCPConnection.Connect); Exchange Client; Exchange Server;
   Once (Owner Client (TCPConnection.Write [x61; x61; x61])); Once (Owner Client TCPConnection.EndInputStream);
   Exchange Client; Once (Read Server 2); Once (Owner Server (TCPConnection.Write [x61]));
   Exchange Server; Exchange Client].
Definition demo_all : list turn :=
  demo_half ++ [Once (Owner Server TCPConnection.EndInputStream); Exchange Server; Exchange Client;
    Exchange Server; Exchange Client; Once (Owner Server (TCPConnection.Tick 10000))].

Lemma demo_conditions :
  (forall d, 0 <= demo_length d < two31 - 2) /\ (forall d, 0 < TCPConfig.recv_capacity (demo_cfgs d) < two63) /\
  (forall d, 0 < TCPConfig.send_capacity (demo_cfgs d) < two63) /\
  (forall d, 0 <= TCPConfig.rt_timeout (demo_cfgs d) < two64) /\
  (forall d, WrappingInt32.wf (isn_of demo_cfgs (fun _ => 0) d)).
Proof. split_and!; intros []; cbn; try lia; apply WrappingInt32.wrapping_make_wf. Qed.

#[local] Abbreviation demo_reaches := (reaches (fun _ => TCPSender.letter_a) demo_length demo_cfgs (fun _ => 0)).

Lemma in_order_reaches ts : forall x, demo_reaches x ->
  in_order (fun _ => TCPSender.letter_a) demo_length demo_cfgs (fun _ => 0) ts x ->
  exists x', take_turns ts x = Ok x' /\ demo_reaches x'.
Proof.
  destruct demo_conditions as (H1 & H2 & H3 & H4 & H5).
  induction ts as [|t ts IH]; intros x Hx; [by exists x|]. intros [Hp Hts]. cbn [take_turns].
  assert (Ht : exists x', take_turn t x = Ok x' /\ demo_reaches x').
  { destruct t as [e|d]; cbn [take_turn] in *.
    - destruct (perform e x) as [x'|] eqn:E; [|done]. exists x'. split; [done|]. by eapply reaches_event.
    - destruct (reaches_joint _ _ _ _ H1 H2 H3 H4 H5 x Hx) as (em & acks & Hj).
      pose proof (reaches_event _ _ _ _ x (Transmit d) _ Hx I eq_refl) as Hx1.
      destruct (reaches_deliveries _ _ _ _ H1 H2 H3 H4 H5 (other d) (net x d ++ TCPConnection._segments_out (conn x d)) _ Hx1)
        as (x' & E & Hx' & _); [by destruct d|]. exists x'. split; [|done]. rewrite <- E. cbn. by destruct d. }
  destruct Ht as (x' & E & Hx'). rewrite E in Hts |- *. by apply IH.
Qed.

Lemma demo_runs ts : in_order (fun _ => TCPSender.letter_a) demo_length demo_cfgs (fun _ => 0) ts demo_opening ->
  exists x, take_turns ts demo_opening = Ok x /\ demo_reaches x.
Proof. intros Ho. apply in_order_reaches; [constructor|done]. Qed.

Lemma demo_half_in_order : in_order (fun _ => TCPSender.letter_a) demo_length demo_cfgs (fun _ => 0) demo_half demo_opening.
Proof. vm_compute. repeat (split || right || discriminate). Qed.

Lemma demo_all_in_order : in_order (fun _ => TCPSender.letter_a) demo_length demo_cfgs (fun _ => 0) demo_all demo_opening.
Proof. vm_compute. repeat (split || right || discriminate). Qed.

(** Reading something off the state that the turns lead to. *)
Definition observed {A} (ts : list turn) (f : session -> A) : option A :=
  match take_turns ts demo_opening with Ok x => Some (f x) | Throw _ => None end.

Lemma observed_eq {A} (ts : list turn) (f : session -> A) x a : take_turns ts demo_opening = Ok x ->
  observed ts f = Some a -> f x = a.
Proof. unfold observed. intros ->. by intros [= <-]. Qed.

(** C1: two connections that talk over a network that loses, duplicates, delays and
    reorders segments never throw: every operation of the owners and every arrival of a
    segment that was sent returns.  At each side, what has been read followed by what is
    buffered is the beginning of what the peer writes, and the end of the stream is seen
    only after all of it. *)
Theorem session_safe (D : side -> Z -> byte) (N : side -> Z) (cfg : side -> TCPConfig.t) (random : side -> Z) (x : session)
  (HN : forall d, 0 <= N d < two31 - 2) (Hrecv : forall d, 0 < TCPConfig.recv_capacity (cfg d) < two63)
  (Hsend : forall d, 0 < TCPConfig.send_capacity (cfg d) < two63)
  (Hrt : forall d, 0 <= TCPConfig.rt_timeout (cfg d) < two64) (Hisn : forall d, WrappingInt32.wf (isn_of cfg random d))
  (Hx : reaches D N cfg random x) :
  (forall e, permitted D N cfg random e x -> exists x', perform e x = Ok x') /\
  forall d,
    (exists n, 0 <= n <= N (other d) /\
       got x d ++ ByteStream.contents (TCPConnection.inbound_stream (conn x d)) = slice (D (other d)) 0 n) /\
    (ByteStream.eof (TCPConnection.inbound_stream (conn x d)) = true -> got x d = slice (D (other d)) 0 (N (other d))).
Proof.
  destruct (reaches_joint D N cfg random HN Hrecv Hsend Hrt Hisn x Hx) as (em & acks & Hj). split.
  - intros e. by eapply perform_returns.
  - intros d. destruct (assembled_prefix D N cfg random x em acks d Hj) as [Hf Hs]. split; [by eexists|].
    intros He. rewrite (jt_got _ _ _ _ _ _ _ Hj d). f_equal.
    exact (TCPConnection.inbound_eof _ _ _ _ _ _ _ _ (ep_wf _ _ _ _ _ _ _ _ _ _ _ (jt_end _ _ _ _ _ _ _ Hj d)) He).
Qed.

(** Half of the session: the server has read two letters and has one more. *)
Lemma session_safe_witness :
  exists x, take_turns demo_half demo_opening = Ok x /\
    got x Server ++ ByteStream.contents (TCPConnection.inbound_stream (conn x Server)) = [x61; x61; x61] /\
    (exists x', perform (Destroy Client) x = Ok x') /\
    exists n, 0 <= n <= 3 /\
      got x Server ++ ByteStream.contents (TCPConnection.inbound_stream (conn x Server)) = slice TCPSender.letter_a 0 n.
Proof.
  destruct (demo_runs demo_half demo_half_in_order) as (x & E & Hx). exists x. split; [exact E|]. split.
  { apply (observed_eq demo_half (fun x => got x Server ++ ByteStream.contents (TCPConnection.inbound_stream (conn x Server))) x _ E).
    vm_compute. reflexivity. }
  destruct demo_conditions as (H1 & H2 & H3 & H4 & H5).
  destruct (session_safe (fun _ => TCPSender.letter_a) demo_length demo_cfgs (fun _ => 0) x H1 H2 H3 H4 H5 Hx) as [He Hd].
  split; [exact (He (Destroy Client) I)|exact (proj1 (Hd Server))].
Defined.

(** C2: a connection that is over and has not failed was closed with both streams
    complete.  Its own receiver has assembled all that the peer wrote and the end of it,
    and so has the receiver at the other end of the network. *)
Theorem session_clean_close (D : side -> Z -> byte) (N : side -> Z) (cfg : side -> TCPConfig.t) (random : side -> Z)
  (x : session) (d : side)
  (HN : forall d, 0 <= N d < two31 - 2) (Hrecv : forall d, 0 < TCPConfig.recv_capacity (cfg d) < two63)
  (Hsend : forall d, 0 < TCPConfig.send_capacity (cfg d) < two63)
  (Hrt : forall d, 0 <= TCPConfig.rt_timeout (cfg d) < two64) (Hisn : forall d, WrappingInt32.wf (isn_of cfg random d))
  (Hx : reaches D N cfg random x)
  (Hover : TCPConnection.active (conn x d) = false)
  (Hclean : ByteStream.error (TCPConnection.stream_in (conn x d)) = false) :
  forall e, ByteStream.input_ended (TCPConnection.inbound_stream (conn x e)) = true /\
    got x e ++ ByteStream.contents (TCPConnection.inbound_stream (conn x e)) = slice (D (other e)) 0 (N (other e)).
Proof.
  destruct (reaches_joint D N cfg random HN Hrecv Hsend Hrt Hisn x Hx) as (em & acks & Hj).
  destruct (over_complete D N cfg random HN x em acks d Hj Hover Hclean) as [Hr Hp].
  assert (Hb : forall e, rack (TCPConnection._receiver (conn x e)) = N (other e) + 2)
    by (intros e; destruct d, e; done).
  intros e. by eapply complete_side.
Qed.

(** The whole session: the server's connection is over, and the client has the letter
    that the server wrote. *)
Lemma session_clean_close_witness :
  exists x, take_turns demo_all demo_opening = Ok x /\ TCPConnection.active (conn x Server) = false /\
    got x Client ++ ByteStream.contents (TCPConnection.inbound_stream (conn x Client)) = [x61].
Proof.
  destruct (demo_runs demo_all demo_all_in_order) as (x & E & Hx). exists x. split; [exact E|].
  assert (Hov : TCPConnection.active (conn x Server) = false /\
    ByteStream.error (TCPConnection.stream_in (conn x Server)) = false).
  { split; [apply (observed_eq demo_all (fun x => TCPConnection.active (conn x Server)) x _ E)
      |apply (observed_eq demo_all (fun x => ByteStream.error (TCPConnection.stream_in (conn x Server))) x _ E)]; vm_compute; reflexivity. }
  destruct Hov as [Hov Hcl]. split; [exact Hov|]. destruct demo_conditions as (H1 & H2 & H3 & H4 & H5).
  exact (proj2 (session_clean_close (fun _ => TCPSender.letter_a) demo_length demo_cfgs (fun _ => 0) x Server
    H1 H2 H3 H4 H5 Hx Hov Hcl Client)).
Defined.
