(* ===== verification/SessionLiveness.v ===== *)
(** * A session that comes to its end

    Two connections that have written and ended their streams, in any state that they
    can reach over the network of Session.v, as long as neither has failed.  When from
    then on everything that was sent gets through, with as much repetition as one likes,
    both streams are delivered and acknowledged, and once ten timeouts have passed both
    connections are over without an error. *)

From S2P Require Import Prelude Wrapping Stream Reassembly Buffers TcpWire TcpReceiver TcpSender Transfer Liveness TcpConnection Session.
From Stdlib Require Import Strings.Byte.
From stdpp Require Import functions relations.
#[local] Open Scope list_scope.
#[local] Open Scope Z_scope.

Lemma carries_refl seg : TCPConnection.carries seg seg.
Proof. done. Qed.

Lemma carries_length seg seg0 : TCPConnection.carries seg seg0 ->
  TCPSegment.length_in_sequence_space seg = TCPSender.slen seg0.
Proof. intros (Hp & _ & Hs & Hf). unfold TCPSender.slen, TCPSegment.length_in_sequence_space. by rewrite Hp, Hs, Hf. Qed.

(** A receiver that asks for nothing new has assembled nothing new. *)
Lemma nothing_new D N cap isn seg r r' : TCPReceiver.wf D N cap isn r -> TCPReceiver.wf D N cap isn r' ->
  TCPReceiver.segment_received seg r = Ok r' -> rack r' <= rack r ->
  StreamReassembler.first_unasmb (TCPReceiver._reassembler r) <= StreamReassembler.first_unasmb (TCPReceiver._reassembler r') ->
  StreamReassembler.first_unasmb (TCPReceiver._reassembler r') = StreamReassembler.first_unasmb (TCPReceiver._reassembler r).
Proof.
  intros [[Hc He] _ _] [[Hc' He'] _ _] E Hm Hf. pose proof (StreamReassembler.co_first _ _ _ Hc') as Hf'.
  pose proof (ByteStream.wf_size _ (StreamReassembler.co_out _ _ _ Hc')).
  assert (Hsyn : TCPReceiver.syn_received r' = TCPReceiver.syn_received r /\ (TCPReceiver.syn_received r = false -> r' = r) \/ rack r < rack r').
  { revert E. unfold TCPReceiver.segment_received. set (r0 := if TCPHeader.syn _ then _ else r).
    destruct (TCPReceiver.syn_received r) eqn:Es.
    - assert (Es0 : TCPReceiver.syn_received r0 = true) by (unfold r0; by destruct (TCPHeader.syn _)).
      rewrite Es0. cbn [negb]. intros (a & _ & [= <-])%bind_Ok. by left.
    - destruct (TCPReceiver.syn_received r0) eqn:Es0; cbn [negb].
      + intros (a & _ & [= <-])%bind_Ok. right. unfold rack at 1. rewrite Es. unfold rack. cbn in *. case_match; lia.
      + intros [= <-]. left. unfold r0 in *. by destruct (TCPHeader.syn _). }
  destruct Hsyn as [[Hsyn Hid]|?]; [|lia]. unfold rack in Hm. rewrite Hsyn in Hm.
  destruct (TCPReceiver.syn_received r); [|by rewrite Hid].
  destruct (ByteStream.input_ended (TCPReceiver.stream_out r)) eqn:Ee; [|case_match; lia].
  apply He in Ee as [_ Hn]. lia.
Qed.

(** ** The sender of a connection between two calls *)

(** The stream has not failed, what is outstanding has been sent ([sent]) or waits in the
    queue, an empty list of outstanding segments means that nothing is being
    retransmitted, and the first sequence number went out in some segment. *)
Definition loose (s : TCPSender.t) (sent : list TCPSegment.t) : Prop :=
  ByteStream.error (TCPSender._stream s) = false /\
  (0 < TCPSender._next_seqno s -> sent ++ TCPSender._segments_out s <> []) /\
  (TCPSender._outstanding_segments s = [] -> TCPSender._n_consec_retransmissions s = 0) /\
  forall o, o ∈ TCPSender._outstanding_segments s ->
    exists seg, seg ∈ sent ++ TCPSender._segments_out s /\ TCPConnection.carries seg (TCPSender.segment o).

(** A stream that has ended is on its way: the SYN is out, and nothing is outstanding
    only when the FIN has been acknowledged. *)
Definition tidy (N : Z) (s : TCPSender.t) (sent : list TCPSegment.t) : Prop :=
  loose s sent /\
  (ByteStream.done_writing (TCPSender._stream s) = true ->
   0 < TCPSender._next_seqno s /\ (TCPSender._outstanding_segments s = [] -> TCPSender._next_seqno s = N + 2)).

Lemma loose_more s sent sent' : sent ⊆ sent' -> loose s sent -> loose s sent'.
Proof.
  intros Hs (Her & Hp & Hf & Ho). split; [done|]. split; [|split; [done|]].
  { intros Hn [-> Hq]%app_eq_nil. apply (Hp Hn). rewrite Hq, app_nil_r. by apply list_nil_subseteq. }
  intros o Hin. destruct (Ho o Hin) as (seg & Hseg & Hc). exists seg. split; [|done].
  rewrite elem_of_app in *. destruct Hseg as [?|?]; [left; by apply Hs|by right].
Qed.

Lemma loose_stream s st sent : loose s sent -> ByteStream.error st = ByteStream.error (TCPSender._stream s) ->
  loose (TCPSender.set_stream st s) sent.
Proof. intros (He & Hl) Heq. split; [cbn; congruence|exact Hl]. Qed.

Section Sender.
Context (D : Z -> byte) (N : Z).

Lemma loose_fill s sent s' : TCPSender.wf D N s -> loose s sent -> TCPSender.fill_window s = Ok s' -> tidy N s' sent.
Proof.
  intros Hw (Her & Hp & Hf & Ho) E. destruct (TCPSender.fill_window_spec D N s Hw) as (new & s1 & E1 & Hw1 & [] & Hpos & Hset).
  rewrite E in E1. injection E1 as <-. split; [split_and!|].
  - unfold ByteStream.error in *. congruence.
  - intros _. rewrite gr_out, app_assoc. intros [Hq Hnew]%app_eq_nil. apply fmap_nil_inv in Hnew. subst new. cbn in gr_chain.
    apply Hp; [lia|done].
  - rewrite gr_outstanding. intros [? _]%app_eq_nil. rewrite gr_retx. by apply Hf.
  - intros o. rewrite gr_outstanding, gr_out, elem_of_app. intros [Hin|Hin].
    + destruct (Ho o Hin) as (seg & Hseg & Hc). exists seg. split; [|done]. rewrite app_assoc. apply elem_of_app. by left.
    + exists (TCPSender.segment o). split; [|apply carries_refl]. rewrite app_assoc. apply elem_of_app. right. by apply list_elem_of_fmap_2.
  - intros Hd. split; [done|]. intros He. destruct Hset as [Hlim|[_ Hend]]; [|by apply Hend].
    pose proof (TCPSender.wf_chain _ _ _ Hw1) as (sq & _ & Hm). rewrite He in Hm. unfold TCPSender.window_limit in Hlim. lia.
Qed.

Lemma tidy_ack s sent a w s' : TCPSender.wf D N s -> tidy N s sent -> 0 <= w < two16 ->
  TCPSender.ack_received a w s = Ok s' -> tidy N s' sent.
Proof.
  intros Hw [(Her & Hp & Hf & Ho) Hd] Hwd E. pose proof (TCPSender.ack_received_spec D N s a w Hw Hwd) as Hs. cbv zeta in Hs. case_match.
  - destruct Hs as (dr & rest & s0 & new & s1 & Hl & _ & _ & Hw0 & Hr & _ & _ & Hnx & _ & Hq & Hst & Hn & _ & E1 & _).
    rewrite E1 in E. apply (loose_fill s0); [done| |done]. split; [by rewrite Hst|]. split; [by rewrite Hnx, Hq|]. split; [done|]. rewrite Hr, Hq. intros o Hin. apply Ho.
    rewrite Hl. apply elem_of_app. by right.
  - destruct Hs as (s1 & E1 & _ & Hq & Hl & _ & _ & Hn & _ & Hc & Hst & _). rewrite E1 in E. injection E as <-.
    unfold tidy, loose. by rewrite Hq, Hl, Hn, Hc, Hst.
Qed.

Lemma tidy_tick s sent ms : tidy N s sent -> tidy N (TCPSender.tick ms s) sent.
Proof.
  intros [(Her & Hp & Hf & Ho) Hd]. unfold TCPSender.tick. destruct (Timer.expired _); [|by split].
  destruct (TCPSender._outstanding_segments s) as [|o l] eqn:El.
  - split; [split; [done|]; split; [done|]; split; [done|]|]; cbn; [intros o Hin; by apply elem_of_nil in Hin|done].
  - assert (Ho' : forall o', o' ∈ o :: l -> exists seg, seg ∈ sent ++ TCPSender._segments_out s ++ [TCPSender.segment o] /\
      TCPConnection.carries seg (TCPSender.segment o')).
    { intros o' Hin. destruct (Ho o' Hin) as (seg & Hseg & Hc). exists seg. split; [|done].
      rewrite app_assoc. apply elem_of_app. by left. }
    assert (Hp' : sent ++ TCPSender._segments_out s ++ [TCPSender.segment o] <> []) by (rewrite app_assoc; by intros [_ ?]%app_eq_nil).
    destruct (0 <? _); (split; [split; [done|]; split; [done|]; split; [done|]|]; cbn; [exact Ho'|exact Hd]).
Qed.

Lemma tidy_empty s sent : tidy N s sent -> tidy N (TCPSender.send_empty_segment s) sent.
Proof.
  intros [(Her & Hp & Hf & Ho) Hd]. split; [split; [exact Her|]; split; [|split; [exact Hf|]]|exact Hd]; cbn.
  { intros _. rewrite app_assoc. by intros [_ ?]%app_eq_nil. }
  intros o Hin.
  destruct (Ho o Hin) as (seg & Hseg & Hc). exists seg. split; [|done]. rewrite app_assoc. apply elem_of_app. by left.
Qed.
End Sender.

(** ** The connection between two calls *)

Section Connection.
Context (Ds : Z -> byte) (Ns : Z) (Is : WrappingInt32.t) (Dr : Z -> byte) (Nr cap : Z) (Ir : WrappingInt32.t).
#[local] Abbreviation wf := (TCPConnection.wf Ds Ns Is Dr Nr cap Ir).

(** [n] is what has been taken from the connection's queue; nothing waits in the
    sender's. *)
Definition orderly (c : TCPConnection.t) (n : list TCPSegment.t) : Prop :=
  tidy Ns (TCPConnection._sender c) (TCPConnection._segments_out c ++ n).
Definition tended (c : TCPConnection.t) (n : list TCPSegment.t) : Prop :=
  orderly c n /\ TCPSender.segments_out (TCPConnection._sender c) = [].

Lemma tended_send rst c n : TCPConnection.active c = true -> orderly c n -> tended (TCPConnection.send_segments rst c) n.
Proof.
  intros Ha [(Her & Hp & Hf & Ho) Hd]. rewrite TCPConnection.send_segments_spec by done. split; [|done].
  split; [split; [exact Her|]; split; [|split; [exact Hf|]]|exact Hd].
  { intros Hn [[[H1 H2]%app_eq_nil H3]%app_eq_nil _]%app_eq_nil. apply fmap_nil_inv in H2. apply (Hp Hn).
    unfold TCPSender.segments_out in H2. by rewrite H1, H2, H3. }
  intros o Hin. destruct (Ho o Hin) as (seg & Hseg & Hc). cbn. rewrite app_nil_r.
  rewrite !elem_of_app in Hseg. destruct Hseg as [[Hs|Hs]|Hs].
  - exists seg. split; [|done]. rewrite !elem_of_app. by left; left.
  - exists seg. split; [|done]. rewrite !elem_of_app. by right.
  - exists (TCPConnection.stamp (TCPConnection._receiver c) rst seg). split.
    + rewrite !elem_of_app. left; right. by apply list_elem_of_fmap_2.
    + destruct (TCPConnection.stamp_carries (TCPConnection._receiver c) rst seg) as (H1 & H2 & H3 & H4), Hc as (K1 & K2 & K3 & K4).
      split_and!; congruence.
Qed.

Lemma orderly_fill c n c' : wf c -> loose (TCPConnection._sender c) (TCPConnection._segments_out c ++ n) ->
  TCPConnection.on_sender TCPSender.fill_window c = Ok c' -> orderly c' n /\ TCPConnection.active c' = TCPConnection.active c.
Proof. intros [Hw _ _ _ _] Hl (s & E & [= <-])%bind_Ok. split; [|done]. by eapply loose_fill. Qed.

Lemma tended_connect c n c' : wf c -> orderly c n -> TCPConnection.active c = true -> TCPConnection.connect c = Ok c' ->
  tended c' n /\ TCPConnection.active c' = true.
Proof.
  intros Hw [Hl _] Ha (c1 & E & [= <-])%bind_Ok. destruct (orderly_fill _ n _ Hw Hl E) as [Ho Ha1].
  rewrite Ha in Ha1. split; [by apply tended_send|]. by rewrite TCPConnection.send_segments_spec.
Qed.

Lemma tended_try_closing c n : orderly c n -> TCPConnection.active (TCPConnection.try_closing_connection c) = true ->
  tended (TCPConnection.try_closing_connection c) n.
Proof.
  intros Ho. unfold TCPConnection.try_closing_connection. destruct (TCPConnection.active c) eqn:Ha; cbn [negb]; [|congruence].
  destruct (_ && _ && _); [discriminate|]. intros _. by apply tended_send.
Qed.

Lemma tended_write data c n k c' : wf c -> tended c n -> TCPConnection.active c = true ->
  ByteStream.input_ended (TCPConnection.stream_in c) || negb (TCPConnection.syn_sent c) = true \/
    TCPSender.allowed Ds Ns (TCPSender.Write data) (TCPConnection._sender c) ->
  TCPConnection.write data c = Ok (k, c') -> tended c' n.
Proof.
  intros Hw [Ho Hq] Ha Hal. unfold TCPConnection.write. destruct (_ || _); [by intros [= _ <-]|].
  destruct Hal as [|Hal]; [done|].
  destruct (TCPConnection.wf_sender_step Ds Ns Is Dr Nr cap Ir (TCPSender.Write data) c Hw Hal) as (s & <-%Ok_inj & Hw1);
    [by eexists []; rewrite app_nil_r|].
  unfold TCPConnection.stream_in, TCPSender.stream_in. destruct (ByteStream.write _ _) as [m st] eqn:Ew. cbn in Hw1.
  apply (f_equal snd) in Ew. cbn in Ew. intros (c2 & E & [= _ <-])%bind_Ok.
  destruct (orderly_fill _ n _ Hw1 (loose_stream _ st _ (proj1 Ho) ltac:(by subst st)) E) as [Ho2 Ha2].
  apply tended_send; [by rewrite Ha2|done].
Qed.

Lemma tended_end_input c n c' : wf c -> tended c n -> TCPSender.allowed Ds Ns TCPSender.EndInput (TCPConnection._sender c) ->
  TCPConnection.end_input_stream c = Ok c' -> TCPConnection.active c' = true -> tended c' n.
Proof.
  intros Hw [Ho Hq] Hal (c2 & E & [= <-])%bind_Ok.
  destruct (TCPConnection.wf_sender_step Ds Ns Is Dr Nr cap Ir TCPSender.EndInput c Hw Hal) as (s & [= <-] & Hw1);
    [by eexists []; rewrite app_nil_r|].
  destruct (orderly_fill _ n _ Hw1 (loose_stream _ _ _ (proj1 Ho) eq_refl) E) as [Ho2 _]. by apply tended_try_closing.
Qed.

Lemma tended_tick ms c n : tended c n -> TCPConnection.active (TCPConnection.tick ms c) = true -> tended (TCPConnection.tick ms c) n.
Proof.
  intros [Ho Hq]. unfold TCPConnection.tick. destruct (TCPConnection.active c) eqn:Ha; cbn [negb]; [|congruence].
  destruct (_ <? _).
  - unfold TCPConnection.try_closing_connection. cbn. discriminate.
  - apply tended_try_closing, tended_send; [exact Ha|]. by apply tidy_tick.
Qed.

(** ** A segment arrives *)

Context (HIr : WrappingInt32.wf Ir).

(** Until the SYN has been sent no acknowledgment is accepted. *)
Lemma early_ack s a w s' : TCPSender.wf Ds Ns s -> 0 <= w < two16 -> TCPSender.ack_received a w s = Ok s' ->
  TCPSender._next_seqno s' <= 0 -> TCPSender._segments_out s' = TCPSender._segments_out s.
Proof.
  intros Hw Hwd E Hn. pose proof (TCPSender.ack_received_spec Ds Ns s a w Hw Hwd) as Hs. cbv zeta in Hs.
  pose proof (TCPSender.wf_ack _ _ _ Hw). destruct (step_effect Ds Ns (TCPSender.Ack a w) s s' Hw Hwd E) as [[_ Hnx _ _] _].
  case_match eqn:Hc; [zb; lia|]. destruct Hs as (s1 & E1 & _ & Hq & _). rewrite E1 in E. by injection E as <-.
Qed.

Lemma tended_reply seg c n : orderly c n -> (TCPConnection.syn_sent c = false -> TCPSender.segments_out (TCPConnection._sender c) = []) ->
  TCPConnection.active c = true -> tended (TCPConnection.reply seg c) n /\ TCPConnection.active (TCPConnection.reply seg c) = true.
Proof.
  intros Ho Hq Ha. unfold TCPConnection.reply. destruct (TCPConnection.syn_sent c) eqn:Es; [|by split; [split; [|apply Hq]|]].
  set (c1 := if _ && _ then _ else c).
  assert (H1 : orderly c1 n /\ TCPConnection.active c1 = true).
  { unfold c1. destruct (_ && _); [|done]. split; [by apply tidy_empty|done]. }
  destruct H1 as [Ho1 Ha1]. split; [by apply tended_send|]. by rewrite TCPConnection.send_segments_spec.
Qed.

Lemma tended_switch c n : tended c n -> tended (TCPConnection.try_switching_close_mode c) n.
Proof. unfold TCPConnection.try_switching_close_mode. by destruct (_ && _). Qed.

Lemma active_switch c : TCPConnection.active (TCPConnection.try_switching_close_mode c) = TCPConnection.active c.
Proof. unfold TCPConnection.try_switching_close_mode. by destruct (_ && _). Qed.

(** The call up to the replies: the receiver has the segment, the sender the
    acknowledgment. *)
Lemma received_split seg c c' : wf c -> TCPConnection.allowed Ds Ns Dr Nr Ir (TCPConnection.SegmentReceived seg) c ->
  TCPHeader.rst (TCPSegment.header seg) = false -> TCPConnection.segment_received seg c = Ok c' ->
  exists r s, TCPReceiver.segment_received seg (TCPConnection._receiver c) = Ok r /\
    let c2 := TCPConnection.set_sender s (TCPConnection.set_timer 0 (TCPConnection.set_receiver r c)) in
    wf c2 /\
    (if TCPHeader.ack (TCPSegment.header seg)
     then TCPSender.ack_received (TCPHeader.ackno (TCPSegment.header seg)) (TCPHeader.win (TCPSegment.header seg))
            (TCPConnection._sender c) = Ok s else s = TCPConnection._sender c) /\
    exists c3, (if TCPHeader.syn (TCPSegment.header seg) && negb (TCPConnection.syn_sent (TCPConnection.reply seg c2))
      then TCPConnection.connect (TCPConnection.reply seg c2) else Ok (TCPConnection.reply seg c2)) = Ok c3 /\
      c' = TCPConnection.try_switching_close_mode c3.
Proof.
  intros Hw Hal Hrst E. destruct (TCPConnection.receiver_step Ds Ns Is Dr Nr cap Ir HIr c seg Hw Hal) as (r & Er & Hr).
  unfold TCPConnection.segment_received in E. rewrite Er, Hrst in E. cbn [mbind res_bind] in E.
  apply bind_Ok in E as (c2 & E2 & E). apply bind_Ok in E as (c3 & E3 & [= <-]).
  set (c1 := TCPConnection.set_timer 0 (TCPConnection.set_receiver r c)) in *.
  assert (Hw1 : wf c1) by (destruct Hw; by split). destruct (TCPHeader.ack _) eqn:Ea.
  - destruct (TCPConnection.wf_ack Ds Ns Is Dr Nr cap Ir c1 (TCPHeader.ackno (TCPSegment.header seg)) _ Hw1 (proj1 Hal)) as (c2' & E2' & Hw2 & _).
    rewrite E2 in E2'. injection E2' as <-. apply bind_Ok in E2 as (s & Es & [= <-]).
    exists r, s. split; [done|]. cbv zeta. split; [exact Hw2|]. split; [exact Es|]. by exists c3.
  - injection E2 as <-. exists r, (TCPConnection._sender c). split; [done|]. cbv zeta. split; [exact Hw1|]. split; [done|]. by exists c3.
Qed.

Lemma tended_received seg c n c' : wf c -> TCPConnection.allowed Ds Ns Dr Nr Ir (TCPConnection.SegmentReceived seg) c ->
  TCPHeader.rst (TCPSegment.header seg) = false -> tended c n -> TCPConnection.active c = true ->
  TCPConnection.segment_received seg c = Ok c' -> tended c' n /\ TCPConnection.active c' = true.
Proof.
  intros Hw Hal Hrst [Ho Hq] Ha E. destruct (received_split seg c c' Hw Hal Hrst E) as (r & s & Er & Hw2 & Es & c3 & E3 & ->).
  set (c2 := TCPConnection.set_sender s _) in *. rewrite active_switch.
  assert (H2 : orderly c2 n /\ (TCPConnection.syn_sent c2 = false -> TCPSender.segments_out (TCPConnection._sender c2) = [])).
  { destruct (TCPHeader.ack _); [|by subst s]. split.
    - eapply tidy_ack; [apply Hw|exact Ho|apply Hal|exact Es].
    - intros Hsyn. cbn. unfold TCPSender.segments_out. unfold TCPConnection.syn_sent, TCPSender.next_seqno_absolute in Hsyn. zb.
      by rewrite (early_ack _ _ _ _ (TCPConnection.wf_sender _ _ _ _ _ _ _ _ Hw) (proj1 Hal) Es). }
  destruct H2 as [Ho2 Hq2]. destruct (tended_reply seg c2 n Ho2 Hq2 Ha) as [Ht Hac].
  pose proof (TCPConnection.wf_reply _ _ _ _ _ _ _ seg c2 Hw2) as Hwr.
  destruct (_ && _).
  - destruct (tended_connect _ n _ Hwr (proj1 Ht) Hac E3) as [Ht3 Ha3]. split; [by apply tended_switch|done].
  - injection E3 as <-. split; [by apply tended_switch|done].
Qed.

(** What the replies leave alone; they send no RST. *)
Record replying (c c' : TCPConnection.t) : Prop := {
  ry_wf : wf c';
  ry_receiver : TCPConnection._receiver c' = TCPConnection._receiver c;
  ry_ack : TCPSender._abs_ackno (TCPConnection._sender c') = TCPSender._abs_ackno (TCPConnection._sender c);
  ry_timer : TCPConnection._last_segm_recv_timer c' = TCPConnection._last_segm_recv_timer c;
  ry_rst : Forall (fun g => TCPHeader.rst (TCPSegment.header g) = false) (TCPConnection._segments_out c) ->
    Forall (fun g => TCPHeader.rst (TCPSegment.header g) = false) (TCPConnection._segments_out c')
}.

Lemma replying_trans c1 c2 c3 : replying c1 c2 -> replying c2 c3 -> replying c1 c3.
Proof. intros [] []. split; [done|congruence|congruence|congruence|by auto]. Qed.

Lemma sendable_rst seg : TCPSender.sendable Ds Ns Is seg -> TCPHeader.rst (TCPSegment.header seg) = false.
Proof. by intros [[sq [-> _ _ _ _ _]]|(sq & _ & ->)]. Qed.

Lemma replying_send c : wf c -> replying c (TCPConnection.send_segments false c).
Proof.
  intros Hw. pose proof (TCPConnection.wf_send_segments _ _ _ _ _ _ _ false c Hw) as Hw'. destruct (TCPConnection.active c) eqn:Ha.
  2:{ rewrite TCPConnection.send_segments_dead by done. by split. }
  rewrite TCPConnection.send_segments_spec in Hw' |- * by done. split; try done. intros Ho. cbn. apply Forall_app. split; [done|].
  apply Forall_fmap. destruct Hw as [_ _ Hq _ _]. eapply Forall_impl; [exact Hq|]. intros g Hg%sendable_rst.
  unfold compose, TCPConnection.stamp. by destruct (TCPReceiver.ackno _).
Qed.

Lemma replying_connect c c' : wf c -> TCPConnection.connect c = Ok c' -> replying c c'.
Proof.
  intros Hw (c1 & E & [= <-])%bind_Ok. destruct (TCPConnection.wf_fill _ _ _ _ _ _ _ c Hw) as (c2 & E2 & Hw1 & _).
  rewrite E in E2. injection E2 as <-. apply (replying_trans c c1); [|by apply replying_send].
  apply bind_Ok in E as (s & E & [= <-]). split; try done. cbn.
  destruct (TCPSender.fill_window_spec Ds Ns _ (TCPConnection.wf_sender _ _ _ _ _ _ _ _ Hw)) as (new & s2 & E2 & _ & [] & _).
  rewrite E in E2. by injection E2 as <-.
Qed.

Lemma replying_reply seg c : wf c -> replying c (TCPConnection.reply seg c).
Proof.
  intros Hw. unfold TCPConnection.reply. destruct (TCPConnection.syn_sent c); [|by split].
  destruct (_ && _); [|by apply replying_send].
  eapply replying_trans; [|apply replying_send; by apply TCPConnection.wf_send_empty]. split; try done. by apply TCPConnection.wf_send_empty.
Qed.

Lemma replying_switch c : wf c -> replying c (TCPConnection.try_switching_close_mode c).
Proof.
  intros Hw. pose proof (TCPConnection.wf_switch _ _ _ _ _ _ _ c Hw) as Hw'. revert Hw'.
  unfold TCPConnection.try_switching_close_mode. by destruct (_ && _).
Qed.

(** What the call does to the receiver, to the acknowledged part of our own stream and
    to the queue: a segment that takes sequence numbers is answered with what the
    receiver then has. *)
Lemma received_effect seg c c' : wf c -> TCPConnection.allowed Ds Ns Dr Nr Ir (TCPConnection.SegmentReceived seg) c ->
  TCPHeader.rst (TCPSegment.header seg) = false -> TCPConnection.active c = true ->
  TCPConnection.segment_received seg c = Ok c' ->
  wf c' /\ TCPReceiver.segment_received seg (TCPConnection._receiver c) = Ok (TCPConnection._receiver c') /\
  TCPConnection._last_segm_recv_timer c' = 0 /\
  TCPSender._abs_ackno (TCPConnection._sender c) <= TCPSender._abs_ackno (TCPConnection._sender c') /\
  (forall a, TCPHeader.ack (TCPSegment.header seg) = true ->
     WrappingInt32.unwrap (TCPHeader.ackno (TCPSegment.header seg)) Is (TCPSender._abs_ackno (TCPConnection._sender c)) = a ->
     a <= TCPSender._next_seqno (TCPConnection._sender c) -> a <= TCPSender._abs_ackno (TCPConnection._sender c')) /\
  (Forall (fun g => TCPHeader.rst (TCPSegment.header g) = false) (TCPConnection._segments_out c) ->
   Forall (fun g => TCPHeader.rst (TCPSegment.header g) = false) (TCPConnection._segments_out c')) /\
  exists q, TCPConnection._segments_out c' = TCPConnection._segments_out c ++ (TCPConnection.stamp (TCPConnection._receiver c') false <$> q) /\
    (0 < TCPSegment.length_in_sequence_space seg -> TCPConnection.syn_sent c = true -> q <> []).
Proof.
  intros Hw Hal Hrst Ha E. destruct (received_split seg c c' Hw Hal Hrst E) as (r & s & Er & Hw2 & Es & c3 & E3 & ->).
  destruct (TCPConnection.connection_segment_received_spec Ds Ns Is Dr Nr cap Ir HIr c seg Hw Hal) as (c4 & E4 & _ & _ & Hans).
  rewrite E in E4. injection E4 as <-. destruct (Hans Hrst Ha) as (q & Hq & Hne). clear Hans.
  set (c2 := TCPConnection.set_sender s _) in *.
  assert (Hry : replying c2 (TCPConnection.try_switching_close_mode c3)).
  { pose proof (replying_reply seg c2 Hw2) as H2. apply (replying_trans c2 c3).
    - destruct (_ && _); [eapply replying_trans; [exact H2|by eapply replying_connect; [apply H2|]]|by injection E3 as <-].
    - apply replying_switch. destruct (_ && _); [by eapply replying_connect; [apply H2|]|by injection E3 as <-; apply H2]. }
  destruct Hry as [Hw' Hr' Ha' Ht' Hn'].
  assert (Hab : TCPSender._abs_ackno (TCPConnection._sender c) <= TCPSender._abs_ackno s /\
    forall a, TCPHeader.ack (TCPSegment.header seg) = true ->
     WrappingInt32.unwrap (TCPHeader.ackno (TCPSegment.header seg)) Is (TCPSender._abs_ackno (TCPConnection._sender c)) = a ->
     a <= TCPSender._next_seqno (TCPConnection._sender c) -> a <= TCPSender._abs_ackno s).
  { destruct (TCPHeader.ack _); [|subst s; done]. destruct Hw as [Hws Hi _ _ _].
    destruct (step_effect Ds Ns (TCPSender.Ack _ _) _ _ Hws (proj1 Hal) Es) as [_ Hab]. cbv zeta in Hab. rewrite Hab, Hi.
    set (x := WrappingInt32.unwrap _ _ _). destruct (Z.ltb_spec (TCPSender._abs_ackno (TCPConnection._sender c)) x),
      (Z.leb_spec x (TCPSender._next_seqno (TCPConnection._sender c))); cbn [andb]; (split; [lia|]); intros a _ <- Hle; lia. }
  cbn [c2 TCPConnection.set_sender TCPConnection._sender] in Ha'. rewrite Ha'.
  split; [done|]. split; [by rewrite Hr'|]. split; [by rewrite Ht'|]. split; [exact (proj1 Hab)|]. split; [exact (proj2 Hab)|]. split; [exact Hn'|].
  exists q. split; [done|]. intros Hlen Hs. apply Hne; [done|by rewrite Hs].
Qed.
End Connection.

(** ** The two connections *)

Section Session.
Context (D : side -> Z -> byte) (N : side -> Z) (cfg : side -> TCPConfig.t) (random : side -> Z).
#[local] Abbreviation isn := (isn_of cfg random).
#[local] Abbreviation cap d := (TCPConfig.recv_capacity (cfg d)).
Context (HN : forall d, 0 <= N d < two31 - 2) (Hrecv : forall d, 0 < cap d < two63)
  (Hsend : forall d, 0 < TCPConfig.send_capacity (cfg d) < two63)
  (Hrt : forall d, 0 <= TCPConfig.rt_timeout (cfg d) < two64) (Hisn : forall d, WrappingInt32.wf (isn d)).
#[local] Abbreviation reaches := (reaches D N cfg random).
#[local] Abbreviation joint := (joint D N cfg random).
#[local] Abbreviation wf d := (TCPConnection.wf (D d) (N d) (isn d) (D (other d)) (N (other d)) (cap d) (isn (other d))).
#[local] Abbreviation allowed d := (TCPConnection.allowed (D d) (N d) (D (other d)) (N (other d)) (isn (other d))).

Definition kept (x : session) : Prop :=
  forall d, TCPConnection.active (conn x d) = true -> tended (N d) (conn x d) (net x d).

Lemma kept_update x d c n g : kept x -> (TCPConnection.active c = true -> tended (N d) c n) ->
  kept (mk_session (<[d := c]> (conn x)) (<[d := n]> (net x)) g).
Proof. intros Hk Hc d'. specialize (Hk d'). destruct d, d'; done. Qed.

Lemma kept_conn x d c : kept x -> (TCPConnection.active c = true -> tended (N d) c (net x d)) -> kept (set_conn d c x).
Proof. intros Hk Hc d'. specialize (Hk d'). destruct d, d'; done. Qed.

Lemma joint_wf x em acks d : joint x em acks -> wf d (conn x d).
Proof. intros Hj. exact (ep_wf _ _ _ _ _ _ _ _ _ _ _ (jt_end _ _ _ _ _ _ _ Hj d)). Qed.

Lemma net_allowed x em acks d seg : joint x em acks -> seg ∈ net x (other d) ->
  allowed d (TCPConnection.SegmentReceived seg) (conn x d).
Proof.
  intros Hj Hin. destruct (joint_facing _ _ _ _ _ _ _ d Hj) as [Hf Hs]. rewrite Forall_forall in Hs.
  eapply sent_allowed; [apply HN|exact Hf|by apply Hs].
Qed.

Lemma kept_perform x em acks e x' : joint x em acks -> kept x -> permitted D N cfg random e x -> perform e x = Ok x' -> kept x'.
Proof.
  intros Hj Hk Hp.
  assert (Hlive : forall d o c, TCPConnection.step o (conn x d) = Ok c -> TCPConnection.active c = true ->
    TCPConnection.active (conn x d) = true).
  { intros d o c E Ha. destruct (TCPConnection.active (conn x d)) eqn:E0; [done|].
    destruct (TCPConnection.dead_step (TCPConnection._segments_out (conn x d)) o _ c E) as [? _]; [done|congruence]. }
  destruct e as [d o|d|d|d seg|d n]; cbn [perform].
  - intros (c & E & [= <-])%bind_Ok. apply kept_conn; [done|]. intros Ha. pose proof (Hlive d o c E Ha) as Ha0.
    pose proof (joint_wf _ _ _ d Hj) as Hw. specialize (Hk d Ha0).
    destruct o as [|data| |seg|ms|n]; cbn [TCPConnection.step] in E; cbn in Hp; try done.
    + eapply tended_connect; [exact Hw|apply Hk|done|exact E].
    + apply bind_Ok in E as ([k c1] & E & [= <-]). by eapply tended_write.
    + by eapply tended_end_input.
    + injection E as <-. by apply tended_tick.
  - intros [= <-]. apply kept_conn; [done|]. unfold TCPConnection.destroy. destruct (TCPConnection.active (conn x d)) eqn:Ha; [|congruence].
    destruct (TCPConnection.abort_spec _ Ha) as [Hd _]. congruence.
  - intros [= <-]. apply kept_update; [done|]. intros Ha. destruct (Hk d Ha) as [[Hl Hd] Hq]. split; [|exact Hq]. split; [|exact Hd].
    eapply loose_more; [|exact Hl]. cbn. intros g. rewrite !elem_of_app. tauto.
  - intros (c & E & [= <-])%bind_Ok. apply kept_conn; [done|]. intros Ha.
    pose proof (Hlive d (TCPConnection.SegmentReceived seg) c E Ha) as Ha0. specialize (Hk d Ha0).
    pose proof (net_allowed _ _ _ d seg Hj Hp) as Hal. pose proof (joint_wf _ _ _ d Hj) as Hw.
    destruct (TCPHeader.rst (TCPSegment.header seg)) eqn:Hr.
    + destruct (TCPConnection.connection_segment_received_spec _ _ _ _ _ _ _ (Hisn _) _ seg Hw Hal) as (c2 & E2 & _ & Hd & _).
      rewrite E in E2. injection E2 as <-. destruct (Hd Hr). congruence.
    + by eapply tended_received.
  - intros ([bs st] & E & [= <-])%bind_Ok.
    apply (kept_conn x d (TCPConnection.set_receiver (TCPReceiver.set_stream_out st (TCPConnection._receiver (conn x d))) (conn x d))); [done|].
    exact (Hk d).
Qed.

Lemma reaches_kept x : reaches x -> kept x.
Proof.
  induction 1 as [|x e x' Hx IH Hp E].
  - intros d _. split; [|done]. split; [split; [done|]; split; [done|]; split; [done|]|done]. cbn. intros o Hin. by apply elem_of_nil in Hin.
  - destruct (reaches_joint D N cfg random HN Hrecv Hsend Hrt Hisn x Hx) as (em & acks & Hj). by eapply kept_perform.
Qed.

(** ** Delivering

    Neither side has failed, no RST is on its way, and both streams have ended. *)
Definition no_rst (seg : TCPSegment.t) : Prop := TCPHeader.rst (TCPSegment.header seg) = false.
Definition undisturbed (x : session) : Prop :=
  forall d, TCPConnection.active (conn x d) = true /\ Forall no_rst (TCPConnection._segments_out (conn x d) ++ net x d).
Definition written (x : session) : Prop := forall d, ByteStream.done_writing (TCPConnection.stream_in (conn x d)) = true.
Definition live (x : session) : Prop := reaches x /\ undisturbed x /\ written x.

#[local] Abbreviation acked x d := (TCPSender._abs_ackno (TCPConnection._sender (conn x d))).
#[local] Abbreviation asked x d := (rack (TCPConnection._receiver (conn x d))).

(** Side [d] has moved on. *)
Record progress (d : side) (x x' : session) : Prop := {
  pg_other : conn x' (other d) = conn x (other d);
  pg_net : net x' = net x;
  pg_acked : acked x d <= acked x' d;
  pg_asked : asked x d <= asked x' d;
  pg_out : TCPConnection._segments_out (conn x d) ⊆ TCPConnection._segments_out (conn x' d);
  pg_read : ByteStream.n_bytes_read (TCPConnection.inbound_stream (conn x' d)) =
    ByteStream.n_bytes_read (TCPConnection.inbound_stream (conn x d));
  pg_isn : TCPSender._isn (TCPConnection._sender (conn x' d)) = TCPSender._isn (TCPConnection._sender (conn x d))
}.

Lemma progress_refl d x : progress d x x.
Proof. by split. Qed.

Lemma progress_trans d x1 x2 x3 : progress d x1 x2 -> progress d x2 x3 -> progress d x1 x3.
Proof. intros [] []. split; [congruence|congruence|lia|lia|by etransitivity|congruence|congruence]. Qed.

Lemma live_joint x : live x -> exists em acks, joint x em acks.
Proof. intros [Hx _]. exact (reaches_joint D N cfg random HN Hrecv Hsend Hrt Hisn x Hx). Qed.

Lemma conn_same d c x : conn (set_conn d c x) d = c.
Proof. by destruct d. Qed.
Lemma conn_other d c x : conn (set_conn d c x) (other d) = conn x (other d).
Proof. by destruct d. Qed.

(** A side that has ended its stream has sent its SYN. *)
Lemma live_syn x d : live x -> TCPConnection.syn_sent (conn x d) = true.
Proof.
  intros (Hx & Hu & Hwr). destruct (reaches_kept x Hx d (proj1 (Hu d))) as [[_ Hd] _]. apply Z.ltb_lt. exact (proj1 (Hd (Hwr d))).
Qed.

(** What the peer asks for has been sent. *)
Lemma asked_sent x em acks d : joint x em acks -> asked x (other d) <= TCPSender._next_seqno (TCPConnection._sender (conn x d)).
Proof.
  intros Hj. destruct (joint_wf _ _ _ d Hj) as [Hs Hi _ _ _]. destruct (joint_wf _ _ _ (other d) Hj) as [_ _ _ Hr _].
  replace (other (other d)) with d in Hr by (by destruct d).
  eapply (rack_sent (D d) (N d) (cap (other d))); [apply HN|exact (jt_flow _ _ _ _ _ _ _ Hj d)|by rewrite Hi|done].
Qed.

(** One segment arrives at side [d]. *)
Lemma live_deliver d seg x : live x -> seg ∈ net x (other d) ->
  exists x', perform (Deliver d seg) x = Ok x' /\ live x' /\ progress d x x' /\
    TCPConnection._last_segm_recv_timer (conn x' d) = 0 /\
    TCPReceiver.segment_received seg (TCPConnection._receiver (conn x d)) = Ok (TCPConnection._receiver (conn x' d)) /\
    (forall k, TCPHeader.ack (TCPSegment.header seg) = true -> TCPHeader.ackno (TCPSegment.header seg) = WrappingInt32.wrap k (isn d) ->
       0 <= k <= asked x (other d) -> k <= acked x' d) /\
    exists q, TCPConnection._segments_out (conn x' d) = TCPConnection._segments_out (conn x d) ++
        (TCPConnection.stamp (TCPConnection._receiver (conn x' d)) false <$> q) /\
      (0 < TCPSegment.length_in_sequence_space seg -> q <> []).
Proof.
  intros Hl Hin. destruct (live_joint x Hl) as (em & acks & Hj). pose proof Hl as (Hx & Hu & Hwr).
  assert (Hp : permitted D N cfg random (Deliver d seg) x) by exact Hin.
  destruct (perform_returns D N cfg random HN Hrecv Hisn x em acks _ Hj Hp) as [x' E].
  pose proof (reaches_event _ _ _ _ _ _ _ Hx Hp E) as Hx'. exists x'. split; [done|].
  cbn in E. apply bind_Ok in E as (c & E & [= <-]). rewrite !conn_same.
  pose proof (joint_wf _ _ _ d Hj) as Hw. pose proof (net_allowed _ _ _ d seg Hj Hin) as Hal.
  assert (Hrst : no_rst seg).
  { destruct (Hu (other d)) as [_ Hf]. apply Forall_app in Hf as [_ Hf]. rewrite Forall_forall in Hf. by apply Hf. }
  destruct (Hu d) as [Ha Hnr]. pose proof (live_syn x d Hl) as Hsyn.
  destruct (received_effect _ _ _ _ _ _ _ (Hisn _) seg _ c Hw Hal Hrst Ha E) as (Hwc & Hr & Ht & Hab & Hak & Hrf & q & Hq & Hne).
  pose proof (TCPConnection.keeps_segment_received _ _ _ _ _ _ _ (Hisn _) seg _ c Hw Hal E) as [_ Kd _ Kr].
  destruct (tended_received _ _ _ _ _ _ _ (Hisn _) seg _ (net x d) c Hw Hal Hrst (reaches_kept x Hx d Ha) Ha E) as [_ Hac].
  destruct (joint_facing _ _ _ _ _ _ _ d Hj) as [[_ _ Hrc Hws Hi _] Hs]. rewrite Forall_forall in Hs.
  destruct (Hs _ Hin) as (_ & (seg0 & Hin0 & Hc) & _).
  assert (Hm : rack (TCPConnection._receiver (conn x d)) <= rack (TCPConnection._receiver c)).
  { destruct Hw as [_ _ _ Hwr' _]. rewrite (received_as_carried _ _ _ Hc) in Hr.
    eapply (honest_deliver (D (other d)) (N (other d)) (cap d)); [apply HN|apply Hrecv|exact Hrc|done|by rewrite Hi|exact Hin0|exact Hr]. }
  split; [|split; [|split_and!; try done]].
  - split; [done|]. split; intros d'; destruct (decide (d' = d)) as [->|Hne'].
    + rewrite conn_same. split; [done|]. apply Forall_app. apply Forall_app in Hnr as [Hn1 Hn2]. split; [by apply Hrf|exact Hn2].
    + assert (d' = other d) as -> by (by destruct d, d'). rewrite conn_other. apply Hu.
    + rewrite conn_same, Kd. apply Hwr.
    + assert (d' = other d) as -> by (by destruct d, d'). rewrite conn_other. apply Hwr.
  - split; rewrite ?conn_same, ?conn_other; try done.
    + rewrite Hq. intros g Hg. apply elem_of_app. by left.
    + destruct Hw as [_ -> _ _ _]. by destruct Hwc as [_ -> _ _ _].
  - intros k Hack Hno Hk. pose proof (asked_sent _ _ _ d Hj) as Hsent. destruct Hw as [Hws' Hi' _ _ _].
    pose proof (TCPSender.wf_next_range _ _ _ Hws'). pose proof (TCPSender.wf_ack _ _ _ Hws'). pose proof (HN d).
    apply (Hak k Hack); [|lia]. rewrite Hno. apply WrappingInt32.unwrap_wrap_aux; [apply Hisn|lia..].
  - exists q. split; [done|]. intros Hlen. by apply Hne.
Qed.

(** The reader of side [d] has taken everything, unless more than [a] is asked for. *)
Definition drained (a : Z) (x : session) (d : side) : Prop :=
  a <= asked x d /\ (a < asked x d \/ ByteStream.buffer_size (TCPConnection.inbound_stream (conn x d)) = 0).

(** A segment that takes the sequence number [a] of the peer's stream. *)
Definition brings (d : side) (a : Z) (seg : TCPSegment.t) : Prop :=
  exists sq seg0, TCPConnection.carries seg seg0 /\ TCPSender.good (D d) (N d) (isn d) sq seg0 /\ sq <= a < sq + TCPSender.slen seg0.

(** An acknowledgment of at least [k] sequence numbers of the stream of [d]. *)
Definition acknowledges (d : side) (k : Z) (seg : TCPSegment.t) : Prop :=
  TCPHeader.ack (TCPSegment.header seg) = true /\ TCPHeader.ackno (TCPSegment.header seg) = WrappingInt32.wrap k (isn d).

Section Delivery.
Context (d : side) (seg : TCPSegment.t) (x x' : session).
Context (Hl : live x) (Hl' : live x') (Hp : progress d x x')
  (Hr : TCPReceiver.segment_received seg (TCPConnection._receiver (conn x d)) = Ok (TCPConnection._receiver (conn x' d))).

Lemma live_receiver y : live y -> wf d (conn y d).
Proof. intros Hy. destruct (live_joint y Hy) as (em & acks & Hj). by eapply joint_wf. Qed.

Lemma drained_deliver a : drained a x d -> drained a x' d.
Proof.
  intros [Ha Hb]. destruct Hp as [_ _ _ Hm _ Hrd _]. split; [lia|].
  destruct (decide (a < asked x' d)) as [|Hge]; [by left|right]. destruct Hb as [?|Hb]; [lia|].
  pose proof (live_receiver x Hl) as Hw. pose proof (live_receiver x' Hl') as Hw'.
  pose proof (TCPConnection.inbound_position _ _ _ _ _ _ _ _ Hw) as Hpos. pose proof (TCPConnection.inbound_position _ _ _ _ _ _ _ _ Hw') as Hpos'.
  pose proof Hw as [_ _ _ Hwr _]. pose proof Hw' as [_ _ _ Hwr' _]. unfold ByteStream.buffer_size in *.
  assert (0 <= ByteStream.cur_size (TCPConnection.inbound_stream (conn x' d))) by (destruct Hwr' as [[Hc _] _ _]; apply (ByteStream.wf_size _ (StreamReassembler.co_out _ _ _ Hc))).
  pose proof (nothing_new _ _ _ _ _ _ _ Hwr Hwr' Hr ltac:(lia) ltac:(lia)). lia.
Qed.

Lemma brings_deliver a : drained a x d -> brings (other d) a seg -> a < asked x' d.
Proof.
  intros [Ha Hb] (sq & seg0 & Hc & Hg & Hsq). destruct Hp as [_ _ _ Hm _ _ _].
  destruct (decide (a < asked x d)) as [|Hge]; [lia|]. destruct Hb as [?|Hb]; [lia|].
  pose proof (live_receiver x Hl) as [_ _ _ Hwr _].
  destruct (deliver_progress (D (other d)) (N (other d)) (cap d) (HN _) (Hrecv _) _ sq seg0 _ (Hisn _) Hwr Hg) as (r2 & E2 & Hlt); [lia|exact Hb|].
  rewrite (received_as_carried _ _ _ Hc) in Hr. rewrite Hr in E2. injection E2 as <-. lia.
Qed.

(** The answer to such a segment. *)
Lemma answers q a : TCPConnection._segments_out (conn x' d) = TCPConnection._segments_out (conn x d) ++
    (TCPConnection.stamp (TCPConnection._receiver (conn x' d)) false <$> q) ->
  q <> [] -> 0 <= a < asked x' d ->
  exists h, h ∈ TCPConnection._segments_out (conn x' d) /\ acknowledges (other d) (asked x' d) h.
Proof.
  intros Ho Hq Ha. destruct q as [|g q]; [done|].
  exists (TCPConnection.stamp (TCPConnection._receiver (conn x' d)) false g).
  split; [rewrite Ho; apply elem_of_app; right; constructor|].
  pose proof (live_receiver x' Hl') as [_ _ _ Hwr _]. destruct (rack_range _ _ _ (HN _) _ _ Hwr) as (_ & _ & Hk).
  assert (Hs : TCPReceiver.syn_received (TCPConnection._receiver (conn x' d)) = true).
  { destruct (TCPReceiver.syn_received _) eqn:E; [done|]. unfold rack in Ha. rewrite E in Ha. lia. }
  rewrite Hs in Hk. unfold acknowledges, TCPConnection.stamp. by rewrite Hk.
Qed.
End Delivery.

Lemma live_deliveries d segs : forall x, live x -> segs ⊆ net x (other d) ->
  exists x', perform_all (Deliver d <$> segs) x = Ok x' /\ live x' /\ progress d x x' /\
    (segs <> [] -> TCPConnection._last_segm_recv_timer (conn x' d) = 0) /\
    (forall h k, h ∈ segs -> acknowledges d k h -> 0 <= k <= asked x (other d) -> k <= acked x' d) /\
    (forall g a, g ∈ segs -> brings (other d) a g -> 0 <= a -> drained a x d ->
       exists h k, h ∈ TCPConnection._segments_out (conn x' d) /\ acknowledges (other d) k h /\ a < k <= asked x' d).
Proof.
  induction segs as [|seg segs IH]; intros x Hl Hs.
  { exists x. split; [done|]. split; [done|]. split; [apply progress_refl|]. split; [done|].
    split; [intros h k Hin|intros g a Hin]; by apply elem_of_nil in Hin. }
  destruct (live_deliver d seg x Hl) as (x1 & E1 & Hl1 & Hp1 & Ht1 & Hr1 & Ha1 & q & Hq & Hne); [apply Hs; constructor|].
  destruct (IH x1 Hl1) as (x2 & E2 & Hl2 & Hp2 & Ht2 & Ha2 & Hd2).
  { rewrite (pg_net _ _ _ Hp1). intros g Hg. apply Hs. by constructor. }
  exists x2. cbn [fmap list_fmap perform_all]. rewrite E1. split; [exact E2|]. split; [done|].
  split; [by eapply progress_trans|]. split; [|split].
  - intros _. destruct segs as [|g segs]; [|by apply Ht2]. cbn in E2. injection E2 as <-. exact Ht1.
  - intros h k [->|Hin]%elem_of_cons [Hk1 Hk2] Hk.
    + destruct Hp2 as [_ _ Hab _ _ _ _]. specialize (Ha1 k Hk1 Hk2 Hk). lia.
    + apply (Ha2 h k Hin); [done|]. by rewrite (pg_other _ _ _ Hp1).
  - intros g a [->|Hin]%elem_of_cons Hb Ha Hdr.
    + pose proof (brings_deliver d seg x x1 Hl Hp1 Hr1 a Hdr Hb) as Hlt.
      destruct (answers d x x1 Hl1 q a Hq) as (h & Hh & Hak); [|lia|].
      { apply Hne. destruct Hb as (sq & seg0 & Hc & Hg & _). rewrite (carries_length _ _ Hc). exact (TCPSender.gd_len _ _ _ _ _ Hg). }
      exists h, (asked x1 d). split; [by apply (pg_out _ _ _ Hp2)|]. split; [done|]. pose proof (pg_asked _ _ _ Hp2). lia.
    + apply (Hd2 g a Hin Hb Ha). exact (drained_deliver d seg x x1 Hl Hl1 Hp1 Hr1 a Hdr).
Qed.

(** ** Turns *)

(** Everything that side [d] has sent. *)
#[local] Abbreviation pool x d := (TCPConnection._segments_out (conn x d) ++ net x d).
#[local] Abbreviation buffered x d := (ByteStream.buffer_size (TCPConnection.inbound_stream (conn x d))).

(** What an exchange of [d] leads to. *)
Record exchanged (d : side) (x x' : session) : Prop := {
  ex_live : live x';
  ex_acked : acked x' d = acked x d;
  ex_asked : asked x' d = asked x d;
  ex_buffered : buffered x' d = buffered x d;
  ex_timer : TCPConnection._last_segm_recv_timer (conn x' d) = TCPConnection._last_segm_recv_timer (conn x d);
  ex_acked_other : acked x (other d) <= acked x' (other d);
  ex_timer_other : pool x d <> [] -> TCPConnection._last_segm_recv_timer (conn x' (other d)) = 0;
  ex_pool : pool x d ⊆ pool x' d;
  ex_acks h k : h ∈ pool x d -> acknowledges (other d) k h -> 0 <= k <= asked x d -> k <= acked x' (other d);
  ex_data g a : g ∈ pool x d -> brings d a g -> 0 <= a -> drained a x (other d) ->
    exists h k, h ∈ pool x' (other d) /\ acknowledges d k h /\ a < k <= asked x' (other d)
}.

Lemma live_transmit d x : live x ->
  let x' := mk_session (<[d := TCPConnection.set_segments_out [] (conn x d)]> (conn x)) (<[d := net x d ++ TCPConnection._segments_out (conn x d)]> (net x)) (got x) in
  perform (Transmit d) x = Ok x' /\ live x'.
Proof.
  intros (Hx & Hu & Hwr) x'. split; [done|]. split; [by apply (reaches_event _ _ _ _ x (Transmit d))|]. split; intros d'.
  - specialize (Hu d'). destruct d, d'; try exact Hu; destruct Hu as [Ha [Hf1 Hf2]%Forall_app];
      (split; [exact Ha|]); apply Forall_app; (split; [constructor|]); apply Forall_app; done.
  - specialize (Hwr d'). by destruct d, d'.
Qed.

Lemma live_exchange d x : live x -> exists x', take_turn (Exchange d) x = Ok x' /\ exchanged d x x'.
Proof.
  intros Hl. destruct (live_transmit d x Hl) as [E1 Hl1]. set (x1 := mk_session _ _ _) in *.
  assert (Hd : conn x1 d = TCPConnection.set_segments_out [] (conn x d) /\ net x1 d = net x d ++ TCPConnection._segments_out (conn x d) /\
    conn x1 (other d) = conn x (other d) /\ net x1 (other d) = net x (other d)) by (by destruct d).
  destruct Hd as (Hc & Hn & Hco & Hno).
  assert (Hoo : other (other d) = d) by (by destruct d).
  destruct (live_deliveries (other d) (net x1 d) x1 Hl1) as (x2 & E2 & Hl2 & [Hpo Hpn Hpa _ Hpout _ _] & Ht & Hak & Hdt); [by rewrite Hoo|].
  rewrite Hoo in *.
  assert (Hin : forall g, g ∈ pool x d -> g ∈ net x1 d) by (intros g; rewrite Hn, !elem_of_app; tauto).
  exists x2. cbn [take_turn]. rewrite E1. split; [exact E2|].
  split; rewrite ?Hpo, ?Hc; try done.
  - by rewrite Hco in Hpa.
  - intros Hne. apply Ht. rewrite Hn. intros [? ?]%app_eq_nil. apply Hne. by apply app_nil.
  - intros g Hg. rewrite Hpn. apply elem_of_app. right. by apply Hin.
  - intros h k Hh Hk Hr. apply (Hak h k); [by apply Hin|done|]. by rewrite Hc.
  - intros g a Hg Hb Ha Hdr. destruct (Hdt g a) as (h & k & Hh & Hk & Hlt); [by apply Hin|done|done| |].
    { unfold drained in *. by rewrite Hco. }
    exists h, k. split; [apply elem_of_app; by left|done].
Qed.

(** The owner of side [d] reads everything that has been assembled. *)
Definition read_all (d : side) (x : session) : res session := perform (Read d (buffered x d)) x.

Lemma live_read d x : live x -> exists x', read_all d x = Ok x' /\ live x' /\ buffered x' d = 0 /\
  conn x' (other d) = conn x (other d) /\ acked x' d = acked x d /\ asked x' d = asked x d.
Proof.
  intros Hl. destruct (live_joint x Hl) as (em & acks & Hj). pose proof Hl as (Hx & Hu & Hwr).
  pose proof (joint_wf _ _ _ d Hj) as Hw. pose proof Hw as [_ _ _ Hr _]. pose proof Hr as [[Hc _] _ _].
  pose proof (ByteStream.wf_size _ (StreamReassembler.co_out _ _ _ Hc)) as Hsz.
  assert (Hp : permitted D N cfg random (Read d (buffered x d)) x) by apply Hsz.
  destruct (perform_returns D N cfg random HN Hrecv Hisn x em acks _ Hj Hp) as [x' E].
  pose proof (reaches_event _ _ _ _ _ _ _ Hx Hp E) as Hx'. exists x'. split; [done|].
  cbn in E. apply bind_Ok in E as ([bs st] & E & [= <-]).
  destruct (TCPConnection.read_inbound_ok _ _ _ _ _ _ _ _ (buffered x d) (proj1 (Hrecv d)) Hw) as (st' & E' & _); [unfold ByteStream.buffer_size; split; [apply Hsz|lia]|].
  rewrite E in E'. injection E' as -> <-.
  destruct (StreamReassembler.wf_read _ _ _ _ _ st (TCPReceiver.wf_reasm _ _ _ _ _ Hr) (proj1 Hsz) E) as (_ & _ & Hcur).
  destruct (read_effect _ _ _ _ _ _ _ st Hr (proj1 Hsz) E) as [_ Hrk].
  assert (Hb : ByteStream.buffer_size st = 0).
  { unfold ByteStream.buffer_size in *. rewrite Hcur, zlen_slice by apply Hsz.
    unfold TCPConnection.inbound_stream, TCPReceiver.stream_out, StreamReassembler.stream_out. lia. }
  split; [split; [exact Hx'|]; split; intros d'; [specialize (Hu d')|specialize (Hwr d')]; by destruct d, d'|].
  split; [by destruct d|]. split; [by destruct d|]. split; [by destruct d|]. clear -Hrk. by destruct d.
Qed.

(** Something of a stream that is not acknowledged has been sent. *)
Lemma live_outstanding x d : live x -> acked x d < N d + 2 -> exists g, g ∈ pool x d /\ brings d (acked x d) g.
Proof.
  intros Hl Ha. destruct (live_joint x Hl) as (em & acks & Hj). pose proof Hl as (Hx & Hu & Hwr).
  destruct (reaches_kept x Hx d (proj1 (Hu d))) as [[(_ & _ & _ & Ho) Hd] Hq]. destruct (joint_wf _ _ _ d Hj) as [Hs Hi _ _ _].
  pose proof (TCPSender.wf_chain _ _ _ Hs) as (sq & Hch & Hm).
  destruct (TCPSender._outstanding_segments _) as [|o l] eqn:El; [destruct (Hd (Hwr d)) as [_ He]; specialize (He eq_refl); lia|].
  destruct (Ho o) as (g & Hg & Hc); [constructor|]. unfold TCPSender.segments_out in Hq. rewrite Hq, app_nil_r in Hg.
  exists g. split; [done|]. exists sq, (TCPSender.segment o). destruct Hch as (_ & Hgood & _). rewrite Hi in Hgood. done.
Qed.

Lemma acked_asked x em acks d : joint x em acks -> 0 <= acked x d <= asked x (other d).
Proof.
  intros Hj. destruct (jt_flow _ _ _ _ _ _ _ Hj d) as [_ _ _ _ _ Ha _]. destruct (joint_wf _ _ _ d Hj) as [Hs _ _ _ _].
  pose proof (TCPSender.wf_ack _ _ _ Hs). lia.
Qed.

(** An exchange and its answer acknowledge at least one more sequence number. *)
Lemma flow_progress d x x1 x2 : live x -> buffered x (other d) = 0 -> exchanged d x x1 -> exchanged (other d) x1 x2 ->
  Z.min (N d + 2) (acked x d + 1) <= acked x2 d.
Proof.
  intros Hl Hb E1 E2. assert (Hoo : other (other d) = d) by (by destruct d).
  pose proof (ex_acked_other _ _ _ E2) as Hm. rewrite Hoo in Hm. pose proof (ex_acked _ _ _ E1) as Hk.
  destruct (decide (acked x d < N d + 2)) as [Hlt|Hge]; [|lia].
  destruct (live_outstanding x d Hl Hlt) as (g & Hg & Hbr). destruct (live_joint x Hl) as (em & acks & Hj).
  destruct (acked_asked _ _ _ d Hj) as [H0 Hle].
  destruct (ex_data _ _ _ E1 g _ Hg Hbr H0) as (h & k & Hh & Hak & Hlk); [by split; [|right]|].
  pose proof (ex_acks _ _ _ E2 h k) as Hfin. rewrite Hoo in Hfin. specialize (Hfin Hh Hak). lia.
Qed.

(** ** Rounds *)

(** Both owners read, and what was sent gets through: to the server, to the client, and
    to the server again. *)
Definition round (x : session) : res session :=
  x ← read_all Client x;
  x ← read_all Server x;
  x ← take_turn (Exchange Client) x;
  x ← take_turn (Exchange Server) x;
  take_turn (Exchange Client) x.

Fixpoint rounds (n : nat) (x : session) : res session :=
  match n with
  | O => Ok x
  | S n' => x' ← round x; rounds n' x'
  end.

Lemma acked_range x d : live x -> 0 <= acked x d <= N d + 2.
Proof.
  intros Hl. destruct (live_joint x Hl) as (em & acks & Hj). destruct (joint_wf _ _ _ d Hj) as [Hs _ _ _ _].
  pose proof (TCPSender.wf_ack _ _ _ Hs). pose proof (TCPSender.wf_next_range _ _ _ Hs). lia.
Qed.

(** A side that has ended its stream has sent something. *)
Lemma pool_nonempty x d : live x -> pool x d <> [].
Proof.
  intros (Hx & Hu & Hwr). destruct (reaches_kept x Hx d (proj1 (Hu d))) as [[(_ & Hp & _) Hd] Hq].
  unfold TCPSender.segments_out in Hq. rewrite Hq, app_nil_r in Hp. apply Hp, (Hd (Hwr d)).
Qed.

Lemma session_round_progress x : live x -> exists x', round x = Ok x' /\ live x' /\
  forall d, Z.min (N d + 2) (acked x d + 1) <= acked x' d /\ TCPConnection._last_segm_recv_timer (conn x' d) = 0.
Proof.
  intros Hl. destruct (live_read Client x Hl) as (y1 & E1 & Hl1 & Hb1 & Ho1 & Ha1 & _).
  destruct (live_read Server y1 Hl1) as (y2 & E2 & Hl2 & Hb2 & Ho2 & Ha2 & _). cbn [other] in Ho1, Ho2.
  destruct (live_exchange Client y2 Hl2) as (z1 & E3 & X1).
  destruct (live_exchange Server z1 (ex_live _ _ _ X1)) as (z2 & E4 & X2).
  destruct (live_exchange Client z2 (ex_live _ _ _ X2)) as (z3 & E5 & X3).
  exists z3. unfold round. rewrite E1. cbn [mbind res_bind]. rewrite E2. cbn [mbind res_bind]. rewrite E3.
  cbn [mbind res_bind]. rewrite E4. split; [exact E5|]. split; [apply X3|].
  pose proof (flow_progress Client y2 z1 z2 Hl2 Hb2 X1 X2) as Pc.
  pose proof (flow_progress Server z1 z2 z3 (ex_live _ _ _ X1)) as Ps. cbn [other] in Ps.
  rewrite (ex_buffered _ _ _ X1), Ho2, Hb1 in Ps. specialize (Ps eq_refl X2 X3).
  pose proof (ex_acked _ _ _ X3) as K3. pose proof (ex_acked_other _ _ _ X1) as K1. cbn [other] in K1.
  rewrite Ho2 in Pc. rewrite Ho1 in Ha2.
  pose proof (ex_timer_other _ _ _ X2 (pool_nonempty z1 Server (ex_live _ _ _ X1))) as T1.
  pose proof (ex_timer_other _ _ _ X3 (pool_nonempty z2 Client (ex_live _ _ _ X2))) as T2. cbn [other] in T1, T2.
  intros []; [rewrite K3, (ex_timer _ _ _ X3)|]; (split; [lia|done]).
Qed.

Lemma rounds_complete n : forall x, live x -> (forall d, N d + 2 - acked x d < Z.of_nat n) ->
  exists x', rounds n x = Ok x' /\ live x' /\
    forall d, acked x' d = N d + 2 /\ TCPConnection._last_segm_recv_timer (conn x' d) = 0.
Proof.
  induction n as [|n IH]; intros x Hl Hn.
  { specialize (Hn Client). pose proof (acked_range x Client Hl). lia. }
  destruct (session_round_progress x Hl) as (x1 & E1 & Hl1 & Hp). cbn [rounds]. rewrite E1. cbn [mbind res_bind].
  destruct n as [|n]; [|apply IH; [done|]; intros d; specialize (Hn d); destruct (Hp d); pose proof (acked_range x1 d Hl1); lia].
  exists x1. split; [done|]. split; [done|]. intros d. specialize (Hn d); destruct (Hp d); pose proof (acked_range x1 d Hl1).
  pose proof (acked_range x d Hl). split; [lia|done].
Qed.

(** ** The end *)

(** Both streams of a side are complete. *)
Lemma finished_done x d : live x -> (forall e, acked x e = N e + 2) ->
  TCPConnection.istream_done (conn x d) = true /\ TCPConnection.ostream_done (conn x d) = true.
Proof.
  intros Hl Hfin. destruct (live_joint x Hl) as (em & acks & Hj). pose proof Hl as (_ & _ & Hwr).
  pose proof (acked_asked _ _ _ (other d) Hj) as Hle. replace (other (other d)) with d in Hle by (by destruct d). rewrite Hfin in Hle.
  destruct (joint_wf _ _ _ d Hj) as [Hs _ _ Hr _]. destruct (rack_range _ _ _ (HN _) _ _ Hr) as (Hrr & Hend & _).
  destruct (Hend ltac:(lia)) as [He Hf]. split.
  - apply andb_true_iff. split; [exact He|]. apply Z.eqb_eq. destruct Hr as [[Hc _] _ _]. by eapply StreamReassembler.all_assembled.
  - pose proof (TCPSender.wf_next_range _ _ _ Hs) as Hnr. pose proof (TCPSender.wf_ack _ _ _ Hs) as Hk. pose proof (Hfin d) as Hfd.
    pose proof Hs as [_ Hst _ _ Hw _ Hen Hcut _ _ _]. specialize (Hen (Hwr d)). pose proof (HN d).
    pose proof (ByteStream.wf_size _ Hst). unfold TCPConnection.ostream_done, TCPConnection.stream_in, TCPSender.stream_in.
    unfold ByteStream.bytes_written, TCPSender.next_seqno_absolute, TCPSender.bytes_in_flight. rewrite Hen, !u64_small by lia.
    rewrite !andb_true_iff, !Z.eqb_eq. split; [split; [|lia]|lia]. destruct Hcut as [?|[?|[_ ?]]]; [lia|lia|done].
Qed.

Lemma finished_close x d : live x -> (forall e, acked x e = N e + 2) -> TCPConnection._last_segm_recv_timer (conn x d) = 0 ->
  let ms := 10 * TCPConfig.rt_timeout (cfg d) in ms < two64 ->
  TCPConnection.active (TCPConnection.tick ms (conn x d)) = false /\
  ByteStream.error (TCPConnection.stream_in (TCPConnection.tick ms (conn x d))) = false.
Proof.
  intros Hl Hfin Ht ms Hms. destruct (live_joint x Hl) as (em & acks & Hj). pose proof Hl as (Hx & Hu & Hwr).
  destruct (finished_done x d Hl Hfin) as [Hi Ho]. destruct (Hu d) as [Ha _].
  destruct (reaches_kept x Hx d Ha) as [[(Her & _ & Hfresh & _) Hd] _]. destruct (joint_wf _ _ _ d Hj) as [Hs _ _ _ _].
  assert (He : TCPSender._outstanding_segments (TCPConnection._sender (conn x d)) = []).
  { pose proof (TCPSender.wf_chain _ _ _ Hs) as (sq & Hch & Hm). destruct (TCPSender._outstanding_segments _) as [|o l]; [done|].
    destruct Hch as (_ & _ & Hch%TCPSender.chain_le). pose proof (TCPSender.wf_next_range _ _ _ Hs). specialize (Hfin d). lia. }
  pose proof (TCPConnection.tick_spec ms (conn x d) Ha) as Hsp. cbv zeta in Hsp.
  assert (Hc : TCPSender.consecutive_retransmissions (TCPSender.tick ms (TCPConnection._sender (conn x d))) = 0).
  { unfold TCPSender.consecutive_retransmissions, TCPSender.tick. rewrite He. destruct (Timer.expired _); cbn; by rewrite Hfresh. }
  rewrite Hc in Hsp. cbn [Z.ltb Z.compare TCPConfig.MAX_RETX_ATTEMPTS] in Hsp. destruct Hsp as (Hact & Herr & _).
  rewrite Herr, Hact, Hi, Ho, Ht, (reaches_cfg D N cfg random x Hx d). split; [|exact Her].
  rewrite u64_small by (pose proof (Hrt d); lia). fold ms. rewrite Z.add_0_l, Z.leb_refl, orb_true_r. done.
Qed.

Lemma finished_streams x e : live x -> (forall d, acked x d = N d + 2) ->
  ByteStream.input_ended (TCPConnection.inbound_stream (conn x e)) = true /\
  got x e ++ ByteStream.contents (TCPConnection.inbound_stream (conn x e)) = slice (D (other e)) 0 (N (other e)).
Proof.
  intros Hl Hfin. destruct (live_joint x Hl) as (em & acks & Hj). eapply complete_side; [exact HN|exact Hj|].
  pose proof (acked_asked _ _ _ (other e) Hj) as Hle. replace (other (other e)) with e in Hle by (by destruct e). rewrite Hfin in Hle.
  destruct (joint_wf _ _ _ e Hj) as [_ _ _ Hr _]. destruct (rack_range _ _ _ (HN _) _ _ Hr) as (Hrr & _). lia.
Qed.
End Session.

(** ** Theorem *)

(** C3: a session comes to its end.  Take any state that two connections can reach over
    a network that loses, duplicates, delays and reorders segments, with both streams
    written and ended, no connection over, and no RST sent.  Let now whatever was sent
    get through (each round delivers all of it, what had arrived before once more) while
    the owners read.  After as many rounds as the longer stream has sequence numbers,
    plus one, both readers have the whole of the peer's stream and its end, and
    when ten timeouts then pass without a segment both connections are over, without an
    error. *)
Theorem session_comes_to_end (D : side -> Z -> byte) (N : side -> Z) (cfg : side -> TCPConfig.t) (random : side -> Z)
  (x : session) (n : nat)
  (HN : forall d, 0 <= N d < two31 - 2) (Hrecv : forall d, 0 < TCPConfig.recv_capacity (cfg d) < two63)
  (Hsend : forall d, 0 < TCPConfig.send_capacity (cfg d) < two63)
  (Hrt : forall d, 0 <= TCPConfig.rt_timeout (cfg d) < two16) (Hisn : forall d, WrappingInt32.wf (isn_of cfg random d))
  (Hx : reaches D N cfg random x) (Hwritten : written x) (Hfine : undisturbed x)
  (Hn : forall d, N d + 3 <= Z.of_nat n) :
  exists x1, rounds n x = Ok x1 /\
    (forall e, ByteStream.input_ended (TCPConnection.inbound_stream (conn x1 e)) = true /\
       got x1 e ++ ByteStream.contents (TCPConnection.inbound_stream (conn x1 e)) = slice (D (other e)) 0 (N (other e))) /\
    exists x2, perform_all ((fun d => Owner d (TCPConnection.Tick (10 * TCPConfig.rt_timeout (cfg d)))) <$> [Client; Server]) x1 = Ok x2 /\
      forall d, TCPConnection.active (conn x2 d) = false /\ ByteStream.error (TCPConnection.stream_in (conn x2 d)) = false.
Proof.
  assert (Hrt' : forall d, 0 <= TCPConfig.rt_timeout (cfg d) < two64) by (intros d; specialize (Hrt d); lia).
  assert (Hl : live D N cfg random x) by done.
  destruct (rounds_complete D N cfg random HN Hrecv Hsend Hrt' Hisn n x Hl) as (x1 & E1 & Hl1 & Hfin).
  { intros d. pose proof (acked_range D N cfg random HN Hrecv Hsend Hrt' Hisn x d Hl). specialize (Hn d). lia. }
  exists x1. split; [done|]. split.
  - intros e. eapply finished_streams; try done. intros d. apply Hfin.
  - eexists. split; [reflexivity|].
    assert (Hc : forall d, TCPConnection.active (TCPConnection.tick (10 * TCPConfig.rt_timeout (cfg d)) (conn x1 d)) = false /\
      ByteStream.error (TCPConnection.stream_in (TCPConnection.tick (10 * TCPConfig.rt_timeout (cfg d)) (conn x1 d))) = false).
    { intros d. apply (finished_close D N cfg random HN Hrecv Hsend Hrt' Hisn); try done; [intros e; apply Hfin|apply Hfin|specialize (Hrt d); lia]. }
    intros []; [exact (Hc Client)|exact (Hc Server)].
Qed.

(** The session of Session.v, with the streams written and nothing delivered yet but the
    handshake. *)
Definition demo_start : list turn :=
  [Once (Owner Client TCPConnection.Connect); Exchange Client; Exchange Server;
   Once (Owner Client (TCPConnection.Write [x61; x61; x61])); Once (Owner Client TCPConnection.EndInputStream);
   Once (Owner Server (TCPConnection.Write [x61])); Once (Owner Server TCPConnection.EndInputStream)].

Lemma demo_start_in_order : in_order (fun _ => TCPSender.letter_a) demo_length demo_cfgs (fun _ => 0) demo_start demo_opening.
Proof. vm_compute. repeat (split || right || discriminate). Qed.

Lemma session_comes_to_end_witness :
  exists x x1 x2, take_turns demo_start demo_opening = Ok x /\ rounds 6 x = Ok x1 /\
    got x1 Server ++ ByteStream.contents (TCPConnection.inbound_stream (conn x1 Server)) = [x61; x61; x61] /\
    perform_all [Owner Client (TCPConnection.Tick 10000); Owner Server (TCPConnection.Tick 10000)] x1 = Ok x2 /\
    TCPConnection.active (conn x2 Client) = false.
Proof.
  destruct (demo_runs demo_start demo_start_in_order) as (x & E & Hx). destruct demo_conditions as (H1 & H2 & H3 & _ & H5).
  assert (Hobs : forall d, ByteStream.done_writing (TCPConnection.stream_in (conn x d)) = true /\ TCPConnection.active (conn x d) = true /\
    forallb (fun g => negb (TCPHeader.rst (TCPSegment.header g))) (TCPConnection._segments_out (conn x d) ++ net x d) = true).
  { intros d. split_and!; (eapply (observed_eq demo_start (fun x => _) x true E)); destruct d; vm_compute; reflexivity. }
  assert (Hf : undisturbed x).
  { intros d. destruct (Hobs d) as (_ & Ha & Hr). split; [exact Ha|]. apply Forall_forall. intros g Hg.
    apply (proj1 (forallb_forall _ _)) with (x := g) in Hr; [by apply negb_true_iff|by apply list_elem_of_In]. }
  destruct (session_comes_to_end (fun _ => TCPSender.letter_a) demo_length demo_cfgs (fun _ => 0) x 6 H1 H2 H3) as (x1 & E1 & Hs & x2 & E2 & Ho).
  - intros []; cbn; lia.
  - exact H5.
  - exact Hx.
  - intros d. apply Hobs.
  - exact Hf.
  - intros []; cbn; lia.
  - exists x, x1, x2. split; [exact E|]. split; [exact E1|]. split; [exact (proj2 (Hs Server))|]. split; [exact E2|exact (proj1 (Ho Client))].
Defined.
