(* ===== verification/EarlierConnection.v ===== *)
(** * An earlier version of the connection (tcp_connection_w_comments.cc)

    The file implements the same class as tcp_connection.cc, with the same members.
    It differs in when a RST is stamped (as soon as there have been too many
    retransmissions, on whatever is sent), in the order of the steps of
    [segment_received] and [try_closing_connection], and in [tick], which also tries
    to switch the close mode.  [Earlier] has the functions whose text differs; the
    others are those of [TCPConnection].  The theorem is that the two versions
    cannot be told apart.  (tcp_connection_current.cc is a copy of
    tcp_connection.cc, and tcp_connection_old.cc is empty.) *)

From S2P Require Import Prelude Wrapping Stream Reassembly Buffers TcpWire TcpReceiver TcpSender TcpConnection.
From Stdlib Require Import Strings.Byte.

Module Earlier.
Import TCPConnection.

(** [_sender.consecutive_retransmissions() > TCPConfig::MAX_RETX_ATTEMPTS]. *)
Definition too_many (c : t) : bool :=
  TCPConfig.MAX_RETX_ATTEMPTS <? TCPSender.consecutive_retransmissions (_sender c).

(** The loop of [send_segments]; taking segments from the sender's queue does not
    change its count of retransmissions. *)
Fixpoint send_loop (r : TCPReceiver.t) (rst many : bool) (queue out : list TCPSegment.t)
  : list TCPSegment.t :=
  match queue with
  | [] => out
  | seg :: queue' => send_loop r rst many queue' (out ++ [stamp r (rst || many) seg])
  end.

Definition send_segments (rst : bool) (c : t) : t :=
  if negb (active c) then c
  else
    set_segments_out
      (send_loop (_receiver c) rst (too_many c) (TCPSender.segments_out (_sender c)) (_segments_out c))
      (set_sender (TCPSender.set_segments_out [] (_sender c)) c).

Definition pr1 (c : t) : bool := ByteStream.input_ended (inbound_stream c) && (unassembled_bytes c =? 0).
Definition pr2 (c : t) : bool :=
  ByteStream.eof (stream_in c) &&
  (TCPSender.next_seqno_absolute (_sender c) =? ByteStream.bytes_written (stream_in c) ⊞ 2) &&
  (TCPSender.bytes_in_flight (_sender c) =? 0).

Definition try_closing_connection (c : t) : t :=
  let c := send_segments false c in
  if negb (active c) then c
  else if (active_close c || negb (_linger_after_streams_finish c)) && pr1 c && pr2 c
  then set_active false c else c.

Definition connect (c : t) : res t :=
  c ← on_sender TCPSender.fill_window c;
  Ok (send_segments false c).

Definition end_input_stream (c : t) : res t :=
  let c := set_sender (TCPSender.set_stream (ByteStream.end_input (stream_in c)) (_sender c)) c in
  c ← on_sender TCPSender.fill_window c;
  Ok (try_closing_connection c).

Definition write (data : bytes) (c : t) : res (Z * t) :=
  if ByteStream.input_ended (stream_in c) || negb (syn_sent c) then Ok (0, c)
  else
    let '(n_bytes_written, stream) := ByteStream.write data (stream_in c) in
    let c := set_sender (TCPSender.set_stream stream (_sender c)) c in
    c ← on_sender TCPSender.fill_window c;
    Ok (n_bytes_written, send_segments false c).

(** Making an empty segment when there is none to carry the acknowledgment or RST. *)
Definition something_to_send (c : t) : t :=
  match TCPSender.segments_out (_sender c) with
  | [] => set_sender (TCPSender.send_empty_segment (_sender c)) c
  | _ => c
  end.

Definition segment_received (seg : TCPSegment.t) (c : t) : res t :=
  let h := TCPSegment.header seg in
  let c := set_timer 0 c in
  let c := if TCPHeader.rst h then reset c else c in
  receiver ← TCPReceiver.segment_received seg (_receiver c);
  let c := set_receiver receiver c in
  c ← (if TCPHeader.ack h
       then on_sender (TCPSender.ack_received (TCPHeader.ackno h) (TCPHeader.win h)) c
       else Ok c);
  let c :=
    if syn_sent c then
      send_segments false
        (if 0 <? TCPSegment.length_in_sequence_space seg then something_to_send c else c)
    else c in
  c ← (if TCPHeader.syn h && negb (syn_sent c) then connect c else Ok c);
  Ok (try_switching_close_mode c).

Definition tick (ms_since_last_tick : Z) (c : t) : t :=
  if negb (active c) then c
  else
    let c := set_sender (TCPSender.tick ms_since_last_tick (_sender c)) c in
    let c := set_timer (_last_segm_recv_timer c ⊞ ms_since_last_tick) c in
    let c := if too_many c then something_to_send c else c in
    let c := send_segments false c in
    let c := if too_many c then reset c else c in
    try_closing_connection (try_switching_close_mode c).

Definition destroy (c : t) : t :=
  if active c then reset (send_segments true (something_to_send c)) else c.

Definition step (o : op) (c : t) : res t :=
  match o with
  | Connect => connect c
  | Write data => '(_, c') ← write data c; Ok c'
  | EndInputStream => end_input_stream c
  | SegmentReceived seg => segment_received seg c
  | Tick ms => Ok (tick ms c)
  | ReadInbound n => TCPConnection.step (ReadInbound n) c
  end.

Fixpoint exec (os : list op) (c : t) : res t :=
  match os with
  | [] => Ok c
  | o :: os' => c' ← step o c; exec os' c'
  end.

(** ** What the sender leaves alone *)

(** The reading position lies in the buffer. *)
Definition placed (st : ByteStream.t) : Prop :=
  0 <= ByteStream.data_begin st <= ByteStream.max_capacity st /\ ByteStream.max_capacity st < two64.

(** The stream stays usable, and at its end once it is there. *)
Definition stays (st st' : ByteStream.t) : Prop :=
  placed st -> placed st' /\ (ByteStream.eof st = true -> ByteStream.eof st' = true).

#[local] Instance stays_preorder : PreOrder stays.
Proof. split; [done|]. intros a b c H1 H2 Ha. destruct (H1 Ha) as [Hb ?], (H2 Hb) as [? ?]. by auto. Qed.

Lemma read_stays n st bs st' : 0 <= n -> ByteStream.read n st = Ok (bs, st') -> stays st st'.
Proof.
  intros Hn E [Hb Hc]. unfold ByteStream.read in E. apply bind_Ok in E as (d & Ep & E).
  apply bind_Ok in E as (x & Eq & [= -> ->]). unfold ByteStream.pop_output in Eq.
  destruct (_ =? 0) eqn:E0; [done|]. zb. injection Eq as <-.
  split; [split; cbn; [|done]|].
  - pose proof (Z.mod_pos_bound (u64 (ByteStream.data_begin st + zlen bs)) (ByteStream.max_capacity st)). lia.
  - unfold ByteStream.eof, ByteStream.input_ended, ByteStream.buffer_empty. cbn. intros He. zb.
    unfold ByteStream.peek_output in Ep. rewrite H0 in Ep.
    rewrite (Z.min_r n 0), Z.add_0_r, (u64_small (ByteStream.data_begin st)) in Ep by lia.
    rewrite (proj2 (Z.leb_le _ _)) in Ep by lia. injection Ep as <-. by rewrite H, H0.
Qed.

(** The other operations of a stream. *)
Lemma write_stays data st : ByteStream.done_writing st = false -> stays st (ByteStream.write data st).2.
Proof. intros Hd Hp. split; [done|]. unfold ByteStream.eof, ByteStream.input_ended. cbn. by rewrite Hd. Qed.

Lemma end_input_stays st : stays st (ByteStream.end_input st).
Proof. intros Hp. split; [done|]. unfold ByteStream.eof, ByteStream.input_ended, ByteStream.buffer_empty. cbn. by intros [_ ?]%andb_true_iff. Qed.

(** The count of retransmissions only ever restarts, except in [tick]. *)
Definition no_count (s s' : TCPSender.t) : Prop :=
  (TCPSender._n_consec_retransmissions s' = TCPSender._n_consec_retransmissions s \/
   TCPSender._n_consec_retransmissions s' = 0) /\
  stays (TCPSender._stream s) (TCPSender._stream s').

#[local] Instance no_count_preorder : PreOrder no_count.
Proof.
  split; [intros s; split; [by left|done]|]. intros a b c [H1 H2] [H3 H4]. split; [|by etransitivity].
  destruct H3 as [->|]; auto.
Qed.

Lemma fill_step_count s b s' : TCPSender.fill_step s = Ok (b, s') -> no_count s s'.
Proof.
  unfold TCPSender.fill_step. destruct (negb _); [by intros [= _ <-]|].
  destruct (_ && _); [by intros [= _ <-]|]. cbv zeta. set (n := if TCPConfig.MAX_PAYLOAD_SIZE <? _ then _ else _).
  assert (Hn : 0 <= n).
  { unfold n, TCPSender.n_bytes_to_send, TCPConfig.MAX_PAYLOAD_SIZE. repeat case_match; try lia; apply u16_range. }
  intros ([d st] & Er & E)%bind_Ok. apply (read_stays _ _ _ _ Hn) in Er.
  destruct (TCPSegment.length_in_sequence_space _ =? 0); injection E as _ <-; (split; [by left|done]).
Qed.

Lemma fill_window_count s s' : TCPSender.fill_window s = Ok s' -> no_count s s'.
Proof.
  unfold TCPSender.fill_window. intros ([b s1] & E & [= <-])%bind_Ok. revert E.
  generalize (Z.to_nat (TCPSender._window_size s) + 4)%nat as fuel. intros fuel. revert s.
  induction fuel as [|fuel IH]; intros s0; cbn [TCPSender.fill_loop]; [by intros [= _ <-]|].
  intros ([c s2] & E%fill_step_count & H)%bind_Ok. destruct c; [by etransitivity; [|apply IH]|by injection H as _ <-].
Qed.

Lemma ack_received_count a w s s' : TCPSender.ack_received a w s = Ok s' -> no_count s s'.
Proof.
  unfold TCPSender.ack_received. destruct (_ || _); [intros [= <-]; split; [by left|done]|].
  destruct (TCPSender.ack_loop _ _ _ _) as [l timer]. intros E%fill_window_count.
  etransitivity; [|exact E]. split; [by right|done].
Qed.

(** ** What keeps the versions together *)

(** A connection that is active has not retransmitted too often. *)
Record quiet (c : t) : Prop := {
  qt_stream : placed (stream_in c);
  qt_count : active c = true -> too_many c = false
}.

(** One that has received the whole stream of its peer before it was done with its own
    does not linger. *)
Definition switched (c : t) : Prop :=
  ByteStream.input_ended (inbound_stream c) = true ->
  ByteStream.eof (stream_in c) = true \/ _linger_after_streams_finish c = false.

Definition calm (c : t) : Prop := quiet c /\ switched c.

Lemma too_many_count c s : no_count (_sender c) s -> too_many c = false -> too_many (set_sender s c) = false.
Proof.
  intros [[H|H] _]; unfold too_many, TCPSender.consecutive_retransmissions; cbn; rewrite H; done.
Qed.

Lemma quiet_sender s c : no_count (_sender c) s -> quiet c -> quiet (set_sender s c).
Proof. intros Hs [Hp Hc]. split; [by apply Hs|]. intros Ha. apply too_many_count; [done|]. by apply Hc. Qed.

Lemma calm_sender s c : no_count (_sender c) s -> calm c -> calm (set_sender s c).
Proof.
  intros Hs [Hq Hl]. split; [by apply quiet_sender|]. intros He. destruct (Hl He) as [Hf|]; [left|by right].
  by apply Hs; [apply Hq|].
Qed.

Lemma send_loop_earlier r rst many queue : forall out,
  send_loop r rst many queue out = TCPConnection.send_loop r (rst || many) queue out.
Proof. induction queue as [|seg queue IH]; intros out; cbn; [done|apply IH]. Qed.

Lemma send_segments_earlier rst c : send_segments rst c = TCPConnection.send_segments (rst || too_many c) c.
Proof. unfold send_segments, TCPConnection.send_segments. by rewrite send_loop_earlier. Qed.

Lemma send_segments_same rst c : quiet c -> send_segments rst c = TCPConnection.send_segments rst c.
Proof.
  intros [_ Hc]. rewrite send_segments_earlier. destruct (active c) eqn:Ha; [by rewrite Hc, orb_false_r|].
  by rewrite !send_segments_dead.
Qed.

(** Sending moves segments only. *)
Lemma send_segments_frame rst c : let c' := TCPConnection.send_segments rst c in
  stream_in c' = stream_in c /\ inbound_stream c' = inbound_stream c /\ active c' = active c /\
  too_many c' = too_many c /\ _linger_after_streams_finish c' = _linger_after_streams_finish c.
Proof. cbv zeta. unfold TCPConnection.send_segments. by destruct (active c) eqn:Ha. Qed.

Lemma quiet_send rst c : quiet c -> quiet (TCPConnection.send_segments rst c).
Proof. intros []. destruct (send_segments_frame rst c) as (E1 & E2 & E3 & E4 & E5). split; by rewrite ?E1, ?E3, ?E4. Qed.

Lemma calm_send rst c : calm c -> calm (TCPConnection.send_segments rst c).
Proof.
  intros [Hq Hl]. split; [by apply quiet_send|]. unfold switched.
  by destruct (send_segments_frame rst c) as (-> & -> & _ & _ & ->).
Qed.

Lemma try_closing_same c : quiet c -> try_closing_connection c = TCPConnection.try_closing_connection c.
Proof.
  intros Hc. unfold try_closing_connection, TCPConnection.try_closing_connection. rewrite send_segments_same by done.
  destruct (active c) eqn:Ha.
  - destruct (send_segments_frame false c) as (_ & _ & E & _). by rewrite E, Ha.
  - by rewrite send_segments_dead, Ha.
Qed.

Lemma calm_try_closing c : calm c -> calm (TCPConnection.try_closing_connection c).
Proof.
  intros Hc. unfold TCPConnection.try_closing_connection. destruct (negb _); [done|].
  apply (calm_send false) in Hc. destruct (_ && _); [|done]. by destruct Hc as [[] ?].
Qed.

(** Under the invariant the close mode is already switched. *)
Lemma try_switching_calm c : switched c -> try_switching_close_mode c = c.
Proof.
  unfold switched, try_switching_close_mode. intros Hl. destruct (ByteStream.eof _); [done|].
  destruct (ByteStream.input_ended _); [|done]. destruct (Hl eq_refl) as [|E]; [done|]. destruct c. cbn in *. by subst.
Qed.

Lemma calm_try_switching c : quiet c -> calm (try_switching_close_mode c).
Proof.
  intros [Hp Hc]. unfold try_switching_close_mode, calm, switched.
  destruct (ByteStream.eof (stream_in c)) eqn:E1, (ByteStream.input_ended (inbound_stream c)) eqn:E2; cbn;
    rewrite ?E1, ?E2; auto using Build_quiet.
Qed.

Lemma calm_reset c : placed (stream_in c) -> switched c -> calm (reset c).
Proof. intros Hp Hl. split; [by split|]. exact Hl. Qed.

(** ** The operations *)

(** [agree x y]: the two versions give the same, and the result satisfies [P]. *)
Definition agree (P : t -> Prop) (x y : res t) : Prop := x = y /\ forall c, y = Ok c -> P c.

Lemma agree_bind P Q x y f g : agree Q x y -> (forall c, Q c -> agree P (f c) (g c)) ->
  agree P (x ≫= f) (y ≫= g).
Proof.
  intros [-> Hy] Hf. destruct y as [c|e]; [|done]. cbn. by apply Hf, Hy.
Qed.

Lemma agree_ok P c c' : c = c' -> P c' -> agree P (Ok c) (Ok c').
Proof. intros -> Hp. split; [done|]. by intros ? [= <-]. Qed.

(** Both versions call the same function of the sender. *)
Lemma agree_sender f c (P : t -> Prop) : (forall s, f (_sender c) = Ok s -> P (set_sender s c)) ->
  agree P (on_sender f c) (on_sender f c).
Proof. intros Hf. split; [done|]. intros c' (s & E & [= <-])%bind_Ok. by apply Hf. Qed.

Lemma connect_agree P c : quiet c -> (forall s, TCPSender.fill_window (_sender c) = Ok s ->
    P (TCPConnection.send_segments false (set_sender s c))) ->
  agree P (connect c) (TCPConnection.connect c).
Proof.
  intros Hc HP. eapply (agree_bind _ (fun c' => quiet c' /\ P (TCPConnection.send_segments false c'))).
  - apply agree_sender. intros s E. split; [|by apply HP]. apply quiet_sender; [by apply fill_window_count|done].
  - intros c' [Hq Hp]. by apply agree_ok; [apply send_segments_same|].
Qed.

(** Both accept the same number of bytes. *)
Lemma write_same data c : calm c -> write data c = TCPConnection.write data c /\
  forall n c', TCPConnection.write data c = Ok (n, c') -> calm c'.
Proof.
  intros Hc. unfold write, TCPConnection.write. destruct (ByteStream.input_ended _) eqn:Ei; [by split; [|intros n c' [= _ <-]]|].
  destruct (syn_sent c); [|by split; [|intros n c' [= _ <-]]]. cbn [orb negb].
  pose proof (write_stays data (stream_in c) Ei) as Hst. destruct (ByteStream.write data _) as [n st] eqn:Ew.
  apply (calm_sender (TCPSender.set_stream st (_sender c))) in Hc; [|split; [by left|done]].
  set (c1 := set_sender _ c) in *. unfold on_sender. destruct (TCPSender.fill_window (_sender c1)) as [s|] eqn:E; [|done].
  apply fill_window_count in E. apply (calm_sender s) in Hc; [|done]. cbn.
  split; [by rewrite send_segments_same by apply Hc|]. intros n' c' [= _ <-]. by apply calm_send.
Qed.

Lemma write_agree data c : calm c ->
  agree calm ('(_, c') ← write data c; Ok c') ('(_, c') ← TCPConnection.write data c; Ok c').
Proof.
  intros Hc. destruct (write_same data c Hc) as [-> Hw]. split; [done|].
  intros c' ([n c1] & E & [= <-])%bind_Ok. by eapply Hw.
Qed.

Lemma end_input_agree c : calm c -> agree calm (end_input_stream c) (TCPConnection.end_input_stream c).
Proof.
  intros Hc. unfold end_input_stream, TCPConnection.end_input_stream.
  apply (calm_sender (TCPSender.set_stream (ByteStream.end_input (stream_in c)) (_sender c))) in Hc;
    [|split; [by left|apply end_input_stays]].
  apply (agree_bind _ calm).
  - apply agree_sender. intros s E%fill_window_count. by apply calm_sender.
  - intros c' Hc'. apply agree_ok; [apply try_closing_same, Hc'|by apply calm_try_closing].
Qed.

(** The receiver does not look at the error flag of its stream. *)
Definition fail_output (r : StreamReassembler.t) : StreamReassembler.t :=
  StreamReassembler.set_output (ByteStream.set_error (StreamReassembler._output r)) r.

Lemma check_end_fail r : StreamReassembler.check_end (fail_output r) = fail_output (StreamReassembler.check_end r).
Proof. unfold StreamReassembler.check_end. cbn. by destruct (_ && _). Qed.

Lemma insert_chunk_fail k r :
  StreamReassembler.insert_chunk k (fail_output r) = fail_output <$> StreamReassembler.insert_chunk k r.
Proof.
  unfold StreamReassembler.insert_chunk. cbn.
  destruct (StreamReassembler.merge _ _ _) as [[[[b cs] k'] n]|]; [|done]. cbn.
  destruct b; [|done]. cbn. unfold ByteStream.write.
  destruct (_ =? _); symmetry; exact (f_equal Ok (eq_sym (check_end_fail _))).
Qed.

Lemma push_substring_fail d i e r :
  StreamReassembler.push_substring d i e (fail_output r) = fail_output <$> StreamReassembler.push_substring d i e r.
Proof.
  unfold StreamReassembler.push_substring, ByteStream.input_ended. cbn.
  destruct (ByteStream.done_writing _); [done|].
  destruct e; cbn; (destruct (_ && _); [|symmetry; exact (f_equal Ok (eq_sym (check_end_fail _)))]);
    (destruct (StreamReassembler.chop _ _ _ _) as [k|]; [|done]); symmetry; exact (eq_sym (insert_chunk_fail k _)).
Qed.

Lemma receive_fail seg c :
  (r ← TCPReceiver.segment_received seg (_receiver (reset c)); Ok (set_receiver r (reset c))) =
  (r ← TCPReceiver.segment_received seg (_receiver c); Ok (reset (set_receiver r c))).
Proof.
  unfold TCPReceiver.segment_received. cbn. destruct (TCPHeader.syn _), (TCPReceiver.syn_received _); cbn; try done;
    change (StreamReassembler.set_output _ _) with (fail_output (TCPReceiver._reassembler (_receiver c)));
    rewrite push_substring_fail; by destruct (StreamReassembler.push_substring _ _ _ _).
Qed.

(** The first half of [segment_received], up to the receiver. *)
Lemma arrive_agree (rst : bool) seg c :
  (let c' := if rst then reset (set_timer 0 c) else set_timer 0 c in
   r ← TCPReceiver.segment_received seg (_receiver c'); Ok (set_receiver r c')) =
  (r ← TCPReceiver.segment_received seg (_receiver c);
   Ok (let c' := set_timer 0 (set_receiver r c) in if rst then reset c' else c')).
Proof.
  cbv zeta. destruct rst; [rewrite receive_fail|]; cbn; by destruct (TCPReceiver.segment_received _ _).
Qed.

Lemma something_count c : no_count (_sender c) (_sender (something_to_send c)).
Proof. unfold something_to_send. destruct (TCPSender.segments_out _); split; [by left|done|by left|done]. Qed.

Lemma something_sender c : something_to_send c = set_sender (_sender (something_to_send c)) c.
Proof. unfold something_to_send. destruct (TCPSender.segments_out _); [done|by destruct c]. Qed.

Lemma something_quiet c : quiet c -> quiet (something_to_send c).
Proof. rewrite something_sender. apply quiet_sender, something_count. Qed.

(** The reply to a segment. *)
Lemma reply_agree seg c : quiet c ->
  (if syn_sent c then
     send_segments false (if 0 <? TCPSegment.length_in_sequence_space seg then something_to_send c else c)
   else c) = reply seg c /\ quiet (reply seg c).
Proof.
  intros Hq. unfold reply. destruct (syn_sent c); [|done].
  assert (Hs : (if 0 <? TCPSegment.length_in_sequence_space seg then something_to_send c else c) =
    (if (0 <? TCPSegment.length_in_sequence_space seg) && match TCPSender.segments_out (_sender c) with [] => true | _ => false end
     then set_sender (TCPSender.send_empty_segment (_sender c)) c else c)).
  { unfold something_to_send. by destruct (0 <? _), (TCPSender.segments_out _). }
  rewrite <- Hs. set (c' := if _ <? _ then _ else _). assert (quiet c') by (unfold c'; case_match; [by apply something_quiet|done]).
  split; [by apply send_segments_same|by apply quiet_send].
Qed.

Lemma segment_received_agree seg c : calm c -> agree calm (segment_received seg c) (TCPConnection.segment_received seg c).
Proof.
  intros [Hq Hl]. unfold segment_received, TCPConnection.segment_received. set (h := TCPSegment.header seg).
  pose proof (arrive_agree (TCPHeader.rst h) seg c) as Harr. cbv zeta in Harr |- *.
  set (c0 := if TCPHeader.rst h then reset (set_timer 0 c) else set_timer 0 c) in *.
  destruct (TCPReceiver.segment_received seg (_receiver c)) as [r|e],
    (TCPReceiver.segment_received seg (_receiver c0)) as [r0|e0]; try discriminate Harr; cbn [mbind res_bind] in *;
    [|by injection Harr as ->]. injection Harr as ->.
  set (c1 := if TCPHeader.rst h then _ else _).
  assert (Hq1 : quiet c1) by (unfold c1; destruct (TCPHeader.rst h); by destruct Hq).
  apply (agree_bind _ quiet).
  { destruct (TCPHeader.ack h); [|by apply agree_ok]. apply agree_sender. intros s E%ack_received_count. by apply quiet_sender. }
  intros c2 Hq2. destruct (reply_agree seg c2 Hq2) as [-> Hq3]. apply (agree_bind _ quiet).
  { destruct (_ && _); [|by apply agree_ok]. apply connect_agree; [done|]. intros s E%fill_window_count.
    by apply quiet_send, quiet_sender. }
  intros c3 Hq4. apply agree_ok; [done|by apply calm_try_switching].
Qed.

Lemma tick_same ms c : calm c -> tick ms c = TCPConnection.tick ms c /\ calm (TCPConnection.tick ms c).
Proof.
  intros [Hq Hl]. unfold tick, TCPConnection.tick. destruct (active c) eqn:Ha; [|done]. cbn [negb].
  set (c1 := set_timer _ _).
  assert (Hst : stream_in c1 = stream_in c).
  { unfold c1, stream_in. cbn. unfold TCPSender.tick, TCPSender.stream_in. repeat case_match; done. }
  assert (Hp : placed (stream_in c1)) by (rewrite Hst; apply Hq).
  assert (Hs : switched c1) by (unfold switched; rewrite Hst; exact Hl).
  fold (too_many c1). destruct (too_many c1) eqn:Em.
  - change (abort c1) with (reset (TCPConnection.send_segments true (something_to_send c1))).
    assert (Em' : too_many (something_to_send c1) = true).
    { unfold something_to_send. by destruct (TCPSender.segments_out _). }
    rewrite send_segments_earlier, Em'. destruct (send_segments_frame true (something_to_send c1)) as (E1 & E2 & E3 & E4 & E5).
    rewrite orb_true_r, E4, Em'. set (c2 := TCPConnection.send_segments true _) in *.
    assert (Hc : calm (reset c2)).
    { apply calm_reset; [rewrite E1|unfold switched; rewrite E1, E2, E5]; unfold something_to_send; by destruct (TCPSender.segments_out _). }
    rewrite try_switching_calm by apply Hc. split; [apply try_closing_same, Hc|by apply calm_try_closing].
  - assert (Hq1 : quiet c1) by (by split). rewrite send_segments_same by done.
    destruct (send_segments_frame false c1) as (_ & _ & _ & -> & _). rewrite Em.
    assert (Hc : calm (TCPConnection.send_segments false c1)) by (by apply calm_send).
    rewrite try_switching_calm by apply Hc. split; [apply try_closing_same, Hc|by apply calm_try_closing].
Qed.

Lemma step_agree o c : calm c -> agree calm (step o c) (TCPConnection.step o c).
Proof.
  intros Hc. destruct o as [|data| |seg|ms|n]; cbn [step TCPConnection.step].
  - apply connect_agree; [apply Hc|]. intros s E%fill_window_count. by apply calm_send, calm_sender.
  - by apply write_agree.
  - by apply end_input_agree.
  - by apply segment_received_agree.
  - destruct (tick_same ms c Hc) as [-> ?]. by apply agree_ok.
  - split; [done|]. intros c' ([bs st] & E & [= <-])%bind_Ok. destruct Hc as [[Hp Hq] Hl]. split; [by split|].
    unfold switched. cbn. intros Hi. apply Hl. unfold ByteStream.read in E. apply bind_Ok in E as (d & _ & E).
    apply bind_Ok in E as (x & E & [= -> ->]). unfold ByteStream.pop_output in E. destruct (_ =? 0); [done|]. by injection E as <-.
Qed.

Lemma exec_agree os : forall c, calm c -> agree calm (exec os c) (TCPConnection.exec os c).
Proof.
  induction os as [|o os IH]; intros c Hc; cbn [exec TCPConnection.exec]; [by apply agree_ok|].
  eapply agree_bind; [by apply step_agree|]. intros c'. apply IH.
Qed.

Lemma make_calm cfg random : 0 <= TCPConfig.send_capacity cfg < two64 -> calm (make cfg random).
Proof. intros Hc. split; [split; [|done]|done]. split; cbn; lia. Qed.

(** C20: the earlier version of the connection and the current one are the same.  From
    construction on, whatever the owner does and whatever segments arrive, the two go
    through the same states, exceptions included, and put the same segments on the
    network; and in every state that they reach each call has the same result in both
    (for [write] also the number of bytes it accepts), and so has their destruction. *)
Theorem earlier_version_equivalent (cfg : TCPConfig.t) (random : Z) (os : list op)
  (Hcap : 0 <= TCPConfig.send_capacity cfg < two64) :
  exec os (make cfg random) = TCPConnection.exec os (make cfg random) /\
  forall c, exec os (make cfg random) = Ok c ->
    connect c = TCPConnection.connect c /\
    (forall data, write data c = TCPConnection.write data c) /\
    end_input_stream c = TCPConnection.end_input_stream c /\
    (forall seg, segment_received seg c = TCPConnection.segment_received seg c) /\
    (forall ms, tick ms c = TCPConnection.tick ms c) /\
    destroy c = TCPConnection.destroy c.
Proof.
  destruct (exec_agree os _ (make_calm cfg random Hcap)) as [-> Hc]. split; [done|].
  intros c E. specialize (Hc c E). split_and!.
  - by destruct (step_agree Connect c Hc).
  - intros data. by apply write_same.
  - by apply end_input_agree.
  - intros seg. by apply segment_received_agree.
  - intros ms. by apply tick_same.
  - destruct Hc as [Hq _]. unfold destroy, TCPConnection.destroy. destruct (active c); [|done].
    by rewrite send_segments_same by (by apply something_quiet).
Qed.

(** A connection that gives up: its SYN is never answered. *)
Lemma earlier_version_equivalent_witness :
  exec (Connect :: replicate 9 (Tick 300000)) (make demo_cfg 0) =
  TCPConnection.exec (Connect :: replicate 9 (Tick 300000)) (make demo_cfg 0) /\
  exists c, exec (Connect :: replicate 9 (Tick 300000)) (make demo_cfg 0) = Ok c /\ active c = false /\
    write [Byte.x61] c = TCPConnection.write [Byte.x61] c.
Proof.
  assert (Hcap : 0 <= TCPConfig.send_capacity demo_cfg < two64) by (cbn; lia).
  destruct (earlier_version_equivalent demo_cfg 0 (Connect :: replicate 9 (Tick 300000)) Hcap) as [E Hall].
  split; [exact E|]. clear E. destruct (exec (Connect :: replicate 9 (Tick 300000)) (make demo_cfg 0)) as [c|e] eqn:E.
  - exists c. split; [reflexivity|]. split; [clear Hall; vm_compute in E; injection E as <-; reflexivity|].
    apply (Hall c eq_refl).
  - exfalso. clear Hall. vm_compute in E. discriminate E.
Defined.

End Earlier.
