(* ===== verification/TcpState.v ===== *)
(** * Summaries of a connection's state (tcp_helpers/tcp_state.hh, tcp_state.cc)

    [TCPState] compares the state of a connection, computed from its sender and
    receiver, with the states of the TCP specification. *)

From stdpp Require Import strings.
From S2P Require Import Prelude Wrapping Stream Reassembly TcpWire TcpReceiver TcpSender TcpConnection.
From Stdlib Require Import Strings.Byte.

Module TCPReceiverStateSummary.
Definition ERROR : string := "error (connection was reset)".
Definition LISTEN : string := "waiting for SYN: ackno is empty".
Definition SYN_RECV : string := "SYN received (ackno exists), and input to stream hasn't ended".
Definition FIN_RECV : string := "input to stream has ended".
End TCPReceiverStateSummary.

Module TCPSenderStateSummary.
Definition ERROR : string := "error (connection was reset)".
Definition CLOSED : string := "waiting for stream to begin (no SYN sent)".
Definition SYN_SENT : string := "stream started but nothing acknowledged".
Definition SYN_ACKED : string := "stream ongoing".
Definition FIN_SENT : string := "stream finished (FIN sent) but not fully acknowledged".
Definition FIN_ACKED : string := "stream finished and fully acknowledged".
End TCPSenderStateSummary.

Module TCPState.

(** [class TCPState]: the private members. *)
Record t : Type := mk {
  _sender : string;
  _receiver : string;
  _active : bool;
  _linger_after_streams_finish : bool
}.

#[global] Instance eq_dec : EqDecision t.
Proof. solve_decision. Defined.

Definition eqb (a b : t) : bool :=
  Bool.eqb (_active a) (_active b) &&
  Bool.eqb (_linger_after_streams_finish a) (_linger_after_streams_finish b) &&
  String.eqb (_sender a) (_sender b) && String.eqb (_receiver a) (_receiver b).
Definition neqb (a b : t) : bool := negb (eqb a b).

(** [to_string] of a flag, as [int]. *)
Definition flag_string (b : bool) : string := if b then "1" else "0".

Definition name (x : t) : string :=
  ("sender=`" +:+ _sender x +:+ "`, receiver=`" +:+ _receiver x +:+ "`, active=" +:+
   flag_string (_active x) +:+ ", linger_after_streams_finish=" +:+
   flag_string (_linger_after_streams_finish x))%string.

(** [enum class State]. *)
Inductive State : Type :=
| LISTEN | SYN_RCVD | SYN_SENT | ESTABLISHED | CLOSE_WAIT | LAST_ACK | FIN_WAIT_1 | FIN_WAIT_2
| CLOSING | TIME_WAIT | CLOSED | RESET.

(** The constructor from an official state. *)
Definition of_state (state : State) : t :=
  match state with
  | LISTEN => mk TCPSenderStateSummary.CLOSED TCPReceiverStateSummary.LISTEN true true
  | SYN_RCVD => mk TCPSenderStateSummary.SYN_SENT TCPReceiverStateSummary.SYN_RECV true true
  | SYN_SENT => mk TCPSenderStateSummary.SYN_SENT TCPReceiverStateSummary.LISTEN true true
  | ESTABLISHED => mk TCPSenderStateSummary.SYN_ACKED TCPReceiverStateSummary.SYN_RECV true true
  | CLOSE_WAIT => mk TCPSenderStateSummary.SYN_ACKED TCPReceiverStateSummary.FIN_RECV true false
  | LAST_ACK => mk TCPSenderStateSummary.FIN_SENT TCPReceiverStateSummary.FIN_RECV true false
  | CLOSING => mk TCPSenderStateSummary.FIN_SENT TCPReceiverStateSummary.FIN_RECV true true
  | FIN_WAIT_1 => mk TCPSenderStateSummary.FIN_SENT TCPReceiverStateSummary.SYN_RECV true true
  | FIN_WAIT_2 => mk TCPSenderStateSummary.FIN_ACKED TCPReceiverStateSummary.SYN_RECV true true
  | TIME_WAIT => mk TCPSenderStateSummary.FIN_ACKED TCPReceiverStateSummary.FIN_RECV true true
  | RESET => mk TCPSenderStateSummary.ERROR TCPReceiverStateSummary.ERROR false false
  | CLOSED => mk TCPSenderStateSummary.FIN_ACKED TCPReceiverStateSummary.FIN_RECV false false
  end.

(** [state_summary(const TCPReceiver &)]. *)
Definition receiver_summary (receiver : TCPReceiver.t) : string :=
  if ByteStream.error (TCPReceiver.stream_out receiver) then TCPReceiverStateSummary.ERROR
  else match TCPReceiver.ackno receiver with
       | None => TCPReceiverStateSummary.LISTEN
       | Some _ =>
           if ByteStream.input_ended (TCPReceiver.stream_out receiver)
           then TCPReceiverStateSummary.FIN_RECV
           else TCPReceiverStateSummary.SYN_RECV
       end.

(** [state_summary(const TCPSender &)]. *)
Definition sender_summary (sender : TCPSender.t) : string :=
  let stream := TCPSender.stream_in sender in
  let next := TCPSender.next_seqno_absolute sender in
  if ByteStream.error stream then TCPSenderStateSummary.ERROR
  else if next =? 0 then TCPSenderStateSummary.CLOSED
  else if next =? TCPSender.bytes_in_flight sender then TCPSenderStateSummary.SYN_SENT
  else if negb (ByteStream.eof stream) then TCPSenderStateSummary.SYN_ACKED
  else if next <? ByteStream.bytes_written stream ⊞ 2 then TCPSenderStateSummary.SYN_ACKED
  else if negb (TCPSender.bytes_in_flight sender =? 0) then TCPSenderStateSummary.FIN_SENT
  else TCPSenderStateSummary.FIN_ACKED.

(** The constructor from a sender, a receiver and two flags. *)
Definition summarize (sender : TCPSender.t) (receiver : TCPReceiver.t) (active linger : bool) : t :=
  mk (sender_summary sender) (receiver_summary receiver) active (if active then linger else false).

(** [TCPConnection::state]. *)
Definition state (c : TCPConnection.t) : t :=
  summarize (TCPConnection._sender c) (TCPConnection._receiver c) (TCPConnection.active c)
    (TCPConnection._linger_after_streams_finish c).

Lemma eqb_eq a b : eqb a b = true <-> a = b.
Proof.
  unfold eqb. rewrite !andb_true_iff, !Bool.eqb_true_iff, !String.eqb_eq.
  destruct a, b; cbn. split; [intros [[[-> ->] ->] ->]; done|by intros [=]].
Qed.

#[global] Instance State_eq_dec : EqDecision State.
Proof. solve_decision. Defined.

(** The twelve official states have twelve different summaries, and
    [operator==] tells them apart. *)
Theorem official_states_distinct (a b : State) :
  eqb (of_state a) (of_state b) = bool_decide (a = b).
Proof. by destruct a, b. Qed.

(** The phases of the sender's stream, from its counters. *)
Inductive phase : Type := P_error | P_closed | P_syn_sent | P_ongoing | P_fin_sent | P_fin_acked.

Definition phase_summary (p : phase) : string :=
  match p with
  | P_error => TCPSenderStateSummary.ERROR
  | P_closed => TCPSenderStateSummary.CLOSED
  | P_syn_sent => TCPSenderStateSummary.SYN_SENT
  | P_ongoing => TCPSenderStateSummary.SYN_ACKED
  | P_fin_sent => TCPSenderStateSummary.FIN_SENT
  | P_fin_acked => TCPSenderStateSummary.FIN_ACKED
  end.

(** What each phase means of a sender of the stream [N] long. *)
Definition in_phase (N : Z) (s : TCPSender.t) (p : phase) : Prop :=
  match p with
  | P_error => ByteStream.error (TCPSender._stream s) = true
  | P_closed => TCPSender._next_seqno s = 0
  | P_syn_sent => 0 < TCPSender._next_seqno s /\ TCPSender._abs_ackno s = 0
  | P_ongoing => 0 < TCPSender._abs_ackno s /\
      ~ (ByteStream.eof (TCPSender._stream s) = true /\ TCPSender._next_seqno s = N + 2)
  | P_fin_sent => 0 < TCPSender._abs_ackno s < N + 2 /\ TCPSender._next_seqno s = N + 2 /\
      ByteStream.eof (TCPSender._stream s) = true
  | P_fin_acked => TCPSender._abs_ackno s = N + 2 /\ TCPSender._next_seqno s = N + 2 /\
      ByteStream.eof (TCPSender._stream s) = true
  end.

(** The summary of a sender says what it means: it names the phase the
    sender's counters are in (SYN sent but nothing acknowledged, FIN sent, FIN
    acknowledged, ...). *)
Theorem sender_summary_meaning (D : Z -> byte) (N : Z) (s : TCPSender.t) (Hwf : TCPSender.wf D N s) :
  exists p, sender_summary s = phase_summary p /\ in_phase N s p.
Proof.
  pose proof (TCPSender.wf_next_range D N s Hwf) as (Hr & Hc & Hn). pose proof Hwf as [].
  unfold sender_summary, TCPSender.stream_in, TCPSender.next_seqno_absolute, TCPSender.bytes_in_flight.
  rewrite (u64_small (_ - _)) by lia.
  assert (He : ByteStream.eof (TCPSender._stream s) = true ->
    ByteStream.bytes_written (TCPSender._stream s) = N).
  { unfold ByteStream.eof, ByteStream.input_ended. intros H. zb. auto. }
  destruct (ByteStream.error _) eqn:Ee; [by exists P_error|].
  destruct (TCPSender._next_seqno s =? 0) eqn:E0; zb; [by exists P_closed|].
  destruct (_ =? _) eqn:E1; zb; [exists P_syn_sent; split; [done|cbn; lia]|].
  destruct (ByteStream.eof _) eqn:E2; cbn [negb].
  2: { exists P_ongoing. split; [done|]. cbn. split; [lia|]. rewrite E2. by intros [? _]. }
  rewrite He by done. rewrite u64_small by lia.
  destruct (_ <? N + 2) eqn:E3; zb.
  { exists P_ongoing. split; [done|]. cbn. split; [lia|]. intros [_ ?]. lia. }
  destruct (_ - _ =? 0) eqn:E4; zb; cbn [negb].
  - exists P_fin_acked. split; [done|]. cbn. split_and!; done || lia.
  - exists P_fin_sent. split; [done|]. cbn. split_and!; done || lia.
Qed.

Lemma sender_summary_meaning_witness :
  exists p, sender_summary (TCPSender.make 10 1000 (Some (WrappingInt32.make 5)) 0) = phase_summary p.
Proof.
  destruct (sender_summary_meaning TCPSender.letter_a 3
    (TCPSender.make 10 1000 (Some (WrappingInt32.make 5)) 0)) as (p & Hp & _).
  - apply TCPSender.sender_make_wf; [lia|lia|]. intros i [= <-]. apply WrappingInt32.wrapping_make_wf.
  - exists p. exact Hp.
Defined.

(** A connection with no error so far that a tick ends is in the official state
    RESET when there were more than eight retransmissions in a row, and in CLOSED
    otherwise. *)
Theorem tick_reaches_official_state (Ds Dr : Z -> byte) (Ns Nr cap ms : Z) (Is Ir : WrappingInt32.t)
  (c : TCPConnection.t) (Hwf : TCPConnection.wf Ds Ns Is Dr Nr cap Ir c)
  (Hrst : ByteStream.error (TCPConnection.stream_in c) = false /\
          ByteStream.error (TCPConnection.inbound_stream c) = false)
  (Hsyn : TCPReceiver.syn_received (TCPConnection._receiver c) = true)
  (Hact : TCPConnection.active c = true)
  (Hend : TCPConnection.active (TCPConnection.tick ms c) = false) :
  state (TCPConnection.tick ms c) =
    of_state (if TCPConfig.MAX_RETX_ATTEMPTS <?
                TCPSender.consecutive_retransmissions (TCPSender.tick ms (TCPConnection._sender c))
              then RESET else CLOSED).
Proof.
  pose proof (TCPConnection.tick_spec ms c Hact) as H. cbv zeta in H.
  destruct (_ <? _).
  - destruct H as (_ & He1 & He2 & _). unfold state, summarize, sender_summary, receiver_summary.
    unfold TCPConnection.stream_in, TCPConnection.inbound_stream in *.
    rewrite He1, He2, Hend. done.
  - destruct H as (Ha & He1 & He2 & _ & Hr & Hst & Hnx & Hack).
    rewrite Hend in Ha. symmetry in Ha. apply negb_false_iff in Ha. zb.
    unfold state, summarize, sender_summary, receiver_summary, TCPConnection.stream_in,
      TCPConnection.inbound_stream, TCPSender.stream_in, TCPSender.next_seqno_absolute,
      TCPSender.bytes_in_flight in *.
    rewrite Hr, Hst, Hnx, Hack, Hend.
    unfold TCPConnection.istream_done, TCPConnection.ostream_done, TCPConnection.inbound_stream,
      TCPConnection.stream_in, TCPSender.stream_in, TCPSender.next_seqno_absolute,
      TCPSender.bytes_in_flight in *. zb.
    destruct Hwf as [Hs _ _ _ _]. pose proof (TCPSender.wf_next_range _ _ _ Hs) as (? & ? & ?).
    pose proof Hs as []. unfold ByteStream.bytes_written in *.
    repeat match goal with H : context [u64 _] |- _ => rewrite u64_small in H by lia end.
    rewrite !u64_small by lia.
    unfold TCPReceiver.ackno. rewrite (proj1 Hrst), (proj2 Hrst), Hsyn.
    repeat match goal with H : _ = true |- _ => rewrite H; clear H end.
    rewrite !(proj2 (Z.eqb_neq _ _)) by lia. cbn [negb].
    rewrite (proj2 (Z.ltb_ge _ _)) by lia. rewrite (proj2 (Z.eqb_eq _ 0)) by lia. done.
Qed.

(** A peer's SYN is answered and the reply is never acknowledged: the ninth time
    the timer runs out, the connection is reset. *)
Lemma tick_reaches_official_state_witness :
  exists c, TCPConnection.active c = true /\ state (TCPConnection.tick 256000 c) = of_state RESET.
Proof.
  set (os := [TCPConnection.SegmentReceived (TCPReceiver.mkseg 9 true false [x61]);
    TCPConnection.Tick 1000; TCPConnection.Tick 2000; TCPConnection.Tick 4000;
    TCPConnection.Tick 8000; TCPConnection.Tick 16000; TCPConnection.Tick 32000;
    TCPConnection.Tick 64000; TCPConnection.Tick 128000]).
  destruct (TCPConnection.connection_exec_wf TCPSender.letter_a 3 (WrappingInt32.make 5) TCPSender.letter_a 3 100
    (WrappingInt32.make 9) os (WrappingInt32.wrapping_make_wf 9) ltac:(lia)
    (TCPConnection.make TCPConnection.demo_cfg 0)) as (c & E & Hw).
  - apply TCPConnection.connection_make_wf; try apply WrappingInt32.wrapping_make_wf; try reflexivity; cbn; lia.
  - split; [|intros ? _; repeat (split; [exact I|intros ? _]); exact I].
    split; [cbn; lia|]. right. split; [by right|]. exists 0.
    split; try reflexivity; [lia|].
    split; [reflexivity|vm_compute; congruence|left; vm_compute; congruence|done].
  - exists c.
    assert (Hc : ByteStream.error (TCPConnection.stream_in c) = false /\
      ByteStream.error (TCPConnection.inbound_stream c) = false /\
      TCPReceiver.syn_received (TCPConnection._receiver c) = true /\
      TCPConnection.active c = true /\ TCPConnection.active (TCPConnection.tick 256000 c) = false /\
      (TCPConfig.MAX_RETX_ATTEMPTS <? TCPSender.consecutive_retransmissions
         (TCPSender.tick 256000 (TCPConnection._sender c))) = true).
    { clear Hw. vm_compute in E. injection E as <-. vm_compute. repeat split. }
    destruct Hc as (H1 & H2 & H3 & H4 & H5 & H6). split; [exact H4|].
    rewrite (tick_reaches_official_state _ _ _ _ _ 256000 _ _ c Hw (conj H1 H2) H3 H4 H5), H6. reflexivity.
Defined.

End TCPState.
