(* ===== verification/NetworkInterface.v ===== *)
(** * The network interface (network_interface.hh, network_interface.cc)

    [NetworkInterface] wraps datagrams in Ethernet frames.  It resolves next hops
    with ARP: it remembers learned addresses for 30 seconds, repeats a request no
    more often than every 5 seconds, and keeps the datagrams that wait for an
    answer.  An [Address] is represented by the number [ipv4_numeric()] returns;
    the three [std::map]s, indexed by such numbers, are finite maps. *)

From S2P Require Import Prelude Buffers Parsing Ipv4Wire EthernetWire.
From Stdlib Require Import Strings.Byte.

Module NetworkInterface.

(** [struct NetworkInterface::Entry]. *)
Record Entry : Type := mkEntry { eth_addr : EthernetAddress.t; time_elapsed : Z }.

Definition MSG_EXPIRY : Z := 5000.
Definition ENTRY_EXPIRY : Z := 30000.
Definition ARPMSG_ETHERNET_BROADCAST : EthernetAddress.t := [0; 0; 0; 0; 0; 0].

(** [class NetworkInterface]: the private members (the [debug] switch apart). *)
Record t : Type := mk {
  _ethernet_address : EthernetAddress.t;
  _ip_address : Z;
  _frames_out : list EthernetFrame.t;
  _forwarding_table : gmap Z Entry;
  _outstanding_msg : gmap Z Z;
  _unsent_datagrams : gmap Z (list IPv4Datagram.t)
}.

Definition make (ethernet_address : EthernetAddress.t) (ip_address : Z) : t :=
  mk ethernet_address ip_address [] ∅ ∅ ∅.

Definition frames_out (n : t) : list EthernetFrame.t := _frames_out n.
Definition push_frame (f : EthernetFrame.t) (n : t) : t :=
  mk (_ethernet_address n) (_ip_address n) (_frames_out n ++ [f]) (_forwarding_table n)
     (_outstanding_msg n) (_unsent_datagrams n).
Definition set_unsent (u : gmap Z (list IPv4Datagram.t)) (n : t) : t :=
  mk (_ethernet_address n) (_ip_address n) (_frames_out n) (_forwarding_table n)
     (_outstanding_msg n) u.
Definition set_outstanding (m : gmap Z Z) (n : t) : t :=
  mk (_ethernet_address n) (_ip_address n) (_frames_out n) (_forwarding_table n) m
     (_unsent_datagrams n).
Definition set_table (f : gmap Z Entry) (n : t) : t :=
  mk (_ethernet_address n) (_ip_address n) (_frames_out n) f (_outstanding_msg n)
     (_unsent_datagrams n).

(** [std::map::insert] keeps an existing value. *)
Definition map_insert {V} (k : Z) (v : V) (m : gmap Z V) : gmap Z V :=
  match m !! k with Some _ => m | None => <[k := v]> m end.

(** The frame that carries a datagram to an Ethernet address. *)
Definition ip_frame (n : t) (dst : EthernetAddress.t) (payload : BufferList.t) : EthernetFrame.t :=
  EthernetFrame.mk (EthernetHeader.mk dst (_ethernet_address n) EthernetHeader.TYPE_IPv4) payload.

(** The ARP request for an address, and the reply to a request. *)
Definition arp_request (n : t) (next_hop_ip : Z) : ARPMessage.t :=
  ARPMessage.mk ARPMessage.TYPE_ETHERNET EthernetHeader.TYPE_IPv4 6 4 ARPMessage.OPCODE_REQUEST
    (_ethernet_address n) (_ip_address n) ARPMSG_ETHERNET_BROADCAST next_hop_ip.
Definition arp_reply (n : t) (msg : ARPMessage.t) : ARPMessage.t :=
  ARPMessage.mk ARPMessage.TYPE_ETHERNET EthernetHeader.TYPE_IPv4 6 4 ARPMessage.OPCODE_REPLY
    (_ethernet_address n) (_ip_address n) (ARPMessage.sender_ethernet_address msg)
    (ARPMessage.sender_ip_address msg).

(** Serialising an ARP message into a frame and queueing it. *)
Definition send_arp (dst : EthernetAddress.t) (msg : ARPMessage.t) (n : t) : res t :=
  bs ← ARPMessage.serialize msg;
  Ok (push_frame (EthernetFrame.mk
        (EthernetHeader.mk dst (_ethernet_address n) EthernetHeader.TYPE_ARP)
        (BufferList.of_string bs)) n).

Definition send_datagram (dgram : IPv4Datagram.t) (next_hop_ip : Z) (n : t) : res t :=
  match _forwarding_table n !! next_hop_ip with
  | Some it =>
      payload ← IPv4Datagram.serialize dgram;
      Ok (push_frame (ip_frame n (eth_addr it) payload) n)
  | None =>
      let q := match _unsent_datagrams n !! next_hop_ip with
               | None => [dgram]
               | Some q => q ++ [dgram]
               end in
      let n := set_unsent (<[next_hop_ip := q]> (_unsent_datagrams n)) n in
      match _outstanding_msg n !! next_hop_ip with
      | Some _ => Ok n
      | None =>
          let n := set_outstanding (map_insert next_hop_ip 0 (_outstanding_msg n)) n in
          send_arp EthernetAddress.ETHERNET_BROADCAST (arp_request n next_hop_ip) n
      end
  end.

(** The loop that sends the waiting datagrams.  The result says whether the queue
    was emptied within the fuel. *)
Fixpoint flush (fuel : nat) (ip : Z) (n : t) : res (bool * t) :=
  match _unsent_datagrams n !! ip with
  | Some (d :: _) =>
      match fuel with
      | O => Ok (false, n)
      | S fuel' =>
          n ← send_datagram d ip n;
          flush fuel' ip (set_unsent (alter tail ip (_unsent_datagrams n)) n)
      end
  | _ => Ok (true, n)
  end.

Definition waiting (ip : Z) (n : t) : list IPv4Datagram.t :=
  match _unsent_datagrams n !! ip with Some q => q | None => [] end.

(** The handling of an ARP message that was parsed and is for this interface. *)
Definition recv_arp (msg : ARPMessage.t) (n : t) : res t :=
  let ip := ARPMessage.sender_ip_address msg in
  let n := set_table
    (map_insert ip (mkEntry (ARPMessage.sender_ethernet_address msg) 0) (_forwarding_table n)) n in
  '(_, n) ← flush (length (waiting ip n)) ip n;
  if ARPMessage.opcode msg =? ARPMessage.OPCODE_REQUEST then
    send_arp (ARPMessage.sender_ethernet_address msg) (arp_reply n msg) n
  else Ok (set_outstanding (delete ip (_outstanding_msg n)) n).

Definition recv_frame (frame : EthernetFrame.t) (n : t) : res (option IPv4Datagram.t * t) :=
  let h := EthernetFrame.header frame in
  if negb (EthernetAddress.eqb (EthernetHeader.dst h) (_ethernet_address n)) &&
     negb (EthernetAddress.eqb (EthernetHeader.dst h) EthernetAddress.ETHERNET_BROADCAST)
  then Ok (None, n)
  else
    let payload_single := Buffer.of_string (BufferList.concatenate (EthernetFrame.payload frame)) in
    if EthernetHeader.type h =? EthernetHeader.TYPE_IPv4 then
      '(r, dgram) ← IPv4Datagram.parse payload_single IPv4Datagram.default;
      if negb (is_NoError r) then Ok (None, n) else Ok (Some dgram, n)
    else if EthernetHeader.type h =? EthernetHeader.TYPE_ARP then
      '(r, msg) ← ARPMessage.parse payload_single ARPMessage.default;
      if negb (is_NoError r) || negb (ARPMessage.target_ip_address msg =? _ip_address n)
      then Ok (None, n)
      else
        n ← recv_arp msg n;
        Ok (None, n)
    else Ok (None, n).

(** The two loops of [tick]: every entry is aged, and dropped when it is too old. *)
Definition age_entry (ms : Z) (e : Entry) : option Entry :=
  if ENTRY_EXPIRY <? time_elapsed e ⊞ ms then None
  else Some (mkEntry (eth_addr e) (time_elapsed e ⊞ ms)).
Definition age_msg (ms : Z) (elapsed : Z) : option Z :=
  if MSG_EXPIRY <? elapsed ⊞ ms then None else Some (elapsed ⊞ ms).

Definition tick (ms_since_last_tick : Z) (n : t) : t :=
  set_outstanding (omap (age_msg ms_since_last_tick) (_outstanding_msg n))
    (set_table (omap (age_entry ms_since_last_tick) (_forwarding_table n)) n).

#[global] Arguments send_datagram : simpl never.

(** ** Sending *)

Lemma send_arp_spec dst msg n : ARPMessage.supported msg = true ->
  send_arp dst msg n = Ok (push_frame (EthernetFrame.mk
    (EthernetHeader.mk dst (_ethernet_address n) EthernetHeader.TYPE_ARP)
    (BufferList.of_string (ARPMessage.encode msg))) n).
Proof. intros H. unfold send_arp. by rewrite ARPMessage.arp_serialize_layout, H. Qed.

Lemma map_insert_fresh {V} k (v : V) m : m !! k = None -> map_insert k v m = <[k := v]> m.
Proof. intros H. unfold map_insert. by rewrite H. Qed.

Lemma lookup_map_insert {V} k (v : V) m : is_Some (map_insert k v m !! k).
Proof. unfold map_insert. destruct (m !! k) eqn:E; [by rewrite E|by rewrite lookup_insert_eq]. Qed.

(** With the address known, the datagram leaves at once and nothing else changes. *)
Lemma send_known d ip n it : IPv4Datagram.wf d -> _forwarding_table n !! ip = Some it ->
  exists payload, IPv4Datagram.serialize d = Ok payload /\
    send_datagram d ip n = Ok (push_frame (ip_frame n (eth_addr it) payload) n).
Proof.
  intros Hd Hit. destruct (IPv4Datagram.datagram_serialize_spec d Hd) as (c & bl & E & _).
  exists bl. unfold send_datagram. by rewrite Hit, E.
Qed.

(** Otherwise it waits, and a request goes out unless one is outstanding. *)
Lemma send_unknown d ip n : _forwarding_table n !! ip = None ->
  exists n', send_datagram d ip n = Ok n' /\
    _forwarding_table n' = _forwarding_table n /\
    waiting ip n' = waiting ip n ++ [d] /\
    (forall ip', ip' <> ip -> _unsent_datagrams n' !! ip' = _unsent_datagrams n !! ip') /\
    match _outstanding_msg n !! ip with
    | Some _ => _outstanding_msg n' = _outstanding_msg n /\ _frames_out n' = _frames_out n
    | None => _outstanding_msg n' = <[ip := 0]> (_outstanding_msg n) /\
        _frames_out n' = _frames_out n ++ [EthernetFrame.mk
          (EthernetHeader.mk EthernetAddress.ETHERNET_BROADCAST (_ethernet_address n) EthernetHeader.TYPE_ARP)
          (BufferList.of_string (ARPMessage.encode (arp_request n ip)))]
    end.
Proof.
  intros Hn. unfold send_datagram. rewrite Hn. cbn [_outstanding_msg set_unsent].
  assert (Hq : forall x, _unsent_datagrams x =
    <[ip := match _unsent_datagrams n !! ip with None => [d] | Some q => q ++ [d] end]> (_unsent_datagrams n) ->
    waiting ip x = waiting ip n ++ [d]).
  { intros x Hx. unfold waiting. rewrite Hx, lookup_insert_eq. by destruct (_unsent_datagrams n !! ip). }
  destruct (_outstanding_msg n !! ip) eqn:Em.
  - eexists. split; [done|]. split_and!; try done; [by apply Hq|].
    intros ip' Hne. cbn. by rewrite lookup_insert_ne.
  - rewrite send_arp_spec by done. eexists. split; [done|]. cbn.
    rewrite map_insert_fresh by done. split_and!; try done; [by apply Hq|].
    intros ip' Hne. by rewrite lookup_insert_ne.
Qed.

(** The frames that carry a list of datagrams to one Ethernet address. *)
Definition carried_in (n : t) (dst : EthernetAddress.t) (ds : list IPv4Datagram.t)
  (fs : list EthernetFrame.t) : Prop :=
  Forall2 (fun d f => exists p, IPv4Datagram.serialize d = Ok p /\ f = ip_frame n dst p) ds fs.

(** The loop empties the queue: it needs one iteration per datagram. *)
Lemma flush_spec ip it ds : Forall IPv4Datagram.wf ds -> forall n,
  _forwarding_table n !! ip = Some it -> waiting ip n = ds ->
  exists fs n', flush (length ds) ip n = Ok (true, n') /\
    carried_in n (eth_addr it) ds fs /\ _frames_out n' = _frames_out n ++ fs /\
    _ethernet_address n' = _ethernet_address n /\ _ip_address n' = _ip_address n /\
    _forwarding_table n' = _forwarding_table n /\ _outstanding_msg n' = _outstanding_msg n /\
    waiting ip n' = [] /\
    (forall ip', ip' <> ip -> _unsent_datagrams n' !! ip' = _unsent_datagrams n !! ip').
Proof.
  induction 1 as [|d ds Hd _ IH]; intros n Hit Hw; unfold waiting in Hw.
  - exists [], n. split.
    { revert Hw. cbn [length flush]. by destruct (_unsent_datagrams n !! ip) as [[|]|]. }
    split_and!; try done; [constructor|by rewrite app_nil_r].
  - destruct (_unsent_datagrams n !! ip) as [q|] eqn:Eq; [|done]. subst q.
    destruct (send_known d ip n it Hd Hit) as (p & Ep & Es).
    cbn [length flush]. rewrite Eq, Es. cbn [mbind res_bind].
    set (n1 := set_unsent _ _).
    assert (Hu1 : _unsent_datagrams n1 !! ip = Some ds) by (cbn; by rewrite lookup_alter_eq, Eq).
    destruct (IH n1 Hit) as (fs & n' & E & Hc & Hf & He & Hi & Ht & Ho & Hw' & Hoth);
      [unfold waiting; by rewrite Hu1|].
    exists (ip_frame n (eth_addr it) p :: fs), n'. split; [done|]. split_and!; try done.
    + constructor; [by exists p|]. exact Hc.
    + rewrite Hf. cbn. by rewrite <- app_assoc.
    + intros ip' Hne. rewrite Hoth by done. cbn. by rewrite lookup_alter_ne by done.
Qed.

(** ** The invariant *)

Record wf (n : t) : Prop := {
  wf_waiting : forall ip, Forall IPv4Datagram.wf (waiting ip n);
  wf_known : forall ip, is_Some (_forwarding_table n !! ip) -> waiting ip n = [];
  wf_entries : forall ip e, _forwarding_table n !! ip = Some e -> 0 <= time_elapsed e <= ENTRY_EXPIRY;
  wf_requests : forall ip x, _outstanding_msg n !! ip = Some x -> 0 <= x <= MSG_EXPIRY
}.

Lemma interface_make_wf eth ip : wf (make eth ip).
Proof. split; intros; done. Qed.

Lemma interface_send_datagram_wf d ip n : wf n -> IPv4Datagram.wf d ->
  exists n', send_datagram d ip n = Ok n' /\ wf n'.
Proof.
  intros Hw Hd. destruct (_forwarding_table n !! ip) as [it|] eqn:E.
  - destruct (send_known d ip n it Hd E) as (p & _ & Es). rewrite Es. eexists. split; [done|].
    destruct Hw. by split.
  - destruct (send_unknown d ip n E) as (n' & Es & Ht & Hq & Hoth & Hm). exists n'. split; [done|].
    assert (Hw' : forall ip', ip' <> ip -> waiting ip' n' = waiting ip' n)
      by (intros ip' Hne; unfold waiting; by rewrite Hoth).
    destruct Hw as [Hw1 Hw2 Hw3 Hw4]. split.
    + intros ip'. destruct (decide (ip' = ip)) as [->|Hne]; [|by rewrite Hw'].
      rewrite Hq. apply Forall_app. split; [done|by constructor].
    + intros ip' Hs. rewrite Ht in Hs. destruct (decide (ip' = ip)) as [->|Hne].
      * rewrite E in Hs. by destruct Hs.
      * rewrite Hw' by done. auto.
    + rewrite Ht. done.
    + intros ip' x. destruct (_outstanding_msg n !! ip) eqn:Em; destruct Hm as [-> _]; [apply Hw4|].
      rewrite lookup_insert_Some. intros [[_ <-]|[_ Hl]]; [unfold MSG_EXPIRY; lia|by eapply Hw4].
Qed.

(** What learning an address does: the datagrams that waited for it leave, in
    order, towards the address in the table; then a request is answered, or the
    outstanding request is forgotten. *)
Lemma recv_arp_spec msg n : wf n ->
  let ip := ARPMessage.sender_ip_address msg in
  let table := map_insert ip (mkEntry (ARPMessage.sender_ethernet_address msg) 0) (_forwarding_table n) in
  exists it fs n', table !! ip = Some it /\ recv_arp msg n = Ok n' /\ wf n' /\
    carried_in n (eth_addr it) (waiting ip n) fs /\ waiting ip n' = [] /\
    _forwarding_table n' = table /\
    (forall ip', ip' <> ip -> _unsent_datagrams n' !! ip' = _unsent_datagrams n !! ip') /\
    if ARPMessage.opcode msg =? ARPMessage.OPCODE_REQUEST then
      _frames_out n' = _frames_out n ++ fs ++ [EthernetFrame.mk
        (EthernetHeader.mk (ARPMessage.sender_ethernet_address msg) (_ethernet_address n)
           EthernetHeader.TYPE_ARP) (BufferList.of_string (ARPMessage.encode (arp_reply n msg)))] /\
      _outstanding_msg n' = _outstanding_msg n
    else
      _frames_out n' = _frames_out n ++ fs /\ _outstanding_msg n' = delete ip (_outstanding_msg n).
Proof.
  intros Hw ip table. pose proof Hw as [Hw1 Hw2 Hw3 Hw4].
  destruct (lookup_map_insert ip (mkEntry (ARPMessage.sender_ethernet_address msg) 0)
    (_forwarding_table n)) as [it Hit].
  set (n1 := set_table table n).
  destruct (flush_spec ip it (waiting ip n) (Hw1 ip) n1 Hit eq_refl) as
    (fs & n2 & E & Hc & Hf & He & Hi & Ht & Ho & Hq & Hoth).
  unfold recv_arp. fold ip table n1. change (waiting ip n1) with (waiting ip n). rewrite E.
  cbn [mbind res_bind].
  assert (Hent : forall ip' e, table !! ip' = Some e -> 0 <= time_elapsed e <= ENTRY_EXPIRY).
  { intros ip' e. unfold table, map_insert. destruct (_forwarding_table n !! ip); [apply Hw3|].
    rewrite lookup_insert_Some. intros [[_ <-]|[_ Hl]]; [unfold ENTRY_EXPIRY; cbn; lia|by eapply Hw3]. }
  assert (Hwf2 : forall m fr, (forall ip' x, m !! ip' = Some x -> 0 <= x <= MSG_EXPIRY) ->
    wf (mk (_ethernet_address n2) (_ip_address n2) fr (_forwarding_table n2) m (_unsent_datagrams n2))).
  { intros m fr Hm.
    assert (Hw' : forall ip', ip' <> ip -> waiting ip' n2 = waiting ip' n)
      by (intros ip' Hne; unfold waiting; by rewrite Hoth).
    split; cbn [_forwarding_table _outstanding_msg].
    - intros ip'. change (Forall IPv4Datagram.wf (waiting ip' n2)).
      destruct (decide (ip' = ip)) as [->|Hne]; [rewrite Hq; constructor|by rewrite Hw'].
    - intros ip' Hs. change (waiting ip' n2 = []). destruct (decide (ip' = ip)) as [->|Hne]; [done|].
      rewrite Hw' by done. apply Hw2. rewrite Ht in Hs. unfold n1, table, map_insert in Hs. cbn in Hs.
      destruct (_forwarding_table n !! ip); [done|]. by rewrite lookup_insert_ne in Hs.
    - rewrite Ht. exact Hent.
    - exact Hm. }
  destruct (ARPMessage.opcode msg =? ARPMessage.OPCODE_REQUEST).
  - rewrite send_arp_spec by done. eexists it, fs, _. split; [done|]. split; [done|].
    split; [apply Hwf2; rewrite Ho; exact Hw4|]. split; [done|]. split; [exact Hq|]. split; [exact Ht|].
    split; [exact Hoth|]. cbn [push_frame _frames_out _outstanding_msg]. split; [|exact Ho].
    rewrite Hf, <- app_assoc. unfold arp_reply. rewrite He, Hi. done.
  - eexists it, fs, _. split; [done|]. split; [done|]. split.
    { apply Hwf2. rewrite Ho. intros ip' x. rewrite lookup_delete_Some. intros [_ Hl]. by eapply Hw4. }
    split; [done|]. split; [exact Hq|]. split; [exact Ht|]. split; [exact Hoth|].
    cbn. by rewrite Hf, Ho.
Qed.

Lemma interface_recv_frame_wf f n : wf n -> zlen (BufferList.concatenate (EthernetFrame.payload f)) < two64 ->
  exists r n', recv_frame f n = Ok (r, n') /\ wf n'.
Proof.
  intros Hw Hl. unfold recv_frame. destruct (_ && _); [by eexists _, _|].
  assert (Hb : Buffer.wf (Buffer.of_string (BufferList.concatenate (EthernetFrame.payload f))))
    by (by apply Buffer.buffer_of_string_wf).
  destruct (_ =? _).
  - destruct (parse_header_and_rest_safe _ (IPv4Datagram.header IPv4Datagram.default) Hb)
      as (r & h & b & E & _).
    unfold IPv4Datagram.parse. rewrite E. cbn [mbind res_bind].
    destruct (negb (_ =? _)); cbn [mbind res_bind]; [by eexists _, _|].
    destruct (negb _); by eexists _, _.
  - destruct (_ =? _); [|by eexists _, _].
    destruct (ARPMessage.arp_parse_safe _ ARPMessage.default Hb) as (r & m & E).
    rewrite E. cbn [mbind res_bind]. destruct (_ || _); [by eexists _, _|].
    destruct (recv_arp_spec m n Hw) as (it & fs & n' & _ & E' & Hw' & _).
    rewrite E'. cbn. by eexists _, _.
Qed.

(** A datagram that is handed up was parsed from the frame's payload. *)
Lemma recv_frame_parsed f n d n' : recv_frame f n = Ok (Some d, n') ->
  IPv4Datagram.parse (Buffer.of_string (BufferList.concatenate (EthernetFrame.payload f)))
    IPv4Datagram.default = Ok (NoError, d).
Proof.
  unfold recv_frame. destruct (_ && _); [done|]. destruct (_ =? _).
  - destruct (IPv4Datagram.parse _ _) as [[r d0]|] eqn:E; cbn; [|done].
    destruct r; cbn; intros H; by simplify_eq.
  - destruct (_ =? _); [|done]. destruct (ARPMessage.parse _ _) as [[r m]|]; cbn; [|done].
    destruct (_ || _); [done|]. by destruct (recv_arp m n).
Qed.

Lemma interface_tick_wf ms n : wf n -> 0 <= ms < two63 -> wf (tick ms n).
Proof.
  intros [Hw1 Hw2 Hw3 Hw4] Hms. split; cbn [tick set_outstanding set_table _forwarding_table _outstanding_msg].
  - exact Hw1.
  - intros ip [e He]. apply Hw2. rewrite lookup_omap_Some in He. destruct He as (e0 & _ & He0). by eexists.
  - intros ip e. rewrite lookup_omap_Some. intros (e0 & Ha & He0). apply Hw3 in He0.
    unfold age_entry, ENTRY_EXPIRY in *. rewrite u64_small in Ha by lia.
    destruct (_ <? _) eqn:E; [done|]. injection Ha as <-. zb. cbn. lia.
  - intros ip x. rewrite lookup_omap_Some. intros (x0 & Ha & Hx0). apply Hw4 in Hx0.
    unfold age_msg, MSG_EXPIRY in *. rewrite u64_small in Ha by lia.
    destruct (_ <? _) eqn:E; [done|]. injection Ha as <-. zb. lia.
Qed.

(** ** Runs *)

Inductive op : Type :=
| Send (dgram : IPv4Datagram.t) (next_hop_ip : Z)
| Recv (frame : EthernetFrame.t)
| Tick (ms : Z)
| TakeFrames.

Definition step (o : op) (n : t) : res t :=
  match o with
  | Send d ip => send_datagram d ip n
  | Recv f => '(_, n') ← recv_frame f n; Ok n'
  | Tick ms => Ok (tick ms n)
  | TakeFrames =>
      Ok (mk (_ethernet_address n) (_ip_address n) [] (_forwarding_table n) (_outstanding_msg n)
             (_unsent_datagrams n))
  end.

Fixpoint exec (os : list op) (n : t) : res t :=
  match os with
  | [] => Ok n
  | o :: os' => n' ← step o n; exec os' n'
  end.

(** Datagrams that can be serialised; frames are arbitrary. *)
Definition allowed (o : op) : Prop :=
  match o with
  | Send d _ => IPv4Datagram.wf d
  | Recv f => zlen (BufferList.concatenate (EthernetFrame.payload f)) < two64
  | Tick ms => 0 <= ms < two63
  | TakeFrames => True
  end.

Lemma interface_step_wf o n : wf n -> allowed o -> exists n', step o n = Ok n' /\ wf n'.
Proof.
  intros Hw Ha. destruct o as [d ip|f|ms|]; cbn [step].
  - by apply interface_send_datagram_wf.
  - destruct (interface_recv_frame_wf f n Hw Ha) as (r & n' & -> & Hw'). by exists n'.
  - eexists. split; [done|]. by apply interface_tick_wf.
  - eexists. split; [done|]. destruct Hw. by split.
Qed.

Lemma interface_exec_wf os : Forall allowed os -> forall n, wf n -> exists n', exec os n = Ok n' /\ wf n'.
Proof.
  induction 1 as [|o os Ho _ IH]; intros n Hw; cbn [exec]; [by exists n|].
  destruct (interface_step_wf o n Hw Ho) as (n1 & -> & Hw1). cbn. by apply IH.
Qed.

Lemma interface_exec_app os1 os2 n : exec (os1 ++ os2) n = (n' ← exec os1 n; exec os2 n').
Proof.
  revert n. induction os1 as [|o os1 IH]; intros n; cbn [app exec]; [done|].
  destruct (step o n); [|done]. apply IH.
Qed.

(** The time that passes in a run. *)
Definition passes (o : op) : Z := match o with Tick ms => ms | _ => 0 end.
Fixpoint duration (os : list op) : Z :=
  match os with
  | [] => 0
  | o :: os' => passes o + duration os'
  end.

Lemma duration_app os1 os2 : duration (os1 ++ os2) = duration os1 + duration os2.
Proof. induction os1 as [|o os1 IH]; cbn; lia. Qed.

Lemma duration_nonneg os : Forall (fun o => 0 <= passes o) os -> 0 <= duration os.
Proof. induction 1; cbn; lia. Qed.

Lemma allowed_passes o : allowed o -> 0 <= passes o < two63.
Proof. by destruct o. Qed.

(** *** The age of an entry *)

Lemma send_datagram_table d ip n n' : send_datagram d ip n = Ok n' ->
  _forwarding_table n' = _forwarding_table n.
Proof.
  unfold send_datagram. destruct (_forwarding_table n !! ip).
  - by intros (p & _ & [= <-])%bind_Ok.
  - destruct (_outstanding_msg _ !! ip); [by intros [= <-]|]. unfold send_arp. by intros (bs & _ & [= <-])%bind_Ok.
Qed.

(** What a frame can do to the two maps. *)
Lemma recv_frame_maps f n r n' : wf n -> recv_frame f n = Ok (r, n') ->
  (_forwarding_table n' = _forwarding_table n /\ _outstanding_msg n' = _outstanding_msg n) \/
  exists ip a, _forwarding_table n' = map_insert ip (mkEntry a 0) (_forwarding_table n) /\
    (_outstanding_msg n' = _outstanding_msg n \/ _outstanding_msg n' = delete ip (_outstanding_msg n)).
Proof.
  intros Hw. unfold recv_frame. destruct (_ && _); [intros [= _ <-]; by left|]. destruct (_ =? _).
  - intros ([e d] & _ & H)%bind_Ok. left. destruct (negb _); by injection H as _ <-.
  - destruct (_ =? _); [|intros [= _ <-]; by left]. intros ([e m] & _ & H)%bind_Ok.
    destruct (_ || _); [injection H as _ <-; by left|]. apply bind_Ok in H as (n1 & E & [= _ <-]). right.
    destruct (recv_arp_spec m n Hw) as (it & fs & n2 & _ & E2 & _ & _ & _ & Ht & _ & Hm).
    rewrite E in E2. injection E2 as <-. eexists _, _. split; [exact Ht|]. case_match; destruct Hm as [_ ->]; by auto.
Qed.

(** An entry ages and is kept until it is too old. *)
Lemma known_step o n n' ip e : wf n -> allowed o -> step o n = Ok n' -> _forwarding_table n !! ip = Some e ->
  _forwarding_table n' !! ip =
    if time_elapsed e + passes o <=? 30000 then Some (mkEntry (eth_addr e) (time_elapsed e + passes o)) else None.
Proof.
  intros Hw Ho E He. pose proof (wf_entries n Hw ip e He) as Hage. unfold ENTRY_EXPIRY in Hage.
  assert (Hsame : _forwarding_table n' !! ip = Some e -> passes o = 0 -> _forwarding_table n' !! ip =
    if time_elapsed e + passes o <=? 30000 then Some (mkEntry (eth_addr e) (time_elapsed e + passes o)) else None).
  { intros -> ->. rewrite Z.add_0_r, (proj2 (Z.leb_le _ _)) by lia. by destruct e. }
  destruct o as [d ip'|f|ms|]; cbn [step] in E.
  - apply Hsame; [|done]. by rewrite (send_datagram_table _ _ _ _ E).
  - apply Hsame; [|done]. apply bind_Ok in E as ([r n1] & E & [= <-]).
    destruct (recv_frame_maps _ _ _ _ Hw E) as [[-> _]|(ip' & a & -> & _)]; [done|].
    unfold map_insert. destruct (_forwarding_table n !! ip') eqn:Ei; [done|]. rewrite lookup_insert_ne by congruence. done.
  - injection E as <-. cbn. rewrite lookup_omap, He. cbn in *. unfold age_entry, ENTRY_EXPIRY.
    rewrite u64_small by lia. do 2 zcase; try done; lia.
  - apply Hsame; [|done]. by injection E as <-.
Qed.

(** An address is learned from a frame, with age zero. *)
Lemma unknown_step o n n' ip e : wf n -> step o n = Ok n' -> _forwarding_table n !! ip = None ->
  _forwarding_table n' !! ip = Some e -> time_elapsed e = 0 /\ exists f, o = Recv f.
Proof.
  intros Hw E Hn He. destruct o as [d ip'|f|ms|]; cbn [step] in E.
  - rewrite (send_datagram_table _ _ _ _ E) in He. congruence.
  - apply bind_Ok in E as ([r n1] & E & [= <-]).
    destruct (recv_frame_maps _ _ _ _ Hw E) as [[Ht _]|(ip' & a & Ht & _)]; rewrite Ht in He; [congruence|].
    unfold map_insert in He. destruct (_forwarding_table n !! ip') eqn:Ei; [congruence|].
    apply lookup_insert_Some in He as [[_ <-]|[_ He]]; [by eauto|congruence].
  - injection E as <-. cbn in He. by rewrite lookup_omap, Hn in He.
  - injection E as <-. cbn in He. congruence.
Qed.

(** A recorded request ages, or is forgotten. *)
Lemma request_step o n n' ip x : wf n -> allowed o -> step o n = Ok n' -> _outstanding_msg n' !! ip = Some x ->
  match _outstanding_msg n !! ip with
  | Some y => x = y + passes o
  | None => x = 0 /\ exists d, o = Send d ip
  end.
Proof.
  intros Hw Ho E Hx. destruct o as [d ip'|f|ms|]; cbn [step passes] in *.
  - destruct (_forwarding_table n !! ip') as [it|] eqn:Et.
    + destruct (send_known d ip' n it Ho Et) as (p & _ & E'). rewrite E in E'. injection E' as ->.
      cbn in Hx. rewrite Hx. lia.
    + destruct (send_unknown d ip' n Et) as (n1 & E' & _ & _ & _ & Hm). rewrite E in E'. injection E' as <-.
      destruct (_outstanding_msg n !! ip') eqn:Ei; destruct Hm as [Hm _]; rewrite Hm in Hx; [rewrite Hx; lia|].
      apply lookup_insert_Some in Hx as [[-> <-]|[Hne Hx]]; [rewrite Ei; by eauto|rewrite Hx; lia].
  - apply bind_Ok in E as ([r n1] & E & [= <-]).
    destruct (recv_frame_maps _ _ _ _ Hw E) as [[_ Hm]|(ip' & a & _ & [Hm|Hm])]; rewrite Hm in Hx; try (rewrite Hx; lia).
    apply lookup_delete_Some in Hx as [_ ->]. lia.
  - injection E as <-. cbn in Hx. rewrite lookup_omap in Hx. destruct (_outstanding_msg n !! ip) as [y|] eqn:Ey; [|done].
    pose proof (wf_requests n Hw ip y Ey) as Hr. cbn in Hx. unfold age_msg, MSG_EXPIRY in *. cbn in Ho.
    rewrite u64_small in Hx by lia. destruct (_ <? _); [done|]. by injection Hx as <-.
  - injection E as <-. cbn in Hx. rewrite Hx. lia.
Qed.

Lemma known_run os : Forall allowed os -> forall n n' ip e, wf n -> exec os n = Ok n' ->
  _forwarding_table n !! ip = Some e -> time_elapsed e + duration os <= 30000 ->
  _forwarding_table n' !! ip = Some (mkEntry (eth_addr e) (time_elapsed e + duration os)).
Proof.
  induction 1 as [|o os Ho Hos IH]; intros n n' ip e Hw E He Hd; cbn [exec duration] in *.
  - injection E as <-. rewrite Z.add_0_r. by destruct e.
  - apply bind_Ok in E as (n1 & E1 & E). destruct (interface_step_wf o n Hw Ho) as (n2 & E2 & Hw1).
    rewrite E1 in E2. injection E2 as <-.
    assert (H0 : 0 <= duration os).
    { apply duration_nonneg. eapply Forall_impl; [exact Hos|]. intros ? ?%allowed_passes. lia. }
    pose proof (known_step o n n1 ip e Hw Ho E1 He) as H1. rewrite (proj2 (Z.leb_le _ _)) in H1 by lia.
    rewrite (IH n1 n' ip _ Hw1 E H1) by (cbn; lia). cbn. do 2 f_equal. lia.
Qed.

(** *** Where the entries come from *)

Section History.
Context (eth : EthernetAddress.t) (addr : Z).
#[local] Abbreviation start := (make eth addr).

(** In the run [os] a frame has taught the interface that [a] is the Ethernet address of
    [ip], which was unknown, and then [age] milliseconds have passed. *)
Definition learned (os : list op) (ip : Z) (a : EthernetAddress.t) (age : Z) : Prop :=
  exists os1 f os2 n1 n2, os = os1 ++ Recv f :: os2 /\ exec os1 start = Ok n1 /\ step (Recv f) n1 = Ok n2 /\
    _forwarding_table n1 !! ip = None /\ _forwarding_table n2 !! ip = Some (mkEntry a 0) /\ duration os2 = age.

(** A datagram for [ip] has made the interface ask for its address, [age] milliseconds ago. *)
Definition requested (os : list op) (ip age : Z) : Prop :=
  exists os1 d os2 n1 n2, os = os1 ++ Send d ip :: os2 /\ exec os1 start = Ok n1 /\ step (Send d ip) n1 = Ok n2 /\
    _outstanding_msg n1 !! ip = None /\ _outstanding_msg n2 !! ip = Some 0 /\ duration os2 = age.

Lemma history os : Forall allowed os -> forall n, exec os start = Ok n ->
  (forall ip e, _forwarding_table n !! ip = Some e -> learned os ip (eth_addr e) (time_elapsed e)) /\
  (forall ip x, _outstanding_msg n !! ip = Some x -> requested os ip x).
Proof.
  induction os as [|o os IH] using rev_ind; intros Hos n E; [injection E as <-; done|].
  apply Forall_app in Hos as [Hos [Ho _]%Forall_cons]. rewrite interface_exec_app in E. apply bind_Ok in E as (m & E1 & E).
  cbn [exec] in E. apply bind_Ok in E as (n' & E2 & [= ->]). destruct (IH Hos m E1) as [Ht Hr].
  destruct (interface_exec_wf os Hos start (interface_make_wf eth addr)) as (m' & E' & Hw). rewrite E1 in E'. injection E' as <-.
  split.
  - intros ip e He. destruct (_forwarding_table m !! ip) as [e0|] eqn:E0.
    + pose proof (known_step o m n ip e0 Hw Ho E2 E0) as Hk. rewrite He in Hk. destruct (_ <=? _); [|done].
      injection Hk as ->. destruct (Ht ip e0 E0) as (os1 & f & os2 & n1 & n2 & -> & H1 & H2 & H3 & H4 & H5).
      exists os1, f, (os2 ++ [o]), n1, n2. rewrite <- app_assoc. split; [done|]. split_and!; try done.
      rewrite duration_app, H5. cbn. lia.
    + destruct (unknown_step o m n ip e Hw E2 E0 He) as [Hage [f ->]]. exists os, f, [], m, n.
      rewrite Hage. split_and!; try done. rewrite He. by destruct e; cbn in Hage; subst.
  - intros ip x Hx. pose proof (request_step o m n ip x Hw Ho E2 Hx) as Hk.
    destruct (_outstanding_msg m !! ip) as [y|] eqn:Ey.
    + subst x. destruct (Hr ip y Ey) as (os1 & d & os2 & n1 & n2 & -> & H1 & H2 & H3 & H4 & H5).
      exists os1, d, (os2 ++ [o]), n1, n2. rewrite <- app_assoc. split; [done|]. split_and!; try done.
      rewrite duration_app, H5. cbn. lia.
    + destruct Hk as [-> [d ->]]. by exists os, d, [], m, n.
Qed.

End History.

(** C30: whatever frames arrive, no operation of an interface throws, for datagrams that
    can be serialised and ticks of less than 2^63 ms; and in every state it reaches, no
    datagram is waiting for an address that is known; the table holds exactly what the
    interface has learned from a frame in the last 30 seconds, with the time since then
    as its age; and every recorded request was made by a datagram, as long ago as its
    age says, which is not more than 5 seconds. *)
Theorem interface_run_safe (eth : EthernetAddress.t) (addr : Z) (os : list op)
  (Hos : Forall allowed os) :
  exists n, exec os (make eth addr) = Ok n /\
    (forall ip, is_Some (_forwarding_table n !! ip) -> waiting ip n = []) /\
    (forall ip a age, _forwarding_table n !! ip = Some (mkEntry a age) <->
       learned eth addr os ip a age /\ age <= 30000) /\
    (forall ip x, _outstanding_msg n !! ip = Some x -> requested eth addr os ip x /\ x <= 5000).
Proof.
  destruct (interface_exec_wf os Hos (make eth addr) (interface_make_wf eth addr)) as (n & E & Hw).
  destruct (history eth addr os Hos n E) as [Ht Hr]. pose proof Hw as [_ Hw2 Hw3 Hw4]. exists n. split_and!; try done.
  - intros ip a age. split.
    + intros He. split; [exact (Ht ip _ He)|]. apply (Hw3 ip _ He).
    + intros [(os1 & f & os2 & n1 & n2 & -> & E1 & E2 & _ & H2 & <-) Hage].
      apply Forall_app in Hos as [Hos1 [Hf Hos2]%Forall_cons].
      destruct (interface_exec_wf os1 Hos1 (make eth addr) (interface_make_wf eth addr)) as (m & E' & Hm).
      rewrite E1 in E'. injection E' as <-. destruct (interface_step_wf (Recv f) n1 Hm Hf) as (m & E' & Hm2).
      rewrite E2 in E'. injection E' as <-. rewrite interface_exec_app, E1 in E. cbn [mbind res_bind] in E.
      change (exec (Recv f :: os2) n1) with (n' ← step (Recv f) n1; exec os2 n') in E. rewrite E2 in E.
      by rewrite (known_run os2 Hos2 n2 n ip _ Hm2 E H2 Hage).
  - intros ip x Hx. split; [by apply Hr|]. apply (Hw4 ip x Hx).
Qed.

Definition demo_addr : EthernetAddress.t := [2; 0; 0; 0; 0; 1].

Lemma example_wf : IPv4Datagram.wf IPv4Datagram.example.
Proof.
  split; [split; try reflexivity; (split; vm_compute; congruence) | | reflexivity].
  apply BufferList.append_wf; apply BufferList.buffer_list_of_string_wf; cbn; lia.
Qed.

Definition demo_reply : ARPMessage.t :=
  ARPMessage.mk 1 2048 6 4 2 [2; 0; 0; 0; 0; 9] 7 demo_addr 1.
Definition demo_frame : EthernetFrame.t :=
  EthernetFrame.mk (EthernetHeader.mk demo_addr [2; 0; 0; 0; 0; 9] 2054)
    (BufferList.of_string (ARPMessage.encode demo_reply)).
Definition demo_run : list op :=
  [Send IPv4Datagram.example 7; Tick 600; Recv demo_frame; Tick 29000; Send IPv4Datagram.example 8; Tick 900].

(** An address is learned and forgotten no sooner than it should. *)
Lemma interface_run_safe_witness :
  exists n, exec demo_run (make demo_addr 1) = Ok n /\
    _forwarding_table n !! 7 = Some (mkEntry [2; 0; 0; 0; 0; 9] 29900) /\
    learned demo_addr 1 demo_run 7 [2; 0; 0; 0; 0; 9] 29900 /\ requested demo_addr 1 demo_run 8 900.
Proof.
  destruct (interface_run_safe demo_addr 1 demo_run) as (n & E & _ & Ht & Hr).
  - repeat constructor; try apply example_wf; vm_compute; congruence.
  - assert (Hn : _forwarding_table n !! 7 = Some (mkEntry [2; 0; 0; 0; 0; 9] 29900) /\ _outstanding_msg n !! 8 = Some 900)
      by (clear Ht Hr; vm_compute in E; injection E as <-; split; reflexivity).
    exists n. split; [exact E|]. split; [apply Hn|]. split; [apply Ht, Hn|apply Hr, Hn].
Defined.

(** What [send_datagram] does.  When the next hop's Ethernet address is known
    the datagram leaves at once in a frame to it, and nothing else changes.
    Otherwise the datagram joins the end of the queue for that next hop, and a
    broadcast ARP request for it goes out exactly when none is outstanding. *)
Theorem send_datagram_outcome (d : IPv4Datagram.t) (ip : Z) (n : t) (Hd : IPv4Datagram.wf d) :
  match _forwarding_table n !! ip with
  | Some it => exists payload, IPv4Datagram.serialize d = Ok payload /\
      send_datagram d ip n = Ok (push_frame (ip_frame n (eth_addr it) payload) n)
  | None => exists n', send_datagram d ip n = Ok n' /\
      _forwarding_table n' = _forwarding_table n /\
      waiting ip n' = waiting ip n ++ [d] /\
      (forall ip', ip' <> ip -> _unsent_datagrams n' !! ip' = _unsent_datagrams n !! ip') /\
      match _outstanding_msg n !! ip with
      | Some _ => _outstanding_msg n' = _outstanding_msg n /\ _frames_out n' = _frames_out n
      | None => _outstanding_msg n' = <[ip := 0]> (_outstanding_msg n) /\
          _frames_out n' = _frames_out n ++ [EthernetFrame.mk
            (EthernetHeader.mk EthernetAddress.ETHERNET_BROADCAST (_ethernet_address n) EthernetHeader.TYPE_ARP)
            (BufferList.of_string (ARPMessage.encode (arp_request n ip)))]
      end
  end.
Proof.
  destruct (_forwarding_table n !! ip) eqn:E; [by apply send_known|by apply send_unknown].
Qed.

Lemma send_datagram_outcome_witness :
  exists n', send_datagram IPv4Datagram.example 7 (make demo_addr 1) = Ok n' /\
    waiting 7 n' = [IPv4Datagram.example] /\ length (_frames_out n') = 1%nat.
Proof.
  destruct (send_datagram_outcome IPv4Datagram.example 7 (make demo_addr 1) example_wf)
    as (n' & E & _ & Hq & _ & _ & Hf).
  exists n'. split; [exact E|]. split; [exact Hq|]. rewrite Hf. reflexivity.
Defined.

(** No operation changes the interface's own addresses. *)
Definition same_addresses (n n' : t) : Prop :=
  _ethernet_address n' = _ethernet_address n /\ _ip_address n' = _ip_address n.

Lemma same_addresses_trans n1 n2 n3 : same_addresses n1 n2 -> same_addresses n2 n3 -> same_addresses n1 n3.
Proof. intros [E1 E2] [E3 E4]. split; congruence. Qed.

Lemma send_arp_addresses dst msg n n' : send_arp dst msg n = Ok n' -> same_addresses n n'.
Proof. unfold send_arp. by intros (bs & _ & [= <-])%bind_Ok. Qed.

Lemma send_datagram_addresses d ip n n' : send_datagram d ip n = Ok n' -> same_addresses n n'.
Proof.
  unfold send_datagram. destruct (_forwarding_table n !! ip).
  - by intros (p & _ & [= <-])%bind_Ok.
  - destruct (_outstanding_msg _ !! ip); [by intros [= <-]|]. by intros H%send_arp_addresses.
Qed.

Lemma flush_addresses fuel : forall ip n b n', flush fuel ip n = Ok (b, n') -> same_addresses n n'.
Proof.
  induction fuel as [|fuel IH]; intros ip n b n'; cbn [flush];
    destruct (_unsent_datagrams n !! ip) as [[|d q]|]; try by intros [= _ <-].
  intros (n1 & H1%send_datagram_addresses & H2%IH)%bind_Ok. exact (same_addresses_trans n n1 n' H1 H2).
Qed.

Lemma recv_arp_addresses msg n n' : recv_arp msg n = Ok n' -> same_addresses n n'.
Proof.
  unfold recv_arp. intros ([b n1] & H1%flush_addresses & H2)%bind_Ok. destruct (_ =? _).
  - apply send_arp_addresses in H2. exact (same_addresses_trans n n1 n' H1 H2).
  - by injection H2 as <-.
Qed.

(** A frame that carries an ARP message for this interface. *)
Lemma recv_frame_arp msg rest frame n : ARPMessage.wf msg -> ARPMessage.supported msg = true ->
  ARPMessage.target_ip_address msg = _ip_address n ->
  EthernetHeader.dst (EthernetFrame.header frame) = _ethernet_address n \/
    EthernetHeader.dst (EthernetFrame.header frame) = EthernetAddress.ETHERNET_BROADCAST ->
  EthernetHeader.type (EthernetFrame.header frame) = EthernetHeader.TYPE_ARP ->
  BufferList.concatenate (EthernetFrame.payload frame) = ARPMessage.encode msg ++ rest -> zlen rest < two63 ->
  recv_frame frame n = (n' ← recv_arp msg n; Ok (None, n')).
Proof.
  intros Hmsg Hsup Htarget Hdst Htype Hpay Hlen. unfold recv_frame. replace (_ && _) with false.
  2: { symmetry. unfold EthernetAddress.eqb. destruct Hdst as [-> | ->].
       - by rewrite bool_decide_eq_true_2.
       - rewrite (bool_decide_eq_true_2 (EthernetAddress.ETHERNET_BROADCAST = EthernetAddress.ETHERNET_BROADCAST)) by done.
         apply andb_false_r. }
  rewrite Htype. cbn [Z.eqb EthernetHeader.TYPE_ARP EthernetHeader.TYPE_IPv4 Pos.eqb].
  rewrite (ARPMessage.arp_parse_encoded msg rest); [|apply ARPMessage.arp_default_wf|done|done| |].
  - cbn [mbind res_bind is_NoError negb orb]. rewrite Htarget, Z.eqb_refl. done.
  - apply Buffer.buffer_of_string_wf. rewrite Hpay, length_app, ARPMessage.arp_length_encode by done. lia.
  - by rewrite Buffer.str_of_string.
Qed.

(** A frame to this interface that carries a serialised datagram. *)
Lemma recv_frame_ip d p frame n : IPv4Datagram.wf d -> IPv4Datagram.serialize d = Ok p ->
  EthernetHeader.dst (EthernetFrame.header frame) = _ethernet_address n ->
  EthernetHeader.type (EthernetFrame.header frame) = EthernetHeader.TYPE_IPv4 ->
  BufferList.concatenate (EthernetFrame.payload frame) = BufferList.concatenate p ->
  exists c d', recv_frame frame n = Ok (Some d', n) /\
    IPv4Datagram.header d' = IPv4Header.set_cksum c (IPv4Datagram.header d) /\ IPv4Datagram.wf d' /\
    BufferList.concatenate (IPv4Datagram.payload d') = BufferList.concatenate (IPv4Datagram.payload d).
Proof.
  intros Hd Hp Hdst Htype Hpay. destruct (IPv4Datagram.datagram_serialize_spec d Hd) as (c & bl & E & _ & Hh & _ & _ & Hf).
  rewrite Hp in E. injection E as <-. rewrite !BufferList.concatenate_flat in *. destruct Hd as [Hd1 Hd2 Hd3].
  assert (Hlen : zlen (IPv4Header.encode (IPv4Header.set_cksum c (IPv4Datagram.header d)) ++
                       BufferList.flat (IPv4Datagram.payload d)) < two64).
  { destruct Hd1. rewrite length_app, Nat2Z.inj_add, IPv4Header.ipv4_header_length_encode by (cbn; lia). cbn. lia. }
  destruct (IPv4Datagram.datagram_parse_encoded (IPv4Header.set_cksum c (IPv4Datagram.header d))
    (BufferList.flat (IPv4Datagram.payload d))
    (Buffer.of_string (BufferList.flat (EthernetFrame.payload frame))) IPv4Datagram.default)
    as (d' & Hparse & Hhd & Hwp & Hpl).
  - done.
  - exact Hd3.
  - apply Buffer.buffer_of_string_wf. by rewrite Hpay, Hf.
  - by rewrite Buffer.str_of_string, Hpay, Hf.
  - exists c, d'. split.
    + unfold recv_frame. rewrite Hdst. unfold EthernetAddress.eqb. rewrite bool_decide_eq_true_2 by done. cbn [negb andb].
      rewrite Htype, Z.eqb_refl, BufferList.concatenate_flat, Hparse. done.
    + split; [done|]. rewrite !BufferList.concatenate_flat. split; [|done]. split; [by rewrite Hhd|done|].
      rewrite Hhd, Hpl. exact Hd3.
Qed.

(** C31: an ARP message for this interface teaches it the sender's address (an
    address that is already known is kept): every datagram that waited for the
    sender leaves, in the order it was queued, in a frame to the address in the
    table, none stays behind, and datagrams for others are left alone.  A request is
    then answered with this interface's addresses; a reply clears the outstanding
    request. *)
Theorem arp_learn_and_flush (msg : ARPMessage.t) (rest : bytes) (frame : EthernetFrame.t) (n : t)
  (Hn : wf n) (Hmsg : ARPMessage.wf msg) (Hsup : ARPMessage.supported msg = true)
  (Htarget : ARPMessage.target_ip_address msg = _ip_address n)
  (Hdst : EthernetHeader.dst (EthernetFrame.header frame) = _ethernet_address n \/
          EthernetHeader.dst (EthernetFrame.header frame) = EthernetAddress.ETHERNET_BROADCAST)
  (Htype : EthernetHeader.type (EthernetFrame.header frame) = EthernetHeader.TYPE_ARP)
  (Hpay : BufferList.concatenate (EthernetFrame.payload frame) = ARPMessage.encode msg ++ rest)
  (Hlen : zlen rest < two63) :
  let ip := ARPMessage.sender_ip_address msg in
  let table := map_insert ip (mkEntry (ARPMessage.sender_ethernet_address msg) 0) (_forwarding_table n) in
  exists it fs n', table !! ip = Some it /\ recv_frame frame n = Ok (None, n') /\
    carried_in n (eth_addr it) (waiting ip n) fs /\ waiting ip n' = [] /\
    _forwarding_table n' = table /\
    (forall ip', ip' <> ip -> _unsent_datagrams n' !! ip' = _unsent_datagrams n !! ip') /\
    if ARPMessage.opcode msg =? ARPMessage.OPCODE_REQUEST then
      _frames_out n' = _frames_out n ++ fs ++ [EthernetFrame.mk
        (EthernetHeader.mk (ARPMessage.sender_ethernet_address msg) (_ethernet_address n)
           EthernetHeader.TYPE_ARP) (BufferList.of_string (ARPMessage.encode (arp_reply n msg)))] /\
      _outstanding_msg n' = _outstanding_msg n
    else
      _frames_out n' = _frames_out n ++ fs /\ _outstanding_msg n' = delete ip (_outstanding_msg n).
Proof.
  cbv zeta. destruct (recv_arp_spec msg n Hn) as (it & fs & n' & Hit & E & _ & Hrest).
  exists it, fs, n'. split; [done|]. split; [|done].
  rewrite (recv_frame_arp msg rest) by done. by rewrite E.
Qed.

Lemma arp_learn_and_flush_witness :
  exists n1 n2, send_datagram IPv4Datagram.example 7 (make demo_addr 1) = Ok n1 /\
    recv_frame (EthernetFrame.mk (EthernetHeader.mk demo_addr [2; 0; 0; 0; 0; 9] 2054)
      (BufferList.of_string (ARPMessage.encode demo_reply))) n1 = Ok (None, n2) /\
    waiting 7 n2 = [].
Proof.
  destruct (interface_send_datagram_wf IPv4Datagram.example 7 (make demo_addr 1) (interface_make_wf demo_addr 1) example_wf)
    as (n1 & E & Hw).
  assert (Hn1 : _ip_address n1 = 1 /\ _ethernet_address n1 = demo_addr)
    by (clear Hw; vm_compute in E; injection E as <-; done).
  destruct (arp_learn_and_flush demo_reply []
    (EthernetFrame.mk (EthernetHeader.mk demo_addr [2; 0; 0; 0; 0; 9] 2054)
      (BufferList.of_string (ARPMessage.encode demo_reply))) n1) as (it & fs & n2 & _ & E2 & _ & Hq & _).
  - exact Hw.
  - split; cbn; [split; [done|repeat constructor; lia]|lia|split; [done|repeat constructor; lia]|lia].
  - reflexivity.
  - symmetry. apply Hn1.
  - left. symmetry. apply Hn1.
  - reflexivity.
  - vm_compute. reflexivity.
  - cbn. lia.
  - exists n1, n2. split; [exact E|]. split; [exact E2|exact Hq].
Defined.

(** ** Timing *)

(** Datagrams for one next hop, and the passage of time. *)
Definition patient (ip : Z) (o : op) : Prop :=
  match o with
  | Send d ip' => ip' = ip /\ IPv4Datagram.wf d
  | Tick ms => 0 <= ms
  | _ => False
  end.

(** The datagrams of a run. *)
Definition datagrams (os : list op) : list IPv4Datagram.t :=
  omap (fun o => match o with Send d _ => Some d | _ => None end) os.

(** C32: no flood of requests.  While a request for an unresolved next hop is
    outstanding and not more than 5 seconds have passed since it went out, sending
    any number of (serialisable) datagrams there, with ticks in between, puts no frame at
    all on the network, and the request is remembered with its age; the datagrams wait,
    all of them and in order, behind those that waited already. *)
Theorem arp_request_not_repeated (ip x : Z) (os : list op) (n : t)
  (Hos : Forall (patient ip) os) (Hout : _outstanding_msg n !! ip = Some x)
  (Hunknown : _forwarding_table n !! ip = None)
  (Htime : 0 <= x /\ x + duration os <= 5000) :
  exists n', exec os n = Ok n' /\ _frames_out n' = _frames_out n /\
    _outstanding_msg n' !! ip = Some (x + duration os) /\
    waiting ip n' = waiting ip n ++ datagrams os /\
    forall ip', ip' <> ip -> waiting ip' n' = waiting ip' n.
Proof.
  revert n x Hout Hunknown Htime. induction Hos as [|o os Ho Hos IH]; intros n x Hout Hunk Htime; cbn [exec].
  - exists n. cbn in *. rewrite Z.add_0_r, app_nil_r. done.
  - assert (0 <= duration os).
    { apply duration_nonneg. eapply Forall_impl; [exact Hos|]. by intros []. }
    destruct o as [d ip'|f|ms|]; try done; cbn in Ho, Htime |- *.
    + destruct Ho as [-> Hd]. destruct (send_unknown d ip n Hunk) as (n1 & -> & Ht & Hq & Hoth & Hm).
      rewrite Hout in Hm. destruct Hm as [Hm Hf]. cbn.
      destruct (IH n1 x) as (n2 & E & Hf2 & Ho2 & Hq2 & Hr2); [congruence|congruence|done|].
      exists n2. split; [done|]. split; [congruence|]. split; [done|]. split.
      * rewrite Hq2, Hq, <- app_assoc. done.
      * intros ip' Hne. rewrite Hr2 by done. unfold waiting. by rewrite Hoth.
    + destruct (IH (tick ms n) (x + ms)) as (n2 & E & Hf2 & Ho2 & Hq2 & Hr2).
      * cbn. rewrite lookup_omap, Hout. cbn. unfold age_msg, MSG_EXPIRY.
        rewrite u64_small by lia. rewrite (proj2 (Z.ltb_ge _ _)) by lia. done.
      * cbn. by rewrite lookup_omap, Hunk.
      * lia.
      * exists n2. split; [done|]. split; [done|]. split; [rewrite Ho2; f_equal; lia|done].
Qed.

Lemma arp_request_not_repeated_witness :
  exists n1 n2, send_datagram IPv4Datagram.example 7 (make demo_addr 1) = Ok n1 /\
    exec [Tick 3000; Send IPv4Datagram.example 7; Tick 2000; Send IPv4Datagram.example 7] n1 = Ok n2 /\
    _frames_out n2 = _frames_out n1 /\ length (waiting 7 n2) = 3%nat.
Proof.
  destruct (send_unknown IPv4Datagram.example 7 (make demo_addr 1) eq_refl)
    as (n1 & E & Ht & Hq & _ & Hm & _).
  destruct (arp_request_not_repeated 7 0
    [Tick 3000; Send IPv4Datagram.example 7; Tick 2000; Send IPv4Datagram.example 7] n1)
    as (n2 & E2 & Hf & _ & Hw & _).
  - repeat constructor; try apply example_wf; lia.
  - rewrite Hm. apply lookup_insert_eq.
  - rewrite Ht. reflexivity.
  - cbn. lia.
  - exists n1, n2. split; [exact E|]. split; [exact E2|]. split; [exact Hf|]. rewrite Hw, Hq. reflexivity.
Defined.

(** A learned address lives for 30 seconds: after a sequence of ticks it is
    still there (with its age) exactly when their total leaves it no older. *)
Theorem entry_lifetime (ip : Z) (e : Entry) (mss : list Z) (n : t)
  (Hent : _forwarding_table n !! ip = Some e) (Hage : 0 <= time_elapsed e <= 30000)
  (Hms : Forall (fun ms => 0 <= ms < two63) mss) :
  _forwarding_table (foldl (fun n ms => tick ms n) n mss) !! ip =
    (let age := time_elapsed e + foldr Z.add 0 mss in
     if age <=? 30000 then Some (mkEntry (eth_addr e) age) else None).
Proof.
  cbv zeta. assert (Hgone : forall mss n, _forwarding_table n !! ip = None ->
    _forwarding_table (foldl (fun n ms => tick ms n) n mss) !! ip = None).
  { clear. induction mss as [|ms mss IH]; intros n Hn; cbn; [done|]. apply IH. cbn. by rewrite lookup_omap, Hn. }
  revert n e Hent Hage. induction Hms as [|ms mss Hm Hms IH]; intros n e Hent Hage; cbn [foldl foldr].
  - rewrite Z.add_0_r, (proj2 (Z.leb_le _ _)) by lia. by destruct e.
  - assert (Hpos : 0 <= foldr Z.add 0 mss) by (clear -Hms; induction Hms; cbn; lia).
    assert (Hl : _forwarding_table (tick ms n) !! ip = age_entry ms e).
    { cbn. by rewrite lookup_omap, Hent. }
    unfold age_entry, ENTRY_EXPIRY in Hl. rewrite u64_small in Hl by lia.
    destruct (30000 <? time_elapsed e + ms) eqn:E; zb.
    + rewrite Hgone by done. rewrite (proj2 (Z.leb_gt _ _)) by lia. done.
    + rewrite (IH (tick ms n) _ Hl) by (cbn; lia). cbn.
      replace (time_elapsed e + ms + foldr Z.add 0 mss) with (time_elapsed e + (ms + foldr Z.add 0 mss)) by lia.
      done.
Qed.

Lemma entry_lifetime_witness :
  _forwarding_table (tick 1 (tick 30000 (set_table {[7 := mkEntry demo_addr 0]} (make demo_addr 1)))) !! 7 = None.
Proof.
  apply (entry_lifetime 7 (mkEntry demo_addr 0) [30000; 1] (set_table {[7 := mkEntry demo_addr 0]} (make demo_addr 1)));
    [reflexivity|cbn; lia|repeat constructor; lia].
Defined.

(** ** The queue of frames is only written *)

(** The interface with older frames in front of its queue. *)
Definition prepend (fs : list EthernetFrame.t) (n : t) : t :=
  mk (_ethernet_address n) (_ip_address n) (fs ++ _frames_out n) (_forwarding_table n) (_outstanding_msg n)
     (_unsent_datagrams n).

Lemma push_prepend fs f n : push_frame f (prepend fs n) = prepend fs (push_frame f n).
Proof. unfold push_frame, prepend. cbn. by rewrite app_assoc. Qed.

Lemma send_arp_prepend dst msg fs n : send_arp dst msg (prepend fs n) = prepend fs <$> send_arp dst msg n.
Proof. unfold send_arp. destruct (ARPMessage.serialize msg); [|done]. cbn. by rewrite push_prepend. Qed.

Lemma send_datagram_prepend d ip fs n : send_datagram d ip (prepend fs n) = prepend fs <$> send_datagram d ip n.
Proof.
  unfold send_datagram. cbn [prepend _forwarding_table _unsent_datagrams _outstanding_msg set_unsent].
  destruct (_forwarding_table n !! ip).
  - destruct (IPv4Datagram.serialize d); [|done]. cbn. by rewrite push_prepend.
  - destruct (_outstanding_msg n !! ip); [done|]. apply (send_arp_prepend _ _ fs (set_outstanding _ (set_unsent _ n))).
Qed.

Lemma flush_prepend fs fuel : forall ip n,
  flush fuel ip (prepend fs n) = (fun x => (x.1, prepend fs x.2)) <$> flush fuel ip n.
Proof.
  induction fuel as [|fuel IH]; intros ip n; cbn [flush]; cbn [prepend _unsent_datagrams];
    destruct (_unsent_datagrams n !! ip) as [[|d q]|]; try done.
  change (mk _ _ _ _ _ _) with (prepend fs n). rewrite send_datagram_prepend. destruct (send_datagram d ip n); [|done].
  cbn [fmap res_fmap mbind res_bind]. apply (IH ip (set_unsent _ _)).
Qed.

Lemma recv_arp_prepend msg fs n : recv_arp msg (prepend fs n) = prepend fs <$> recv_arp msg n.
Proof.
  unfold recv_arp. set (m := set_table _ n).
  change (set_table _ (prepend fs n)) with (prepend fs m). change (waiting _ (prepend fs m)) with (waiting (ARPMessage.sender_ip_address msg) m).
  rewrite flush_prepend. destruct (flush _ _ m) as [[b n1]|]; [|done]. cbn [fmap res_fmap mbind res_bind fst snd].
  destruct (_ =? _); [apply send_arp_prepend|done].
Qed.

Lemma recv_frame_prepend f fs n :
  recv_frame f (prepend fs n) = (fun x => (x.1, prepend fs x.2)) <$> recv_frame f n.
Proof.
  unfold recv_frame. cbn [prepend _ethernet_address _ip_address]. destruct (_ && _); [done|]. destruct (_ =? _).
  - destruct (IPv4Datagram.parse _ _) as [[r d]|]; [|done]. cbn. by destruct (negb _).
  - destruct (_ =? _); [|done]. destruct (ARPMessage.parse _ _) as [[r m]|]; [|done]. cbn [mbind res_bind].
    destruct (_ || _); [done|]. change (mk _ _ _ _ _ _) with (prepend fs n). rewrite recv_arp_prepend.
    by destruct (recv_arp m n).
Qed.

(** ** Frames on the wire

    An interface that was given a proper Ethernet address emits only frames that can
    be serialised, none of them longer than the datagrams it is given ([M] bytes), or
    than an ARP message. *)
Section Sizes.
Context (M : Z) (HM : 28 <= M).

Definition fits (f : EthernetFrame.t) : Prop :=
  EthernetFrame.wf f /\ zlen (BufferList.flat (EthernetFrame.payload f)) <= M.
Definition light (d : IPv4Datagram.t) : Prop := IPv4Header.len (IPv4Datagram.header d) <= M.

Record tidy (n : t) : Prop := {
  td_mac : EthernetAddress.wf (_ethernet_address n);
  td_table : forall ip e, _forwarding_table n !! ip = Some e -> EthernetAddress.wf (eth_addr e);
  td_frames : Forall fits (_frames_out n);
  td_waiting : forall ip, Forall light (waiting ip n)
}.

(** The queue of frames only grows, and stays in order. *)
Definition advances (n n' : t) : Prop := (tidy n -> tidy n') /\ _frames_out n `prefix_of` _frames_out n'.

#[global] Instance advances_preorder : PreOrder advances.
Proof.
  split; [done|]. intros a b c [H1 H2] [H3 H4]. split; [by auto|by etransitivity].
Qed.

Lemma ip_frame_fits n dst d p : EthernetAddress.wf (_ethernet_address n) -> EthernetAddress.wf dst ->
  IPv4Datagram.wf d -> light d -> IPv4Datagram.serialize d = Ok p -> fits (ip_frame n dst p).
Proof.
  intros Hm Hd Hw Hs Hp. destruct (IPv4Datagram.datagram_serialize_spec d Hw) as (c & bl & E & _ & _ & _ & Hb & Hf).
  rewrite Hp in E. injection E as <-. destruct Hw as [[] _ Hl]. split; [split; [by split|done]|].
  cbn [ip_frame EthernetFrame.payload]. rewrite Hf, length_app, Nat2Z.inj_add, IPv4Header.ipv4_header_length_encode by (cbn; lia).
  cbn [IPv4Header.hlen IPv4Header.set_cksum]. unfold light in Hs. lia.
Qed.

Lemma arp_frame_fits dst src m : EthernetAddress.wf dst -> EthernetAddress.wf src ->
  EthernetAddress.wf (ARPMessage.sender_ethernet_address m) -> EthernetAddress.wf (ARPMessage.target_ethernet_address m) ->
  fits (EthernetFrame.mk (EthernetHeader.mk dst src EthernetHeader.TYPE_ARP) (BufferList.of_string (ARPMessage.encode m))).
Proof.
  intros Hd Hs H1 H2. pose proof (ARPMessage.arp_encode_length m H1 H2) as Hl.
  split; [split; [by split|apply BufferList.buffer_list_of_string_wf; lia]|].
  cbn [EthernetFrame.payload]. rewrite BufferList.flat_of_string. lia.
Qed.

Lemma broadcast_wf : EthernetAddress.wf EthernetAddress.ETHERNET_BROADCAST /\ EthernetAddress.wf ARPMSG_ETHERNET_BROADCAST.
Proof. split; (split; [done|forall_list; lia]). Qed.

(** New frames at the end of a tidy interface. *)
Lemma advances_frames n n' fs : _frames_out n' = _frames_out n ++ fs ->
  (tidy n -> EthernetAddress.wf (_ethernet_address n') /\ Forall fits fs /\
    (forall ip e, _forwarding_table n' !! ip = Some e -> EthernetAddress.wf (eth_addr e)) /\
    forall ip, Forall light (waiting ip n')) -> advances n n'.
Proof.
  intros Hf Ht. split; [|by exists fs]. intros Hn. destruct (Ht Hn) as (Hm & Hfs & He & Hq). split; try done.
  rewrite Hf. apply Forall_app. split; [apply Hn|done].
Qed.

Lemma send_datagram_advances d ip n n' : IPv4Datagram.wf d -> light d -> send_datagram d ip n = Ok n' -> advances n n'.
Proof.
  intros Hd Hl E. destruct (send_datagram_addresses _ _ _ _ E) as [Em _].
  destruct (_forwarding_table n !! ip) as [it|] eqn:Hit.
  - destruct (send_known d ip n it Hd Hit) as (p & Hp & E'). rewrite E in E'. injection E' as ->.
    apply (advances_frames _ _ [ip_frame n (eth_addr it) p]); [done|]. intros Hn. split; [apply Hn|].
    split; [|split; [apply Hn|exact (td_waiting n Hn)]].
    forall_list. apply (ip_frame_fits n _ d); try done; [apply Hn|by eapply Hn].
  - destruct (send_unknown d ip n Hit) as (n1 & E' & Htab & Hq & Hoth & Hmsg). rewrite E in E'. injection E' as <-.
    assert (Hwait : tidy n -> forall ip', Forall light (waiting ip' n')).
    { intros Hn ip'. destruct (decide (ip' = ip)) as [->|Hne].
      - rewrite Hq. apply Forall_app. split; [apply Hn|by constructor].
      - unfold waiting. rewrite Hoth by done. apply Hn. }
    destruct (_outstanding_msg n !! ip); destruct Hmsg as [_ Hf].
    + apply (advances_frames _ _ []); [by rewrite app_nil_r|]. rewrite Em, Htab. intros Hn. split_and!; try done; [apply Hn..|by apply Hwait].
    + eapply advances_frames; [exact Hf|]. rewrite Em, Htab. intros Hn. pose proof Hn as []. split; [done|].
      split; [|split; [done|by apply Hwait]]. forall_list. destruct broadcast_wf. by apply arp_frame_fits.
Qed.

Lemma carried_fits n a ds fs : EthernetAddress.wf (_ethernet_address n) -> EthernetAddress.wf a ->
  Forall IPv4Datagram.wf ds -> Forall light ds -> carried_in n a ds fs -> Forall fits fs.
Proof.
  intros Hm Ha Hq Hl Hc. unfold carried_in in Hc. induction Hc as [|d f ds fs (p & Hp & ->) _ IH]; [constructor|].
  apply Forall_cons in Hq as [Hd Hq], Hl as [Hl1 Hl]. constructor; [by apply (ip_frame_fits n _ d)|by apply IH].
Qed.

Lemma recv_arp_advances msg n n' : wf n -> EthernetAddress.wf (ARPMessage.sender_ethernet_address msg) ->
  recv_arp msg n = Ok n' -> advances n n'.
Proof.
  intros Hw Hs E. destruct (recv_arp_addresses _ _ _ E) as [Em _].
  destruct (recv_arp_spec msg n Hw) as (it & fs & n1 & Hit & E' & _ & Hc & Hq & Htab & Hoth & Hcase).
  rewrite E in E'. injection E' as <-. set (ip := ARPMessage.sender_ip_address msg) in *.
  set (table := map_insert ip _ (_forwarding_table n)) in *.
  assert (Htable : tidy n -> forall ip' e, table !! ip' = Some e -> EthernetAddress.wf (eth_addr e)).
  { intros Hn ip' e. unfold table, map_insert. destruct (_forwarding_table n !! ip); [apply Hn|].
    rewrite lookup_insert_Some. intros [[_ <-]|[_ Hl]]; [done|by eapply Hn]. }
  assert (Hfs : tidy n -> Forall fits fs).
  { intros Hn. eapply carried_fits; [apply Hn|by eapply Htable|apply (wf_waiting n Hw ip)|apply (td_waiting n Hn ip)|exact Hc]. }
  assert (Hwait : tidy n -> forall ip', Forall light (waiting ip' n')).
  { intros Hn ip'. destruct (decide (ip' = ip)) as [->|Hne]; [by rewrite Hq|].
    unfold waiting. rewrite Hoth by done. apply Hn. }
  destruct (_ =? _); destruct Hcase as [Hf _]; (eapply advances_frames; [exact Hf|]); intros Hn; rewrite Em, Htab;
    (split; [apply Hn|split; [|split; [by apply Htable|by apply Hwait]]]); [|by apply Hfs].
  apply Forall_app. split; [by apply Hfs|]. forall_list. apply arp_frame_fits; try done; apply Hn.
Qed.

Lemma recv_frame_advances f n r n' : wf n -> recv_frame f n = Ok (r, n') -> advances n n'.
Proof.
  intros Hw. unfold recv_frame. destruct (_ && _); [by intros [= _ <-]|]. destruct (_ =? _).
  - intros ([e d] & _ & H)%bind_Ok. destruct (negb _); by injection H as _ <-.
  - destruct (_ =? _); [|by intros [= _ <-]]. intros ([e m] & Ep & H)%bind_Ok.
    destruct (_ || _); [by injection H as _ <-|]. apply bind_Ok in H as (n1 & E & [= _ <-]).
    apply (recv_arp_advances m n n1 Hw); [|done]. apply ARPMessage.arp_parse_typed in Ep as [[] _]; [done|].
    split_and!; [apply ARPMessage.arp_default_wf|forall_list; by vm_compute..].
Qed.

Lemma tick_advances ms n : advances n (tick ms n).
Proof.
  split; [|done]. intros [Hm Ht Hf Hq]. split; try done. intros ip e. cbn. rewrite lookup_omap. intros H.
  destruct (_forwarding_table n !! ip) as [e0|] eqn:E; cbn in H; [|done].
  unfold age_entry in H. destruct (_ <? _); [done|]. injection H as <-. exact (Ht ip e0 E).
Qed.

End Sizes.

End NetworkInterface.
