(* ===== verification/Router.v ===== *)
(** * The router (router.hh, router.cc)

    [AsyncNetworkInterface] keeps the datagrams its interface receives in a queue;
    [Router] moves every queued datagram to the interface and next hop that the
    longest matching prefix of its routing table names.  The routing table is a map
    from prefix lengths to maps from masked prefixes; an [Address] is the number
    [ipv4_numeric()] returns. *)

From S2P Require Import Prelude Buffers Parsing Ipv4Wire EthernetWire NetworkInterface.
From Stdlib Require Import Strings.Byte.

Module AsyncNetworkInterface.

(** [class AsyncNetworkInterface : public NetworkInterface]. *)
Record t : Type := mk { base : NetworkInterface.t; _datagrams_out : list IPv4Datagram.t }.

Definition make (interface : NetworkInterface.t) : t := mk interface [].

Definition recv_frame (frame : EthernetFrame.t) (a : t) : res t :=
  '(optional_dgram, n) ← NetworkInterface.recv_frame frame (base a);
  match optional_dgram with
  | Some d => Ok (mk n (_datagrams_out a ++ [d]))
  | None => Ok (mk n (_datagrams_out a))
  end.

Definition datagrams_out (a : t) : list IPv4Datagram.t := _datagrams_out a.
Definition pop_datagram (a : t) : t := mk (base a) (tail (_datagrams_out a)).

(** The inherited operations. *)
Definition send_datagram (d : IPv4Datagram.t) (next_hop : Z) (a : t) : res t :=
  n ← NetworkInterface.send_datagram d next_hop (base a);
  Ok (mk n (_datagrams_out a)).
Definition tick (ms : Z) (a : t) : t := mk (NetworkInterface.tick ms (base a)) (_datagrams_out a).

Record wf (a : t) : Prop := {
  wf_base : NetworkInterface.wf (base a);
  wf_queue : Forall IPv4Datagram.wf (_datagrams_out a)
}.

(** A frame whose IPv4 payload, if the parser accepts it, can be sent on. *)
Definition benign (f : EthernetFrame.t) : Prop :=
  zlen (BufferList.concatenate (EthernetFrame.payload f)) < two64 /\
  forall d, IPv4Datagram.parse
      (Buffer.of_string (BufferList.concatenate (EthernetFrame.payload f))) IPv4Datagram.default
      = Ok (NoError, d) -> IPv4Datagram.wf d.

Lemma async_recv_frame_wf f a : wf a -> benign f -> exists a', recv_frame f a = Ok a' /\ wf a'.
Proof.
  intros [Hb Hq] [Hl Hf]. unfold recv_frame.
  destruct (NetworkInterface.interface_recv_frame_wf f (base a) Hb Hl) as (r & n & E & Hn). rewrite E. cbn.
  destruct r as [d|]; eexists; (split; [done|]); split; cbn; try done.
  apply Forall_app. split; [done|]. constructor; [|done]. apply Hf.
  by eapply NetworkInterface.recv_frame_parsed.
Qed.

Lemma async_send_datagram_wf d ip a : wf a -> IPv4Datagram.wf d ->
  exists a', send_datagram d ip a = Ok a' /\ wf a' /\ _datagrams_out a' = _datagrams_out a.
Proof.
  intros [Hb Hq] Hd. unfold send_datagram.
  destruct (NetworkInterface.interface_send_datagram_wf d ip (base a) Hb Hd) as (n & -> & Hn).
  cbn. eexists. split; [done|]. split; [by split|done].
Qed.

Lemma pop_datagram_wf a : wf a -> wf (pop_datagram a).
Proof. intros [Hb Hq]. split; [done|]. by apply Forall_tail. Qed.

End AsyncNetworkInterface.

Module Router.

(** [struct Router::InterfaceOut]. *)
Record InterfaceOut : Type := mkOut { next_hop : option Z; interface_num : Z }.

(** [class Router]: the private members (the [debug] switch apart). *)
Record t : Type := mk {
  _interfaces : list AsyncNetworkInterface.t;
  _routing_table : gmap Z (gmap Z InterfaceOut)
}.

Definition make : t := mk [] ∅.

Definition get_mask (prefix_len : Z) : Z :=
  if (prefix_len =? 0) || (32 <? prefix_len) then 0
  else u32 (Z.shiftl 4294967295 (32 - prefix_len)).

Definition add_interface (interface : AsyncNetworkInterface.t) (r : t) : Z * t :=
  let ifs := _interfaces r ++ [interface] in
  (zlen ifs ⊟ 1, mk ifs (_routing_table r)).

(** [interface(N)]: [std::vector::at] throws when there is no such interface. *)
Definition interface (N : Z) (r : t) : res AsyncNetworkInterface.t :=
  match _interfaces r !! Z.to_nat N with
  | Some i => Ok i
  | None => Throw out_of_range
  end.
Definition set_interface (N : Z) (i : AsyncNetworkInterface.t) (r : t) : t :=
  mk (<[Z.to_nat N := i]> (_interfaces r)) (_routing_table r).

Definition add_route (route_prefix prefix_length : Z) (next_hop : option Z) (interface_num : Z)
  (r : t) : t :=
  let table :=
    match _routing_table r !! prefix_length with
    | None => NetworkInterface.map_insert prefix_length ∅ (_routing_table r)
    | Some _ => _routing_table r
    end in
  mk (_interfaces r)
     (alter (NetworkInterface.map_insert (Z.land route_prefix (get_mask prefix_length))
               (mkOut next_hop interface_num)) prefix_length table).

(** The keys of the routing table from the last to the first ([rbegin] to [rend]):
    they are of type [uint8_t]. *)
Definition lengths_below (n : nat) (table : gmap Z (gmap Z InterfaceOut)) : list Z :=
  filter (fun len => is_Some (table !! len)) (reverse (seqZ 0 (Z.of_nat n))).
Definition descending_lengths (table : gmap Z (gmap Z InterfaceOut)) : list Z :=
  lengths_below 256 table.

Definition dst (d : IPv4Datagram.t) : Z := IPv4Header.dst (IPv4Datagram.header d).
Definition ttl (d : IPv4Datagram.t) : Z := IPv4Header.ttl (IPv4Datagram.header d).
Definition set_ttl (x : Z) (d : IPv4Datagram.t) : IPv4Datagram.t :=
  let h := IPv4Datagram.header d in
  IPv4Datagram.mk
    (IPv4Header.mk (IPv4Header.ver h) (IPv4Header.hlen h) (IPv4Header.tos h) (IPv4Header.len h)
       (IPv4Header.id h) (IPv4Header.df h) (IPv4Header.mf h) (IPv4Header.offset h) x
       (IPv4Header.proto h) (IPv4Header.cksum h) (IPv4Header.src h) (IPv4Header.dst h))
    (IPv4Datagram.payload d).

(** [prefixes.find(...)] on the entry of one prefix length. *)
Definition entry (len prefix : Z) (table : gmap Z (gmap Z InterfaceOut)) : option InterfaceOut :=
  match table !! len with Some prefixes => prefixes !! prefix | None => None end.

(** The loop of [route_one_datagram] over the prefix lengths.  The datagram is the
    caller's, whose time to live the function decrements, so it is returned too. *)
Fixpoint route_loop (lengths : list Z) (dgram : IPv4Datagram.t) (r : t)
  : res (IPv4Datagram.t * t) :=
  match lengths with
  | [] => Ok (dgram, r)
  | len :: lengths' =>
      match entry len (Z.land (dst dgram) (get_mask len)) (_routing_table r) with
      | None => route_loop lengths' dgram r
      | Some io_send =>
          if ttl dgram <=? 1 then Ok (dgram, r)
          else
            let dgram := set_ttl (u8 (ttl dgram - 1)) dgram in
            i ← interface (interface_num io_send) r;
            let hop := match next_hop io_send with Some h => h | None => dst dgram end in
            i ← AsyncNetworkInterface.send_datagram dgram hop i;
            Ok (dgram, set_interface (interface_num io_send) i r)
      end
  end.

Definition route_one_datagram (dgram : IPv4Datagram.t) (r : t) : res (IPv4Datagram.t * t) :=
  route_loop (descending_lengths (_routing_table r)) dgram r.

(** The inner loop of [route] drains the queue of interface [n].  The flag says
    whether it was empty within the fuel. *)
Fixpoint drain (fuel : nat) (n : nat) (r : t) : res (bool * t) :=
  match _interfaces r !! n with
  | None => Ok (true, r)
  | Some i =>
      match AsyncNetworkInterface.datagrams_out i with
      | [] => Ok (true, r)
      | d :: _ =>
          match fuel with
          | O => Ok (false, r)
          | S fuel' =>
              '(_, r) ← route_one_datagram d r;
              drain fuel' n (mk (alter AsyncNetworkInterface.pop_datagram n (_interfaces r))
                                (_routing_table r))
          end
      end
  end.

Definition queue_length (n : nat) (r : t) : nat :=
  match _interfaces r !! n with
  | Some i => length (AsyncNetworkInterface.datagrams_out i)
  | None => 0%nat
  end.

Fixpoint route_interfaces (ns : list nat) (r : t) : res t :=
  match ns with
  | [] => Ok r
  | n :: ns' => '(_, r) ← drain (queue_length n r) n r; route_interfaces ns' r
  end.

Definition route (r : t) : res t := route_interfaces (seq 0 (length (_interfaces r))) r.

(** ** The routing table *)

(** A route as it was given to [add_route]. *)
Record rule : Type := mkRule { prefix : Z; length_ : Z; out : InterfaceOut }.

Definition add_rules (rules : list rule) (r : t) : t :=
  foldl (fun r x => add_route (prefix x) (length_ x) (next_hop (out x)) (interface_num (out x)) r) r rules.

(** A route applies to an address that agrees with the prefix on its high-order bits. *)
Definition matches (x : rule) (addr : Z) : Prop :=
  forall i, 32 - length_ x <= i < 32 -> Z.testbit addr i = Z.testbit (prefix x) i.

(** The route that longest-prefix matching selects, the earliest one of a tie. *)
Definition selected (rules : list rule) (addr : Z) (x : rule) : Prop :=
  exists i, rules !! i = Some x /\ matches x addr /\
    forall j y, rules !! j = Some y -> matches y addr ->
      length_ y < length_ x \/ (length_ y = length_ x /\ (i <= j)%nat).

Lemma get_mask_bit len i : 0 <= len <= 32 -> 0 <= i ->
  Z.testbit (get_mask len) i = (32 - len <=? i) && (i <? 32).
Proof.
  intros Hl Hi. unfold get_mask. destruct (len =? 0) eqn:E; zb; cbn [orb].
  - rewrite Z.bits_0. symmetry. apply andb_false_iff. rewrite Z.leb_gt, Z.ltb_ge. lia.
  - rewrite (proj2 (Z.ltb_ge _ _)) by lia. unfold u32. change two32 with (2 ^ 32).
    change 4294967295 with (Z.ones 32).
    destruct (i <? 32) eqn:Ei; zb; [|by rewrite Z.mod_pow2_bits_high, andb_false_r by lia].
    rewrite Z.mod_pow2_bits_low, Z.shiftl_spec, andb_true_r by lia.
    destruct (32 - len <=? i) eqn:E2; zb; [apply Z.ones_spec_low; lia|apply Z.testbit_neg_r; lia].
Qed.

(** Masked addresses are equal exactly when the bits of the prefix agree. *)
Lemma masked_eq a b len : 0 <= len <= 32 ->
  Z.land a (get_mask len) = Z.land b (get_mask len) <->
  (forall i, 32 - len <= i < 32 -> Z.testbit a i = Z.testbit b i).
Proof.
  intros Hl. split.
  - intros E i Hi. assert (H : Z.testbit (Z.land a (get_mask len)) i = Z.testbit (Z.land b (get_mask len)) i)
      by (by rewrite E).
    rewrite !Z.land_spec, get_mask_bit, (proj2 (Z.leb_le _ _)), (proj2 (Z.ltb_lt _ _)) in H by lia.
    by rewrite !andb_true_r in H.
  - intros H. apply Z.bits_inj'. intros i Hi. rewrite !Z.land_spec, get_mask_bit by lia.
    destruct ((32 - len <=? i) && (i <? 32)) eqn:E; [|by rewrite !andb_false_r].
    apply andb_true_iff in E as [E1 E2]. zb. by rewrite H by lia.
Qed.

Definition masked (x : rule) : Z := Z.land (prefix x) (get_mask (length_ x)).

(** [add_route] adds an entry for its length and masked prefix unless there is one. *)
Lemma entry_add_route p l nh k r len pre :
  entry len pre (_routing_table (add_route p l nh k r)) =
  match entry len pre (_routing_table r) with
  | Some io => Some io
  | None => if bool_decide (len = l /\ pre = Z.land p (get_mask l)) then Some (mkOut nh k) else None
  end.
Proof.
  set (table := match _routing_table r !! l with
                | None => NetworkInterface.map_insert l ∅ (_routing_table r)
                | Some _ => _routing_table r end).
  assert (Ht : exists m, table !! l = Some m /\ forall pre, m !! pre = entry l pre (_routing_table r)).
  { unfold table, entry. destruct (_routing_table r !! l) as [m|] eqn:E; [by exists m|].
    rewrite NetworkInterface.map_insert_fresh, lookup_insert_eq by done. by exists ∅. }
  assert (Ho : forall len, len <> l -> table !! len = _routing_table r !! len).
  { intros len' Hne. unfold table. destruct (_routing_table r !! l) eqn:E; [done|].
    by rewrite NetworkInterface.map_insert_fresh, lookup_insert_ne by done. }
  destruct Ht as (m & Hm & Hme). unfold add_route. fold table. cbn [_routing_table]. unfold entry at 1.
  destruct (decide (len = l)) as [->|Hne].
  - rewrite lookup_alter_eq, Hm. cbn. unfold NetworkInterface.map_insert.
    destruct (decide (pre = Z.land p (get_mask l))) as [->|Hp].
    + rewrite bool_decide_eq_true_2 by done. rewrite <- Hme.
      destruct (m !! _) eqn:E; [done|by rewrite lookup_insert_eq].
    + rewrite bool_decide_eq_false_2 by tauto. rewrite <- Hme.
      destruct (m !! Z.land p _) eqn:E; [by destruct (m !! pre)|].
      rewrite lookup_insert_ne by done. by destruct (m !! pre).
  - rewrite lookup_alter_ne, Ho by done. rewrite bool_decide_eq_false_2 by tauto.
    change (entry len pre (_routing_table r) =
      match entry len pre (_routing_table r) with Some io => Some io | None => None end).
    by destruct (entry len pre _).
Qed.

(** The table holds, for each length and masked prefix, the first route added. *)
Definition first_with (rules : list rule) (len pre : Z) (x : rule) : Prop :=
  exists i, rules !! i = Some x /\ length_ x = len /\ masked x = pre /\
    forall j y, rules !! j = Some y -> length_ y = len -> masked y = pre -> (i <= j)%nat.

Lemma entry_add_rules rules r len pre : _routing_table r = ∅ ->
  match entry len pre (_routing_table (add_rules rules r)) with
  | Some io => exists x, first_with rules len pre x /\ io = out x
  | None => forall y, y ∈ rules -> length_ y = len -> masked y <> pre
  end.
Proof.
  intros H0. induction rules as [|x rules IH] using rev_ind.
  - cbn [add_rules foldl]. rewrite H0. unfold entry. rewrite lookup_empty. intros y Hy. by apply elem_of_nil in Hy.
  - unfold add_rules in *. rewrite foldl_app. cbn [foldl]. rewrite entry_add_route.
    destruct (entry len pre _) as [io|].
    + destruct IH as (y & (i & Hi & Hl & Hm & Hmin) & ->). exists y. split; [|done].
      exists i. pose proof (lookup_lt_Some _ _ _ Hi). rewrite lookup_app_l by done.
      split_and!; try done. intros j z. destruct (decide (j < length rules)%nat); [|lia].
      rewrite lookup_app_l by done. apply Hmin.
    + case_bool_decide as Hx.
      * destruct Hx as [-> ->]. exists x. split; [|by destruct x as [? ? []]].
        exists (length rules). rewrite list_lookup_middle by done. split_and!; try done.
        intros j y Hj Hl Hm. destruct (decide (j < length rules)%nat) as [Hlt|]; [|lia].
        rewrite lookup_app_l in Hj by done. exfalso.
        apply (IH y); [by eapply list_elem_of_lookup_2|done..].
      * intros y Hy Hl Hm. apply elem_of_app in Hy as [Hy|Hy]; [by apply (IH y)|].
        apply list_elem_of_singleton in Hy as ->. apply Hx. by rewrite <- Hl, <- Hm.
Qed.

(** ** Longest-prefix matching *)

(** What the loop does with the entry it stops at. *)
Definition forward (io : InterfaceOut) (d : IPv4Datagram.t) (r : t) : res (IPv4Datagram.t * t) :=
  if ttl d <=? 1 then Ok (d, r)
  else
    let d' := set_ttl (u8 (ttl d - 1)) d in
    i ← interface (interface_num io) r;
    i' ← AsyncNetworkInterface.send_datagram d'
           match next_hop io with Some h => h | None => dst d end i;
    Ok (d', set_interface (interface_num io) i' r).

Lemma lengths_below_S n table : lengths_below (S n) table =
  if bool_decide (is_Some (table !! Z.of_nat n)) then Z.of_nat n :: lengths_below n table
  else lengths_below n table.
Proof.
  unfold lengths_below. replace (Z.of_nat (S n)) with (Z.of_nat n + 1) by lia.
  rewrite seqZ_app, reverse_app, Z.add_0_l by lia.
  change (reverse (seqZ (Z.of_nat n) 1)) with [Z.of_nat 0 + Z.of_nat n].
  rewrite Z.add_0_l, filter_app, filter_cons.
  by case_bool_decide; [rewrite decide_True|rewrite decide_False].
Qed.

(** The loop stops at the entry of the greatest length that has one. *)
Lemma route_loop_spec n d r :
  let hit len := entry len (Z.land (dst d) (get_mask len)) (_routing_table r) in
  (exists len io, 0 <= len < Z.of_nat n /\ hit len = Some io /\
     (forall len', len < len' < Z.of_nat n -> hit len' = None) /\
     route_loop (lengths_below n (_routing_table r)) d r = forward io d r) \/
  ((forall len, 0 <= len < Z.of_nat n -> hit len = None) /\
     route_loop (lengths_below n (_routing_table r)) d r = Ok (d, r)).
Proof.
  cbv zeta. induction n as [|n IH]; [right; split; [lia|done]|].
  rewrite lengths_below_S. set (m := Z.of_nat n) in *.
  assert (Hcases : forall len, len < Z.of_nat (S n) -> len < m \/ len = m) by lia.
  case_bool_decide as Hs; cbn [route_loop].
  - destruct (entry m _ _) as [io|] eqn:E.
    + left. exists m, io. split_and!; [lia|lia|done|lia|done].
    + destruct IH as [(len & io & Hr & Hh & Hn & Heq)|[Hn Heq]].
      * left. exists len, io. split_and!; [lia|lia|done| |done].
        intros len' [? H']. destruct (Hcases _ H') as [?| ->]; [by apply Hn|done].
      * right. split; [|done]. intros len [? H']. destruct (Hcases _ H') as [?| ->]; [by apply Hn|done].
  - assert (E : entry m (Z.land (dst d) (get_mask m)) (_routing_table r) = None).
    { unfold entry. destruct (_ !! m); [|done]. exfalso. apply Hs. by eexists. }
    destruct IH as [(len & io & Hr & Hh & Hn & Heq)|[Hn Heq]].
    + left. exists len, io. split_and!; [lia|lia|done| |done].
      intros len' [? H']. destruct (Hcases _ H') as [?| ->]; [by apply Hn|done].
    + right. split; [|done]. intros len [? H']. destruct (Hcases _ H') as [?| ->]; [by apply Hn|done].
Qed.

(** Routes with a real prefix length, and interfaces that exist. *)
Definition rule_ok (n : nat) (x : rule) : Prop :=
  0 <= length_ x <= 32 /\ 0 <= interface_num (out x) < Z.of_nat n.

Lemma masked_matches x addr : 0 <= length_ x <= 32 ->
  masked x = Z.land addr (get_mask (length_ x)) <-> matches x addr.
Proof.
  intros H. unfold masked, matches. rewrite masked_eq by done.
  split; intros H' i Hi; symmetry; by apply H'.
Qed.

(** Which entry the loop stops at, in terms of the routes that were added. *)
Lemma route_one_selected n rules r0 d : Forall (rule_ok n) rules -> _routing_table r0 = ∅ ->
  let r := add_rules rules r0 in
  (exists x, selected rules (dst d) x /\ route_one_datagram d r = forward (out x) d r) \/
  ((forall x, x ∈ rules -> ~ matches x (dst d)) /\ route_one_datagram d r = Ok (d, r)).
Proof.
  intros Hok H0 r. rewrite Forall_forall in Hok.
  assert (Hent := fun len pre => entry_add_rules rules r0 len pre H0). fold r in Hent.
  unfold route_one_datagram, descending_lengths.
  destruct (route_loop_spec 256 d r) as [(len & io & Hr & Hh & Hn & ->)|[Hn ->]].
  - left. pose proof (Hent len (Z.land (dst d) (get_mask len))) as H. rewrite Hh in H.
    destruct H as (x & (i & Hi & Hl & Hm & Hmin) & ->). exists x. split; [|done].
    destruct (Hok x) as [Hlx _]; [by eapply list_elem_of_lookup_2|]. subst len.
    exists i. split; [done|]. split; [by apply masked_matches|].
    intros j y Hj Hy. destruct (Hok y) as [Hly _]; [by eapply list_elem_of_lookup_2|].
    apply masked_matches in Hy; [|done].
    destruct (Z.lt_total (length_ y) (length_ x)) as [?|[E|Hgt]]; [by left| |].
    + right. split; [done|]. apply (Hmin j y Hj E). by rewrite Hy, E.
    + exfalso. pose proof (Hent (length_ y) (Z.land (dst d) (get_mask (length_ y)))) as H.
      rewrite (Hn (length_ y)) in H by lia. apply (H y); [by eapply list_elem_of_lookup_2|done..].
  - right. split; [|done]. intros x Hx Hmx. destruct (Hok x Hx) as [Hlx _].
    apply masked_matches in Hmx; [|done].
    pose proof (Hent (length_ x) (Z.land (dst d) (get_mask (length_ x)))) as H.
    rewrite (Hn (length_ x)) in H by lia. by apply (H x).
Qed.

(** ** The invariant *)

Record wf (r : t) : Prop := {
  wf_interfaces : Forall AsyncNetworkInterface.wf (_interfaces r);
  wf_table : forall len pre io, entry len pre (_routing_table r) = Some io ->
    0 <= interface_num io < zlen (_interfaces r)
}.

Definition queues (r : t) : list (list IPv4Datagram.t) :=
  AsyncNetworkInterface.datagrams_out <$> _interfaces r.

Lemma set_ttl_wf x d : IPv4Datagram.wf d -> 0 <= x < two8 -> IPv4Datagram.wf (set_ttl x d).
Proof. intros [[] ? ?] ?. by split. Qed.

Lemma interface_ok k r : 0 <= k < zlen (_interfaces r) ->
  exists i, _interfaces r !! Z.to_nat k = Some i /\ interface k r = Ok i.
Proof.
  intros H. destruct (lookup_lt_is_Some_2 (_interfaces r) (Z.to_nat k)) as [i Hi]; [lia|].
  exists i. unfold interface. by rewrite Hi.
Qed.

(** Forwarding sends the datagram, one hop older, to the interface of the entry. *)
Lemma forward_spec io d r : wf r -> IPv4Datagram.wf d -> 0 <= interface_num io < zlen (_interfaces r) ->
  if ttl d <=? 1 then forward io d r = Ok (d, r)
  else exists i i', _interfaces r !! Z.to_nat (interface_num io) = Some i /\
    AsyncNetworkInterface.send_datagram (set_ttl (ttl d - 1) d)
      match next_hop io with Some h => h | None => dst d end i = Ok i' /\
    AsyncNetworkInterface.wf i' /\
    AsyncNetworkInterface.datagrams_out i' = AsyncNetworkInterface.datagrams_out i /\
    forward io d r = Ok (set_ttl (ttl d - 1) d, set_interface (interface_num io) i' r).
Proof.
  intros Hw Hd Hio. unfold forward. destruct (ttl d <=? 1) eqn:E; zb; [done|].
  assert (Ht : 0 <= ttl d < two8) by (by destruct Hd as [[] _ _]).
  rewrite u8_small by lia. destruct (interface_ok _ r Hio) as (i & Hi & ->). cbn [mbind res_bind].
  destruct (AsyncNetworkInterface.async_send_datagram_wf (set_ttl (ttl d - 1) d)
    match next_hop io with Some h => h | None => dst d end i) as (i' & E' & Hw' & Hq).
  - by eapply Forall_lookup_1; [apply Hw|].
  - apply set_ttl_wf; [done|lia].
  - exists i, i'. rewrite E'. split_and!; done.
Qed.

Lemma set_interface_wf k i i' r : wf r -> _interfaces r !! Z.to_nat k = Some i ->
  AsyncNetworkInterface.wf i' ->
  AsyncNetworkInterface.datagrams_out i' = AsyncNetworkInterface.datagrams_out i ->
  wf (set_interface k i' r) /\ queues (set_interface k i' r) = queues r.
Proof.
  intros [Hi Ht] Hl Hw Hq. split; [split|].
  - by apply Forall_insert.
  - cbn. by rewrite length_insert.
  - unfold queues. cbn. rewrite list_fmap_insert, Hq. apply list_insert_id.
    by rewrite list_lookup_fmap, Hl.
Qed.

Lemma route_one_wf d r : wf r -> IPv4Datagram.wf d ->
  exists d' r', route_one_datagram d r = Ok (d', r') /\ wf r' /\
    _routing_table r' = _routing_table r /\ queues r' = queues r.
Proof.
  intros Hw Hd. unfold route_one_datagram, descending_lengths.
  destruct (route_loop_spec 256 d r) as [(len & io & Hr & Hh & Hn & ->)|[Hn ->]]; [|by exists d, r].
  apply (wf_table r Hw) in Hh. pose proof (forward_spec io d r Hw Hd Hh) as H.
  destruct (ttl d <=? 1); [by exists d, r|].
  destruct H as (i & i' & Hi & _ & Hw' & Hq & ->). eexists _, _. split; [done|].
  destruct (set_interface_wf _ _ _ _ Hw Hi Hw' Hq) as [H1 H2]. done.
Qed.

(** The datagrams of a queue are routed one by one until none is left. *)
Lemma drain_spec n q : forall r, wf r -> queues r !! n = Some q ->
  exists r', drain (length q) n r = Ok (true, r') /\ wf r' /\
    _routing_table r' = _routing_table r /\ queues r' = <[n := []]> (queues r).
Proof.
  induction q as [|d q IH]; intros r Hw Hq.
  - exists r. split; [|by rewrite list_insert_id].
    unfold queues in Hq. rewrite list_lookup_fmap in Hq. cbn.
    destruct (_interfaces r !! n) as [i|]; [|done]. cbn in Hq. by injection Hq as ->.
  - pose proof Hq as Hq0. unfold queues in Hq0. rewrite list_lookup_fmap in Hq0.
    destruct (_interfaces r !! n) as [i|] eqn:Hi; [|done]. cbn in Hq0. injection Hq0 as Hq0.
    assert (Hwi : AsyncNetworkInterface.wf i) by (by eapply Forall_lookup_1; [apply Hw|]).
    assert (Hd : IPv4Datagram.wf d).
    { destruct Hwi as [_ H]. change (Forall IPv4Datagram.wf (AsyncNetworkInterface.datagrams_out i)) in H.
      rewrite Hq0 in H. by inversion H. }
    cbn [drain length]. rewrite Hi, Hq0.
    destruct (route_one_wf d r Hw Hd) as (d' & r1 & -> & Hw1 & Ht1 & Hq1). cbn [mbind res_bind].
    set (r2 := mk _ _).
    assert (Hq2 : queues r2 = <[n := q]> (queues r)).
    { rewrite <- Hq1. unfold queues, r2. cbn. apply list_eq. intros m.
      rewrite list_lookup_fmap. destruct (decide (m = n)) as [->|Hne].
      - rewrite list_lookup_alter_eq, list_lookup_insert_eq.
        + assert (Hx : queues r1 !! n = Some (d :: q)) by (by rewrite Hq1).
          unfold queues in Hx. rewrite list_lookup_fmap in Hx.
          destruct (_interfaces r1 !! n) as [i1|]; [|done]. cbn in Hx |- *. injection Hx as Hx.
          unfold AsyncNetworkInterface.datagrams_out in *. cbn. by rewrite Hx.
        + change (n < length (queues r1))%nat. rewrite Hq1. by eapply lookup_lt_Some.
      - rewrite list_lookup_alter_ne, list_lookup_insert_ne, list_lookup_fmap by done. done. }
    destruct (IH r2) as (r3 & -> & Hw3 & Ht3 & Hq3).
    + split; unfold r2; cbn.
      * apply Forall_alter; [apply Hw1|]. intros. by apply AsyncNetworkInterface.pop_datagram_wf.
      * rewrite length_alter. apply Hw1.
    + rewrite Hq2. apply list_lookup_insert_eq. by eapply lookup_lt_Some.
    + exists r3. split; [done|]. split; [done|]. split; [by rewrite Ht3|].
      by rewrite Hq3, Hq2, list_insert_insert_eq.
Qed.

Lemma route_interfaces_spec ns : forall r, wf r -> Forall (fun n => (n < length (_interfaces r))%nat) ns ->
  exists r', route_interfaces ns r = Ok r' /\ wf r' /\ _routing_table r' = _routing_table r /\
    length (_interfaces r') = length (_interfaces r) /\
    forall m, queues r' !! m = if decide (m ∈ ns) then (fun _ => []) <$> queues r !! m else queues r !! m.
Proof.
  induction ns as [|n ns IH]; intros r Hw Hns; cbn [route_interfaces]; [by exists r|].
  apply Forall_cons in Hns as [Hn Hns].
  destruct (lookup_lt_is_Some_2 (queues r) n) as [q Hq]; [unfold queues; by rewrite length_fmap|].
  assert (Hl : queue_length n r = length q).
  { unfold queue_length. unfold queues in Hq. rewrite list_lookup_fmap in Hq.
    destruct (_interfaces r !! n); [|done]. cbn in Hq. by injection Hq as ->. }
  destruct (drain_spec n q r Hw Hq) as (r1 & E & Hw1 & Ht1 & Hq1). rewrite Hl, E. cbn [mbind res_bind].
  assert (Hlen : length (_interfaces r1) = length (_interfaces r)).
  { assert (H : length (queues r1) = length (queues r)) by (by rewrite Hq1, length_insert).
    unfold queues in H. by rewrite !length_fmap in H. }
  destruct (IH r1 Hw1) as (r2 & -> & Hw2 & Ht2 & Hl2 & Hq2); [by rewrite Hlen|].
  exists r2. split; [done|]. split; [done|]. split; [congruence|]. split; [congruence|].
  intros m. rewrite Hq2, Hq1. destruct (decide (m = n)) as [->|Hne].
  - rewrite list_lookup_insert_eq, Hq by (by eapply lookup_lt_Some).
    rewrite (decide_True (P := n ∈ n :: ns)) by set_solver. by destruct (decide _).
  - rewrite list_lookup_insert_ne by done.
    destruct (decide (m ∈ ns)); [rewrite decide_True by set_solver|rewrite decide_False by set_solver]; done.
Qed.

Lemma route_wf r : wf r -> exists r', route r = Ok r' /\ wf r' /\
  length (_interfaces r') = length (_interfaces r) /\
  Forall (fun i => AsyncNetworkInterface.datagrams_out i = []) (_interfaces r').
Proof.
  intros Hw. unfold route.
  destruct (route_interfaces_spec (seq 0 (length (_interfaces r))) r Hw) as (r' & E & Hw' & _ & Hl & Hq).
  - apply Forall_seq. lia.
  - exists r'. split; [done|]. split; [done|]. split; [done|]. apply Forall_lookup_2. intros m i Hi.
    pose proof (lookup_lt_Some _ _ _ Hi) as Hlt. specialize (Hq m).
    rewrite decide_True in Hq by (apply elem_of_seq; lia).
    unfold queues in Hq. rewrite !list_lookup_fmap, Hi in Hq. cbn in Hq.
    destruct (_interfaces r !! m); cbn in Hq; [by injection Hq|done].
Qed.

(** ** One datagram *)

Lemma selected_unique rules addr x y : selected rules addr x -> selected rules addr y -> x = y.
Proof.
  intros (i & Hi & Hmi & Hmini) (j & Hj & Hmj & Hminj).
  destruct (Hmini j y Hj Hmj) as [?|[? ?]], (Hminj i x Hi Hmi) as [?|[? ?]]; try lia.
  assert (i = j) as -> by lia. congruence.
Qed.

Lemma add_rules_interface rules k i : forall r,
  set_interface k i (add_rules rules r) = add_rules rules (set_interface k i r).
Proof. induction rules as [|x rules IH]; intros r; [done|]. apply (IH (add_route _ _ _ _ r)). Qed.

Lemma route_interfaces_idle ns r : Forall (fun n => queue_length n r = 0%nat) ns -> route_interfaces ns r = Ok r.
Proof.
  induction 1 as [|n ns Hn _ IH]; [done|]. cbn [route_interfaces]. rewrite Hn. unfold queue_length in Hn.
  cbn [drain]. destruct (_interfaces r !! n) as [i|]; [|done].
  by destruct (AsyncNetworkInterface.datagrams_out i).
Qed.

Lemma route_interfaces_app ns1 : forall ns2 r,
  route_interfaces (ns1 ++ ns2) r = (r' ← route_interfaces ns1 r; route_interfaces ns2 r').
Proof.
  induction ns1 as [|n ns1 IH]; intros ns2 r; [done|]. cbn [app route_interfaces].
  destruct (drain _ n r) as [[b r1]|]; [|done]. cbn [mbind res_bind]. apply IH.
Qed.

(** With a single datagram in all the queues, [route] is one call of
    [route_one_datagram]. *)
Lemma route_single n i d r d' r' : _interfaces r !! n = Some i -> AsyncNetworkInterface.datagrams_out i = [d] ->
  (forall m, m <> n -> queue_length m r = 0%nat) ->
  route_one_datagram d r = Ok (d', r') -> queues r' = queues r -> length (_interfaces r') = length (_interfaces r) ->
  route r = Ok (mk (alter AsyncNetworkInterface.pop_datagram n (_interfaces r')) (_routing_table r')).
Proof.
  intros Hi Hq Hidle Hone Hqs Hlen. pose proof (lookup_lt_Some _ _ _ Hi) as Hlt. unfold route.
  replace (length (_interfaces r)) with (n + S (length (_interfaces r) - S n))%nat by lia.
  rewrite seq_app, route_interfaces_app. cbn [seq Nat.add].
  rewrite route_interfaces_idle by (apply Forall_seq; intros m Hm; apply Hidle; lia). cbn [mbind res_bind route_interfaces].
  assert (Hql : queue_length n r = 1%nat) by (unfold queue_length; by rewrite Hi, Hq).
  rewrite Hql. set (r2 := mk _ _).
  assert (Hr2 : forall m, queue_length m r2 = 0%nat).
  { assert (Hqm : forall m, AsyncNetworkInterface.datagrams_out <$> _interfaces r' !! m =
      AsyncNetworkInterface.datagrams_out <$> _interfaces r !! m)
      by (intros m; rewrite <- !list_lookup_fmap; exact (f_equal (.!! m) Hqs)).
    intros m. specialize (Hqm m). unfold queue_length, r2. cbn [_interfaces].
    destruct (decide (m = n)) as [->|Hne].
    - rewrite list_lookup_alter_eq. rewrite Hi in Hqm. destruct (_interfaces r' !! n) as [i'|]; [|done].
      cbn in Hqm |- *. injection Hqm as Hqm. unfold AsyncNetworkInterface.datagrams_out in *. by rewrite Hqm, Hq.
    - rewrite list_lookup_alter_ne by done. specialize (Hidle m Hne). unfold queue_length in Hidle.
      destruct (_interfaces r' !! m) as [i'|], (_interfaces r !! m) as [i2|]; try done. cbn in Hqm. injection Hqm as Hqm.
      by rewrite Hqm. }
  assert (Hdone : drain 1 n r = Ok (true, r2)).
  { cbn [drain]. rewrite Hi, Hq, Hone. cbn [mbind res_bind]. fold r2. specialize (Hr2 n). unfold queue_length in Hr2.
    destruct (_interfaces r2 !! n) as [i2|]; [|done]. by destruct (AsyncNetworkInterface.datagrams_out i2). }
  rewrite Hdone. cbn [mbind res_bind].
  apply route_interfaces_idle. apply Forall_true. exact Hr2.
Qed.

Lemma add_interface_wf i r : wf r -> AsyncNetworkInterface.wf i -> wf (add_interface i r).2.
Proof.
  intros [Hi Ht] Hw. split; cbn.
  - apply Forall_app. by split; [|constructor].
  - intros len pre io H. apply Ht in H. rewrite length_app. cbn. lia.
Qed.

Lemma add_route_wf p l nh k r : wf r -> 0 <= k < zlen (_interfaces r) -> wf (add_route p l nh k r).
Proof.
  intros [Hi Ht] Hk. split; [done|]. intros len pre io. rewrite entry_add_route.
  destruct (entry len pre _) eqn:E; [intros [= <-]; by apply Ht in E|].
  case_bool_decide; [|done]. by intros [= <-].
Qed.

Lemma add_rules_wf rules : forall r, wf r -> Forall (rule_ok (length (_interfaces r))) rules ->
  wf (add_rules rules r) /\ _interfaces (add_rules rules r) = _interfaces r.
Proof.
  induction rules as [|x rules IH]; intros r Hw Hr; [done|]. apply Forall_cons in Hr as [[_ Hx] Hr].
  apply (IH (add_route _ _ _ _ r)); [by apply add_route_wf|done].
Qed.

Lemma empty_table_wf r : _routing_table r = ∅ -> Forall AsyncNetworkInterface.wf (_interfaces r) -> wf r.
Proof. intros H Hi. split; [done|]. rewrite H. unfold entry. intros len pre io. by rewrite lookup_empty. Qed.

(** C16: routing is longest-prefix matching.  Among the routes that were added, the
    one with the longest prefix that agrees with the destination address is selected
    (the earliest, if several are equal); the datagram is dropped when its time to
    live has run out, and otherwise handed, one hop older, to the interface of that
    route, for its next hop or, on a direct route, for the destination itself.  When
    no route matches, the datagram is dropped and nothing changes. *)
Theorem longest_prefix_match (rules : list rule) (r0 : t) (d : IPv4Datagram.t)
  (Htable : _routing_table r0 = ∅)
  (Hifs : Forall AsyncNetworkInterface.wf (_interfaces r0))
  (Hrules : Forall (rule_ok (length (_interfaces r0))) rules) (Hd : IPv4Datagram.wf d) :
  let r := add_rules rules r0 in
  (exists x, selected rules (dst d) x /\
    if ttl d <=? 1 then route_one_datagram d r = Ok (d, r)
    else exists i i', _interfaces r0 !! Z.to_nat (interface_num (out x)) = Some i /\
      AsyncNetworkInterface.send_datagram (set_ttl (ttl d - 1) d)
        match next_hop (out x) with Some h => h | None => dst d end i = Ok i' /\
      route_one_datagram d r =
        Ok (set_ttl (ttl d - 1) d, set_interface (interface_num (out x)) i' r)) \/
  ((forall x, x ∈ rules -> ~ matches x (dst d)) /\ route_one_datagram d r = Ok (d, r)).
Proof.
  intros r. destruct (add_rules_wf rules r0 (empty_table_wf r0 Htable Hifs) Hrules) as [Hw Hi].
  fold r in Hw, Hi.
  destruct (route_one_selected _ rules r0 d Hrules Htable) as [(x & Hx & E)|[Hn E]]; fold r in E;
    [left|by right].
  exists x. split; [done|]. rewrite E.
  assert (Hk : 0 <= interface_num (out x) < zlen (_interfaces r)).
  { destruct Hx as (i & Hl & _). destruct (Forall_lookup_1 _ _ _ _ Hrules Hl) as [_ H]. by rewrite Hi. }
  pose proof (forward_spec (out x) d r Hw Hd Hk) as H. rewrite Hi in H. destruct (ttl d <=? 1); [done|].
  destruct H as (i & i' & ? & ? & _ & _ & ?). by exists i, i'.
Qed.

(** Two interfaces; 192.168.0.0/16 on the first, 192.168.0.0/24 through 10.0.0.1 on
    the second. *)
Definition demo : t :=
  mk [AsyncNetworkInterface.make (NetworkInterface.make [2; 0; 0; 0; 0; 1] 1);
      AsyncNetworkInterface.make (NetworkInterface.make [2; 0; 0; 0; 0; 2] 2)] ∅.
Definition demo_rules : list rule :=
  [mkRule 3232235520 16 (mkOut None 0); mkRule 3232235520 24 (mkOut (Some 167772161) 1)].

Lemma demo_interfaces_wf : Forall AsyncNetworkInterface.wf (_interfaces demo).
Proof. by apply Forall_cons; split; [|apply Forall_singleton]; (split; [apply NetworkInterface.interface_make_wf|]). Qed.

Lemma longest_prefix_match_witness :
  exists x, selected demo_rules 3232235777 x /\ interface_num (out x) = 0.
Proof.
  destruct (longest_prefix_match demo_rules demo IPv4Datagram.example) as [(x & Hx & _)|[Hno _]].
  - reflexivity.
  - exact demo_interfaces_wf.
  - repeat constructor; cbn; lia.
  - apply NetworkInterface.example_wf.
  - exists x. split; [exact Hx|]. destruct Hx as ([|[|]] & Hi & Hm & _); [by injection Hi as <-| |done].
    exfalso. injection Hi as <-. specialize (Hm 8 ltac:(cbn; lia)). vm_compute in Hm. done.
  - exfalso. apply (Hno (mkRule 3232235520 16 (mkOut None 0))); [by left|].
    apply masked_matches; [cbn; lia|]. vm_compute. reflexivity.
Defined.

(** ** Runs *)

Inductive op : Type :=
| AddRoute (route_prefix prefix_length : Z) (next_hop : option Z) (interface_num : Z)
| Recv (n : nat) (frame : EthernetFrame.t)
| Tick (n : nat) (ms : Z)
| Route.

(** The owner reaches an interface through [interface(n)]. *)
Definition on_interface (n : nat) (f : AsyncNetworkInterface.t -> res AsyncNetworkInterface.t) (r : t)
  : res t :=
  i ← interface (Z.of_nat n) r; i' ← f i; Ok (set_interface (Z.of_nat n) i' r).

Definition step (o : op) (r : t) : res t :=
  match o with
  | AddRoute p l nh k => Ok (add_route p l nh k r)
  | Recv n f => on_interface n (AsyncNetworkInterface.recv_frame f) r
  | Tick n ms => on_interface n (fun i => Ok (AsyncNetworkInterface.tick ms i)) r
  | Route => route r
  end.

Fixpoint exec (os : list op) (r : t) : res t :=
  match os with
  | [] => Ok r
  | o :: os' => r' ← step o r; exec os' r'
  end.

Definition allowed (n : nat) (o : op) : Prop :=
  match o with
  | AddRoute _ _ _ k => 0 <= k < Z.of_nat n
  | Recv m f => (m < n)%nat /\ AsyncNetworkInterface.benign f
  | Tick m ms => (m < n)%nat /\ 0 <= ms < two63
  | Route => True
  end.

Lemma on_interface_wf n f r : wf r -> (n < length (_interfaces r))%nat ->
  (forall i, AsyncNetworkInterface.wf i -> exists i', f i = Ok i' /\ AsyncNetworkInterface.wf i') ->
  exists r', on_interface n f r = Ok r' /\ wf r' /\ length (_interfaces r') = length (_interfaces r).
Proof.
  intros Hw Hn Hf. unfold on_interface.
  destruct (interface_ok (Z.of_nat n) r) as (i & Hi & ->); [lia|]. cbn [mbind res_bind].
  destruct (Hf i) as (i' & -> & Hw'); [by eapply Forall_lookup_1; [apply Hw|]|].
  eexists. split; [done|]. destruct Hw as [H1 H2]. split; [split|]; cbn.
  - by apply Forall_insert.
  - by rewrite length_insert.
  - by rewrite length_insert.
Qed.

Lemma router_step_wf o r : wf r -> allowed (length (_interfaces r)) o ->
  exists r', step o r = Ok r' /\ wf r' /\ length (_interfaces r') = length (_interfaces r).
Proof.
  intros Hw Ha. destruct o as [p l nh k|n f|n ms|]; cbn [step allowed] in *.
  - eexists. split; [done|]. split; [by apply add_route_wf|done].
  - destruct Ha as [Hn Hf]. apply on_interface_wf; try done. intros i Hi.
    by apply AsyncNetworkInterface.async_recv_frame_wf.
  - destruct Ha as [Hn Hms]. apply on_interface_wf; try done. intros i [H1 H2]. eexists. split; [done|].
    split; [by apply NetworkInterface.interface_tick_wf|done].
  - destruct (route_wf r Hw) as (r' & ? & ? & ? & _). by exists r'.
Qed.

Lemma router_exec_wf n os : Forall (allowed n) os -> forall r, wf r -> length (_interfaces r) = n ->
  exists r', exec os r = Ok r' /\ wf r' /\ length (_interfaces r') = n.
Proof.
  induction 1 as [|o os Ho _ IH]; intros r Hw Hl; cbn [exec]; [by exists r|].
  rewrite <- Hl in Ho. destruct (router_step_wf o r Hw Ho) as (r1 & -> & Hw1 & Hl1). cbn.
  apply IH; [done|congruence].
Qed.

Lemma exec_app os1 os2 r : exec (os1 ++ os2) r = (r' ← exec os1 r; exec os2 r').
Proof. revert r. induction os1 as [|o os1 IH]; intros r; cbn; [done|]. destruct (step o r); cbn; auto. Qed.

(** A router never throws as long as its routes name interfaces it has and the
    datagrams it accepts can be sent on, and [route] leaves no datagram behind in
    the queue of any interface. *)
Theorem router_run_safe (ifs : list AsyncNetworkInterface.t) (os : list op)
  (Hifs : Forall AsyncNetworkInterface.wf ifs) (Hos : Forall (allowed (length ifs)) os) :
  exists r, exec (os ++ [Route]) (foldl (fun r i => (add_interface i r).2) make ifs) = Ok r /\
    length (_interfaces r) = length ifs /\
    Forall (fun i => AsyncNetworkInterface.datagrams_out i = []) (_interfaces r).
Proof.
  assert (H0 : forall r, wf r -> let r' := foldl (fun r i => (add_interface i r).2) r ifs in
    wf r' /\ length (_interfaces r') = (length (_interfaces r) + length ifs)%nat).
  { clear Hos. induction Hifs as [|i ifs Hi _ IH]; intros r Hw; cbn; [split; [done|lia]|].
    destruct (IH (add_interface i r).2) as [H1 H2]; [by apply add_interface_wf|].
    split; [exact H1|]. etransitivity; [exact H2|]. cbn. rewrite length_app. cbn. lia. }
  destruct (H0 make) as [Hw Hl]; [by apply empty_table_wf|]. clear H0.
  destruct (router_exec_wf _ os Hos _ Hw Hl) as (r1 & E & Hw1 & Hl1).
  destruct (route_wf r1 Hw1) as (r2 & E2 & _ & Hl2 & Hq2).
  exists r2. rewrite exec_app, E. cbn. rewrite E2. split; [done|]. split; [congruence|done].
Qed.

Definition demo_ops : list op := [AddRoute 0 0 None 1; Tick 0 10].

Lemma router_run_safe_witness :
  exists r, exec (demo_ops ++ [Route])
      (foldl (fun r i => (add_interface i r).2) make (_interfaces demo)) = Ok r /\
    length (_interfaces r) = 2%nat.
Proof.
  destruct (router_run_safe (_interfaces demo) demo_ops demo_interfaces_wf) as (r & E & Hl & _).
  - repeat constructor; cbn; lia.
  - exists r. split; [exact E|exact Hl].
Defined.

(** A frame with an IP version 5 header of 20 bytes and an ARP reply that makes its
    destination known. *)
Definition version5_frame : EthernetFrame.t :=
  EthernetFrame.mk (EthernetHeader.mk [2; 0; 0; 0; 0; 1] [2; 0; 0; 0; 0; 7] EthernetHeader.TYPE_IPv4)
    (BufferList.of_string (IPv4Header.encode
       (IPv4Header.mk 5 5 0 20 0 true false 0 64 6 0 167772161 3232235777))).
Definition known_frame : EthernetFrame.t :=
  EthernetFrame.mk (EthernetHeader.mk [2; 0; 0; 0; 0; 1] [2; 0; 0; 0; 0; 9] EthernetHeader.TYPE_ARP)
    (BufferList.of_string (ARPMessage.encode
       (ARPMessage.mk 1 2048 6 4 2 [2; 0; 0; 0; 0; 9] 3232235777 [2; 0; 0; 0; 0; 1] 1))).

(** A frame can stop the router.  [IPv4Datagram::parse] accepts a datagram with
    a wrong IP version, [route] passes it on, and [IPv4Header::serialize] throws. *)
Theorem malformed_datagram_stops_router :
  (exists r, exec [Recv 0 known_frame; Recv 0 version5_frame] (add_rules demo_rules demo) = Ok r /\
     route r = Throw runtime_error).
Proof. eexists. split; [vm_compute; reflexivity|]. vm_compute. reflexivity. Qed.

(** ** The frames of a router

    Whatever a router does, its interfaces only add frames that can be put on the
    wire, none longer than the datagrams they are given ([M] bytes). *)
Section Sizes.
Context (M : Z) (HM : 28 <= M).

#[local] Abbreviation light_queue i := (Forall (NetworkInterface.light M) (AsyncNetworkInterface.datagrams_out i)).

(** The datagrams that wait for the router. *)
Definition modest (r : t) : Prop := Forall (fun i => light_queue i) (_interfaces r).

Definition ahead (i i' : AsyncNetworkInterface.t) : Prop :=
  NetworkInterface.advances M (AsyncNetworkInterface.base i) (AsyncNetworkInterface.base i') /\
  (light_queue i -> light_queue i').
Definition advances (r r' : t) : Prop := Forall2 ahead (_interfaces r) (_interfaces r').

#[global] Instance ahead_preorder : PreOrder ahead.
Proof.
  split; [intros i; split; [reflexivity|done]|]. intros a b c [H1 H2] [H3 H4]. split; [by etransitivity|by auto].
Qed.

#[global] Instance router_advances_preorder : PreOrder advances.
Proof. split; [intros r; unfold advances; reflexivity|]. intros a b c. unfold advances. apply transitivity. Qed.

Lemma advances_modest r r' : advances r r' -> modest r -> modest r'.
Proof.
  unfold advances, modest. intros H. induction H as [|i i' l l' [_ Hi] _ IH]; [done|].
  intros [H1 H2]%Forall_cons. constructor; [by apply Hi|by apply IH].
Qed.

Lemma advances_insert k i i' r : _interfaces r !! Z.to_nat k = Some i ->
  ahead i i' -> advances r (set_interface k i' r).
Proof.
  intros Hi Ha. unfold advances. cbn. apply Forall2_same_length_lookup. rewrite length_insert. split; [done|].
  intros m x y Hx Hy. destruct (decide (m = Z.to_nat k)) as [->|Hne].
  - rewrite list_lookup_insert_eq in Hy by (by eapply lookup_lt_Some). congruence.
  - rewrite list_lookup_insert_ne in Hy by done. assert (x = y) as -> by congruence. reflexivity.
Qed.

Lemma route_one_advances d r d' r' : IPv4Datagram.wf d -> NetworkInterface.light M d ->
  route_one_datagram d r = Ok (d', r') -> advances r r'.
Proof.
  intros Hd Hl. unfold route_one_datagram, descending_lengths.
  destruct (route_loop_spec 256 d r) as [(len & io & Hr & Hh & Hn & ->)|[Hn ->]]; [|intros [= _ <-]; reflexivity].
  unfold forward. destruct (ttl d <=? 1); [intros [= _ <-]; reflexivity|].
  unfold interface. destruct (_interfaces r !! _) as [i|] eqn:Hi; [|done]. cbn [mbind res_bind].
  intros (i' & E & [= _ <-])%bind_Ok. apply (advances_insert _ i); [done|].
  unfold AsyncNetworkInterface.send_datagram in E. apply bind_Ok in E as (n & E & [= <-]). split; [|done].
  eapply NetworkInterface.send_datagram_advances; [exact HM| | |exact E]; [apply set_ttl_wf; [done|apply u8_range]|exact Hl].
Qed.

Lemma drain_advances fuel n : forall r b r', wf r -> modest r -> drain fuel n r = Ok (b, r') -> advances r r' /\ wf r'.
Proof.
  induction fuel as [|fuel IH]; intros r b r' Hw Hm; cbn [drain];
    (destruct (_interfaces r !! n) as [i|] eqn:Hi; [|intros [= _ <-]; split; [reflexivity|done]]);
    (destruct (AsyncNetworkInterface.datagrams_out i) as [|d q] eqn:Hq; [intros [= _ <-]; split; [reflexivity|done]|]);
    [intros [= _ <-]; split; [reflexivity|done]|].
  assert (Hd : IPv4Datagram.wf d /\ NetworkInterface.light M d).
  { pose proof (Forall_lookup_1 _ _ _ _ (wf_interfaces r Hw) Hi) as [_ Hqs].
    pose proof (Forall_lookup_1 _ _ _ _ Hm Hi) as Hls. unfold AsyncNetworkInterface.datagrams_out in Hq, Hls.
    rewrite Hq in Hqs, Hls. apply Forall_cons in Hqs as [? _], Hls as [? _]. done. }
  destruct Hd as [Hd Hl].
  intros ([d' r1] & E & H)%bind_Ok. pose proof (route_one_advances _ _ _ _ Hd Hl E) as H1.
  destruct (route_one_wf d r Hw Hd) as (d2 & r2 & E2 & Hw1 & _). rewrite E in E2. injection E2 as <- <-.
  assert (H3 : advances r1 (mk (alter AsyncNetworkInterface.pop_datagram n (_interfaces r1)) (_routing_table r1))).
  { unfold advances. cbn. apply Forall2_same_length_lookup. rewrite length_alter. split; [done|]. intros m x y Hx Hy.
    destruct (decide (m = n)) as [->|Hne].
    - rewrite list_lookup_alter_eq, Hx in Hy. injection Hy as <-. split; [reflexivity|]. by apply Forall_tail.
    - rewrite list_lookup_alter_ne in Hy by done. assert (x = y) as -> by congruence. reflexivity. }
  apply IH in H as [H2 Hw'].
  - split; [|done]. etransitivity; [exact H1|]. by etransitivity.
  - split; cbn.
    + apply Forall_alter; [apply Hw1|]. intros. by apply AsyncNetworkInterface.pop_datagram_wf.
    + rewrite length_alter. apply Hw1.
  - eapply advances_modest; [exact H3|]. by eapply advances_modest.
Qed.

Lemma route_advances r r' : wf r -> modest r -> route r = Ok r' -> advances r r'.
Proof.
  unfold route. generalize (seq 0 (length (_interfaces r))). intros ns. revert r.
  induction ns as [|n ns IH]; intros r Hw Hm; cbn [route_interfaces]; [intros [= <-]; reflexivity|].
  intros ([b r1] & E & H)%bind_Ok. apply drain_advances in E as [H1 Hw1]; [|done..].
  etransitivity; [exact H1|]. apply IH; [done| |done]. by eapply advances_modest.
Qed.

End Sizes.

End Router.
