(* ===== verification/Addresses.v ===== *)
(** * Internet addresses (util/address.hh, util/address.cc)

    An [Address] holding a [sockaddr_in], with the C library's name service as an
    interface ([Netdb]) and one implementation of it for dotted quads. *)

From S2P Require Import Prelude.
From Stdlib Require Import Strings.Byte.
From Stdlib Require Strings.String.

Module Address.

(** [class Address] holding a [sockaddr_in]: the address and the port, as numbers. *)
Record t : Type := mk { ipv4_numeric : Z; port : Z }.

#[global] Instance eq_dec : EqDecision t.
Proof. solve_decision. Defined.

Definition from_ipv4_numeric (ip_address : Z) : t := mk ip_address 0.
Definition eqb (a b : t) : bool := bool_decide (a = b).

(** The C library's conversions between addresses and dotted quads: [inet_ntoa],
    and [getaddrinfo] for a numeric host and port, which reads back what
    [inet_ntoa] has written. *)
Class Netdb : Type := {
  inet_ntoa : Z -> String.string;
  getaddrinfo : String.string -> Z -> option t;
  numeric_host : forall a p, 0 <= a < two32 -> 0 <= p < two16 ->
    getaddrinfo (inet_ntoa a) p = Some (mk a p)
}.

(** [Address(const std::string &ip, const std::uint16_t port)]; [tagged_error] is a
    [runtime_error]. *)
Definition of_string `{Netdb} (ip : String.string) (port : Z) : res t :=
  match getaddrinfo ip port with
  | Some a => Ok a
  | None => Throw runtime_error
  end.

(** [ip()] of an [AF_INET] address. *)
Definition ip `{Netdb} (a : t) : String.string := inet_ntoa (ipv4_numeric a).

Record wf (a : t) : Prop := { wf_ip : 0 <= ipv4_numeric a < two32; wf_port : 0 <= port a < two16 }.

End Address.

(** A concrete [Netdb]: dotted quads written and read digit by digit. *)
Module DottedQuad.

Definition digit (d : Z) : Ascii.ascii := Ascii.ascii_of_nat (Z.to_nat (48 + d)).
Definition octet (n : Z) : list Ascii.ascii :=
  if n <? 10 then [digit n]
  else if n <? 100 then [digit (n / 10); digit (n mod 10)]
  else [digit (n / 100); digit (n / 10 mod 10); digit (n mod 10)].
Definition dot : Ascii.ascii := Ascii.ascii_of_nat 46.

Definition inet_ntoa (a : Z) : String.string :=
  String.string_of_list_ascii
    (octet (a / 16777216 mod 256) ++ [dot] ++ octet (a / 65536 mod 256) ++ [dot] ++
     octet (a / 256 mod 256) ++ [dot] ++ octet (a mod 256)).

(** The value of the octets before the last dot, and of the digits after it. *)
Definition read_char (st : Z * Z) (c : Ascii.ascii) : Z * Z :=
  let v := Z.of_nat (Ascii.nat_of_ascii c) in
  if v =? 46 then (256 * st.1 + st.2, 0) else (st.1, 10 * st.2 + (v - 48)).
Definition read_quad (s : String.string) : Z :=
  let st := foldl read_char (0, 0) (String.list_ascii_of_string s) in 256 * st.1 + st.2.

Lemma read_digit acc cur d : 0 <= d < 10 -> read_char (acc, cur) (digit d) = (acc, 10 * cur + d).
Proof.
  intros Hd. unfold read_char, digit. rewrite Ascii.nat_ascii_embedding by lia.
  rewrite Z2Nat.id by lia. rewrite (proj2 (Z.eqb_neq _ _)) by lia. cbn [fst snd]. f_equal. lia.
Qed.

Lemma read_octet acc n rest : 0 <= n < 256 ->
  foldl read_char (acc, 0) (octet n ++ rest) = foldl read_char (acc, n) rest.
Proof.
  intros Hn. unfold octet. destruct (n <? 10) eqn:E1; zb; cbn [app foldl].
  - rewrite read_digit by lia. do 2 f_equal; lia.
  - assert (0 <= n / 10) by (apply Z.div_pos; lia).
    pose proof (Z.mod_pos_bound n 10 ltac:(lia)). pose proof (Z.div_mod n 10 ltac:(lia)).
    destruct (n <? 100) eqn:E2; zb; cbn [app foldl].
    + rewrite !read_digit by lia. do 2 f_equal; lia.
    + pose proof (Z.mod_pos_bound (n / 10) 10 ltac:(lia)). pose proof (Z.div_mod (n / 10) 10 ltac:(lia)).
      assert (n / 100 = n / 10 / 10) as -> by (by rewrite Z.div_div by lia).
      rewrite !read_digit by lia. do 2 f_equal; lia.
Qed.

Lemma read_dot acc cur rest : foldl read_char (acc, cur) ([dot] ++ rest) = foldl read_char (256 * acc + cur, 0) rest.
Proof. done. Qed.

Lemma read_inet_ntoa a : 0 <= a < two32 -> read_quad (inet_ntoa a) = a.
Proof.
  intros Ha. unfold read_quad, inet_ntoa. rewrite String.list_ascii_of_string_of_list_ascii.
  rewrite <- (app_nil_r (octet (a mod 256))).
  rewrite !read_octet, !read_dot, !read_octet, !read_dot, !read_octet, !read_dot, read_octet
    by (apply Z.mod_pos_bound; lia).
  cbn [foldl fst snd]. Z.div_mod_to_equations. lia.
Qed.

Definition netdb : Address.Netdb.
Proof.
  refine {| Address.inet_ntoa := inet_ntoa;
            Address.getaddrinfo := fun s p => Some (Address.mk (read_quad s) p) |}.
  intros a p Ha _. by rewrite read_inet_ntoa.
Defined.

End DottedQuad.
