(* ===== verification/FileDescriptor.v ===== *)
(** * File descriptors (util/file_descriptor.hh, file_descriptor.cc; SystemCall of
    util/util.cc)

    The kernel is outside the program: [Kernel] lists the system calls the sources
    make, each a function from the kernel's state to its answer and next state, and
    what is relied on is stated as hypotheses where it is used.  A [FileDescriptor]
    is a shared pointer to an [FDWrapper], so several handles see the same flags and
    counters: the wrappers live in a heap and a handle is a location. *)

From S2P Require Import Prelude Buffers Addresses.
From Stdlib Require Import Strings.Byte.

(** What a system call leaves behind: its return value and [errno]. *)
Record answer : Type := Answer { ret : Z; errno : Z }.

(** [struct pollfd]. *)
Record pollfd : Type := mkPollfd { poll_fd : Z; events : Z; revents : Z }.

(** The system calls.  A call that fills a buffer also gives the bytes stored from
    its start; [k_poll] gives the [revents] of the descriptors in order. *)
Class Kernel (K : Type) : Type := {
  k_close : Z -> K -> answer * K;
  k_read : Z -> Z -> K -> answer * bytes * K;
  k_writev : Z -> list (bytes * Z) -> K -> answer * K;
  k_getfl : Z -> K -> answer * K;
  k_setfl : Z -> Z -> K -> answer * K;
  k_poll : list pollfd -> Z -> K -> answer * list Z * K;
  k_clock : K -> Z * K;
  k_socket : Z -> Z -> K -> answer * K;
  k_socketpair : Z -> K -> answer * (Z * Z) * K;
  k_getsockopt : Z -> Z -> Z -> K -> answer * Z * Z * K;
  k_setsockopt : Z -> Z -> Z -> Z -> K -> answer * K;
  k_getname : bool -> Z -> K -> answer * Address.t * K;
  k_bind : Z -> Address.t -> K -> answer * K;
  k_connect : Z -> Address.t -> K -> answer * K;
  k_shutdown : Z -> Z -> K -> answer * K;
  k_recvfrom : Z -> Z -> K -> answer * bytes * Address.t * K;
  k_sendmsg : Z -> option Address.t -> list (bytes * Z) -> K -> answer * K;
  k_listen : Z -> Z -> K -> answer * K;
  k_accept : Z -> K -> answer * K;
  k_open_tun : K -> answer * K;
  k_tunsetiff : Z -> list byte -> Z -> K -> answer * K
}.

(** [SystemCall]: the return value passes through an [int]. *)
Definition SystemCall (a : answer) (errno_mask : Z) : res Z :=
  let return_value := s32 (ret a) in
  if (0 <=? return_value) || (errno a =? errno_mask) then Ok return_value
  else Throw (unix_error (errno a)).

Module FDWrapper.

(** [class FileDescriptor::FDWrapper]. *)
Record t : Type := mk {
  _fd : Z;
  _eof : bool;
  _closed : bool;
  _read_count : Z;
  _write_count : Z
}.

Definition make (fd : Z) : res t :=
  if fd <? 0 then Throw runtime_error else Ok (mk fd false false 0 0).

Definition set_eof (w : t) : t := mk (_fd w) true (_closed w) (_read_count w) (_write_count w).
Definition set_closed (w : t) : t := mk (_fd w) true true (_read_count w) (_write_count w).
Definition register_read (w : t) : t :=
  mk (_fd w) (_eof w) (_closed w) (u32 (_read_count w + 1)) (_write_count w).
Definition register_write (w : t) : t :=
  mk (_fd w) (_eof w) (_closed w) (_read_count w) (u32 (_write_count w + 1)).

End FDWrapper.

(** A wrapper with the number of [shared_ptr]s to it, and the state that the
    program and the kernel share. *)
Record cell : Type := mkCell { wrapper : FDWrapper.t; use_count : Z }.

Record world (K : Type) : Type := mkWorld {
  kernel : K;
  heap : gmap nat cell;
  next : nat
}.
Arguments mkWorld {K} kernel heap next.
Arguments kernel {K} w.
Arguments heap {K} w.
Arguments next {K} w.

Definition set_kernel {K} (k : K) (w : world K) : world K := mkWorld k (heap w) (next w).
Definition set_cell {K} (h : nat) (c : cell) (w : world K) : world K :=
  mkWorld (kernel w) (<[h := c]> (heap w)) (next w).

(** A system call without output. *)
Definition syscall {K} (f : K -> answer * K) : io (world K) answer := fun w =>
  let '(a, k) := f (kernel w) in Ok (a, set_kernel k w).

(** ... with output. *)
Definition syscall_out {K A} (f : K -> answer * A * K) : io (world K) (answer * A) := fun w =>
  let '(a, x, k) := f (kernel w) in Ok (a, x, set_kernel k w).

Module FileDescriptor.
Section FileDescriptor.
Context {K : Type} `{Kernel K}.
#[local] Abbreviation world := (world K).

(** [class FileDescriptor]: the shared pointer [_internal_fd]. *)
Definition t : Type := nat.

Definition get_cell (h : t) : io world cell := fun w =>
  match heap w !! h with
  | Some c => Ok (c, w)
  | None => Throw undefined
  end.
Definition deref (h : t) : io world FDWrapper.t := c ← get_cell h; mret (wrapper c).

(** An assignment through the pointer. *)
Definition assign (f : FDWrapper.t -> FDWrapper.t) (h : t) : io world unit :=
  c ← get_cell h; modify (set_cell h (mkCell (f (wrapper c)) (use_count c))).

Definition fd_num (h : t) : io world Z := x ← deref h; mret (FDWrapper._fd x).
Definition eof (h : t) : io world bool := x ← deref h; mret (FDWrapper._eof x).
Definition closed (h : t) : io world bool := x ← deref h; mret (FDWrapper._closed x).
Definition read_count (h : t) : io world Z := x ← deref h; mret (FDWrapper._read_count x).
Definition write_count (h : t) : io world Z := x ← deref h; mret (FDWrapper._write_count x).
Definition register_read (h : t) : io world unit := assign FDWrapper.register_read h.
Definition register_write (h : t) : io world unit := assign FDWrapper.register_write h.

(** [FileDescriptor(const int fd)]: a new wrapper with one pointer to it. *)
Definition make (fd : Z) : io world t := fun w =>
  match FDWrapper.make fd with
  | Throw e => Throw e
  | Ok x => Ok (next w, mkWorld (kernel w) (<[next w := mkCell x 1]> (heap w)) (S (next w)))
  end.

(** [FileDescriptor(std::shared_ptr<FDWrapper>)] and [duplicate]. *)
Definition duplicate (h : t) : io world t :=
  c ← get_cell h;
  _ ← modify (set_cell h (mkCell (wrapper c) (use_count c + 1)));
  mret h.

(** [FDWrapper::close], which [close] calls through the pointer. *)
Definition close (h : t) : io world unit :=
  fd ← fd_num h;
  a ← syscall (k_close fd);
  _ ← of_res (SystemCall a 0);
  assign FDWrapper.set_closed h.

(** [~FDWrapper]: an exception of [close] is caught. *)
Definition destroy_wrapper (x : FDWrapper.t) (w : world) : world :=
  if FDWrapper._closed x then w
  else set_kernel (k_close (FDWrapper._fd x) (kernel w)).2 w.

(** [~FileDescriptor]: the wrapper dies with the last pointer to it. *)
Definition destroy (h : t) : io world unit := fun w =>
  match heap w !! h with
  | None => Throw undefined
  | Some c =>
      if use_count c <=? 1 then
        let w := destroy_wrapper (wrapper c) w in
        Ok (tt, mkWorld (kernel w) (delete h (heap w)) (next w))
      else Ok (tt, set_cell h (mkCell (wrapper c) (use_count c - 1)) w)
  end.

(** [std::string::resize]. *)
Definition resize (n : Z) (s : bytes) : bytes :=
  take (Z.to_nat n) s ++ replicate (Z.to_nat n - length s) x00.

Definition BUFFER_SIZE : Z := 1024 * 1024.

(** [read(std::string &str, size_t limit)]; the new value of [str] is returned. *)
Definition read_into (str : bytes) (limit : Z) (h : t) : io world bytes :=
  let size_to_read := Z.min BUFFER_SIZE limit in
  let str := resize size_to_read str in
  fd ← fd_num h;
  '(a, data) ← syscall_out (k_read fd size_to_read);
  let str := data ++ drop (length data) str in
  bytes_read ← of_res (SystemCall a 0);
  _ ← (if (0 <? limit) && (bytes_read =? 0) then assign FDWrapper.set_eof h else mret tt);
  if size_to_read <? bytes_read then throw runtime_error
  else if bytes_read <? 0 then throw length_error
  else
    let str := resize bytes_read str in
    _ ← register_read h;
    mret str.

(** [std::numeric_limits<size_t>::max()], the default limit. *)
Definition no_limit : Z := two64 - 1.
Definition read (limit : Z) (h : t) : io world bytes := read_into [] limit h.

(** [write(BufferViewList, bool)]: every round of the loop but the last writes at
    least one byte, so the size of the buffer bounds the number of rounds. *)
Fixpoint write_loop (fuel : nat) (buffer : BufferViewList.t) (write_all : bool) (total : Z) (h : t)
  : io world Z :=
  match fuel with
  | O => throw nontermination
  | S fuel' =>
      fd ← fd_num h;
      a ← syscall (k_writev fd (BufferViewList.as_iovecs buffer));
      bytes_written ← of_res (SystemCall a 0);
      if (bytes_written =? 0) && negb (BufferViewList.size buffer =? 0) then throw runtime_error
      else if BufferViewList.size buffer <? bytes_written then throw runtime_error
      else
        _ ← register_write h;
        buffer ← of_res (BufferViewList.remove_prefix (u64 bytes_written) buffer);
        let total := total ⊞ bytes_written in
        if write_all && negb (BufferViewList.size buffer =? 0)
        then write_loop fuel' buffer write_all total h
        else mret total
  end.

Definition write (buffer : BufferViewList.t) (write_all : bool) (h : t) : io world Z :=
  write_loop (S (Z.to_nat (BufferViewList.size buffer))) buffer write_all 0 h.

(** [write(const std::string &, bool)]. *)
Definition write_string (str : bytes) (write_all : bool) (h : t) : io world Z :=
  write (BufferViewList.of_string str) write_all h.

Definition O_NONBLOCK : Z := 2048.

Definition new_flags (blocking_state : bool) (flags : Z) : Z :=
  if blocking_state then Z.lxor flags (Z.land flags O_NONBLOCK) else Z.lor flags O_NONBLOCK.

Definition set_blocking (blocking_state : bool) (h : t) : io world unit :=
  fd ← fd_num h;
  a ← syscall (k_getfl fd);
  flags ← of_res (SystemCall a 0);
  a ← syscall (k_setfl fd (new_flags blocking_state flags));
  _ ← of_res (SystemCall a 0);
  mret tt.

(** ** Running the operations *)

Lemma SystemCall_ok a mask : 0 <= ret a < two31 -> SystemCall a mask = Ok (ret a).
Proof.
  intros Ha. unfold SystemCall, s32. rewrite Z.mod_small by lia.
  rewrite (proj2 (Z.ltb_lt _ _)) by lia. by rewrite (proj2 (Z.leb_le _ _)) by lia.
Qed.

Lemma SystemCall_fails a mask : ret a = -1 -> errno a <> mask ->
  SystemCall a mask = Throw (unix_error (errno a)).
Proof.
  intros Ha He. unfold SystemCall. rewrite Ha. change (s32 (-1)) with (-1). cbn [Z.leb orb].
  by rewrite (proj2 (Z.eqb_neq _ _)) by done.
Qed.

Lemma deref_run h w c : heap w !! h = Some c -> deref h w = Ok (wrapper c, w).
Proof. intros E. unfold deref, mbind, io_bind, get_cell. by rewrite E. Qed.

Lemma assign_run f h w c : heap w !! h = Some c ->
  assign f h w = Ok (tt, set_cell h (mkCell (f (wrapper c)) (use_count c)) w).
Proof. intros E. unfold assign, mbind, io_bind, get_cell. by rewrite E. Qed.

Lemma fd_num_run h w c : heap w !! h = Some c -> fd_num h w = Ok (FDWrapper._fd (wrapper c), w).
Proof. intros E. unfold fd_num. by rewrite (io_bind_run _ _ _ _ _ (deref_run h w c E)). Qed.

(** Dropping one of several pointers. *)
Lemma destroy_run h w x n : heap w !! h = Some (mkCell x n) -> 1 < n ->
  destroy h w = Ok (tt, set_cell h (mkCell x (n - 1)) w).
Proof. intros Hx Hn. unfold destroy. rewrite Hx. cbn. by rewrite (proj2 (Z.leb_gt _ _)) by lia. Qed.

Lemma duplicate_run h w x n : heap w !! h = Some (mkCell x n) ->
  duplicate h w = Ok (h, set_cell h (mkCell x (n + 1)) w).
Proof. intros E. unfold duplicate, get_cell, mbind, io_bind. by rewrite E. Qed.

Lemma eof_run h w c : heap w !! h = Some c -> eof h w = Ok (FDWrapper._eof (wrapper c), w).
Proof. intros E. unfold eof. by rewrite (io_bind_run _ _ _ _ _ (deref_run _ _ _ E)). Qed.

(** The system calls of [close] and [set_blocking] succeed. *)
Lemma close_run h w c a k : heap w !! h = Some c -> k_close (FDWrapper._fd (wrapper c)) (kernel w) = (a, k) ->
  0 <= ret a < two31 ->
  close h w = Ok (tt, set_cell h (mkCell (FDWrapper.set_closed (wrapper c)) (use_count c)) (set_kernel k w)).
Proof.
  intros Hc Hk Hr. unfold close. rewrite (io_bind_run _ _ _ _ _ (fd_num_run h w c Hc)).
  rewrite (io_bind_run _ _ _ (set_kernel k w) a) by (unfold syscall; by rewrite Hk).
  rewrite (io_bind_run _ _ _ (set_kernel k w) (ret a)) by (unfold of_res; by rewrite SystemCall_ok).
  exact (assign_run FDWrapper.set_closed h (set_kernel k w) c Hc).
Qed.

Lemma set_blocking_run b h w c a k a' k' : heap w !! h = Some c ->
  k_getfl (FDWrapper._fd (wrapper c)) (kernel w) = (a, k) -> 0 <= ret a < two31 ->
  k_setfl (FDWrapper._fd (wrapper c)) (new_flags b (ret a)) k = (a', k') -> 0 <= ret a' < two31 ->
  set_blocking b h w = Ok (tt, set_kernel k' w).
Proof.
  intros Hc Hk Hr Hk' Hr'. unfold set_blocking. rewrite (io_bind_run _ _ _ _ _ (fd_num_run h w c Hc)).
  rewrite (io_bind_run _ _ _ (set_kernel k w) a) by (unfold syscall; by rewrite Hk).
  rewrite (io_bind_run _ _ _ (set_kernel k w) (ret a)) by (unfold of_res; by rewrite SystemCall_ok).
  rewrite (io_bind_run _ _ _ (set_kernel k' w) a')
    by (unfold syscall; cbn [kernel set_kernel]; by rewrite Hk').
  by rewrite (io_bind_run _ _ _ (set_kernel k' w) (ret a')) by (unfold of_res; by rewrite SystemCall_ok).
Qed.

Lemma length_resize n s : 0 <= n -> zlen (resize n s) = n.
Proof. intros Hn. unfold resize. rewrite length_app, length_take, length_replicate. lia. Qed.

(** The wrapper after a read of [data], asked for at most [limit] bytes. *)
Definition after_read (limit : Z) (data : bytes) (x : FDWrapper.t) : FDWrapper.t :=
  FDWrapper.register_read
    (if (0 <? limit) && bool_decide (data = []) then FDWrapper.set_eof x else x).

(** A successful [read] returns what the kernel stored. *)
Lemma read_run limit h w c a data k :
  heap w !! h = Some c -> 0 <= limit ->
  k_read (FDWrapper._fd (wrapper c)) (Z.min BUFFER_SIZE limit) (kernel w) = (a, data, k) ->
  ret a = zlen data -> zlen data <= Z.min BUFFER_SIZE limit ->
  read limit h w =
    Ok (data, set_cell h (mkCell (after_read limit data (wrapper c)) (use_count c)) (set_kernel k w)).
Proof.
  intros Hc Hl Hk Hr Hlen. pose proof (zlen_nonneg data). unfold BUFFER_SIZE in *.
  unfold read, read_into. rewrite (io_bind_run _ _ _ _ _ (fd_num_run h w c Hc)).
  rewrite (io_bind_run _ _ _ (set_kernel k w) (a, data))
    by (unfold syscall_out, BUFFER_SIZE; by rewrite Hk).
  rewrite (io_bind_run _ _ _ (set_kernel k w) (zlen data))
    by (unfold of_res; rewrite SystemCall_ok by lia; by rewrite Hr).
  assert (Hd : resize (zlen data) (data ++ drop (length data) (resize (Z.min BUFFER_SIZE limit) [])) = data).
  { unfold resize at 1. rewrite Nat2Z.id, take_app_length, length_app.
    replace (length data - _)%nat with 0%nat by lia. apply app_nil_r. }
  assert (He : (zlen data =? 0) = bool_decide (data = [])) by (by destruct data).
  unfold after_read. rewrite He. destruct ((0 <? limit) && bool_decide (data = [])).
  - rewrite (io_bind_run _ _ _ _ _ (assign_run FDWrapper.set_eof h (set_kernel k w) c Hc)).
    set (w1 := set_cell h _ _). zcase; try (unfold BUFFER_SIZE in *; lia). rewrite Hd.
    assert (Hc1 : heap w1 !! h = Some (mkCell (FDWrapper.set_eof (wrapper c)) (use_count c)))
      by apply lookup_insert_eq.
    rewrite (io_bind_run _ _ _ _ _ (assign_run FDWrapper.register_read h w1 _ Hc1)).
    unfold w1, set_cell. cbn. by rewrite insert_insert_eq.
  - rewrite (io_bind_run _ _ _ (set_kernel k w) tt) by done.
    zcase; try (unfold BUFFER_SIZE in *; lia). rewrite Hd.
    by rewrite (io_bind_run _ _ _ _ _ (assign_run FDWrapper.register_read h (set_kernel k w) c Hc)).
Qed.

(** One round of the loop of [write] whose system call accepts [ret a] bytes. *)
Lemma write_round fuel buffer write_all total h w c a k :
  heap w !! h = Some c ->
  k_writev (FDWrapper._fd (wrapper c)) (BufferViewList.as_iovecs buffer) (kernel w) = (a, k) ->
  zlen (concat buffer) < two63 -> 0 <= ret a <= zlen (concat buffer) -> ret a < two31 ->
  (ret a = 0 -> concat buffer = []) ->
  let w' := set_cell h (mkCell (FDWrapper.register_write (wrapper c)) (use_count c)) (set_kernel k w) in
  exists buffer', concat buffer' = drop (Z.to_nat (ret a)) (concat buffer) /\
    write_loop (S fuel) buffer write_all total h w =
      if write_all && negb (BufferViewList.size buffer' =? 0)
      then write_loop fuel buffer' write_all (total ⊞ ret a) h w'
      else Ok (total ⊞ ret a, w').
Proof.
  intros Hc Hk Hsz Hr Hr' H0. cbv zeta.
  destruct (BufferViewList.view_list_remove_prefix (ret a) buffer) as (buffer' & Hrm & Hb); [lia..|].
  exists buffer'. split; [done|]. cbn [write_loop].
  rewrite (io_bind_run _ _ _ _ _ (fd_num_run h w c Hc)).
  rewrite (io_bind_run _ _ _ (set_kernel k w) a) by (unfold syscall; by rewrite Hk).
  rewrite (io_bind_run _ _ _ (set_kernel k w) (ret a)) by (unfold of_res; by rewrite SystemCall_ok by lia).
  rewrite BufferViewList.view_list_size, u64_small by lia.
  replace ((ret a =? 0) && negb (zlen (concat buffer) =? 0)) with false.
  2:{ destruct (ret a =? 0) eqn:E; [|done]. zb. by rewrite H0. }
  rewrite (proj2 (Z.ltb_ge _ _)) by lia.
  rewrite (io_bind_run _ _ _ _ _ (assign_run FDWrapper.register_write h (set_kernel k w) c Hc)).
  set (w' := set_cell h _ _). rewrite (u64_small (ret a)) by lia.
  rewrite (io_bind_run _ _ _ w' buffer') by (unfold of_res; by rewrite Hrm).
  by destruct (write_all && _).
Qed.

(** A round whose system call fails, or accepts nothing of something. *)
Lemma write_round_fails fuel buffer write_all total h w c a k :
  heap w !! h = Some c ->
  k_writev (FDWrapper._fd (wrapper c)) (BufferViewList.as_iovecs buffer) (kernel w) = (a, k) ->
  zlen (concat buffer) < two63 ->
  (ret a = -1 /\ errno a <> 0 ->
     write_loop (S fuel) buffer write_all total h w = Throw (unix_error (errno a))) /\
  (ret a = 0 /\ concat buffer <> [] ->
     write_loop (S fuel) buffer write_all total h w = Throw runtime_error).
Proof.
  intros Hc Hk Hsz. cbn [write_loop].
  rewrite (io_bind_run _ _ _ _ _ (fd_num_run h w c Hc)).
  rewrite (io_bind_run _ _ _ (set_kernel k w) a) by (unfold syscall; by rewrite Hk).
  split; intros [Hr He].
  - unfold mbind, io_bind, of_res. by rewrite SystemCall_fails.
  - rewrite (io_bind_run _ _ _ (set_kernel k w) (ret a)) by (unfold of_res; by rewrite SystemCall_ok by lia).
    rewrite BufferViewList.view_list_size, u64_small, Hr by lia.
    by destruct (concat buffer).
Qed.

(** Writing without insisting: one round. *)
Lemma write_once_run str h w c a k :
  heap w !! h = Some c ->
  k_writev (FDWrapper._fd (wrapper c)) (BufferViewList.as_iovecs (BufferViewList.of_string str)) (kernel w)
    = (a, k) ->
  zlen str < two63 -> 0 <= ret a <= zlen str -> ret a < two31 -> (ret a = 0 -> str = []) ->
  write_string str false h w =
    Ok (ret a, set_cell h (mkCell (FDWrapper.register_write (wrapper c)) (use_count c)) (set_kernel k w)).
Proof.
  intros Hc Hk Hsz Hr Hr' H0. unfold write_string, write.
  assert (Hcat : concat (BufferViewList.of_string str) = str) by apply app_nil_r.
  destruct (write_round (Z.to_nat (BufferViewList.size (BufferViewList.of_string str)))
    (BufferViewList.of_string str) false 0 h w c a k Hc Hk) as (b & _ & ->); rewrite ?Hcat; try done.
  cbn [andb]. by rewrite u64_small by lia.
Qed.

(** ** Writing everything *)

Section WriteAll.
(** The bytes the kernel has accepted on a descriptor; [writev] accepts a prefix of
    what it is given, or fails and sets [errno]. *)
Context (sent : K -> Z -> bytes).
Hypothesis writev_prefix : forall fd iovecs k a k', k_writev fd iovecs k = (a, k') ->
  -1 <= ret a <= zlen (concat (fst <$> iovecs)) /\ ret a < two31 /\ (ret a = -1 -> errno a <> 0) /\
  sent k' fd = sent k fd ++ take (Z.to_nat (ret a)) (concat (fst <$> iovecs)).

(** A kernel that always takes something when there is something. *)
Definition accepting : Prop := forall fd iovecs k a k', k_writev fd iovecs k = (a, k') ->
  0 <= ret a /\ (concat (fst <$> iovecs) <> [] -> 0 < ret a).

(** How [write] with [write_all] set may end when [total] bytes are behind it. *)
Definition wrote_all (buffer : BufferViewList.t) (total : Z) (h : t) (c : cell) (w : world)
  (r : res (Z * world)) : Prop :=
  match r with
  | Ok (n, w') => n = total + zlen (concat buffer) /\
      sent (kernel w') (FDWrapper._fd (wrapper c)) =
        sent (kernel w) (FDWrapper._fd (wrapper c)) ++ concat buffer /\
      exists rounds, (1 <= rounds <= Nat.max 1 (length (concat buffer)))%nat /\
        w' = mkWorld (kernel w') (<[h := mkCell (Nat.iter rounds FDWrapper.register_write (wrapper c))
                                        (use_count c)]> (heap w)) (next w)
  | Throw e => ~ accepting /\ (e = runtime_error \/ exists n, n <> 0 /\ e = unix_error n)
  end.

Lemma iter_fd n x : FDWrapper._fd (Nat.iter n FDWrapper.register_write x) = FDWrapper._fd x.
Proof. induction n as [|n IH]; [done|]. by cbn. Qed.

Lemma write_all_loop fuel : forall buffer total h c w,
  heap w !! h = Some c -> (length (concat buffer) < fuel)%nat -> 0 <= total ->
  total + zlen (concat buffer) < two63 ->
  wrote_all buffer total h c w (write_loop fuel buffer true total h w).
Proof.
  induction fuel as [|fuel IH]; intros buffer total h c w Hc Hfuel Ht Hsz; [lia|].
  destruct (k_writev (FDWrapper._fd (wrapper c)) (BufferViewList.as_iovecs buffer) (kernel w)) as [a k] eqn:Hk.
  pose proof (writev_prefix _ _ _ _ _ Hk) as (Hr & Hr' & He & Hs). rewrite BufferViewList.iovecs_bytes in *.
  destruct (write_round_fails fuel buffer true total h w c a k Hc Hk) as [Hf1 Hf2]; [lia|].
  assert (Hacc : accepting -> 0 <= ret a /\ (concat buffer <> [] -> 0 < ret a)).
  { intros Hacc. specialize (Hacc _ _ _ _ _ Hk). by rewrite BufferViewList.iovecs_bytes in Hacc. }
  destruct (decide (ret a = -1)).
  { rewrite Hf1 by auto. split; [intros [? _]%Hacc; lia|right; by eauto]. }
  destruct (decide (ret a = 0 /\ concat buffer <> [])) as [Hz|Hnz].
  { rewrite Hf2 by done. split; [|by left]. destruct Hz as [Hz Hne]. intros [_ Hp]%Hacc.
    specialize (Hp Hne). lia. }
  assert (H0 : ret a = 0 -> concat buffer = []).
  { intros H0. destruct (concat buffer); [done|]. exfalso. by apply Hnz. }
  destruct (write_round fuel buffer true total h w c a k Hc Hk) as (b & Hb & ->); try lia || done.
  rewrite (u64_small (total + _)) by lia. set (w1 := set_cell h _ _).
  assert (Hlb : zlen (concat b) = zlen (concat buffer) - ret a) by (rewrite Hb, length_drop; lia).
  assert (Happ : take (Z.to_nat (ret a)) (concat buffer) ++ concat b = concat buffer)
    by (rewrite Hb; apply take_drop).
  rewrite BufferViewList.view_list_size, u64_small by lia. destruct (zlen (concat b) =? 0) eqn:E; zb; cbn [andb negb].
  - split; [lia|]. split.
    + unfold w1. cbn. rewrite Hs. destruct (concat b); [|done]. by rewrite app_nil_r in Happ; rewrite Happ.
    + exists 1%nat. split; [lia|]. done.
  - assert (Hc1 : heap w1 !! h = Some (mkCell (FDWrapper.register_write (wrapper c)) (use_count c)))
      by apply lookup_insert_eq.
    assert (0 < ret a).
    { destruct (decide (ret a = 0)) as [Hz|]; [|lia]. rewrite (H0 Hz) in Hlb. cbn in Hlb. lia. }
    specialize (IH b (total + ret a) h _ w1 Hc1 ltac:(lia) ltac:(lia) ltac:(lia)).
    destruct (write_loop fuel b true _ h w1) as [[m w']|e]; [|done].
    destruct IH as (Hn & Hsn & rounds & Hm & Hw'). split; [lia|]. split.
    + cbn [wrapper FDWrapper._fd FDWrapper.register_write] in Hsn. rewrite Hsn. cbn. by rewrite Hs, <- app_assoc, Happ.
    + exists (S rounds). split; [lia|]. rewrite Hw'. cbn. rewrite insert_insert_eq, <- Nat.iter_succ_r. done.
Qed.
End WriteAll.

(** The two flag computations of [set_blocking] change [O_NONBLOCK] only. *)
Lemma new_flags_bits blocking flags i : 0 <= i ->
  Z.testbit (new_flags blocking flags) i = if i =? 11 then negb blocking else Z.testbit flags i.
Proof.
  intros Hi. assert (Hb : Z.testbit O_NONBLOCK i = (i =? 11)).
  { change O_NONBLOCK with (2 ^ 11). rewrite Z.pow2_bits_eqb by lia. apply Z.eqb_sym. }
  unfold new_flags. destruct blocking.
  - rewrite Z.lxor_spec, Z.land_spec, Hb. by destruct (i =? 11), (Z.testbit flags i).
  - rewrite Z.lor_spec, Hb. by destruct (i =? 11), (Z.testbit flags i).
Qed.

End FileDescriptor.
End FileDescriptor.

(** C23: writing with [write_all] always ends, after at most as many system calls as
    there are bytes (or one).  Either every byte of the buffer list has been
    accepted, in order, the returned count is their number, and only the write
    counter of this descriptor has changed; or the call throws, because a system
    call failed or accepted nothing.  With a kernel that keeps accepting it does
    not throw. *)
Theorem write_all_complete (K : Type) (HK : Kernel K) (sent : K -> Z -> bytes)
  (buffer : BufferViewList.t) (h : FileDescriptor.t) (c : cell) (w : world K)
  (writev_prefix : forall fd iovecs k a k', k_writev fd iovecs k = (a, k') ->
    -1 <= ret a <= zlen (concat (fst <$> iovecs)) /\ ret a < two31 /\ (ret a = -1 -> errno a <> 0) /\
    sent k' fd = sent k fd ++ take (Z.to_nat (ret a)) (concat (fst <$> iovecs)))
  (Hc : heap w !! h = Some c) (Hsize : zlen (concat buffer) < two63) :
  match FileDescriptor.write buffer true h w with
  | Ok (n, w') => n = zlen (concat buffer) /\
      sent (kernel w') (FDWrapper._fd (wrapper c)) =
        sent (kernel w) (FDWrapper._fd (wrapper c)) ++ concat buffer /\
      exists rounds, (1 <= rounds <= Nat.max 1 (length (concat buffer)))%nat /\
        w' = mkWorld (kernel w')
               (<[h := mkCell (Nat.iter rounds FDWrapper.register_write (wrapper c)) (use_count c)]> (heap w))
               (next w)
  | Throw e => ~ FileDescriptor.accepting /\ (e = runtime_error \/ exists n, n <> 0 /\ e = unix_error n)
  end.
Proof.
  apply (FileDescriptor.write_all_loop sent writev_prefix _ buffer 0 h c w Hc); try lia.
  rewrite BufferViewList.view_list_size, u64_small by lia. lia.
Qed.

(** ** A kernel to run the definitions with

    [writev] takes at most [quota] bytes at a time; input, poll results (an error
    number and the [revents]), datagrams and the clock follow a script. *)
Module Scripted.

Record t : Type := mk {
  quota : Z;
  written : list (Z * bytes);
  input : list bytes;
  datagrams : list (bytes * Address.t);
  polls : list (Z * list Z);
  time : Z
}.

Definition took (fd : Z) (bs : bytes) (k : t) : t :=
  mk (quota k) (written k ++ [(fd, bs)]) (input k) (datagrams k) (polls k) (time k).

Definition ok : answer := Answer 0 0.

Definition do_read (fd size : Z) (k : t) : answer * bytes * t :=
  match input k with
  | [] => (ok, [], k)
  | bs :: rest =>
      let n := Z.to_nat size in
      (Answer (zlen (take n bs)) 0, take n bs,
       mk (quota k) (written k) (match drop n bs with [] => rest | more => more :: rest end) (datagrams k) (polls k) (time k))
  end.

Definition do_writev (fd : Z) (iovecs : list (bytes * Z)) (k : t) : answer * t :=
  let bs := take (Z.to_nat (u16 (quota k))) (concat (fst <$> iovecs)) in
  (Answer (zlen bs) 0, took fd bs k).

Definition do_poll (fds : list pollfd) (timeout : Z) (k : t) : answer * list Z * t :=
  match polls k with
  | [] => (ok, [], mk (quota k) (written k) (input k) (datagrams k) [] (time k + timeout))
  | (e, p) :: rest => (if e =? 0 then Answer 1 0 else Answer (-1) e, p, mk (quota k) (written k) (input k) (datagrams k) rest (time k))
  end.

(** The largest datagram. *)
Definition max_datagram : nat := Z.to_nat 65536.

Definition do_recvfrom (fd size : Z) (k : t) : answer * bytes * Address.t * t :=
  match datagrams k with
  | [] => (Answer (-1) 11, [], Address.mk 0 0, k)
  | (datagram, a) :: rest =>
      let bs := take max_datagram datagram in
      (Answer (zlen bs) 0, take (Z.to_nat size) bs, a, mk (quota k) (written k) (input k) rest (polls k) (time k))
  end.

Definition do_sendmsg (fd : Z) (dst : option Address.t) (iovecs : list (bytes * Z)) (k : t) : answer * t :=
  let bs := take max_datagram (concat (fst <$> iovecs)) in (Answer (zlen bs) 0, took fd bs k).

#[global] Instance kernel : Kernel t := {|
  k_close := fun _ k => (ok, k);
  k_read := do_read;
  k_writev := do_writev;
  k_getfl := fun _ k => (ok, k);
  k_setfl := fun _ _ k => (ok, k);
  k_poll := do_poll;
  k_clock := fun k => (time k, k);
  k_socket := fun _ _ k => (Answer 5 0, k);
  k_socketpair := fun _ k => (ok, (3, 4), k);
  k_getsockopt := fun _ _ _ k => (ok, 1, 4, k);
  k_setsockopt := fun _ _ _ _ k => (ok, k);
  k_getname := fun _ _ k => (ok, Address.mk 0 0, k);
  k_bind := fun _ _ k => (ok, k);
  k_connect := fun _ _ k => (ok, k);
  k_shutdown := fun _ _ k => (ok, k);
  k_recvfrom := do_recvfrom;
  k_sendmsg := do_sendmsg;
  k_listen := fun _ _ k => (ok, k);
  k_accept := fun _ k => (Answer 6 0, k);
  k_open_tun := fun k => (Answer 7 0, k);
  k_tunsetiff := fun _ _ _ k => (ok, k)
|}.

(** What was written to [fd]. *)
Definition sent (k : t) (fd : Z) : bytes :=
  concat (snd <$> filter (fun p => p.1 = fd) (written k)).

Lemma sent_took fd bs k : sent (took fd bs k) fd = sent k fd ++ bs.
Proof.
  unfold sent. cbn. rewrite filter_app, fmap_app, concat_app. cbn.
  rewrite decide_True by done. cbn. by rewrite app_nil_r.
Qed.

(** [writev] accepts a prefix. *)
Lemma scripted_writev fd iovecs k a k' : do_writev fd iovecs k = (a, k') ->
  -1 <= ret a <= zlen (concat (fst <$> iovecs)) /\ ret a < two31 /\ (ret a = -1 -> errno a <> 0) /\
  sent k' fd = sent k fd ++ take (Z.to_nat (ret a)) (concat (fst <$> iovecs)).
Proof.
  intros [= <- <-]. pose proof (u16_range (quota k)). cbn [ret errno]. rewrite length_take. split; [lia|]. split; [lia|]. split; [lia|].
  rewrite sent_took. f_equal. rewrite Nat2Z.id. by rewrite <- take_take, firstn_all.
Qed.

Lemma scripted_recvfrom mtu fd k a data src k' : do_recvfrom fd mtu k = (a, data, src, k') ->
  -1 <= ret a < two31 /\ (ret a = -1 -> errno a <> 0) /\ (0 <= ret a <= mtu -> zlen data = ret a).
Proof.
  unfold do_recvfrom. destruct (datagrams k) as [|[bs addr] rest]; intros [= <- <- <- <-]; cbn [ret errno].
  - lia.
  - unfold max_datagram. rewrite !length_take. lia.
Qed.

Lemma scripted_sendmsg fd dst iovecs k a k' : do_sendmsg fd dst iovecs k = (a, k') ->
  -1 <= ret a < two31 /\ (ret a = -1 -> errno a <> 0).
Proof. intros [= <- <-]. unfold max_datagram. cbn [ret errno]. rewrite length_take. lia. Qed.

End Scripted.

(** Five bytes in two views, two at a time. *)
Lemma write_all_complete_witness :
  exists w', FileDescriptor.write [[x61; x62; x63]; [x64; x65]] true 0%nat
      (mkWorld (Scripted.mk 2 [] [] [] [] 0) {[ 0%nat := mkCell (FDWrapper.mk 9 false false 0 0) 1 ]} 1)
    = Ok (5, w') /\
    Scripted.sent (kernel w') 9 = [x61; x62; x63; x64; x65].
Proof.
  pose proof (write_all_complete Scripted.t Scripted.kernel Scripted.sent
    [[x61; x62; x63]; [x64; x65]] 0%nat (mkCell (FDWrapper.mk 9 false false 0 0) 1)
    (mkWorld (Scripted.mk 2 [] [] [] [] 0) {[ 0%nat := mkCell (FDWrapper.mk 9 false false 0 0) 1 ]} 1)
    Scripted.scripted_writev eq_refl eq_refl) as H.
  destruct (FileDescriptor.write _ true 0%nat _) as [[n w']|e] eqn:E; [|vm_compute in E; congruence].
  destruct H as (-> & Hs & _). exists w'. split; [reflexivity|]. exact Hs.
Defined.
