(* ===== verification/Sockets.v ===== *)
(** * Sockets and TUN/TAP devices (util/socket.hh, socket.cc; util/tun.hh, tun.cc)

    A [Socket] is a [FileDescriptor]; its operations wrap one system call each,
    check the answer and keep the counters that the event loop watches.  The theorem
    says what arrives through a UDP socket: a datagram is received or sent whole, or
    the call throws. *)

From S2P Require Import Prelude Buffers Addresses FileDescriptor.
From Stdlib Require Import Strings.Byte.
From Stdlib Require Strings.String.

(** Constants of the C library (Linux). *)
Definition AF_UNIX : Z := 1.
Definition AF_INET : Z := 2.
Definition SOCK_STREAM : Z := 1.
Definition SOCK_DGRAM : Z := 2.
Definition SOL_SOCKET : Z := 1.
Definition SO_REUSEADDR : Z := 2.
Definition SO_TYPE : Z := 3.
Definition SO_DOMAIN : Z := 39.
Definition SHUT_RD : Z := 0.
Definition SHUT_WR : Z := 1.
Definition SHUT_RDWR : Z := 2.

Module Socket.
Section Socket.
Context {K : Type} `{Kernel K}.
#[local] Abbreviation world := (world K).

(** [Socket(domain, type)]. *)
Definition make (domain type : Z) : io world FileDescriptor.t :=
  a ← syscall (k_socket domain type);
  fd ← of_res (SystemCall a 0);
  FileDescriptor.make fd.

(** [getsockopt] stores a value and its length; both are checked. *)
Definition verify (option expected : Z) (h : FileDescriptor.t) : io world unit :=
  fd ← FileDescriptor.fd_num h;
  '(a, actual_value, len) ← (fun w =>
     let '(a, v, l, k) := k_getsockopt fd SOL_SOCKET option (kernel w) in Ok (a, v, l, set_kernel k w));
  _ ← of_res (SystemCall a 0);
  if negb (len =? 4) || negb (actual_value =? expected) then throw runtime_error else mret tt.

(** [Socket(FileDescriptor &&fd, domain, type)]. *)
Definition of_fd (h : FileDescriptor.t) (domain type : Z) : io world FileDescriptor.t :=
  _ ← verify SO_DOMAIN domain h;
  _ ← verify SO_TYPE type h;
  mret h.

(** [get_address], with [getpeername] when [peer]. *)
Definition get_address (peer : bool) (h : FileDescriptor.t) : io world Address.t :=
  fd ← FileDescriptor.fd_num h;
  '(a, address) ← syscall_out (k_getname peer fd);
  _ ← of_res (SystemCall a 0);
  mret address.

Definition local_address (h : FileDescriptor.t) : io world Address.t := get_address false h.
Definition peer_address (h : FileDescriptor.t) : io world Address.t := get_address true h.

Definition bind (address : Address.t) (h : FileDescriptor.t) : io world unit :=
  fd ← FileDescriptor.fd_num h;
  a ← syscall (k_bind fd address);
  _ ← of_res (SystemCall a 0);
  mret tt.

Definition connect (address : Address.t) (h : FileDescriptor.t) : io world unit :=
  fd ← FileDescriptor.fd_num h;
  a ← syscall (k_connect fd address);
  _ ← of_res (SystemCall a 0);
  mret tt.

Definition shutdown (how : Z) (h : FileDescriptor.t) : io world unit :=
  fd ← FileDescriptor.fd_num h;
  a ← syscall (k_shutdown fd how);
  _ ← of_res (SystemCall a 0);
  if how =? SHUT_RD then FileDescriptor.register_read h
  else if how =? SHUT_WR then FileDescriptor.register_write h
  else if how =? SHUT_RDWR then
    _ ← FileDescriptor.register_read h; FileDescriptor.register_write h
  else throw runtime_error.

(** [setsockopt<int>]. *)
Definition setsockopt (level option option_value : Z) (h : FileDescriptor.t) : io world unit :=
  fd ← FileDescriptor.fd_num h;
  a ← syscall (k_setsockopt fd level option option_value);
  _ ← of_res (SystemCall a 0);
  mret tt.

Definition set_reuseaddr (h : FileDescriptor.t) : io world unit := setsockopt SOL_SOCKET SO_REUSEADDR 1 h.

(** [sendmsg_helper]: the kernel must take the whole payload. *)
Definition sendmsg_helper (fd_num : Z) (destination_address : option Address.t) (payload : BufferViewList.t)
  : io world unit :=
  a ← syscall (k_sendmsg fd_num destination_address (BufferViewList.as_iovecs payload));
  bytes_sent ← of_res (SystemCall a 0);
  if negb (u64 bytes_sent =? BufferViewList.size payload) then throw runtime_error else mret tt.

(** The effect of a shutdown on the wrapper. *)
Definition after_shutdown (how : Z) (x : FDWrapper.t) : FDWrapper.t :=
  FDWrapper.register_write (if how =? SHUT_RDWR then FDWrapper.register_read x else x).

Lemma shutdown_run how h w x n a k : heap w !! h = Some (mkCell x n) -> how = SHUT_WR \/ how = SHUT_RDWR ->
  k_shutdown (FDWrapper._fd x) how (kernel w) = (a, k) -> 0 <= ret a < two31 ->
  shutdown how h w = Ok (tt, mkWorld k (<[h := mkCell (after_shutdown how x) n]> (heap w)) (next w)).
Proof.
  intros Hx Hhow Hks Hret.
  unfold shutdown. rewrite (io_bind_run _ _ _ _ _ (FileDescriptor.fd_num_run _ _ _ Hx)). cbn [wrapper].
  set (w1 := set_kernel k w).
  rewrite (io_bind_run _ _ _ w1 a) by (unfold syscall; by rewrite Hks).
  rewrite (io_bind_run _ _ _ w1 (ret a)) by (unfold of_res; by rewrite FileDescriptor.SystemCall_ok).
  destruct Hhow as [-> | ->]; cbn.
  - exact (FileDescriptor.assign_run FDWrapper.register_write h w1 (mkCell x n) Hx).
  - rewrite (io_bind_run _ _ _ _ _ (FileDescriptor.assign_run FDWrapper.register_read h w1 (mkCell x n) Hx)).
    etransitivity; [apply (FileDescriptor.assign_run FDWrapper.register_write), lookup_insert_eq|].
    unfold set_cell. cbn. by rewrite insert_insert_eq.
Qed.

End Socket.
End Socket.

Module UDPSocket.
Section UDPSocket.
Context {K : Type} `{Kernel K}.
#[local] Abbreviation world := (world K).

(** [UDPSocket()]. *)
Definition make : io world FileDescriptor.t := Socket.make AF_INET SOCK_DGRAM.

(** [struct received_datagram]. *)
Record received_datagram : Type := mkReceived { source_address : Address.t; payload : bytes }.

(** [recv(received_datagram &, mtu)]; [MSG_TRUNC] makes the answer the length of the
    datagram even where it does not fit. *)
Definition recv_into (datagram : received_datagram) (mtu : Z) (h : FileDescriptor.t)
  : io world received_datagram :=
  let buffer := FileDescriptor.resize mtu (payload datagram) in
  fd ← FileDescriptor.fd_num h;
  '(a, data, datagram_source_address) ← (fun w =>
     let '(a, d, src, k) := k_recvfrom fd mtu (kernel w) in Ok (a, d, src, set_kernel k w));
  let buffer := data ++ drop (length data) buffer in
  recv_len ← of_res (SystemCall a 0);
  if mtu <? recv_len then throw runtime_error
  else
    _ ← FileDescriptor.register_read h;
    mret (mkReceived datagram_source_address (FileDescriptor.resize recv_len buffer)).

(** [recv(mtu)]. *)
Definition recv (mtu : Z) (h : FileDescriptor.t) : io world received_datagram :=
  recv_into (mkReceived (Address.mk 0 0) []) mtu h.
Definition default_mtu : Z := 65536.

Definition sendto (destination : Address.t) (payload : BufferViewList.t) (h : FileDescriptor.t)
  : io world unit :=
  fd ← FileDescriptor.fd_num h;
  _ ← Socket.sendmsg_helper fd (Some destination) payload;
  FileDescriptor.register_write h.

Definition send (payload : BufferViewList.t) (h : FileDescriptor.t) : io world unit :=
  fd ← FileDescriptor.fd_num h;
  _ ← Socket.sendmsg_helper fd None payload;
  FileDescriptor.register_write h.

(** A successful [sendto]: the kernel took every byte. *)
Lemma sendto_run dst v h w c a k :
  heap w !! h = Some c ->
  k_sendmsg (FDWrapper._fd (wrapper c)) (Some dst) (BufferViewList.as_iovecs v) (kernel w) = (a, k) ->
  ret a = zlen (concat v) -> zlen (concat v) < two31 ->
  sendto dst v h w =
    Ok (tt, set_cell h (mkCell (FDWrapper.register_write (wrapper c)) (use_count c)) (set_kernel k w)).
Proof.
  intros Hc Hk Hr Hlen. unfold sendto. pose proof (zlen_nonneg (concat v)).
  rewrite (io_bind_run _ _ _ _ _ (FileDescriptor.fd_num_run h w c Hc)).
  rewrite (io_bind_run _ _ _ (set_kernel k w) tt).
  - apply (FileDescriptor.assign_run FDWrapper.register_write h (set_kernel k w) c Hc).
  - unfold Socket.sendmsg_helper. rewrite (io_bind_run _ _ _ (set_kernel k w) a) by (unfold syscall; by rewrite Hk).
    rewrite (io_bind_run _ _ _ (set_kernel k w) (ret a))
      by (unfold of_res; by rewrite FileDescriptor.SystemCall_ok by lia).
    rewrite BufferViewList.view_list_size, Hr, Z.eqb_refl. done.
Qed.

End UDPSocket.
End UDPSocket.

Module TCPSocket.
Section TCPSocket.
Context {K : Type} `{Kernel K}.
#[local] Abbreviation world := (world K).

(** [TCPSocket()]. *)
Definition make : io world FileDescriptor.t := Socket.make AF_INET SOCK_STREAM.

Definition listen (backlog : Z) (h : FileDescriptor.t) : io world unit :=
  fd ← FileDescriptor.fd_num h;
  a ← syscall (k_listen fd backlog);
  _ ← of_res (SystemCall a 0);
  mret tt.

Definition accept (h : FileDescriptor.t) : io world FileDescriptor.t :=
  _ ← FileDescriptor.register_read h;
  fd ← FileDescriptor.fd_num h;
  a ← syscall (k_accept fd);
  fd' ← of_res (SystemCall a 0);
  h' ← FileDescriptor.make fd';
  Socket.of_fd h' AF_INET SOCK_STREAM.

End TCPSocket.
End TCPSocket.

Module LocalStreamSocket.
Section LocalStreamSocket.
Context {K : Type} `{Kernel K}.

(** [LocalStreamSocket(FileDescriptor &&fd)]. *)
Definition of_fd (h : FileDescriptor.t) : io (world K) FileDescriptor.t := Socket.of_fd h AF_UNIX SOCK_STREAM.

End LocalStreamSocket.
End LocalStreamSocket.

Module TunTapFD.
Section TunTapFD.
Context {K : Type} `{Kernel K}.

Definition IFF_TUN : Z := 1.
Definition IFF_TAP : Z := 2.
Definition IFF_NO_PI : Z := 4096.
Definition IFNAMSIZ : nat := 16.

(** [ifr_name]: [strncpy] copies at most [IFNAMSIZ - 1] characters, up to the
    terminator, into a buffer of zeros. *)
Fixpoint until_nul (s : bytes) : bytes :=
  match s with
  | [] => []
  | b :: s' => if b2z b =? 0 then [] else b :: until_nul s'
  end.
Definition ifr_name (devname : bytes) : bytes :=
  let copied := take (IFNAMSIZ - 1) (until_nul devname) in
  copied ++ replicate (IFNAMSIZ - length copied) x00.

Definition make (devname : bytes) (is_tun : bool) : io (world K) FileDescriptor.t :=
  a ← syscall k_open_tun;
  fd ← of_res (SystemCall a 0);
  h ← FileDescriptor.make fd;
  let ifr_flags := Z.lor (if is_tun then IFF_TUN else IFF_TAP) IFF_NO_PI in
  fd ← FileDescriptor.fd_num h;
  a ← syscall (k_tunsetiff fd (ifr_name devname) ifr_flags);
  _ ← of_res (SystemCall a 0);
  mret h.

(** The request names a terminated string that fits its field. *)
Lemma ifr_name_fits devname : length (ifr_name devname) = IFNAMSIZ /\
  ifr_name devname !! (IFNAMSIZ - 1)%nat = Some x00.
Proof.
  unfold ifr_name, IFNAMSIZ. cbv zeta. set (s := until_nul devname). clearbody s.
  rewrite length_app, length_replicate, length_take. split; [lia|].
  rewrite lookup_app_r by (rewrite length_take; lia). rewrite length_take.
  rewrite lookup_replicate. split; [done|lia].
Qed.

End TunTapFD.
End TunTapFD.

(** The outcome of receiving a datagram, and of sending one. *)
Lemma recv_outcome {K} `{Kernel K} (h : FileDescriptor.t) (c : cell) (w : world K) mtu a data src k :
  heap w !! h = Some c -> 0 <= mtu -> k_recvfrom (FDWrapper._fd (wrapper c)) mtu (kernel w) = (a, data, src, k) ->
  -1 <= ret a < two31 -> (ret a = -1 -> errno a <> 0) -> (0 <= ret a <= mtu -> zlen data = ret a) ->
  UDPSocket.recv mtu h w =
    (if ret a =? -1 then Throw (unix_error (errno a))
     else if mtu <? ret a then Throw runtime_error
     else Ok (UDPSocket.mkReceived src data,
            set_cell h (mkCell (FDWrapper.register_read (wrapper c)) (use_count c)) (set_kernel k w))).
Proof.
  intros Hc Hmtu Hk Hr He Hd. unfold UDPSocket.recv, UDPSocket.recv_into.
  rewrite (io_bind_run _ _ _ _ _ (FileDescriptor.fd_num_run h w c Hc)).
  rewrite (io_bind_run _ _ _ (set_kernel k w) (a, data, src)) by (by rewrite Hk).
  destruct (ret a =? -1) eqn:E; zb.
  { unfold mbind, io_bind, of_res. by rewrite FileDescriptor.SystemCall_fails by auto. }
  rewrite (io_bind_run _ _ _ (set_kernel k w) (ret a))
    by (unfold of_res; by rewrite FileDescriptor.SystemCall_ok by lia).
  destruct (mtu <? ret a) eqn:E2; [done|]. zb.
  rewrite (io_bind_run _ _ _ _ _ (FileDescriptor.assign_run FDWrapper.register_read h (set_kernel k w) c Hc)).
  unfold mret, io_ret. do 3 f_equal. specialize (Hd ltac:(lia)). unfold FileDescriptor.resize at 1.
  rewrite <- Hd, Nat2Z.id, take_app_length, length_app.
  replace (length data - _)%nat with 0%nat by lia. apply app_nil_r.
Qed.

Lemma send_outcome {K} `{Kernel K} (h : FileDescriptor.t) (c : cell) (w : world K) destination payload a k :
  heap w !! h = Some c -> zlen (concat payload) < two31 ->
  k_sendmsg (FDWrapper._fd (wrapper c)) destination (BufferViewList.as_iovecs payload) (kernel w) = (a, k) ->
  -1 <= ret a < two31 -> (ret a = -1 -> errno a <> 0) ->
  match destination with
  | Some address => UDPSocket.sendto address payload h w
  | None => UDPSocket.send payload h w
  end =
    (if ret a =? -1 then Throw (unix_error (errno a))
     else if ret a =? zlen (concat payload)
     then Ok (tt, set_cell h (mkCell (FDWrapper.register_write (wrapper c)) (use_count c)) (set_kernel k w))
     else Throw runtime_error).
Proof.
  intros Hc Hsize Hk Hr He.
  assert (Hs : Socket.sendmsg_helper (FDWrapper._fd (wrapper c)) destination payload w =
    if ret a =? -1 then Throw (unix_error (errno a))
    else if ret a =? zlen (concat payload) then Ok (tt, set_kernel k w) else Throw runtime_error).
  { unfold Socket.sendmsg_helper.
    rewrite (io_bind_run _ _ _ (set_kernel k w) a) by (unfold syscall; by rewrite Hk).
    destruct (ret a =? -1) eqn:E; zb.
    { unfold mbind, io_bind, of_res. by rewrite FileDescriptor.SystemCall_fails by auto. }
    rewrite (io_bind_run _ _ _ (set_kernel k w) (ret a))
      by (unfold of_res; by rewrite FileDescriptor.SystemCall_ok by lia).
    rewrite BufferViewList.view_list_size, !u64_small by lia. by destruct (ret a =? _). }
  destruct destination as [address|]; unfold UDPSocket.sendto, UDPSocket.send;
    rewrite (io_bind_run _ _ _ _ _ (FileDescriptor.fd_num_run h w c Hc));
    unfold mbind at 1, io_bind at 1; rewrite Hs;
    (destruct (ret a =? -1); [done|]; destruct (ret a =? _); [|done];
     exact (FileDescriptor.assign_run FDWrapper.register_write h (set_kernel k w) c Hc)).
Qed.

(** A UDP socket moves datagrams whole.  [recv] returns the sender's address and
    exactly the bytes of the datagram when they fit the limit and throws when they
    do not; [sendto] and [send] return only when the kernel took every byte of the
    payload.  On success only the counter of the descriptor changes. *)
Theorem udp_datagrams_whole (K : Type) (HK : Kernel K) (h : FileDescriptor.t) (c : cell) (w : world K)
  (mtu : Z) (destination : option Address.t) (payload : BufferViewList.t)
  (recvfrom_whole : forall fd k a data src k', k_recvfrom fd mtu k = (a, data, src, k') ->
    -1 <= ret a < two31 /\ (ret a = -1 -> errno a <> 0) /\ (0 <= ret a <= mtu -> zlen data = ret a))
  (sendmsg_count : forall k a k', k_sendmsg (FDWrapper._fd (wrapper c)) destination
      (BufferViewList.as_iovecs payload) k = (a, k') ->
    -1 <= ret a < two31 /\ (ret a = -1 -> errno a <> 0))
  (Hc : heap w !! h = Some c) (Hmtu : 0 <= mtu) (Hsize : zlen (concat payload) < two31) :
  let '(a, data, src, k) := k_recvfrom (FDWrapper._fd (wrapper c)) mtu (kernel w) in
  UDPSocket.recv mtu h w =
    (if ret a =? -1 then Throw (unix_error (errno a))
     else if mtu <? ret a then Throw runtime_error
     else Ok (UDPSocket.mkReceived src data,
            set_cell h (mkCell (FDWrapper.register_read (wrapper c)) (use_count c)) (set_kernel k w))) /\
  let '(a, k) := k_sendmsg (FDWrapper._fd (wrapper c)) destination (BufferViewList.as_iovecs payload) (kernel w) in
  match destination with
  | Some address => UDPSocket.sendto address payload h w
  | None => UDPSocket.send payload h w
  end =
    (if ret a =? -1 then Throw (unix_error (errno a))
     else if ret a =? zlen (concat payload)
     then Ok (tt, set_cell h (mkCell (FDWrapper.register_write (wrapper c)) (use_count c)) (set_kernel k w))
     else Throw runtime_error).
Proof.
  destruct (k_recvfrom _ mtu (kernel w)) as [[[a data] src] k] eqn:Hk.
  destruct (recvfrom_whole _ _ _ _ _ _ Hk) as (Hr & He & Hd). split; [by eapply recv_outcome|].
  destruct (k_sendmsg _ _ _ (kernel w)) as [a2 k2] eqn:Hk2.
  destruct (sendmsg_count _ _ _ Hk2) as (Hr2 & He2). by eapply send_outcome.
Qed.

Lemma udp_datagrams_whole_witness :
  exists w', UDPSocket.recv 10 0%nat
      (mkWorld (Scripted.mk 2 [] [] [([x61; x62], Address.mk 7 80)] [] 0)
         {[ 0%nat := mkCell (FDWrapper.mk 9 false false 0 0) 1 ]} 1)
    = Ok (UDPSocket.mkReceived (Address.mk 7 80) [x61; x62], w').
Proof.
  destruct (udp_datagrams_whole Scripted.t Scripted.kernel 0%nat (mkCell (FDWrapper.mk 9 false false 0 0) 1)
    (mkWorld (Scripted.mk 2 [] [] [([x61; x62], Address.mk 7 80)] [] 0)
       {[ 0%nat := mkCell (FDWrapper.mk 9 false false 0 0) 1 ]} 1) 10 None []) as [H _].
  - intros *. apply Scripted.scripted_recvfrom.
  - intros *. apply Scripted.scripted_sendmsg.
  - reflexivity.
  - lia.
  - cbn. lia.
  - eexists. rewrite H. reflexivity.
Defined.
