(* ===== verification/Adapter.v ===== *)
(** * Adapters between TCP and the layer below (tcp_helpers/fd_adapter,
    tcp_over_ip, tuntap_adapter, lossy_fd_adapter)

    An adapter turns the TCP segments of one connection into datagrams of the layer
    below and back: in UDP payloads, in IPv4 datagrams over a TUN device, or in
    Ethernet frames over a TAP device.  The devices are outside the program: what a
    device delivers is an argument of [read], what is written to it is appended to a
    list in the adapter's state.  [FdAdapter] is the interface that [LossyFdAdapter]
    is a template over. *)

From S2P Require Import Prelude Wrapping Buffers Parsing Checksum TcpWire Ipv4Wire EthernetWire NetworkInterface Addresses FileDescriptor Sockets.
From Stdlib Require Import Strings.Byte.
From Stdlib Require Strings.String.

(** [class FdAdapterConfig]. *)
Record FdAdapterConfig : Type := mkConfig {
  source : Address.t;
  destination : Address.t;
  loss_rate_dn : Z;
  loss_rate_up : Z
}.

Module FdAdapterBase.

(** [class FdAdapterBase]: the private members. *)
Record t : Type := mk { _cfg : FdAdapterConfig; _listen : bool }.

Definition set_listening (l : bool) (b : t) : t := mk (_cfg b) l.
Definition listening (b : t) : bool := _listen b.
Definition config (b : t) : FdAdapterConfig := _cfg b.
(** An assignment to [config_mut()]. *)
Definition set_config (cfg : FdAdapterConfig) (b : t) : t := mk cfg (_listen b).
Definition set_source (a : Address.t) (b : t) : t :=
  mk (mkConfig a (destination (_cfg b)) (loss_rate_dn (_cfg b)) (loss_rate_up (_cfg b))) (_listen b).
Definition set_destination (a : Address.t) (b : t) : t :=
  mk (mkConfig (source (_cfg b)) a (loss_rate_dn (_cfg b)) (loss_rate_up (_cfg b))) (_listen b).
Definition tick (_ : Z) (b : t) : t := b.

End FdAdapterBase.

(** [seg.header().sport = ...; seg.header().dport = ...]. *)
Definition set_ports (sport dport : Z) (seg : TCPSegment.t) : TCPSegment.t :=
  let h := TCPSegment.header seg in
  TCPSegment.mk
    (TCPHeader.mk sport dport (TCPHeader.seqno h) (TCPHeader.ackno h) (TCPHeader.doff h)
       (TCPHeader.urg h) (TCPHeader.ack h) (TCPHeader.psh h) (TCPHeader.rst h) (TCPHeader.syn h)
       (TCPHeader.fin h) (TCPHeader.win h) (TCPHeader.cksum h) (TCPHeader.uptr h))
    (TCPSegment.payload seg).

Definition opens_connection (seg : TCPSegment.t) : bool :=
  TCPHeader.syn (TCPSegment.header seg) && negb (TCPHeader.rst (TCPSegment.header seg)).

Module TCPOverIPv4Adapter.
Section TCPOverIPv4Adapter.
Context `{Address.Netdb}.

Definition unwrap_tcp_in_ip (ip_dgram : IPv4Datagram.t) (b : FdAdapterBase.t)
  : res (option TCPSegment.t * FdAdapterBase.t) :=
  let h := IPv4Datagram.header ip_dgram in
  let cfg := FdAdapterBase.config b in
  if negb (FdAdapterBase.listening b) &&
     negb (IPv4Header.dst h =? Address.ipv4_numeric (source cfg)) then Ok (None, b)
  else if negb (FdAdapterBase.listening b) &&
          negb (IPv4Header.src h =? Address.ipv4_numeric (destination cfg)) then Ok (None, b)
  else if negb (IPv4Header.proto h =? IPv4Header.PROTO_TCP) then Ok (None, b)
  else
    payload ← BufferList.to_buffer (IPv4Datagram.payload ip_dgram);
    '(r, tcp_seg) ← TCPSegment.parse payload (IPv4Header.pseudo_cksum h) TCPSegment.default;
    if negb (is_NoError r) then Ok (None, b)
    else if negb (TCPHeader.dport (TCPSegment.header tcp_seg) =? Address.port (source cfg))
    then Ok (None, b)
    else
      b' ← (if FdAdapterBase.listening b then
              if opens_connection tcp_seg then
                src ← Address.of_string (Address.inet_ntoa (IPv4Header.dst h)) (Address.port (source cfg));
                let b := FdAdapterBase.set_source src b in
                dst ← Address.of_string (Address.inet_ntoa (IPv4Header.src h))
                        (TCPHeader.sport (TCPSegment.header tcp_seg));
                let b := FdAdapterBase.set_destination dst b in
                Ok (Some (FdAdapterBase.set_listening false b))
              else Ok None
            else Ok (Some b));
      match b' with
      | None => Ok (None, b)
      | Some b =>
          if negb (TCPHeader.sport (TCPSegment.header tcp_seg) =?
                   Address.port (destination (FdAdapterBase.config b)))
          then Ok (None, b)
          else Ok (Some tcp_seg, b)
      end.

(** The segment is the caller's, whose ports are set, so it is returned too. *)
Definition wrap_tcp_in_ip (seg : TCPSegment.t) (b : FdAdapterBase.t)
  : res (TCPSegment.t * IPv4Datagram.t) :=
  let cfg := FdAdapterBase.config b in
  let seg := set_ports (Address.port (source cfg)) (Address.port (destination cfg)) seg in
  let h := IPv4Header.default in
  let len := u16 (IPv4Header.hlen h * 4 + TCPHeader.doff (TCPSegment.header seg) * 4 +
                  Buffer.size (TCPSegment.payload seg)) in
  let h := IPv4Header.mk (IPv4Header.ver h) (IPv4Header.hlen h) (IPv4Header.tos h) len (IPv4Header.id h)
             (IPv4Header.df h) (IPv4Header.mf h) (IPv4Header.offset h) (IPv4Header.ttl h)
             (IPv4Header.proto h) (IPv4Header.cksum h)
             (Address.ipv4_numeric (source cfg)) (Address.ipv4_numeric (destination cfg)) in
  payload ← TCPSegment.serialize (IPv4Header.pseudo_cksum h) seg;
  Ok (seg, IPv4Datagram.mk h payload).

(** ** What may be sent *)

Record base_wf (b : FdAdapterBase.t) : Prop := {
  wf_source : Address.wf (source (FdAdapterBase.config b));
  wf_destination : Address.wf (destination (FdAdapterBase.config b))
}.

(** A segment that fits an IPv4 datagram. *)
Record sendable (seg : TCPSegment.t) : Prop := {
  sendable_header : TCPHeader.wf (TCPSegment.header seg);
  sendable_payload : Buffer.wf (TCPSegment.payload seg);
  sendable_size : 20 + 4 * TCPHeader.doff (TCPSegment.header seg) +
    zlen (Buffer.str (TCPSegment.payload seg)) < two16
}.

(** The segment with the ports of the connection. *)
Definition addressed (b : FdAdapterBase.t) (seg : TCPSegment.t) : TCPSegment.t :=
  set_ports (Address.port (source (FdAdapterBase.config b)))
    (Address.port (destination (FdAdapterBase.config b))) seg.

Lemma pseudo_cksum_range h : 0 <= IPv4Header.src h < two32 -> 0 <= IPv4Header.dst h < two32 ->
  0 <= IPv4Header.proto h < two8 -> 0 <= IPv4Header.pseudo_cksum h < 400000.
Proof.
  intros Hs Hd Hp. unfold IPv4Header.pseudo_cksum.
  assert (Hfold : forall x, 0 <= x < two32 -> 0 <= Z.shiftr x 16 + Z.land x 65535 <= 131070).
  { intros x Hx. rewrite Z.shiftr_div_pow2 by lia. change 65535 with (Z.ones 16).
    rewrite Z.land_ones by lia. change (2 ^ 16) with two16.
    pose proof (Z.mod_pos_bound x two16). assert (0 <= x / two16 < two16) by (split; [apply Z.div_pos; lia|apply Z.div_lt_upper_bound; lia]).
    lia. }
  pose proof (Hfold _ Hs). pose proof (Hfold _ Hd).
  assert (0 <= IPv4Header.payload_length h < two16) by apply u16_range.
  rewrite (u32_small (Z.shiftr (IPv4Header.src h) 16 + _)), (u32_small (Z.shiftr (IPv4Header.dst h) 16 + _)) by lia.
  rewrite (u32_small (_ + (Z.shiftr (IPv4Header.dst h) 16 + _))) by lia.
  rewrite (u32_small (_ + IPv4Header.proto h)), u32_small by lia. lia.
Qed.

(** [wrap_tcp_in_ip] succeeds; the datagram can be sent, and its payload is the
    segment serialised with the pseudo-checksum of the datagram's header. *)
Lemma wrap_spec seg b : base_wf b -> sendable seg ->
  exists d, wrap_tcp_in_ip seg b = Ok (addressed b seg, d) /\ IPv4Datagram.wf d /\
    IPv4Header.src (IPv4Datagram.header d) = Address.ipv4_numeric (source (FdAdapterBase.config b)) /\
    IPv4Header.dst (IPv4Datagram.header d) = Address.ipv4_numeric (destination (FdAdapterBase.config b)) /\
    IPv4Header.proto (IPv4Datagram.header d) = IPv4Header.PROTO_TCP /\
    let ps := IPv4Header.pseudo_cksum (IPv4Datagram.header d) in
    TCPSegment.wf ps (addressed b seg) /\
    TCPSegment.serialize ps (addressed b seg) = Ok (IPv4Datagram.payload d).
Proof.
  intros [[Hs1 Hs2] [Hd1 Hd2]] [Hh Hp Hsz]. unfold wrap_tcp_in_ip. fold (addressed b seg).
  set (cfg := FdAdapterBase.config b) in *. set (h := IPv4Header.mk _ _ _ _ _ _ _ _ _ _ _ _ _).
  pose proof Hh as []. pose proof (zlen_nonneg (Buffer.str (TCPSegment.payload seg))).
  assert (Hlen : IPv4Header.len h = 20 + 4 * TCPHeader.doff (TCPSegment.header seg) +
    zlen (Buffer.str (TCPSegment.payload seg))).
  { unfold h. cbn [IPv4Header.len IPv4Header.hlen IPv4Header.default]. rewrite Buffer.size_str by done.
    change (IPv4Header.LENGTH / 4) with 5. cbn [addressed set_ports TCPSegment.header TCPHeader.doff TCPSegment.payload].
    rewrite u16_small by lia. lia. }
  assert (Hps : 0 <= IPv4Header.pseudo_cksum h < 400000)
    by (apply pseudo_cksum_range; [exact Hs1|exact Hd1|cbn; unfold IPv4Header.PROTO_TCP; lia]).
  assert (Hw : TCPSegment.wf (IPv4Header.pseudo_cksum h) (addressed b seg)).
  { split; [by split|done|lia|]. cbn [addressed set_ports TCPSegment.header TCPHeader.doff TCPSegment.payload]. lia. }
  destruct (TCPSegment.segment_serialize_spec _ _ Hw) as (c & bl & E & Hc & Ho & Hh' & Hbl & (bs & Ebs & Hf) & _).
  rewrite E. cbn [mbind res_bind]. eexists. split; [done|]. split.
  - split; cbn [IPv4Datagram.header IPv4Datagram.payload].
    + split; unfold h; cbn; try done; unfold IPv4Header.DEFAULT_TTL, IPv4Header.PROTO_TCP; try lia.
      apply u16_range.
    + done.
    + rewrite Hlen, Hf, length_app. rewrite TCPHeader.tcp_header_serialize_layout in Ebs by (cbn; lia).
      apply Ok_inj in Ebs. rewrite <- Ebs. rewrite !length_app, TCPHeader.tcp_header_length_front, NetUnparser.length_be.
      unfold TCPHeader.back. rewrite length_app, NetUnparser.length_be, length_replicate. cbn [TCPHeader.doff TCPHeader.set_cksum addressed set_ports TCPSegment.header TCPSegment.payload IPv4Header.hlen IPv4Header.default h]. change (IPv4Header.LENGTH / 4) with 5. lia.
  - done.
Qed.

(** How [unwrap_tcp_in_ip] decides, given the segment it parsed. *)
Lemma unwrap_parsed d b buf seg :
  BufferList.to_buffer (IPv4Datagram.payload d) = Ok buf ->
  TCPSegment.parse buf (IPv4Header.pseudo_cksum (IPv4Datagram.header d)) TCPSegment.default
    = Ok (NoError, seg) ->
  0 <= IPv4Header.src (IPv4Datagram.header d) < two32 -> 0 <= IPv4Header.dst (IPv4Datagram.header d) < two32 ->
  0 <= Address.port (source (FdAdapterBase.config b)) < two16 ->
  IPv4Header.proto (IPv4Datagram.header d) = IPv4Header.PROTO_TCP ->
  TCPHeader.dport (TCPSegment.header seg) = Address.port (source (FdAdapterBase.config b)) ->
  let peer := Address.mk (IPv4Header.src (IPv4Datagram.header d)) (TCPHeader.sport (TCPSegment.header seg)) in
  if FdAdapterBase.listening b then
    unwrap_tcp_in_ip d b =
      if opens_connection seg then
        Ok (Some seg, FdAdapterBase.mk
          (mkConfig (Address.mk (IPv4Header.dst (IPv4Datagram.header d))
                       (Address.port (source (FdAdapterBase.config b)))) peer
             (loss_rate_dn (FdAdapterBase.config b)) (loss_rate_up (FdAdapterBase.config b))) false)
      else Ok (None, b)
  else
    unwrap_tcp_in_ip d b =
      if (IPv4Header.dst (IPv4Datagram.header d) =? Address.ipv4_numeric (source (FdAdapterBase.config b))) &&
         bool_decide (peer = destination (FdAdapterBase.config b))
      then Ok (Some seg, b) else Ok (None, b).
Proof.
  intros Hpay Hp Hs Hd Hport Hproto Hdp peer. pose proof (TCPSegment.parse_sport _ _ _ _ Hp) as Hsp.
  unfold unwrap_tcp_in_ip. rewrite Hproto, Z.eqb_refl, Hpay. cbn [negb mbind res_bind].
  rewrite Hp. cbn [mbind res_bind is_NoError negb]. rewrite Hdp, Z.eqb_refl. cbn [negb].
  destruct (FdAdapterBase.listening b) eqn:El; cbn [negb andb].
  - destruct (opens_connection seg); [|done]. unfold Address.of_string.
    rewrite Address.numeric_host by done. cbn [mbind res_bind].
    rewrite Address.numeric_host by done. cbn [mbind res_bind]. cbn.
    by rewrite Z.eqb_refl.
  - destruct (IPv4Header.dst _ =? _) eqn:E1; cbn [negb andb]; [|done].
    destruct (destination (FdAdapterBase.config b)) as [dip dport] eqn:Ed. cbn [Address.ipv4_numeric].
    unfold peer. destruct (IPv4Header.src _ =? dip) eqn:E2; cbn [negb]; zb.
    + cbn [mbind res_bind]. rewrite Ed. cbn [Address.port].
      destruct (_ =? dport) eqn:E3; cbn [negb]; zb.
      * rewrite bool_decide_eq_true_2 by (by subst). done.
      * rewrite bool_decide_eq_false_2 by congruence. done.
    + rewrite bool_decide_eq_false_2 by congruence. done.
Qed.

(** Anything else is refused, and the adapter stays as it was. *)
Lemma unwrap_refused d b buf : BufferList.to_buffer (IPv4Datagram.payload d) = Ok buf -> Buffer.wf buf ->
  let reaches seg :=
    TCPSegment.parse buf (IPv4Header.pseudo_cksum (IPv4Datagram.header d)) TCPSegment.default
      = Ok (NoError, seg) /\
    IPv4Header.proto (IPv4Datagram.header d) = IPv4Header.PROTO_TCP /\
    TCPHeader.dport (TCPSegment.header seg) = Address.port (source (FdAdapterBase.config b)) in
  unwrap_tcp_in_ip d b = Ok (None, b) \/ exists seg, reaches seg.
Proof.
  intros Hpay Hb. unfold unwrap_tcp_in_ip.
  destruct (_ && negb (IPv4Header.dst _ =? _)); [by left|].
  destruct (_ && negb (IPv4Header.src _ =? _)); [by left|].
  destruct (negb (IPv4Header.proto _ =? _)) eqn:Ep; [by left|]. rewrite Hpay. cbn.
  destruct (TCPSegment.segment_parse_safe buf (IPv4Header.pseudo_cksum (IPv4Datagram.header d)) TCPSegment.default Hb)
    as (r & seg & E & _). rewrite E. cbn.
  destruct r; cbn [is_NoError negb]; try (by left).
  destruct (negb (TCPHeader.dport _ =? _)) eqn:Ed; [by left|].
  right. exists seg. apply negb_false_iff in Ep, Ed. zb. done.
Qed.

(** The datagram passes the first three tests: it is TCP, from the peer and to this host. *)
Definition related (d : IPv4Datagram.t) (b : FdAdapterBase.t) : Prop :=
  IPv4Header.proto (IPv4Datagram.header d) = IPv4Header.PROTO_TCP /\
  (FdAdapterBase.listening b = false ->
     IPv4Header.dst (IPv4Datagram.header d) = Address.ipv4_numeric (source (FdAdapterBase.config b)) /\
     IPv4Header.src (IPv4Datagram.header d) = Address.ipv4_numeric (destination (FdAdapterBase.config b))).

(** A payload in several buffers cannot be made into one. *)
Lemma unwrap_scattered d b e : BufferList.to_buffer (IPv4Datagram.payload d) = Throw e ->
  unwrap_tcp_in_ip d b = Ok (None, b) \/ unwrap_tcp_in_ip d b = Throw e /\ related d b.
Proof.
  intros He. unfold unwrap_tcp_in_ip, related.
  destruct (_ && negb (IPv4Header.dst _ =? _)) eqn:E1; [by left|].
  destruct (_ && negb (IPv4Header.src _ =? _)) eqn:E2; [by left|].
  destruct (negb (IPv4Header.proto _ =? _)) eqn:E3; [by left|]. rewrite He. right. split; [done|].
  apply negb_false_iff, Z.eqb_eq in E3. split; [done|]. intros Hl. rewrite Hl in E1, E2. cbn in E1, E2.
  apply negb_false_iff, Z.eqb_eq in E1, E2. done.
Qed.

Lemma to_buffer_cases bl : BufferList.wf bl ->
  match BufferList.to_buffer bl with
  | Ok buf => Buffer.wf buf /\ Buffer.str buf = BufferList.flat bl
  | Throw e => e = runtime_error /\ (1 < length bl)%nat
  end.
Proof.
  intros Hw. destruct bl as [|buf [|buf2 bl]]; cbn.
  - done.
  - apply Forall_cons in Hw as [Hb _]. by rewrite app_nil_r.
  - split; [done|lia].
Qed.

(** C33: an adapter accepts exactly the segments of its connection.  [unwrap_tcp_in_ip]
    throws only on a payload in several buffers, of a TCP datagram that is otherwise
    addressed to it ([wrap_tcp_in_ip] makes such payloads, the parser of datagrams does
    not).  On any other datagram it returns: it yields a segment exactly if the datagram
    carries TCP with a checksum that verifies over the pseudo-header and either has the
    addresses and ports of the connection or, when the adapter is listening, is a SYN
    (without RST) to its port; it is then no longer
    listening, and its configuration names the addresses and ports of the datagram as
    its own and its peer's.  Otherwise it yields nothing and the adapter stays as it
    was. *)
Theorem unwrap_accepts_only_peer (d : IPv4Datagram.t) (b : FdAdapterBase.t)
  (Hpay : BufferList.wf (IPv4Datagram.payload d))
  (Hsrc : 0 <= IPv4Header.src (IPv4Datagram.header d) < two32)
  (Hdst : 0 <= IPv4Header.dst (IPv4Datagram.header d) < two32)
  (Hport : 0 <= Address.port (source (FdAdapterBase.config b)) < two16) :
  let h := IPv4Datagram.header d in
  let valid seg := exists buf, BufferList.to_buffer (IPv4Datagram.payload d) = Ok buf /\
    TCPSegment.parse buf (IPv4Header.pseudo_cksum h) TCPSegment.default = Ok (NoError, seg) /\
    IPv4Header.proto h = IPv4Header.PROTO_TCP in
  let own seg := Address.mk (IPv4Header.dst h) (TCPHeader.dport (TCPSegment.header seg)) in
  let peer seg := Address.mk (IPv4Header.src h) (TCPHeader.sport (TCPSegment.header seg)) in
  let concerns seg :=
    if FdAdapterBase.listening b
    then opens_connection seg = true /\ TCPHeader.dport (TCPSegment.header seg) = Address.port (source (FdAdapterBase.config b))
    else own seg = source (FdAdapterBase.config b) /\ peer seg = destination (FdAdapterBase.config b) in
  match unwrap_tcp_in_ip d b with
  | Throw e => e = runtime_error /\ (1 < length (IPv4Datagram.payload d))%nat /\ related d b
  | Ok (Some seg, b') => valid seg /\ concerns seg /\ FdAdapterBase.listening b' = false /\
      source (FdAdapterBase.config b') = own seg /\ destination (FdAdapterBase.config b') = peer seg /\
      loss_rate_dn (FdAdapterBase.config b') = loss_rate_dn (FdAdapterBase.config b) /\
      loss_rate_up (FdAdapterBase.config b') = loss_rate_up (FdAdapterBase.config b)
  | Ok (None, b') => b' = b /\ forall seg, valid seg -> ~ concerns seg
  end.
Proof.
  cbv zeta. pose proof (to_buffer_cases _ Hpay) as Hcases. destruct (BufferList.to_buffer _) as [buf|e] eqn:Ebuf.
  2: { destruct Hcases as [-> Hlen]. destruct (unwrap_scattered d b _ Ebuf) as [-> | [-> Hrel]]; [|done].
       split; [done|]. by intros seg (buf & ? & _). }
  destruct Hcases as [Hbuf Hstr].
  pose proof (unwrap_parsed d b buf) as Hdec.
  assert (Hnone : forall seg buf', Ok buf = Ok buf' ->
    TCPSegment.parse buf' (IPv4Header.pseudo_cksum (IPv4Datagram.header d)) TCPSegment.default = Ok (NoError, seg) ->
    TCPSegment.parse buf (IPv4Header.pseudo_cksum (IPv4Datagram.header d)) TCPSegment.default = Ok (NoError, seg))
    by (by intros seg buf' [= <-]).
  destruct (unwrap_refused d b buf Ebuf Hbuf) as [E|(seg & Hp & Hproto & Hdp)].
  - rewrite E. split; [done|]. intros seg (buf' & Hb' & Hp' & Hproto') Hc.
    specialize (Hdec seg Ebuf (Hnone _ _ Hb' Hp') Hsrc Hdst Hport Hproto'). rewrite E in Hdec.
    destruct (FdAdapterBase.listening b).
    + destruct Hc as [Ho Hdp]. by rewrite Ho in Hdec; specialize (Hdec Hdp).
    + destruct Hc as [Hown Hpeer]. rewrite <- Hown in Hdec. cbn [Address.port Address.ipv4_numeric] in Hdec.
      rewrite Z.eqb_refl, bool_decide_eq_true_2 in Hdec by done. by specialize (Hdec eq_refl).
  - specialize (Hdec seg Ebuf Hp Hsrc Hdst Hport Hproto Hdp).
    assert (Hval : exists buf0, Ok buf = Ok buf0 /\ TCPSegment.parse buf0 (IPv4Header.pseudo_cksum
      (IPv4Datagram.header d)) TCPSegment.default = Ok (NoError, seg) /\
      IPv4Header.proto (IPv4Datagram.header d) = IPv4Header.PROTO_TCP) by eauto.
    assert (Huniq : forall seg' buf', Ok buf = Ok buf' /\ TCPSegment.parse buf' (IPv4Header.pseudo_cksum
      (IPv4Datagram.header d)) TCPSegment.default = Ok (NoError, seg') /\
      IPv4Header.proto (IPv4Datagram.header d) = IPv4Header.PROTO_TCP -> seg' = seg)
      by (intros seg' buf' ([= <-] & ? & _); congruence).
    destruct (FdAdapterBase.listening b) eqn:El.
    + rewrite Hdec. destruct (opens_connection seg) eqn:Eo.
      * rewrite Hdp. cbn. split_and!; eauto.
      * split; [done|]. intros seg' (buf' & Hv) [Ho _]. rewrite (Huniq _ _ Hv) in Ho. congruence.
    + rewrite Hdec. destruct (_ && _) eqn:Ec.
      * apply andb_true_iff in Ec as [E1 E2%bool_decide_eq_true]. zb. rewrite Hdp, E1, E2.
        destruct (source (FdAdapterBase.config b)). split_and!; eauto.
      * split; [done|]. intros seg' (buf' & Hv) [Hown Hpeer]. rewrite (Huniq _ _ Hv) in Hown, Hpeer.
        rewrite <- Hown, Hpeer, Z.eqb_refl, bool_decide_eq_true_2 in Ec by done. done.
Qed.
End TCPOverIPv4Adapter.

(** 10.0.0.1:4660 talking to 192.168.0.9:80, and an adapter that listens on port 80. *)
Definition demo_client : FdAdapterBase.t :=
  FdAdapterBase.mk (mkConfig (Address.mk 167772161 4660) (Address.mk 3232235529 80) 0 0) false.
Definition demo_server : FdAdapterBase.t :=
  FdAdapterBase.mk (mkConfig (Address.mk 0 80) (Address.mk 0 0) 0 0) true.

Lemma demo_client_wf : base_wf demo_client.
Proof. split; split; cbn; lia. Qed.
Lemma demo_sendable : sendable TCPSegment.example.
Proof. split; [split; (split; vm_compute; congruence)|apply Buffer.buffer_of_string_wf; cbn; lia|reflexivity]. Qed.

(** The client's segment (a SYN) as the server's device delivers it. *)
Definition demo_datagram : IPv4Datagram.t :=
  match wrap_tcp_in_ip TCPSegment.example demo_client with
  | Ok (_, d) => IPv4Datagram.mk (IPv4Datagram.header d)
      (BufferList.of_buffer (Buffer.of_string (BufferList.concatenate (IPv4Datagram.payload d))))
  | Throw _ => IPv4Datagram.default
  end.

Lemma unwrap_accepts_only_peer_witness :
  exists seg b', unwrap_tcp_in_ip (H := DottedQuad.netdb) demo_datagram demo_server = Ok (Some seg, b') /\
    FdAdapterBase.listening b' = false /\
    destination (FdAdapterBase.config b') = Address.mk 167772161 (TCPHeader.sport (TCPSegment.header seg)).
Proof.
  pose proof (unwrap_accepts_only_peer (H := DottedQuad.netdb) demo_datagram demo_server) as Hr.
  cbv zeta in Hr.
  destruct (unwrap_tcp_in_ip (H := DottedQuad.netdb) demo_datagram demo_server) as [[[seg|] b']|] eqn:E.
  - exists seg, b'. split; [done|].
    destruct Hr as (_ & _ & Hl & _ & Hd & _).
    + apply Forall_cons. split; [|apply Forall_nil; done]. apply Buffer.buffer_of_string_wf. vm_compute. reflexivity.
    + split; [vm_compute; congruence|vm_compute; reflexivity].
    + split; [vm_compute; congruence|vm_compute; reflexivity].
    + split; [vm_compute; congruence|vm_compute; reflexivity].
    + split; [exact Hl|]. rewrite Hd. reflexivity.
  - exfalso. clear Hr. vm_compute in E. congruence.
  - exfalso. clear Hr. vm_compute in E. congruence.
Defined.

End TCPOverIPv4Adapter.

(** A segment of the connection reaches an adapter whose configuration mirrors the
    sender's, or one that is listening on the port, if it opens a connection. *)
Definition hears (peer b : FdAdapterBase.t) (seg : TCPSegment.t) : Prop :=
  if FdAdapterBase.listening peer then
    Address.port (source (FdAdapterBase.config peer)) = Address.port (destination (FdAdapterBase.config b)) /\
    opens_connection seg = true
  else
    source (FdAdapterBase.config peer) = destination (FdAdapterBase.config b) /\
    destination (FdAdapterBase.config peer) = source (FdAdapterBase.config b).


(** The interface of an adapter: [Device] is what the layer below delivers.  [read]
    and [write] do not change the loss rates of the configuration. *)
Class FdAdapter (A Device : Type) : Type := {
  adapter_read : Device -> A -> res (option TCPSegment.t * A);
  adapter_write : TCPSegment.t -> A -> res (TCPSegment.t * A);
  adapter_config : A -> FdAdapterConfig;
  adapter_set_config : FdAdapterConfig -> A -> A;
  adapter_set_listening : bool -> A -> A;
  adapter_tick : Z -> A -> res A;
  adapter_read_rates : forall dev a r a', adapter_read dev a = Ok (r, a') ->
    loss_rate_dn (adapter_config a') = loss_rate_dn (adapter_config a) /\
    loss_rate_up (adapter_config a') = loss_rate_up (adapter_config a);
  adapter_write_rates : forall seg a seg' a', adapter_write seg a = Ok (seg', a') ->
    loss_rate_dn (adapter_config a') = loss_rate_dn (adapter_config a) /\
    loss_rate_up (adapter_config a') = loss_rate_up (adapter_config a);
  adapter_tick_rates : forall ms a a', adapter_tick ms a = Ok a' ->
    loss_rate_dn (adapter_config a') = loss_rate_dn (adapter_config a) /\
    loss_rate_up (adapter_config a') = loss_rate_up (adapter_config a)
}.

Module TCPOverUDPSocketAdapter.

(** [class TCPOverUDPSocketAdapter], with the datagrams sent through [_sock]. *)
Record t : Type := mk { base : FdAdapterBase.t; _sock : list (Address.t * BufferList.t) }.

Definition read (datagram : UDPSocket.received_datagram) (a : t) : res (option TCPSegment.t * t) :=
  let b := base a in
  if negb (FdAdapterBase.listening b) &&
     negb (Address.eqb (UDPSocket.source_address datagram) (destination (FdAdapterBase.config b)))
  then Ok (None, a)
  else
    '(r, seg) ← TCPSegment.parse (Buffer.of_string (UDPSocket.payload datagram)) 0 TCPSegment.default;
    if negb (is_NoError r) then Ok (None, a)
    else if FdAdapterBase.listening b then
      if opens_connection seg then
        let b := FdAdapterBase.set_destination (UDPSocket.source_address datagram) b in
        Ok (Some seg, mk (FdAdapterBase.set_listening false b) (_sock a))
      else Ok (None, a)
    else Ok (Some seg, a).

Definition write (seg : TCPSegment.t) (a : t) : res (TCPSegment.t * t) :=
  let cfg := FdAdapterBase.config (base a) in
  let seg := set_ports (Address.port (source cfg)) (Address.port (destination cfg)) seg in
  bl ← TCPSegment.serialize 0 seg;
  Ok (seg, mk (base a) (_sock a ++ [(destination cfg, bl)])).

End TCPOverUDPSocketAdapter.

Module TCPOverIPv4OverTunFdAdapter.
Section TCPOverIPv4OverTunFdAdapter.
Context `{Address.Netdb}.

(** [class TCPOverIPv4OverTunFdAdapter], with the datagrams written to [_tun]. *)
Record t : Type := mk { base : FdAdapterBase.t; _tun : list BufferList.t }.

Definition read (dev : bytes) (a : t) : res (option TCPSegment.t * t) :=
  '(r, ip_dgram) ← IPv4Datagram.parse (Buffer.of_string dev) IPv4Datagram.default;
  if negb (is_NoError r) then Ok (None, a)
  else
    '(seg, b) ← TCPOverIPv4Adapter.unwrap_tcp_in_ip ip_dgram (base a);
    Ok (seg, mk b (_tun a)).

Definition write (seg : TCPSegment.t) (a : t) : res (TCPSegment.t * t) :=
  '(seg, d) ← TCPOverIPv4Adapter.wrap_tcp_in_ip seg (base a);
  bl ← IPv4Datagram.serialize d;
  Ok (seg, mk (base a) (_tun a ++ [bl])).

(** C26: segments cross a TUN device.  What one adapter writes for a segment, the
    adapter of the peer reads back as the same segment: same payload, same header
    with the ports of the connection and the checksum filled in.  A listening peer
    is bound to the sender by it: afterwards its configuration mirrors the sender's. *)
Theorem tun_roundtrip (seg : TCPSegment.t) (a peer : t)
  (Ha : TCPOverIPv4Adapter.base_wf (base a)) (Hseg : TCPOverIPv4Adapter.sendable seg)
  (Hpeer : hears (base peer) (base a) seg) :
  exists bl a' seg' c peer',
    write seg a = Ok (TCPOverIPv4Adapter.addressed (base a) seg, a') /\
    _tun a' = _tun a ++ [bl] /\
    read (BufferList.concatenate bl) peer = Ok (Some seg', peer') /\
    TCPSegment.header seg' =
      TCPHeader.set_cksum c (TCPSegment.header (TCPOverIPv4Adapter.addressed (base a) seg)) /\
    Buffer.str (TCPSegment.payload seg') = Buffer.str (TCPSegment.payload seg) /\
    source (FdAdapterBase.config (base peer')) = destination (FdAdapterBase.config (base a)) /\
    destination (FdAdapterBase.config (base peer')) = source (FdAdapterBase.config (base a)) /\
    FdAdapterBase.listening (base peer') = false.
Proof.
  destruct (TCPOverIPv4Adapter.wrap_spec seg (base a) Ha Hseg) as (d & Ew & Hd & Hs & Hdst & Hproto & Hw & Eser).
  destruct (IPv4Datagram.datagram_serialize_spec d Hd) as (c & bl & Es & _ & Hh & Hv & Hbl & Hf).
  set (h := IPv4Header.set_cksum c (IPv4Datagram.header d)) in *.
  set (cfg := FdAdapterBase.config (base a)) in *.
  assert (Hlen : zlen (BufferList.flat bl) < two64).
  { destruct Hd as [Hd1 Hd2 Hd3]. destruct Hd1. destruct Hh.
    rewrite Hf, length_app, Nat2Z.inj_add, IPv4Header.ipv4_header_length_encode by lia.
    change (IPv4Header.hlen h) with (IPv4Header.hlen (IPv4Datagram.header d)). lia. }
  assert (Hb : Buffer.wf (Buffer.of_string (BufferList.concatenate bl)))
    by (apply Buffer.buffer_of_string_wf; by rewrite BufferList.concatenate_flat).
  destruct (IPv4Datagram.datagram_parse_encoded h (BufferList.flat (IPv4Datagram.payload d))
    (Buffer.of_string (BufferList.concatenate bl)) IPv4Datagram.default) as (d' & Ep & Hd' & Hwp & Hfl).
  { done. } { by destruct Hd. } { done. } { by rewrite Buffer.str_of_string, BufferList.concatenate_flat. }
  destruct (IPv4Datagram.parse_shape _ _ _ Hb Ep) as [(buf & Hbuf & Hwb) [Hr1 Hr2]].
  rewrite Hbuf in Hfl. cbn in Hfl. rewrite app_nil_r in Hfl.
  destruct (TCPSegment.segment_parse_serialized _ _ TCPSegment.default buf Hw Hwb) as (c' & seg' & _ & Eseg & Hsh & Hsp).
  { rewrite Eser. cbn. by rewrite BufferList.concatenate_flat, Hfl. }
  unfold write. rewrite Ew. cbn [mbind res_bind]. rewrite Es. cbn [mbind res_bind].
  assert (Hport : Address.port (source (FdAdapterBase.config (base peer))) = Address.port (destination cfg)).
  { unfold hears in Hpeer. destruct (FdAdapterBase.listening (base peer)); destruct Hpeer as [Hp _]; [done|by rewrite Hp]. }
  pose proof (TCPOverIPv4Adapter.unwrap_parsed d' (base peer) buf seg' ltac:(by rewrite Hbuf)) as Hu.
  rewrite Hd' in Hu. specialize (Hu Eseg). cbv zeta in Hu.
  assert (Hopen : opens_connection seg' = opens_connection seg) by (unfold opens_connection; by rewrite Hsh).
  exists bl. unfold read. rewrite Ep. cbn [mbind res_bind is_NoError negb]. rewrite Hopen, Hport in Hu.
  assert (Hsport : TCPHeader.sport (TCPSegment.header seg') = Address.port (source cfg)) by (by rewrite Hsh).
  rewrite Hsport in Hu. subst h. cbn [IPv4Header.set_cksum IPv4Header.src IPv4Header.dst IPv4Header.proto] in Hu.
  rewrite Hs, Hdst in Hu. fold cfg in Hu. destruct Ha as [[? ?] [? ?]].
  unfold hears in Hpeer. destruct (FdAdapterBase.listening (base peer)) eqn:El.
  - destruct Hpeer as [_ Ho]. rewrite Ho in Hu. rewrite Hu; [|done..|by rewrite Hsh].
    eexists _, seg', c', _. split; [done|]. split; [done|]. split; [done|]. split_and!; try done; [by destruct (destination cfg)|by destruct (source cfg)].
  - destruct Hpeer as [Hp1 Hp2]. fold cfg in Hp1, Hp2. rewrite Hp1, Hp2, Z.eqb_refl in Hu.
    rewrite bool_decide_eq_true_2 in Hu by (by destruct (source cfg)). cbn [andb] in Hu.
    rewrite Hu; [|done..|by rewrite Hsh].
    eexists _, seg', c', _. split; [done|]. split; [done|]. split; [done|]. split_and!; try done.
Qed.

End TCPOverIPv4OverTunFdAdapter.

Lemma tun_roundtrip_witness :
  exists bl seg' peer',
    read (H := DottedQuad.netdb) (BufferList.concatenate bl) (mk TCPOverIPv4Adapter.demo_server [])
      = Ok (Some seg', peer') /\
    Buffer.str (TCPSegment.payload seg') = [x68; x69; x21] /\
    destination (FdAdapterBase.config (base peer')) = Address.mk 167772161 4660.
Proof.
  destruct (tun_roundtrip (H := DottedQuad.netdb) TCPSegment.example
    (mk TCPOverIPv4Adapter.demo_client []) (mk TCPOverIPv4Adapter.demo_server []))
    as (bl & a' & seg' & c & peer' & _ & _ & E & _ & Hp & _ & Hd & _).
  - exact TCPOverIPv4Adapter.demo_client_wf.
  - exact TCPOverIPv4Adapter.demo_sendable.
  - split; reflexivity.
  - exists bl, seg', peer'. split; [exact E|]. split; [exact Hp|exact Hd].
Defined.

End TCPOverIPv4OverTunFdAdapter.

Module TCPOverIPv4OverEthernetAdapter.
Section TCPOverIPv4OverEthernetAdapter.
Context `{Address.Netdb}.

(** [class TCPOverIPv4OverEthernetAdapter], with the frames written to [_tap]. *)
Record t : Type := mk {
  base : FdAdapterBase.t;
  _tap : list BufferList.t;
  _interface : NetworkInterface.t;
  _next_hop : Address.t
}.

(** The constructor primes the device with an empty frame. *)
Definition make (base : FdAdapterBase.t) (eth_address : EthernetAddress.t)
  (ip_address next_hop : Address.t) : t :=
  mk base [EthernetFrame.serialize EthernetFrame.default]
     (NetworkInterface.make eth_address (Address.ipv4_numeric ip_address)) next_hop.

(** An operation of the base class. *)
Definition on_base (f : FdAdapterBase.t -> FdAdapterBase.t) (a : t) : t :=
  mk (f (base a)) (_tap a) (_interface a) (_next_hop a).

(** [send_pending]: every frame of the interface's queue is written, in order. *)
Definition pop_frame (n : NetworkInterface.t) : NetworkInterface.t :=
  NetworkInterface.mk (NetworkInterface._ethernet_address n) (NetworkInterface._ip_address n)
    (tail (NetworkInterface._frames_out n)) (NetworkInterface._forwarding_table n)
    (NetworkInterface._outstanding_msg n) (NetworkInterface._unsent_datagrams n).

Fixpoint send_loop (fuel : nat) (a : t) : t :=
  match NetworkInterface.frames_out (_interface a) with
  | [] => a
  | f :: _ =>
      match fuel with
      | O => a
      | S fuel' => send_loop fuel' (mk (base a) (_tap a ++ [EthernetFrame.serialize f])
                                       (pop_frame (_interface a)) (_next_hop a))
      end
  end.
Definition send_pending (a : t) : t :=
  send_loop (length (NetworkInterface.frames_out (_interface a))) a.

Definition read (dev : bytes) (a : t) : res (option TCPSegment.t * t) :=
  '(r, frame) ← EthernetFrame.parse (Buffer.of_string dev) EthernetFrame.default;
  if negb (is_NoError r) then Ok (None, a)
  else
    '(ip_dgram, n) ← NetworkInterface.recv_frame frame (_interface a);
    let a := send_pending (mk (base a) (_tap a) n (_next_hop a)) in
    match ip_dgram with
    | Some d =>
        '(seg, b) ← TCPOverIPv4Adapter.unwrap_tcp_in_ip d (base a);
        Ok (seg, mk b (_tap a) (_interface a) (_next_hop a))
    | None => Ok (None, a)
    end.

Definition tick (ms_since_last_tick : Z) (a : t) : res t :=
  Ok (send_pending (mk (base a) (_tap a) (NetworkInterface.tick ms_since_last_tick (_interface a))
                       (_next_hop a))).

Definition write (seg : TCPSegment.t) (a : t) : res (TCPSegment.t * t) :=
  '(seg, d) ← TCPOverIPv4Adapter.wrap_tcp_in_ip seg (base a);
  n ← NetworkInterface.send_datagram d (Address.ipv4_numeric (_next_hop a)) (_interface a);
  Ok (seg, send_pending (mk (base a) (_tap a) n (_next_hop a))).

(** ** Safety *)

Lemma send_loop_spec fs : forall a, NetworkInterface._frames_out (_interface a) = fs ->
  send_loop (length fs) a =
    mk (base a) (_tap a ++ (EthernetFrame.serialize <$> fs))
       (NetworkInterface.mk (NetworkInterface._ethernet_address (_interface a))
          (NetworkInterface._ip_address (_interface a)) [] (NetworkInterface._forwarding_table (_interface a))
          (NetworkInterface._outstanding_msg (_interface a)) (NetworkInterface._unsent_datagrams (_interface a)))
       (_next_hop a).
Proof.
  induction fs as [|f fs IH]; intros [b tap [] nh] Hf; cbn in Hf; subst.
  - cbn. by rewrite app_nil_r.
  - cbn [length send_loop NetworkInterface.frames_out NetworkInterface._frames_out _interface].
    rewrite IH by done. cbn. by rewrite <- app_assoc.
Qed.

(** Every pending frame is written, in order, and none stays in the queue. *)
Lemma send_pending_spec a :
  _tap (send_pending a) = _tap a ++ (EthernetFrame.serialize <$> NetworkInterface._frames_out (_interface a)) /\
  NetworkInterface._frames_out (_interface (send_pending a)) = [] /\
  base (send_pending a) = base a /\
  (NetworkInterface.wf (_interface a) -> NetworkInterface.wf (_interface (send_pending a))).
Proof.
  unfold send_pending, NetworkInterface.frames_out. rewrite (send_loop_spec _ a eq_refl). split_and!; try done.
  intros []. by split.
Qed.

Inductive op : Type :=
| Read (dev : bytes)
| Write (seg : TCPSegment.t)
| Tick (ms : Z).

(** A call and the segment it returns: the one read, if any, or the one sent. *)
Definition step (o : op) (a : t) : res (option TCPSegment.t * t) :=
  match o with
  | Read dev => read dev a
  | Write seg => '(seg, a) ← write seg a; Ok (Some seg, a)
  | Tick ms => a ← tick ms a; Ok (None, a)
  end.

Fixpoint exec (os : list op) (a : t) : res (list (option TCPSegment.t) * t) :=
  match os with
  | [] => Ok ([], a)
  | o :: os' => '(r, a) ← step o a; '(rs, a) ← exec os' a; Ok (r :: rs, a)
  end.

(** The same calls on a base and an interface that is never drained, so that its queue
    records every frame it ever emitted: no device is written to. *)
Definition undrained_step (nh : Address.t) (o : op) (x : FdAdapterBase.t * NetworkInterface.t)
  : res (option TCPSegment.t * (FdAdapterBase.t * NetworkInterface.t)) :=
  let '(b, n) := x in
  match o with
  | Read dev =>
      '(r, frame) ← EthernetFrame.parse (Buffer.of_string dev) EthernetFrame.default;
      if negb (is_NoError r) then Ok (None, (b, n))
      else
        '(od, n) ← NetworkInterface.recv_frame frame n;
        match od with
        | Some d => '(seg, b) ← TCPOverIPv4Adapter.unwrap_tcp_in_ip d b; Ok (seg, (b, n))
        | None => Ok (None, (b, n))
        end
  | Write seg =>
      '(seg, d) ← TCPOverIPv4Adapter.wrap_tcp_in_ip seg b;
      n ← NetworkInterface.send_datagram d (Address.ipv4_numeric nh) n;
      Ok (Some seg, (b, n))
  | Tick ms => Ok (None, (b, NetworkInterface.tick ms n))
  end.

Fixpoint undrained (nh : Address.t) (os : list op) (x : FdAdapterBase.t * NetworkInterface.t)
  : res (list (option TCPSegment.t) * (FdAdapterBase.t * NetworkInterface.t)) :=
  match os with
  | [] => Ok ([], x)
  | o :: os' => '(r, x) ← undrained_step nh o x; '(rs, x) ← undrained nh os' x; Ok (r :: rs, x)
  end.

Definition allowed (o : op) : Prop :=
  match o with
  | Read dev => zlen dev < two64
  | Write seg => TCPOverIPv4Adapter.sendable seg
  | Tick ms => 0 <= ms < two63
  end.

Record wf (a : t) : Prop := {
  wf_base : TCPOverIPv4Adapter.base_wf (base a);
  wf_interface : NetworkInterface.wf (_interface a);
  wf_sent : NetworkInterface._frames_out (_interface a) = []
}.

Lemma send_pending_wf b tap n nh : TCPOverIPv4Adapter.base_wf b -> NetworkInterface.wf n ->
  wf (send_pending (mk b tap n nh)).
Proof.
  intros Hb Hn. destruct (send_pending_spec (mk b tap n nh)) as (_ & Hs & Hbase & Hw).
  split; [by rewrite Hbase|by apply Hw|done].
Qed.

(** The configuration still holds addresses and ports after a segment is accepted. *)
Lemma unwrap_base_wf buffer r d b : Buffer.wf buffer ->
  IPv4Datagram.parse buffer IPv4Datagram.default = Ok (r, d) -> TCPOverIPv4Adapter.base_wf b ->
  exists x b', TCPOverIPv4Adapter.unwrap_tcp_in_ip d b = Ok (x, b') /\ TCPOverIPv4Adapter.base_wf b'.
Proof.
  intros Hb Hp Hw. destruct (IPv4Datagram.parse_shape _ _ _ Hb Hp) as [(buf & Hbuf & Hwb) [Hr1 Hr2]].
  pose proof Hw as [[Ha1 Ha2] [Hb1 Hb2]].
  assert (Hone : BufferList.to_buffer (IPv4Datagram.payload d) = Ok buf) by (by rewrite Hbuf).
  destruct (TCPOverIPv4Adapter.unwrap_refused d b buf Hone Hwb) as [E|(seg & Hs & Hproto & Hdp)]; [by exists None, b|].
  pose proof (TCPOverIPv4Adapter.unwrap_parsed d b buf seg Hone Hs Hr1 Hr2 Ha2 Hproto Hdp) as Hu.
  cbv zeta in Hu. pose proof (TCPSegment.parse_sport _ _ _ _ Hs).
  destruct (FdAdapterBase.listening b); rewrite Hu.
  - destruct (opens_connection seg); [|by exists None, b]. eexists _, _. split; [done|].
    by split; split.
  - destruct (_ && _); by eexists _, _.
Qed.

Lemma ethernet_step_wf o a : wf a -> allowed o -> exists r a', step o a = Ok (r, a') /\ wf a'.
Proof.
  intros [Hb Hi Hs] Ho. destruct o as [dev|seg|ms]; cbn [step allowed] in *.
  - unfold read. assert (Hwb : Buffer.wf (Buffer.of_string dev)) by (by apply Buffer.buffer_of_string_wf).
    destruct (EthernetFrame.frame_parse_safe _ EthernetFrame.default Hwb) as (r & f & E & Hp & Hsz). rewrite E.
    cbn [mbind res_bind]. destruct (negb _); [by exists None, a|].
    assert (Hl : zlen (BufferList.concatenate (EthernetFrame.payload f)) < two64).
    { by rewrite BufferList.concatenate_flat. }
    destruct (NetworkInterface.interface_recv_frame_wf f (_interface a) Hi Hl) as (od & n & E2 & Hn). rewrite E2.
    cbn [mbind res_bind]. pose proof (send_pending_wf (base a) (_tap a) n (_next_hop a) Hb Hn) as Hw.
    destruct od as [d|]; cbn [mbind res_bind]; [|by eexists _, _].
    apply NetworkInterface.recv_frame_parsed in E2.
    destruct Hw as [Hwb' Hwi Hws].
    destruct (unwrap_base_wf (Buffer.of_string (BufferList.concatenate (EthernetFrame.payload f))) _ _ _
      ltac:(by apply Buffer.buffer_of_string_wf) E2 Hwb') as (x & b' & -> & Hb'). cbn. eexists _, _. split; [done|]. by split.
  - unfold write. destruct (TCPOverIPv4Adapter.wrap_spec seg (base a) Hb Ho) as (d & -> & Hd & _).
    cbn [mbind res_bind].
    destruct (NetworkInterface.interface_send_datagram_wf d (Address.ipv4_numeric (_next_hop a)) (_interface a) Hi Hd)
      as (n & -> & Hn). cbn. eexists _, _. split; [done|]. by apply send_pending_wf.
  - eexists _, _. split; [done|]. apply send_pending_wf; [done|]. by apply NetworkInterface.interface_tick_wf.
Qed.

(** What has been written to the device is the empty frame of the constructor and the
    frames the undrained interface recorded; the rest of the interface is the same. *)
Record drained (nh : Address.t) (a : t) (x : FdAdapterBase.t * NetworkInterface.t) : Prop := {
  dr_base : base a = x.1;
  dr_hop : _next_hop a = nh;
  dr_sent : NetworkInterface._frames_out (_interface a) = [];
  dr_interface : x.2 = NetworkInterface.prepend (NetworkInterface._frames_out x.2) (_interface a);
  dr_tap : _tap a = EthernetFrame.serialize <$> EthernetFrame.default :: NetworkInterface._frames_out x.2
}.

Lemma send_pending_drained nh b tap n fs : tap = EthernetFrame.serialize <$> EthernetFrame.default :: fs ->
  drained nh (send_pending (mk b tap n nh)) (b, NetworkInterface.prepend fs n).
Proof.
  intros ->. unfold send_pending, NetworkInterface.frames_out.
  rewrite (send_loop_spec _ (mk b _ n nh) eq_refl). split; cbn; try done.
  - unfold NetworkInterface.prepend. cbn. by rewrite app_nil_r.
  - by rewrite fmap_app.
Qed.

(** A call does the same to both. *)
Lemma undrained_step_sim nh o a x r a' : drained nh a x -> step o a = Ok (r, a') ->
  exists x', undrained_step nh o x = Ok (r, x') /\ drained nh a' x'.
Proof.
  destruct a as [b tap m nh0]. destruct x as [b0 n]. intros Hd.
  pose proof Hd as [Hb Hh Hsent Hi Ht]. cbn in Hb, Hh, Hsent, Hi, Ht. subst b0 nh0.
  set (fs := NetworkInterface._frames_out n) in *. clearbody fs. subst n.
  pose proof (send_pending_drained nh b tap) as Hs.
  destruct o as [dev|seg|ms]; cbn [step undrained_step].
  - unfold read. destruct (EthernetFrame.parse _ _) as [[e f]|]; [|done]. cbn [mbind res_bind]. destruct (negb _).
    { intros [= <- <-]. by eexists. }
    cbn [base _interface _next_hop _tap]. rewrite NetworkInterface.recv_frame_prepend.
    destruct (NetworkInterface.recv_frame f m) as [[od n]|]; [|done]. cbn [fmap res_fmap mbind res_bind fst snd].
    specialize (Hs n fs Ht). destruct Hs as [Hs1 Hs2 Hs3 Hs4 Hs5]. cbn [fst snd] in *.
    destruct od as [d|]; [|intros [= <- <-]; by eexists]. rewrite Hs1.
    destruct (TCPOverIPv4Adapter.unwrap_tcp_in_ip d b) as [[sg b']|]; [|done]. cbn [mbind res_bind].
    intros [= <- <-]. eexists. by split.
  - unfold write. cbn [base _interface _next_hop _tap].
    destruct (TCPOverIPv4Adapter.wrap_tcp_in_ip seg b) as [[sg d]|]; [|done]. cbn [mbind res_bind].
    rewrite NetworkInterface.send_datagram_prepend.
    destruct (NetworkInterface.send_datagram d _ m) as [n|]; [|done]. cbn. intros [= <- <-]. eauto.
  - intros [= <- <-]. eexists. split; [done|]. apply (Hs (NetworkInterface.tick ms m) fs Ht).
Qed.

Lemma undrained_sim nh os : Forall allowed os -> forall a x, wf a -> drained nh a x ->
  exists rs a' x', exec os a = Ok (rs, a') /\ undrained nh os x = Ok (rs, x') /\ wf a' /\ drained nh a' x'.
Proof.
  induction 1 as [|o os Ho _ IH]; intros a x Hw Hd; cbn [exec undrained].
  - by eexists _, _, _.
  - destruct (ethernet_step_wf o a Hw Ho) as (r & a1 & E & Hw1).
    destruct (undrained_step_sim nh o a x r a1 Hd E) as (x1 & E' & Hd1). rewrite E, E'. cbn [mbind res_bind].
    destruct (IH a1 x1 Hw1 Hd1) as (rs & a2 & x2 & -> & -> & Hw2 & Hd2). by eexists _, _, _.
Qed.

(** C34: a TCP connection over Ethernet never throws, whatever bytes the TAP device
    delivers, and writes every frame of its interface to the device.  Take any sequence
    of reads, writes and ticks, where the segments written are ones that fit an IPv4
    datagram and have header fields within their widths, one tick is shorter than 2^63
    milliseconds and what is read is shorter than 2^64 bytes.  Every call returns, and
    returns what the same calls return on an interface that is never drained; and what
    the device has been given is, in order, the constructor's empty frame and then,
    serialised, all the frames which that interface put in its queue.  No frame is left
    waiting, and addresses, mappings and datagrams awaiting a mapping are the same as
    in the undrained interface. *)
Theorem ethernet_adapter_safe (b : FdAdapterBase.t) (eth : EthernetAddress.t) (ip nh : Address.t)
  (os : list op) (Hb : TCPOverIPv4Adapter.base_wf b) (Hos : Forall allowed os) :
  exists rs a n, exec os (make b eth ip nh) = Ok (rs, a) /\
    undrained nh os (b, NetworkInterface.make eth (Address.ipv4_numeric ip)) = Ok (rs, (base a, n)) /\
    _tap a = EthernetFrame.serialize <$> EthernetFrame.default :: NetworkInterface.frames_out n /\
    NetworkInterface.frames_out (_interface a) = [] /\
    NetworkInterface._ethernet_address (_interface a) = NetworkInterface._ethernet_address n /\
    NetworkInterface._ip_address (_interface a) = NetworkInterface._ip_address n /\
    NetworkInterface._forwarding_table (_interface a) = NetworkInterface._forwarding_table n /\
    NetworkInterface._outstanding_msg (_interface a) = NetworkInterface._outstanding_msg n /\
    NetworkInterface._unsent_datagrams (_interface a) = NetworkInterface._unsent_datagrams n /\
    TCPOverIPv4Adapter.base_wf (base a).
Proof.
  destruct (undrained_sim nh os Hos (make b eth ip nh) (b, NetworkInterface.make eth (Address.ipv4_numeric ip)))
    as (rs & a & [b' n] & E & E' & [] & [Hba _ Hs Hi Ht]).
  - split; [done|apply NetworkInterface.interface_make_wf|done].
  - by split.
  - cbn [fst snd] in *. subst b'. exists rs, a, n. rewrite Hi at 3 4 5 6 7. by split_and!.
Qed.

End TCPOverIPv4OverEthernetAdapter.

(** A segment is written; its ARP request is answered, and the datagram goes out. *)
Definition demo_arp_reply : bytes :=
  match ARPMessage.serialize
          (ARPMessage.mk ARPMessage.TYPE_ETHERNET EthernetHeader.TYPE_IPv4 6 4 ARPMessage.OPCODE_REPLY
             [2; 0; 0; 0; 0; 2] 167772162 [2; 0; 0; 0; 0; 1] 167772161) with
  | Ok bs => BufferList.concatenate (EthernetFrame.serialize (EthernetFrame.mk
      (EthernetHeader.mk [2; 0; 0; 0; 0; 1] [2; 0; 0; 0; 0; 2] EthernetHeader.TYPE_ARP)
      (BufferList.of_string bs)))
  | Throw _ => []
  end.

Lemma ethernet_adapter_safe_witness :
  exists rs a n, exec (H := DottedQuad.netdb) [Write TCPSegment.example; Tick 100; Read demo_arp_reply]
      (make TCPOverIPv4Adapter.demo_client [2; 0; 0; 0; 0; 1] (Address.mk 167772161 0)
         (Address.mk 167772162 0)) = Ok (rs, a) /\
    _tap a = EthernetFrame.serialize <$> EthernetFrame.default :: NetworkInterface.frames_out n /\
    length (_tap a) = 3%nat.
Proof.
  destruct (ethernet_adapter_safe (H := DottedQuad.netdb) TCPOverIPv4Adapter.demo_client
    [2; 0; 0; 0; 0; 1] (Address.mk 167772161 0) (Address.mk 167772162 0)
    [Write TCPSegment.example; Tick 100; Read demo_arp_reply]) as (rs & a & n & E & _ & Ht & _).
  - exact TCPOverIPv4Adapter.demo_client_wf.
  - apply Forall_cons; split; [exact TCPOverIPv4Adapter.demo_sendable|].
    apply Forall_cons; split; [cbn; lia|]. apply Forall_singleton. vm_compute. reflexivity.
  - exists rs, a, n. split; [exact E|]. split; [exact Ht|]. clear Ht. vm_compute in E. injection E as _ <-. reflexivity.
Defined.

End TCPOverIPv4OverEthernetAdapter.

(** ** The adapters implement the interface *)

Definition same_rates (b b' : FdAdapterBase.t) : Prop :=
  loss_rate_dn (FdAdapterBase.config b') = loss_rate_dn (FdAdapterBase.config b) /\
  loss_rate_up (FdAdapterBase.config b') = loss_rate_up (FdAdapterBase.config b).

Lemma unwrap_rates `{Address.Netdb} d b r b' :
  TCPOverIPv4Adapter.unwrap_tcp_in_ip d b = Ok (r, b') -> same_rates b b'.
Proof.
  unfold TCPOverIPv4Adapter.unwrap_tcp_in_ip.
  repeat (case_match; [by intros [= <- <-]|]).
  destruct (BufferList.to_buffer _) as [buf|]; cbn [mbind res_bind]; [|done].
  destruct (TCPSegment.parse _ _ _) as [[pr seg]|]; cbn [mbind res_bind]; [|done].
  repeat (case_match; [by intros [= <- <-]|]).
  destruct (FdAdapterBase.listening b); [destruct (opens_connection seg)|]; cbn [mbind res_bind].
  - unfold Address.of_string. destruct (Address.getaddrinfo (Address.inet_ntoa (IPv4Header.dst _)) _); [cbn|done].
    destruct (Address.getaddrinfo _ _); [cbn|done]. intros E. case_match; by simplify_eq.
  - by intros [= <- <-].
  - intros E. case_match; by simplify_eq.
Qed.

#[global] Instance udp_adapter :
  FdAdapter TCPOverUDPSocketAdapter.t UDPSocket.received_datagram.
Proof.
  refine {| adapter_read := TCPOverUDPSocketAdapter.read;
            adapter_write := TCPOverUDPSocketAdapter.write;
            adapter_config := fun a => FdAdapterBase.config (TCPOverUDPSocketAdapter.base a);
            adapter_set_config := fun cfg a => TCPOverUDPSocketAdapter.mk
              (FdAdapterBase.set_config cfg (TCPOverUDPSocketAdapter.base a)) (TCPOverUDPSocketAdapter._sock a);
            adapter_set_listening := fun l a => TCPOverUDPSocketAdapter.mk
              (FdAdapterBase.set_listening l (TCPOverUDPSocketAdapter.base a)) (TCPOverUDPSocketAdapter._sock a);
            adapter_tick := fun ms a => Ok (TCPOverUDPSocketAdapter.mk
              (FdAdapterBase.tick ms (TCPOverUDPSocketAdapter.base a)) (TCPOverUDPSocketAdapter._sock a)) |}.
  - intros dev a r a'. unfold TCPOverUDPSocketAdapter.read. case_match; [by intros [= <- <-]|].
    destruct (TCPSegment.parse _ _ _) as [[pr seg]|]; cbn [mbind res_bind]; [|done].
    case_match; [by intros [= <- <-]|]. case_match; [case_match|]; by intros [= <- <-].
  - intros seg a seg' a'. unfold TCPOverUDPSocketAdapter.write.
    destruct (TCPSegment.serialize _ _); cbn [mbind res_bind]; [|done]. by intros [= <- <-].
  - by intros ms a a' [= <-].
Defined.

#[global] Instance tun_adapter `{Address.Netdb} : FdAdapter TCPOverIPv4OverTunFdAdapter.t bytes.
Proof.
  refine {| adapter_read := TCPOverIPv4OverTunFdAdapter.read;
            adapter_write := TCPOverIPv4OverTunFdAdapter.write;
            adapter_config := fun a => FdAdapterBase.config (TCPOverIPv4OverTunFdAdapter.base a);
            adapter_set_config := fun cfg a => TCPOverIPv4OverTunFdAdapter.mk
              (FdAdapterBase.set_config cfg (TCPOverIPv4OverTunFdAdapter.base a))
              (TCPOverIPv4OverTunFdAdapter._tun a);
            adapter_set_listening := fun l a => TCPOverIPv4OverTunFdAdapter.mk
              (FdAdapterBase.set_listening l (TCPOverIPv4OverTunFdAdapter.base a))
              (TCPOverIPv4OverTunFdAdapter._tun a);
            adapter_tick := fun ms a => Ok (TCPOverIPv4OverTunFdAdapter.mk
              (FdAdapterBase.tick ms (TCPOverIPv4OverTunFdAdapter.base a))
              (TCPOverIPv4OverTunFdAdapter._tun a)) |}.
  - intros dev a r a'. unfold TCPOverIPv4OverTunFdAdapter.read.
    destruct (IPv4Datagram.parse _ _) as [[pr d]|]; cbn [mbind res_bind]; [|done].
    case_match; [by intros [= <- <-]|].
    destruct (TCPOverIPv4Adapter.unwrap_tcp_in_ip _ _) as [[x b]|] eqn:E; cbn [mbind res_bind]; [|done].
    intros [= <- <-]. exact (unwrap_rates _ _ _ _ E).
  - intros seg a seg' a'. unfold TCPOverIPv4OverTunFdAdapter.write.
    destruct (TCPOverIPv4Adapter.wrap_tcp_in_ip _ _) as [[s d]|]; cbn [mbind res_bind]; [|done].
    destruct (IPv4Datagram.serialize d); cbn [mbind res_bind]; [|done]. by intros [= <- <-].
  - by intros ms a a' [= <-].
Defined.

#[global] Instance ethernet_adapter `{Address.Netdb} : FdAdapter TCPOverIPv4OverEthernetAdapter.t bytes.
Proof.
  refine {| adapter_read := TCPOverIPv4OverEthernetAdapter.read;
            adapter_write := TCPOverIPv4OverEthernetAdapter.write;
            adapter_config := fun a => FdAdapterBase.config (TCPOverIPv4OverEthernetAdapter.base a);
            adapter_set_config := fun cfg a => TCPOverIPv4OverEthernetAdapter.on_base (FdAdapterBase.set_config cfg) a;
            adapter_set_listening := fun l a => TCPOverIPv4OverEthernetAdapter.on_base (FdAdapterBase.set_listening l) a;
            adapter_tick := TCPOverIPv4OverEthernetAdapter.tick |}.
  - intros dev a r a'. unfold TCPOverIPv4OverEthernetAdapter.read.
    destruct (EthernetFrame.parse _ _) as [[pr f]|]; cbn [mbind res_bind]; [|done].
    case_match; [by intros [= <- <-]|].
    destruct (NetworkInterface.recv_frame _ _) as [[od n]|]; cbn [mbind res_bind]; [|done].
    set (a1 := TCPOverIPv4OverEthernetAdapter.mk _ _ n _).
    destruct (TCPOverIPv4OverEthernetAdapter.send_pending_spec a1) as (_ & _ & Hb & _).
    destruct od as [d|]; [|intros [= <- <-]; by rewrite Hb].
    destruct (TCPOverIPv4Adapter.unwrap_tcp_in_ip _ _) as [[x b]|] eqn:E; cbn [mbind res_bind]; [|done].
    intros [= <- <-]. rewrite Hb in E. exact (unwrap_rates _ _ _ _ E).
  - intros seg a seg' a'. unfold TCPOverIPv4OverEthernetAdapter.write.
    destruct (TCPOverIPv4Adapter.wrap_tcp_in_ip _ _) as [[s d]|]; cbn [mbind res_bind]; [|done].
    destruct (NetworkInterface.send_datagram _ _ _) as [n|]; cbn [mbind res_bind]; [|done].
    intros [= <- <-]. set (a1 := TCPOverIPv4OverEthernetAdapter.mk _ _ n _).
    by destruct (TCPOverIPv4OverEthernetAdapter.send_pending_spec a1) as (_ & _ & -> & _).
  - intros ms a a' [= <-]. set (a1 := TCPOverIPv4OverEthernetAdapter.mk _ _ _ _).
    by destruct (TCPOverIPv4OverEthernetAdapter.send_pending_spec a1) as (_ & _ & -> & _).
Defined.

Module LossyFdAdapter.
Section LossyFdAdapter.
Context {A Device : Type} `{FdAdapter A Device}.

(** The numbers that the generator [_rand] yields, one after the other. *)
Context (mt19937 : nat -> Z).

(** [class LossyFdAdapter<AdapterT>]: the position in the random sequence and the
    underlying adapter. *)
Record t : Type := mk { _rand : nat; _adapter : A }.

Definition _should_drop (uplink : bool) (l : t) : bool * t :=
  let cfg := adapter_config (_adapter l) in
  let loss := if uplink then loss_rate_up cfg else loss_rate_dn cfg in
  if loss =? 0 then (false, l)
  else (u16 (mt19937 (_rand l)) <? loss, mk (S (_rand l)) (_adapter l)).

Definition read (dev : Device) (l : t) : res (option TCPSegment.t * t) :=
  '(ret, a) ← adapter_read dev (_adapter l);
  let '(drop, l) := _should_drop false (mk (_rand l) a) in
  if drop then Ok (None, l) else Ok (ret, l).

Definition write (seg : TCPSegment.t) (l : t) : res (TCPSegment.t * t) :=
  let '(drop, l) := _should_drop true l in
  if drop then Ok (seg, l)
  else '(seg, a) ← adapter_write seg (_adapter l); Ok (seg, mk (_rand l) a).

Definition set_listening (b : bool) (l : t) : t := mk (_rand l) (adapter_set_listening b (_adapter l)).
Definition config (l : t) : FdAdapterConfig := adapter_config (_adapter l).
Definition set_config (cfg : FdAdapterConfig) (l : t) : t := mk (_rand l) (adapter_set_config cfg (_adapter l)).
Definition tick (ms : Z) (l : t) : res t :=
  a ← adapter_tick ms (_adapter l); Ok (mk (_rand l) a).

(** ** Refinement *)

Inductive op : Type :=
| Read (dev : Device)
| Write (seg : TCPSegment.t)
| Tick (ms : Z).

(** Sequences of calls, with what each [read] returned. *)
Fixpoint run_adapter (os : list op) (a : A) : res (list (option TCPSegment.t) * A) :=
  match os with
  | [] => Ok ([], a)
  | Read dev :: os' =>
      '(r, a) ← adapter_read dev a; '(rs, a) ← run_adapter os' a; Ok (r :: rs, a)
  | Write seg :: os' => '(_, a) ← adapter_write seg a; run_adapter os' a
  | Tick ms :: os' => a ← adapter_tick ms a; run_adapter os' a
  end.

Fixpoint run (os : list op) (l : t) : res (list (option TCPSegment.t) * t) :=
  match os with
  | [] => Ok ([], l)
  | Read dev :: os' => '(r, l) ← read dev l; '(rs, l) ← run os' l; Ok (r :: rs, l)
  | Write seg :: os' => '(_, l) ← write seg l; run os' l
  | Tick ms :: os' => l ← tick ms l; run os' l
  end.

(** Some of the segments to be written are lost. *)
Inductive thinned : list op -> list op -> Prop :=
| thinned_nil : thinned [] []
| thinned_keep o os os' : thinned os os' -> thinned (o :: os) (o :: os')
| thinned_lose seg os os' : thinned os os' -> thinned (Write seg :: os) os'.

(** Some of the segments that were read are lost. *)
Definition fewer (r r' : option TCPSegment.t) : Prop := r = r' \/ r = None.

Definition lossless (a : A) : Prop :=
  loss_rate_dn (adapter_config a) = 0 /\ loss_rate_up (adapter_config a) = 0.

(** Two runs agree: the same exception, or the same state and the same reads, up to
    loss; exactly the same reads, and no random number drawn, without loss. *)
Definition agree (perfect : Prop) (k : nat) (x : res (list (option TCPSegment.t) * A))
  (y : res (list (option TCPSegment.t) * t)) : Prop :=
  match x, y with
  | Ok (rs', a'), Ok (rs, l) =>
      _adapter l = a' /\ Forall2 fewer rs rs' /\ (perfect -> rs = rs' /\ _rand l = k)
  | Throw e', Throw e => e = e'
  | _, _ => False
  end.

Lemma thinned_refl os : thinned os os.
Proof. induction os; by constructor. Qed.

Lemma lossless_rates a a' :
  loss_rate_dn (adapter_config a') = loss_rate_dn (adapter_config a) /\
  loss_rate_up (adapter_config a') = loss_rate_up (adapter_config a) ->
  lossless a -> lossless a'.
Proof. unfold lossless. intros [-> ->]. done. Qed.

Lemma should_drop_spec uplink k a : exists drop k',
  _should_drop uplink (mk k a) = (drop, mk k' a) /\ (lossless a -> drop = false /\ k' = k).
Proof.
  unfold _should_drop. cbn [_adapter _rand]. destruct (_ =? 0) eqn:E.
  - eexists _, _. split; [done|]. done.
  - eexists _, _. split; [done|]. zb. intros [Hd Hu]. exfalso. destruct uplink; congruence.
Qed.

Lemma agree_cons (P Q : Prop) k r r' x y : fewer r r' -> (Q -> P /\ r = r') -> agree P k x y ->
  agree Q k ('(rs, a) ← x; Ok (r' :: rs, a)) ('(rs, l) ← y; Ok (r :: rs, l)).
Proof.
  intros Hr HQ. destruct x as [[rs' a']|], y as [[rs l]|]; cbn; try done.
  intros (-> & Hf & Hp). split; [done|]. split; [by constructor|].
  intros q. destruct (HQ q) as [p ->]. destruct (Hp p) as [-> ->]. done.
Qed.

Lemma agree_weaken (P Q : Prop) k k' x y : (Q -> P /\ k' = k) -> agree P k' x y -> agree Q k x y.
Proof.
  intros HQ. destruct x as [[rs' a']|], y as [[rs l]|]; cbn; try done.
  intros (-> & Hf & Hp). split; [done|]. split; [done|].
  intros q. destruct (HQ q) as [p <-]. by apply Hp.
Qed.

(** C35: an adapter with random loss is the adapter in a network that loses
    segments.  For any sequence of calls there is a subsequence, in which only writes
    are missing, such that the lossy adapter ends in the state that the underlying
    adapter reaches on the subsequence, having returned the same segments or none;
    at a loss rate of zero nothing is missing and the generator is not used. *)
Theorem lossy_adapter_refines (os : list op) (k : nat) (a : A) :
  exists os', thinned os os' /\ (lossless a -> os' = os) /\
    agree (lossless a) k (run_adapter os' a) (run os (mk k a)).
Proof.
  revert k a. induction os as [|o os IH]; intros k a.
  { exists []. split; [constructor|]. split; [done|]. cbn. split; [done|]. by split; [constructor|]. }
  destruct o as [dev|seg|ms]; cbn [run].
  - unfold read. cbn [_adapter _rand].
    destruct (adapter_read dev a) as [[r a1]|e] eqn:E; cbn [mbind res_bind].
    + destruct (should_drop_spec false k a1) as (drop & k' & Hd & Hl). rewrite Hd.
      destruct (IH k' a1) as (os' & Ht & Hsame & Hag). apply adapter_read_rates in E as Hrates.
      pose proof (lossless_rates _ _ Hrates) as Hll.
      exists (Read dev :: os'). split; [by constructor|]. split; [intros Ha; by rewrite Hsame by auto|].
      cbn [run_adapter]. rewrite E. cbn [mbind res_bind].
      assert (Hag' : agree (lossless a) k (run_adapter os' a1) (run os (mk k' a1))).
      { eapply agree_weaken; [|exact Hag]. intros Ha. split; [by auto|]. by apply Hl, Hll. }
      destruct drop; cbn [mbind res_bind].
      * eapply agree_cons; [by right| |exact Hag']. intros Ha. by destruct (Hl (Hll Ha)).
      * eapply agree_cons; [by left| |exact Hag']. done.
    + exists (Read dev :: os). cbn [run_adapter]. rewrite E. cbn. split; [|done]. apply thinned_refl.
  - unfold write. destruct (should_drop_spec true k a) as (drop & k' & Hd & Hl). rewrite Hd.
    destruct drop; cbn [mbind res_bind].
    + destruct (IH k' a) as (os' & Ht & Hsame & Hag). exists os'. split; [by constructor|].
      assert (Hno : ~ lossless a) by (intros Ha; by destruct (Hl Ha)).
      split; [done|]. by eapply agree_weaken; [|exact Hag].
    + cbn [_adapter _rand]. destruct (adapter_write seg a) as [[seg' a1]|e] eqn:E; cbn [mbind res_bind].
      * destruct (IH k' a1) as (os' & Ht & Hsame & Hag). apply adapter_write_rates in E as Hrates.
        pose proof (lossless_rates _ _ Hrates) as Hll.
        exists (Write seg :: os'). split; [by constructor|]. split; [intros Ha; by rewrite Hsame by auto|].
        cbn [run_adapter]. rewrite E. cbn [mbind res_bind]. eapply agree_weaken; [|exact Hag].
        intros Ha. split; [by auto|]. by apply Hl.
      * exists (Write seg :: os). cbn [run_adapter]. rewrite E. cbn. split; [|done]. apply thinned_refl.
  - unfold tick. cbn [_adapter _rand]. destruct (adapter_tick ms a) as [a1|e] eqn:E; cbn [mbind res_bind].
    + destruct (IH k a1) as (os' & Ht & Hsame & Hag). apply adapter_tick_rates in E as Hrates.
      pose proof (lossless_rates _ _ Hrates) as Hll.
      exists (Tick ms :: os'). split; [by constructor|]. split; [intros Ha; by rewrite Hsame by auto|].
      cbn [run_adapter]. rewrite E. cbn [mbind res_bind]. eapply agree_weaken; [|exact Hag]. by auto.
    + exists (Tick ms :: os). cbn [run_adapter]. rewrite E. cbn. split; [|done]. apply thinned_refl.
Qed.

(** The lossy adapter is an adapter again. *)
#[export] Instance lossy_adapter : FdAdapter t Device.
Proof.
  refine {| adapter_read := read; adapter_write := write; adapter_config := config;
            adapter_set_config := set_config; adapter_set_listening := set_listening;
            adapter_tick := tick |}.
  - intros dev [k a] r l'. unfold read, config. cbn [_adapter _rand].
    destruct (adapter_read dev a) as [[r1 a1]|] eqn:E; cbn [mbind res_bind]; [|done].
    destruct (should_drop_spec false k a1) as (drop & k' & -> & _). apply adapter_read_rates in E.
    destruct drop; by intros [= <- <-].
  - intros seg [k a] seg' l'. unfold write, config.
    destruct (should_drop_spec true k a) as (drop & k' & -> & _). cbn [_adapter _rand].
    destruct drop; [by intros [= <- <-]|].
    destruct (adapter_write seg a) as [[s1 a1]|] eqn:E; cbn [mbind res_bind]; [|done].
    apply adapter_write_rates in E. by intros [= <- <-].
  - intros ms [k a] l'. unfold tick, config. cbn [_adapter _rand].
    destruct (adapter_tick ms a) as [a1|] eqn:E; cbn [mbind res_bind]; [|done].
    apply adapter_tick_rates in E. by intros [= <-].
Defined.

End LossyFdAdapter.

(** An adapter over UDP that loses half of what it writes, with a generator that
    alternates. *)
Definition demo_rand (k : nat) : Z := if Nat.even k then 0 else 65535.
Definition demo_lossy : TCPOverUDPSocketAdapter.t :=
  TCPOverUDPSocketAdapter.mk (FdAdapterBase.mk
    (mkConfig (Address.mk 167772161 4660) (Address.mk 3232235529 80) 0 32768) false) [].

Lemma lossy_adapter_refines_witness :
  exists os', thinned [Write TCPSegment.example; Write TCPSegment.example] os' /\
    agree False 0 (run_adapter (H := udp_adapter) os' demo_lossy)
      (run (H := udp_adapter) demo_rand [Write TCPSegment.example; Write TCPSegment.example]
         (mk 0 demo_lossy)).
Proof.
  destruct (lossy_adapter_refines (H := udp_adapter) demo_rand
    [Write TCPSegment.example; Write TCPSegment.example] 0 demo_lossy) as (os' & Ht & _ & Hag).
  exists os'. split; [exact Ht|]. eapply agree_weaken; [|exact Hag]. done.
Defined.

End LossyFdAdapter.
