(* ===== verification/EventLoop.v ===== *)
(** * The event loop (util/eventloop.hh, eventloop.cc)

    [EventLoop] holds rules: a descriptor with a direction, and three functions that
    close over the state [S] of their owner.  The rules' functions are computations
    on [S], whose part [world K] holds the descriptors and the kernel, so that the
    counters a callback moves are the ones the loop looks at.  A rule's functions do
    not touch the list of rules, as in all uses of the class. *)

From S2P Require Import Prelude Buffers Addresses FileDescriptor.
From Stdlib Require Import Strings.Byte.

(** Constants of the C library (Linux). *)
Definition POLLIN : Z := 1.
Definition POLLOUT : Z := 4.
Definition POLLERR : Z := 8.
Definition POLLHUP : Z := 16.
Definition POLLNVAL : Z := 32.
Definition EINTR : Z := 4.

(** [enum class EventLoop::Direction : short]. *)
Inductive Direction : Type := DirIn | DirOut.
Definition direction_short (d : Direction) : Z := match d with DirIn => POLLIN | DirOut => POLLOUT end.

Module EventLoop.

(** [enum class EventLoop::Result]. *)
Inductive Result : Type := Success | Timeout | Exit.

Section EventLoop.
Context {K : Type} `{Kernel K} {S : Type} `{Holds S (world K)}.

(** [class EventLoop::Rule]. *)
Record Rule : Type := mkRule {
  fd : FileDescriptor.t;
  direction : Direction;
  callback : io S unit;
  interest : S -> res bool;
  cancel : io S unit
}.

(** [class EventLoop]: the list [_rules]. *)
Definition t : Type := list Rule.
Definition make : t := [].

Definition service_count (r : Rule) : io S Z :=
  lift (match direction r with
        | DirIn => FileDescriptor.read_count (fd r)
        | DirOut => FileDescriptor.write_count (fd r)
        end).

Definition add_rule (fd : FileDescriptor.t) (direction : Direction) (callback : io S unit)
  (interest : S -> res bool) (cancel : io S unit) (rules : t) : io S t :=
  h ← lift (FileDescriptor.duplicate fd);
  mret (rules ++ [mkRule h direction callback interest cancel]).

(** [this_rule.cancel(); it = _rules.erase(it)]: the rule's handle is destroyed. *)
Definition retire (r : Rule) : io S unit :=
  _ ← cancel r;
  lift (FileDescriptor.destroy (fd r)).

(** Asking a rule for its interest, which has no effect. *)
Definition ask (r : Rule) : io S bool := fun s =>
  match interest r s with
  | Ok b => Ok (b, s)
  | Throw e => Throw e
  end.

Definition is_in (d : Direction) : bool := match d with DirIn => true | DirOut => false end.

(** The first loop of [wait_next_event]: the rules that stay, their [pollfd]s and
    [something_to_poll]. *)
Fixpoint setup (rules : list Rule) (kept : list Rule) (pollfds : list pollfd) (something_to_poll : bool)
  : io S (list Rule * list pollfd * bool) :=
  match rules with
  | [] => mret (kept, pollfds, something_to_poll)
  | this_rule :: rules' =>
      x ← lift (FileDescriptor.deref (fd this_rule));
      if is_in (direction this_rule) && FDWrapper._eof x then
        _ ← retire this_rule; setup rules' kept pollfds something_to_poll
      else if FDWrapper._closed x then
        _ ← retire this_rule; setup rules' kept pollfds something_to_poll
      else
        b ← ask this_rule;
        if (b : bool)
        then setup rules' (kept ++ [this_rule])
               (pollfds ++ [mkPollfd (FDWrapper._fd x) (direction_short (direction this_rule)) 0]) true
        else setup rules' (kept ++ [this_rule])
               (pollfds ++ [mkPollfd (FDWrapper._fd x) 0 0]) something_to_poll
  end.

(** [::poll] fills in the [revents]. *)
Fixpoint fill_revents (pollfds : list pollfd) (rs : list Z) : list pollfd :=
  match pollfds with
  | [] => []
  | p :: pollfds' => mkPollfd (poll_fd p) (events p) (default 0 (head rs)) :: fill_revents pollfds' (tail rs)
  end.

Definition poll_error (p : pollfd) : bool := negb (Z.land (revents p) (Z.lor POLLERR POLLNVAL) =? 0).
Definition poll_ready (p : pollfd) : bool := negb (Z.land (revents p) (events p) =? 0).
Definition poll_hup (p : pollfd) : bool := negb (Z.land (revents p) POLLHUP =? 0).
Definition hung_up (p : pollfd) : bool := poll_hup p && negb (events p =? 0) && negb (poll_ready p).

(** The second loop, over the rules and the results of [poll]. *)
Fixpoint serve (rules : list Rule) (pollfds : list pollfd) : io S (list Rule) :=
  match rules, pollfds with
  | [], _ => mret []
  | _ :: _, [] => throw undefined
  | this_rule :: rules', this_pollfd :: pollfds' =>
      if poll_error this_pollfd then throw runtime_error
      else if hung_up this_pollfd then
        _ ← retire this_rule; serve rules' pollfds'
      else if poll_ready this_pollfd then
        count_before ← service_count this_rule;
        _ ← callback this_rule;
        count_after ← service_count this_rule;
        busy ← (if count_before =? count_after then ask this_rule else mret false);
        if (busy : bool) then throw runtime_error
        else kept ← serve rules' pollfds'; mret (this_rule :: kept)
      else kept ← serve rules' pollfds'; mret (this_rule :: kept)
  end.

Definition wait_next_event (timeout_ms : Z) (rules : t) : io S (Result * t) :=
  '(rules, pollfds, something_to_poll) ← setup rules [] [] false;
  if negb something_to_poll then mret (Exit, rules)
  else
    '(a, rs) ← lift (syscall_out (k_poll pollfds timeout_ms));
    match SystemCall a 0 with
    | Ok 0 => mret (Timeout, rules)
    | Throw (unix_error e) =>
        if e =? EINTR then mret (Exit, rules)
        else rules ← serve rules (fill_revents pollfds rs); mret (Success, rules)
    | _ => rules ← serve rules (fill_revents pollfds rs); mret (Success, rules)
    end.

(** ** What one round does *)

(** The loop would keep the rule: its descriptor is open, and not at its end when it
    is to be read. *)
Definition live (s : S) (r : Rule) : Prop :=
  exists c, heap (view s) !! fd r = Some c /\ FDWrapper._closed (wrapper c) = false /\
    is_in (direction r) && FDWrapper._eof (wrapper c) = false.

Definition answers (s : S) (r : Rule) : Prop := exists b, interest r s = Ok b.
Definition interested (s : S) (r : Rule) : bool :=
  match interest r s with Ok b => b | Throw _ => false end.

(** The question put to the kernel for a rule: its direction if it is interested,
    otherwise errors only. *)
Definition request (s : S) (r : Rule) : pollfd :=
  mkPollfd (match heap (view s) !! fd r with Some c => FDWrapper._fd (wrapper c) | None => 0 end)
    (if interested s r then direction_short (direction r) else 0) 0.

(** What becomes of one rule. *)
Definition action (r : Rule) (p : pollfd) : io S unit :=
  if hung_up p then retire r else if poll_ready p then callback r else mret tt.

(** [served ps s s']: from [s], the rules of [ps] are treated in order according to
    the results of [poll], none of which is an error; a callback that leaves its rule
    interested has read or written the rule's descriptor. *)
Inductive served : list (Rule * pollfd) -> S -> S -> Prop :=
| served_nil s : served [] s s
| served_cons r p ps s s1 s' :
    poll_error p = false ->
    action r p s = Ok (tt, s1) ->
    (hung_up p = false -> poll_ready p = true ->
       exists n1 n2, service_count r s = Ok (n1, s) /\ service_count r s1 = Ok (n2, s1) /\
         (n1 <> n2 \/ interest r s1 = Ok false)) ->
    served ps s1 s' ->
    served ((r, p) :: ps) s s'.

Lemma lift_pure {A} (m : io (world K) A) (s : S) a w :
  (forall w a w', m w = Ok (a, w') -> w' = w) -> lift m s = Ok (a, w) -> w = s.
Proof.
  intros Hm. unfold lift. destruct (m (view s)) as [[a1 w1]|] eqn:E; [|done].
  apply Hm in E as ->. intros [= _ <-]. apply update_view.
Qed.

(** Looking at a counter changes nothing. *)
Lemma service_count_pure r s n s' : service_count r s = Ok (n, s') -> s' = s.
Proof.
  apply lift_pure. intros w a w'. destruct (direction r);
    unfold FileDescriptor.read_count, FileDescriptor.write_count, FileDescriptor.deref,
      FileDescriptor.get_cell, mbind, io_bind;
    destruct (heap w !! fd r); by intros [=].
Qed.

Lemma serve_served rules : forall pollfds kept s s', length pollfds = length rules ->
  serve rules pollfds s = Ok (kept, s') ->
  served (zip rules pollfds) s s' /\
  kept = fst <$> filter (fun rp => hung_up rp.2 = false) (zip rules pollfds).
Proof.
  induction rules as [|r rules IH]; intros [|p pollfds] kept s s' Hlen E; try done.
  { injection E as <- <-. split; [constructor|done]. }
  injection Hlen as Hlen. cbn [serve zip zip_with] in *. rewrite filter_cons. cbn [snd].
  destruct (poll_error p) eqn:Eerr; [done|]. destruct (hung_up p) eqn:Ehup.
  { apply io_bind_Ok in E as (u & s1 & Hr & E). destruct u. destruct (IH _ _ _ _ Hlen E) as [Hs ->].
    rewrite decide_False by done. split; [|done].
    econstructor; [done|unfold action; by rewrite Ehup|congruence|done]. }
  rewrite decide_True by done. cbn [fmap list_fmap fst]. destruct (poll_ready p) eqn:Er.
  - apply io_bind_Ok in E as (n1 & s0 & H1 & E). pose proof (service_count_pure _ _ _ _ H1) as ->.
    apply io_bind_Ok in E as (u & s1 & Hcb & E). destruct u.
    apply io_bind_Ok in E as (n2 & s2 & H2 & E). pose proof (service_count_pure _ _ _ _ H2) as ->.
    apply io_bind_Ok in E as (busy & s3 & Hb & E). destruct busy; [done|].
    apply io_bind_Ok in E as (kept' & s4 & Hs & [= <- <-]).
    assert (s3 = s1 /\ (n1 <> n2 \/ interest r s1 = Ok false)) as [-> Hbusy].
    { destruct (n1 =? n2) eqn:En; zb; [|injection Hb as <-; by auto].
      unfold ask in Hb. destruct (interest r s1); [|done]. injection Hb as -> <-. by auto. }
    destruct (IH _ _ _ _ Hlen Hs) as [Hsv ->]. split; [|done].
    econstructor; [done|unfold action; by rewrite Ehup, Er| |done].
    intros _ _. by exists n1, n2.
  - apply io_bind_Ok in E as (kept' & s4 & Hs & [= <- <-]).
    destruct (IH _ _ _ _ Hlen Hs) as [Hsv ->]. split; [|done].
    econstructor; [done|unfold action; by rewrite Ehup, Er|congruence|done].
Qed.

(** While every rule is live, the first loop keeps them all and changes nothing. *)
Lemma setup_live rules : forall s kept pollfds b, Forall (live s) rules -> Forall (answers s) rules ->
  setup rules kept pollfds b s =
    Ok ((kept ++ rules, pollfds ++ (request s <$> rules), b || existsb (interested s) rules), s).
Proof.
  induction rules as [|r rules IH]; intros s kept pollfds b Hl Ha; cbn [setup existsb fmap list_fmap].
  { by rewrite !app_nil_r, orb_false_r. }
  apply Forall_cons in Hl as [(c & Hc & Hcl & He) Hl]. apply Forall_cons in Ha as [[i Hi] Ha].
  rewrite (io_bind_run _ _ _ s (wrapper c)).
  2:{ rewrite (lift_run _ _ _ _ (FileDescriptor.deref_run _ _ c Hc)). by rewrite update_view. }
  rewrite He, Hcl. rewrite (io_bind_run _ _ _ s i) by (unfold ask; by rewrite Hi).
  assert (Hr : request s r = mkPollfd (FDWrapper._fd (wrapper c))
    (if i then direction_short (direction r) else 0) 0).
  { unfold request, interested. by rewrite Hc, Hi. }
  assert (Hin : interested s r = i) by (unfold interested; by rewrite Hi).
  rewrite Hr, Hin. destruct i; rewrite IH by done; rewrite <- !app_assoc; cbn [app orb].
  - by rewrite orb_true_r.
  - done.
Qed.

Lemma length_fill_revents pollfds : forall rs, length (fill_revents pollfds rs) = length pollfds.
Proof. induction pollfds as [|p pollfds IH]; intros rs; cbn; [done|by rewrite IH]. Qed.

(** Only a rule that was interested can be found ready. *)
Lemma ready_interested s rules : forall rs,
  Forall (fun rp => poll_ready rp.2 = true -> interested s rp.1 = true)
    (zip rules (fill_revents (request s <$> rules) rs)).
Proof.
  induction rules as [|r rules IH]; intros rs; cbn; constructor; [|apply IH].
  unfold poll_ready. cbn. destruct (interested s r); [done|]. by rewrite Z.land_0_r.
Qed.

Lemma serve_success (rules : list Rule) revs s s1 s' r rules' :
  (rules ← serve rules (fill_revents (request s <$> rules) revs); mret (Success, rules)) s1
    = Ok ((r, rules'), s') ->
  let polled := zip rules (fill_revents (request s <$> rules) revs) in
  r = Success /\ served polled s1 s' /\
  Forall (fun rp => poll_ready rp.2 = true -> interested s rp.1 = true) polled /\
  rules' = fst <$> filter (fun rp => hung_up rp.2 = false) polled.
Proof.
  cbv zeta. intros E. apply io_bind_Ok in E as (kept & s2 & E & [= <- <- <-]).
  apply serve_served in E as [? ?]; [|by rewrite length_fill_revents, length_fmap].
  split_and!; [done..|apply ready_interested|done].
Qed.

(** The two loops rule by rule. *)
Lemma setup_app l1 : forall l2 kept pollfds b s,
  setup (l1 ++ l2) kept pollfds b s =
    match setup l1 kept pollfds b s with
    | Ok ((kept', pollfds', b'), s') => setup l2 kept' pollfds' b' s'
    | Throw e => Throw e
    end.
Proof.
  induction l1 as [|r l1 IH]; intros l2 kept pollfds b s; [done|]. cbn [app setup].
  unfold mbind, io_bind. destruct (lift _ s) as [[x s1]|]; [|done].
  destruct (_ && _); [destruct (retire r s1) as [[? s2]|]; [apply IH|done]|].
  destruct (FDWrapper._closed x); [destruct (retire r s1) as [[? s2]|]; [apply IH|done]|].
  destruct (ask r s1) as [[[] s2]|]; [apply IH..|done].
Qed.

Lemma setup_keep r x i s kept pollfds b : lift (FileDescriptor.deref (fd r)) s = Ok (x, s) ->
  is_in (direction r) && FDWrapper._eof x = false -> FDWrapper._closed x = false -> interest r s = Ok i ->
  setup [r] kept pollfds b s =
    Ok ((kept ++ [r], pollfds ++ [mkPollfd (FDWrapper._fd x) (if i then direction_short (direction r) else 0) 0],
         if i then true else b), s).
Proof.
  intros Hx He Hc Hi. cbn. rewrite (io_bind_run _ _ _ _ _ Hx), He, Hc.
  rewrite (io_bind_run _ _ _ s i) by (unfold ask; by rewrite Hi). by destruct i.
Qed.

Lemma setup_retire r x s s1 kept pollfds b : lift (FileDescriptor.deref (fd r)) s = Ok (x, s) ->
  is_in (direction r) && FDWrapper._eof x = true -> retire r s = Ok (tt, s1) ->
  setup [r] kept pollfds b s = Ok ((kept, pollfds, b), s1).
Proof.
  intros Hx He Hr. cbn. rewrite (io_bind_run _ _ _ _ _ Hx), He. by rewrite (io_bind_run _ _ _ _ _ Hr).
Qed.

Lemma serve_app l1 : forall l2 p1 p2 s, length p1 = length l1 ->
  serve (l1 ++ l2) (p1 ++ p2) s =
    match serve l1 p1 s with
    | Ok (kept1, s1) =>
        match serve l2 p2 s1 with
        | Ok (kept2, s2) => Ok (kept1 ++ kept2, s2)
        | Throw e => Throw e
        end
    | Throw e => Throw e
    end.
Proof.
  induction l1 as [|r l1 IH]; intros l2 [|p p1] p2 s Hlen; try done.
  { cbn. by destruct (serve l2 p2 s) as [[? ?]|]. }
  injection Hlen as Hlen. cbn [app serve]. destruct (poll_error p); [done|].
  assert (Hrest : forall s1, (kept ← serve (l1 ++ l2) (p1 ++ p2); mret (r :: kept)) s1 =
    match (kept ← serve l1 p1; mret (r :: kept)) s1 with
    | Ok (kept1, s1) =>
        match serve l2 p2 s1 with
        | Ok (kept2, s2) => Ok (kept1 ++ kept2, s2)
        | Throw e => Throw e
        end
    | Throw e => Throw e
    end).
  { intros s1. unfold mbind, io_bind. rewrite IH by done. destruct (serve l1 p1 s1) as [[k1 s2]|]; [|done].
    cbn. by destruct (serve l2 p2 s2) as [[k2 s3]|]. }
  destruct (hung_up p).
  { unfold mbind, io_bind. destruct (retire r s) as [[? s1]|]; [|done]. by apply IH. }
  destruct (poll_ready p); [|apply Hrest].
  unfold mbind at 1 2 3 4 6 7 8 9, io_bind at 1 2 3 4 6 7 8 9.
  destruct (service_count r s) as [[n1 s1]|]; [|done]. destruct (callback r s1) as [[? s2]|]; [|done].
  destruct (service_count r s2) as [[n2 s3]|]; [|done].
  destruct ((if n1 =? n2 then ask r else mret false) s3) as [[[] s4]|]; [done|apply Hrest|done].
Qed.

Lemma serve_hung_up r p s s1 : poll_error p = false -> hung_up p = true -> retire r s = Ok (tt, s1) ->
  serve [r] [p] s = Ok ([], s1).
Proof. intros He Hh E. cbn. rewrite He, Hh. by rewrite (io_bind_run _ _ _ _ _ E). Qed.

Lemma serve_idle r p s : poll_error p = false -> hung_up p = false -> poll_ready p = false ->
  serve [r] [p] s = Ok ([r], s).
Proof. intros He Hh Hr. cbn. by rewrite He, Hh, Hr. Qed.

Lemma serve_ready r p s s1 n1 n2 : poll_error p = false -> hung_up p = false -> poll_ready p = true ->
  callback r s = Ok (tt, s1) -> service_count r s = Ok (n1, s) -> service_count r s1 = Ok (n2, s1) ->
  n1 <> n2 \/ interest r s1 = Ok false ->
  serve [r] [p] s = Ok ([r], s1).
Proof.
  intros He Hh Hr E C1 C2 Hb. cbn. rewrite He, Hh, Hr.
  rewrite (io_bind_run _ _ _ _ _ C1), (io_bind_run _ _ _ _ _ E), (io_bind_run _ _ _ _ _ C2).
  destruct (n1 =? n2) eqn:En; zb; [|done]. destruct Hb as [?|Hb]; [done|].
  by rewrite (io_bind_run _ _ _ s1 false) by (unfold ask; by rewrite Hb).
Qed.

(** A callback that throws ends the round. *)
Lemma serve_throws r p rs ps s n e : poll_error p = false -> hung_up p = false -> poll_ready p = true ->
  service_count r s = Ok (n, s) -> callback r s = Throw e -> serve (r :: rs) (p :: ps) s = Throw e.
Proof.
  intros He Hh Hr C E. cbn [serve]. rewrite He, Hh, Hr, (io_bind_run _ _ _ _ _ C). by apply io_bind_throw.
Qed.

(** Without news nothing runs. *)
Lemma serve_nothing s s1 rules : serve rules (fill_revents (request s <$> rules) []) s1 = Ok (rules, s1).
Proof.
  induction rules as [|r rules IH]; [done|]. cbn [fmap list_fmap fill_revents serve head tail default].
  unfold poll_error, hung_up, poll_hup, poll_ready. cbn [revents]. rewrite !Z.land_0_l. cbn.
  by rewrite (io_bind_run _ _ _ s1 rules) by apply IH.
Qed.

Lemma add_rule_run h d cb i cn rs s x n : heap (view s) !! h = Some (mkCell x n) ->
  add_rule h d cb i cn rs s =
    Ok (rs ++ [mkRule h d cb i cn], update (set_cell h (mkCell x (n + 1)) (view s)) s).
Proof.
  intros Hx. unfold add_rule.
  by rewrite (io_bind_run _ _ _ _ _ (lift_run _ _ _ _ (FileDescriptor.duplicate_run h _ x n Hx))).
Qed.

(** ** Sound sets of rules

    A discipline under which the loop never throws.  [I rs s] is an invariant of the
    state while the rules [rs] are installed, [token s r] is what a report of [poll]
    lets the callback of [r] rely on, and [quiet s r] and [eager s r] are what is known
    of a rule that has said that it is not interested, or that it is. *)
Definition number (s : S) (r : Rule) : Z :=
  match heap (view s) !! fd r with Some c => FDWrapper._fd (wrapper c) | None => 0 end.

(** A question that the loop may put to the kernel for a rule. *)
Definition asks (eager : S -> Rule -> Prop) (s : S) (r : Rule) (p : pollfd) : Prop :=
  poll_fd p = number s r /\ (events p = 0 \/ events p = direction_short (direction r) /\ eager s r).

(** What stays true of another rule. *)
Record keeps (token : S -> Rule -> Prop) (s s' : S) (r : Rule) : Prop := {
  kp_live : live s r -> live s' r;
  kp_token : token s r -> token s' r;
  kp_number : number s' r = number s r
}.

Record sound (I : list Rule -> S -> Prop) (token quiet eager : S -> Rule -> Prop) : Prop := {
  sd_open : forall rs s r, I rs s -> r ∈ rs -> is_Some (heap (view s) !! fd r);
  sd_answers : forall rs s r, I rs s -> r ∈ rs -> answers s r;
  sd_quiet : forall rs s r, I rs s -> r ∈ rs -> interest r s = Ok false -> quiet s r;
  sd_eager : forall rs s r, I rs s -> r ∈ rs -> interest r s = Ok true -> eager s r;
  sd_retire : forall l1 r l2 s, I (l1 ++ r :: l2) s ->
    exists s', retire r s = Ok (tt, s') /\ I (l1 ++ l2) s' /\
      (forall r', r' ∈ l1 ++ l2 -> keeps token s s' r' /\ (quiet s r' -> quiet s' r') /\
        (eager s r' -> eager s' r'));
  sd_poll : forall rs s fds timeout a revs k, I rs s -> Forall2 (asks eager s) rs fds ->
    k_poll fds timeout (kernel (view s)) = (a, revs, k) ->
    let s' := update (set_kernel k (view s)) s in
    0 <= ret a < two31 /\ I rs s' /\ (forall r, r ∈ rs -> keeps token s s' r) /\
    Forall2 (fun r p => poll_error p = false /\ (poll_ready p = true -> token s' r))
      rs (fill_revents fds revs);
  sd_callback : forall l1 r l2 s, I (l1 ++ r :: l2) s -> live s r -> token s r ->
    exists s' n1 n2, callback r s = Ok (tt, s') /\ I (l1 ++ r :: l2) s' /\
      service_count r s = Ok (n1, s) /\ service_count r s' = Ok (n2, s') /\ n1 <> n2 /\
      (forall r', r' ∈ l2 -> keeps token s s' r')
}.

Section Sound.
Context (I : list Rule -> S -> Prop) (token quiet eager : S -> Rule -> Prop) (HI : sound I token quiet eager).
#[local] Abbreviation asks := (asks eager).

Lemma keeps_asks s s' r p : keeps token s s' r -> (eager s r -> eager s' r) -> asks s r p -> asks s' r p.
Proof. intros [_ _ Hn] Hk [Hp He]. split; [by rewrite Hn|]. destruct He as [He|[He ?]]; auto. Qed.

(** A rule is found ready only when it was asked about, which it was out of interest. *)
Lemma asked_ready s r p z : asks s r p -> poll_ready (mkPollfd (poll_fd p) (events p) z) = true ->
  events p = direction_short (direction r) /\ eager s r.
Proof.
  intros [_ [He|He]] Hr; [|done]. unfold poll_ready in Hr. cbn in Hr. by rewrite He, Z.land_0_r in Hr.
Qed.

(** What holds of every answer of [poll], rule by rule. *)
Lemma answers_rules (P : pollfd -> Prop) (Q : Rule -> pollfd -> Prop) s rs : forall fds revs,
  Forall2 (asks s) rs fds -> Forall P (fill_revents fds revs) ->
  (forall r p z, r ∈ rs -> asks s r p -> P (mkPollfd (poll_fd p) (events p) z) ->
     Q r (mkPollfd (poll_fd p) (events p) z)) ->
  Forall2 Q rs (fill_revents fds revs).
Proof.
  induction rs as [|r rs IH]; intros fds revs Ha Hr HQ.
  - apply Forall2_nil_inv_l in Ha as ->. constructor.
  - apply Forall2_cons_inv_l in Ha as (p & ps & Hp & Ha & ->). cbn [fill_revents] in *.
    apply Forall_cons in Hr as [Hr Hrs]. constructor; [apply HQ; [by left|done..]|].
    apply IH; [done..|]. intros r' p' z Hin. apply HQ. by right.
Qed.

Lemma setup_sound rules : forall kept pollfds b s, I (kept ++ rules) s -> Forall (live s) kept ->
  Forall2 (asks s) kept pollfds -> (b = false -> Forall (quiet s) kept) ->
  exists kept' pollfds' b' s', setup rules kept pollfds b s = Ok ((kept', pollfds', b'), s') /\
    I kept' s' /\ Forall (live s') kept' /\ Forall2 (asks s') kept' pollfds' /\
    (b' = false -> Forall (quiet s') kept').
Proof.
  induction rules as [|r rules IH]; intros kept pollfds b s Hi Hl Ha Hq; cbn [setup].
  { rewrite app_nil_r in Hi. by exists kept, pollfds, b, s. }
  destruct (sd_open _ _ _ _ HI _ _ r Hi) as [c Hc]; [set_solver|].
  rewrite (io_bind_run _ _ _ s (wrapper c)).
  2:{ rewrite (lift_run _ _ _ _ (FileDescriptor.deref_run _ _ c Hc)). by rewrite update_view. }
  assert (Hretire : exists kept' pollfds' b' s',
    (_ ← retire r; setup rules kept pollfds b) s = Ok ((kept', pollfds', b'), s') /\
    I kept' s' /\ Forall (live s') kept' /\ Forall2 (asks s') kept' pollfds' /\
    (b' = false -> Forall (quiet s') kept')).
  { destruct (sd_retire _ _ _ _ HI kept r rules s Hi) as (s1 & E & Hi1 & Hk).
    rewrite (io_bind_run _ _ _ _ _ E).
    assert (Hin : forall r', r' ∈ kept -> keeps token s s1 r' /\ (quiet s r' -> quiet s1 r') /\ (eager s r' -> eager s1 r'))
      by (intros r' Hr'; apply Hk; set_solver).
    apply IH; [done|..].
    - rewrite Forall_forall in *. intros r' Hr'. by apply (kp_live _ _ _ _ (proj1 (Hin r' Hr'))), Hl.
    - apply Forall2_same_length_lookup in Ha as [Hlen Ha]. apply Forall2_same_length_lookup. split; [done|].
      intros i r' p Hr' Hp. apply list_elem_of_lookup_2 in Hr' as Hel.
      eapply keeps_asks; [apply Hin, Hel|apply Hin, Hel|by eapply Ha].
    - intros Hb. specialize (Hq Hb). rewrite Forall_forall in *. intros r' Hr'. by apply Hin, Hq. }
  destruct (is_in (direction r) && FDWrapper._eof (wrapper c)) eqn:He; [done|].
  destruct (FDWrapper._closed (wrapper c)) eqn:Hcl; [done|]. clear Hretire.
  destruct (sd_answers _ _ _ _ HI _ _ r Hi) as [i Hint]; [set_solver|].
  rewrite (io_bind_run _ _ _ s i) by (unfold ask; by rewrite Hint).
  assert (Hi' : I ((kept ++ [r]) ++ rules) s) by (by rewrite <- app_assoc).
  assert (Hl' : Forall (live s) (kept ++ [r])) by (apply Forall_app; split; [done|]; constructor; [by exists c|done]).
  assert (Hn : number s r = FDWrapper._fd (wrapper c)) by (unfold number; by rewrite Hc).
  destruct i; apply IH; try done.
  - apply Forall2_app; [done|]. constructor; [|done]. split; [done|]. right. split; [done|].
    eapply (sd_eager _ _ _ _ HI); [done|set_solver|done].
  - apply Forall2_app; [done|]. constructor; [|done]. split; [done|by left].
  - intros Hb. apply Forall_app. split; [by apply Hq|]. constructor; [|done]. eapply (sd_quiet _ _ _ _ HI); [done|set_solver|done].
Qed.

Lemma serve_sound rules : forall passed pollfds s, I (passed ++ rules) s -> Forall (live s) rules ->
  Forall2 (fun r p => poll_error p = false /\ (poll_ready p = true -> token s r)) rules pollfds ->
  exists kept s', serve rules pollfds s = Ok (kept, s') /\ I (passed ++ kept) s'.
Proof.
  induction rules as [|r rules IH]; intros passed pollfds s Hi Hl Hp; cbn [serve].
  { by exists [], s. }
  apply Forall_cons in Hl as [Hlr Hl]. apply Forall2_cons_inv_l in Hp as (p & ps & [He Ht] & Hps & ->).
  rewrite He.
  assert (Hrest : forall passed' s', (forall r', r' ∈ rules -> keeps token s s' r') -> I (passed' ++ rules) s' ->
    exists kept s'', serve rules ps s' = Ok (kept, s'') /\ I (passed' ++ kept) s'').
  { intros passed' s' Hk Hi'. apply IH; [done|..].
    - rewrite Forall_forall in *. intros r' Hr'. by apply (kp_live _ _ _ _ (Hk r' Hr')), Hl.
    - apply Forall2_same_length_lookup in Hps as [Hlen Hps]. apply Forall2_same_length_lookup. split; [done|].
      intros i r' p' Hr' Hp'. destruct (Hps i r' p' Hr' Hp') as [H1 H2]. split; [done|].
      intros Hrd. apply (kp_token _ _ _ _ (Hk r' (list_elem_of_lookup_2 _ _ _ Hr'))), H2, Hrd. }
  assert (Hkeep : forall s', (forall r', r' ∈ rules -> keeps token s s' r') -> I (passed ++ r :: rules) s' ->
    exists kept s'', (kept ← serve rules ps; mret (r :: kept)) s' = Ok (kept, s'') /\ I (passed ++ kept) s'').
  { intros s' Hk Hi'. destruct (Hrest (passed ++ [r]) s' Hk) as (kept & s'' & E & Hi''); [by rewrite <- app_assoc|].
    rewrite (io_bind_run _ _ _ _ _ E). exists (r :: kept), s''. split; [done|]. by rewrite <- app_assoc in Hi''. }
  destruct (hung_up p).
  { destruct (sd_retire _ _ _ _ HI passed r rules s Hi) as (s1 & E & Hi1 & Hk). rewrite (io_bind_run _ _ _ _ _ E).
    apply Hrest; [|done]. intros r' Hr'. apply Hk. set_solver. }
  destruct (poll_ready p).
  - destruct (sd_callback _ _ _ _ HI passed r rules s Hi Hlr (Ht eq_refl)) as (s1 & n1 & n2 & E & Hi1 & C1 & C2 & Hne & Hk).
    rewrite (io_bind_run _ _ _ _ _ C1), (io_bind_run _ _ _ _ _ E), (io_bind_run _ _ _ _ _ C2).
    rewrite (proj2 (Z.eqb_neq _ _) Hne). rewrite (io_bind_run _ _ _ s1 false) by done. by apply Hkeep.
  - apply Hkeep; [|done]. done.
Qed.

(** One round of a sound set of rules: it returns, the invariant holds for the rules
    that are left, and it says [Exit] only when none of them is interested. *)
Lemma wait_sound timeout rs s : I rs s ->
  exists r rs' s', wait_next_event timeout rs s = Ok ((r, rs'), s') /\ I rs' s' /\
    (r = Exit -> Forall (quiet s') rs').
Proof.
  intros Hi. unfold wait_next_event.
  destruct (setup_sound rs [] [] false s Hi) as (kept & fds & b & s1 & E & Hi1 & Hl & Ha & Hq); [done..|].
  rewrite (io_bind_run _ _ _ _ _ E). destruct b; cbn [negb].
  2:{ exists Exit, kept, s1. auto. }
  destruct (k_poll fds timeout (kernel (view s1))) as [[a revs] k] eqn:Hk.
  destruct (sd_poll _ _ _ _ HI kept s1 fds timeout a revs k Hi1 Ha Hk) as (Hr & Hi2 & Hkp & Hrep).
  set (s2 := update (set_kernel k (view s1)) s1) in *.
  rewrite (io_bind_run _ _ _ s2 (a, revs)) by (apply lift_run; unfold syscall_out; by rewrite Hk).
  rewrite FileDescriptor.SystemCall_ok by done.
  assert (Hl2 : Forall (live s2) kept).
  { rewrite Forall_forall in *. intros r Hin. by apply (kp_live _ _ _ _ (Hkp r Hin)), Hl. }
  destruct (serve_sound kept [] (fill_revents fds revs) s2 Hi2 Hl2 Hrep) as (kept' & s3 & E3 & Hi3).
  destruct (ret a).
  - by exists Timeout, kept, s2.
  - rewrite (io_bind_run _ _ _ _ _ E3). by exists Success, kept', s3.
  - rewrite (io_bind_run _ _ _ _ _ E3). by exists Success, kept', s3.
Qed.
End Sound.

End EventLoop.

(** C22: one round of the loop, when no rule is finished.  Without an interested rule
    it exits and touches nothing.  Otherwise the kernel is asked once, for the
    direction of the interested rules and for errors of the others; on a timeout or a
    signal nothing runs.  When it returns [Success], the rules have been treated in
    order by the results of [poll]: a callback ran only for a rule that was interested
    and whose direction was reported, it served its descriptor or its rule lost
    interest, no result was an error, and exactly the rules whose only news was a
    hangup were cancelled and removed. *)
Theorem event_loop_round (K S : Type) (HK : Kernel K) (HS : Holds S (world K)) (timeout_ms : Z)
  (rules rules' : list (@Rule S)) (s s' : S) (r : Result)
  (Hlive : Forall (live s) rules) (Hans : Forall (answers s) rules)
  (Hrun : wait_next_event timeout_ms rules s = Ok ((r, rules'), s')) :
  let fds := request s <$> rules in
  let '(a, revs, k) := k_poll fds timeout_ms (kernel (view s)) in
  let s1 := update (set_kernel k (view s)) s in
  let polled := zip rules (fill_revents fds revs) in
  match r with
  | Exit => rules' = rules /\
      (existsb (interested s) rules = false /\ s' = s \/
       existsb (interested s) rules = true /\ SystemCall a 0 = Throw (unix_error EINTR) /\ s' = s1)
  | Timeout => rules' = rules /\ existsb (interested s) rules = true /\ s32 (ret a) = 0 /\ s' = s1
  | Success => existsb (interested s) rules = true /\ served polled s1 s' /\
      Forall (fun rp => poll_ready rp.2 = true -> interested s rp.1 = true) polled /\
      rules' = fst <$> filter (fun rp => hung_up rp.2 = false) polled
  end.
Proof.
  cbv zeta. destruct (k_poll _ timeout_ms (kernel (view s))) as [[a revs] k] eqn:Hk.
  unfold wait_next_event in Hrun.
  rewrite (io_bind_run _ _ _ _ _ (setup_live rules s [] [] false Hlive Hans)) in Hrun. cbn [app orb] in Hrun.
  destruct (existsb (interested s) rules) eqn:Hi; cbn [negb] in Hrun.
  2:{ injection Hrun as <- <- <-. by auto. }
  set (s1 := update (set_kernel k (view s)) s) in *.
  rewrite (io_bind_run _ _ _ s1 (a, revs)) in Hrun
    by (apply lift_run; unfold syscall_out; by rewrite Hk).
  destruct (SystemCall a 0) as [n|e] eqn:Hsys.
  - destruct n as [|n|n]; [|apply serve_success in Hrun as (-> & ? & ? & ?); done..].
    injection Hrun as <- <- <-. split_and!; try done.
    unfold SystemCall in Hsys. destruct (_ || _); congruence.
  - destruct e as [| | | |e| |]; try (apply serve_success in Hrun as (-> & ? & ? & ?); done).
    destruct (e =? EINTR) eqn:Ee; zb.
    + injection Hrun as <- <- <-. subst. by auto.
    + apply serve_success in Hrun as (-> & ? & ? & ?). done.
Qed.

(** A rule that reads, and one that is never interested, over the scripted kernel. *)
#[global] Instance world_self (K : Type) : Holds (world K) (world K) := {|
  view := fun w => w; update := fun w _ => w;
  view_update := fun _ _ => eq_refl; update_view := fun _ => eq_refl; update_update := fun _ _ _ => eq_refl
|}.

Definition demo_rules : list (@Rule (world Scripted.t)) :=
  [ mkRule 0%nat DirIn (_ ← FileDescriptor.read 10 0%nat; mret tt) (fun _ => Ok true) (mret tt);
    mkRule 0%nat DirOut (mret tt) (fun _ => Ok false) (mret tt) ].
Definition demo_world (p : Z * list Z) : world Scripted.t :=
  mkWorld (Scripted.mk 2 [] [[x61]] [] [p] 0) {[ 0%nat := mkCell (FDWrapper.mk 9 false false 0 0) 3 ]} 1.

Lemma demo_live p : Forall (live (demo_world p)) demo_rules /\ Forall (answers (demo_world p)) demo_rules.
Proof.
  split; repeat constructor; try (by eexists);
    exists (mkCell (FDWrapper.mk 9 false false 0 0) 3); done.
Qed.

Lemma event_loop_round_witness :
  exists s', wait_next_event 10 demo_rules (demo_world (0, [POLLIN])) = Ok ((Success, demo_rules), s') /\
    served (zip demo_rules [mkPollfd 9 POLLIN POLLIN; mkPollfd 9 0 0])
      (mkWorld (Scripted.mk 2 [] [[x61]] [] [] 0) {[ 0%nat := mkCell (FDWrapper.mk 9 false false 0 0) 3 ]} 1) s'.
Proof.
  destruct (wait_next_event 10 demo_rules (demo_world (0, [POLLIN]))) as [[[r rules'] s']|e] eqn:E.
  2:{ apply (f_equal (fun x => match x with Ok _ => true | Throw _ => false end)) in E.
      vm_compute in E. discriminate. }
  pose proof (f_equal (fun x => match x with Ok ((r, _), _) => r | Throw _ => Exit end) E) as Hr.
  vm_compute in Hr. subst r.
  pose proof (event_loop_round Scripted.t (world Scripted.t) _ _ 10 demo_rules rules'
    (demo_world (0, [POLLIN])) s' Success (proj1 (demo_live _)) (proj2 (demo_live _)) E) as H.
  cbv zeta in H. destruct H as (_ & Hs & _ & ->). exists s'. split; [reflexivity|exact Hs].
Defined.

(** A failure of [poll] other than an interrupting signal is not reported.  When
    the kernel has changed no [revents], the round runs no callback and returns
    [Success], where the comment of [wait_next_event] promises an exception. *)
Theorem poll_failure_swallowed (K S : Type) (HK : Kernel K) (HS : Holds S (world K)) (timeout_ms : Z)
  (rules : list (@Rule S)) (s : S) (a : answer) (k : K)
  (Hlive : Forall (live s) rules) (Hans : Forall (answers s) rules)
  (Hint : existsb (interested s) rules = true)
  (Hpoll : k_poll (request s <$> rules) timeout_ms (kernel (view s)) = (a, [], k))
  (Hfail : ret a = -1) (Herr : errno a <> 0 /\ errno a <> EINTR) :
  wait_next_event timeout_ms rules s = Ok ((Success, rules), update (set_kernel k (view s)) s).
Proof.
  unfold wait_next_event. rewrite (io_bind_run _ _ _ _ _ (setup_live rules s [] [] false Hlive Hans)).
  cbn [app orb]. rewrite Hint. cbn [negb]. set (s1 := update (set_kernel k (view s)) s).
  rewrite (io_bind_run _ _ _ s1 (a, [])) by (apply lift_run; unfold syscall_out; by rewrite Hpoll).
  rewrite FileDescriptor.SystemCall_fails by tauto.
  rewrite (proj2 (Z.eqb_neq _ _)) by tauto. by rewrite (io_bind_run _ _ _ s1 rules) by apply serve_nothing.
Qed.

Lemma poll_failure_swallowed_witness :
  wait_next_event 10 demo_rules (demo_world (12, [])) =
    Ok ((Success, demo_rules), mkWorld (Scripted.mk 2 [] [[x61]] [] [] 0)
      {[ 0%nat := mkCell (FDWrapper.mk 9 false false 0 0) 3 ]} 1).
Proof.
  rewrite (poll_failure_swallowed Scripted.t (world Scripted.t) _ _ 10 demo_rules (demo_world (12, []))
    (Answer (-1) 12) (Scripted.mk 2 [] [[x61]] [] [] 0));
    [reflexivity|apply demo_live|apply demo_live|reflexivity|reflexivity|reflexivity|].
  split; cbn; unfold EINTR; lia.
Defined.

End EventLoop.
