(* ===== verification/SpongeSocket.v ===== *)
(** * The socket on top of TCP (tcp_helpers/tcp_sponge_socket.hh, tcp_sponge_socket.cc)

    [TCPSpongeSocket] runs a [TCPConnection] in an event loop between a local stream
    socket, whose other end the owner reads and writes, and a datagram adapter.  Its
    four rules are the definitions [rule1] to [rule4].  The state is the object, with
    the descriptors and the kernel in it; the list of rules is passed next to it,
    because the rules' functions work on the state.  The owner's thread appears as
    what it leaves in the local socket and as the flag [_abort]. *)

From stdpp Require Import pretty.
From S2P Require Import Prelude Wrapping Stream Reassembly Buffers TcpWire TcpReceiver TcpSender Transfer TcpConnection TcpState EthernetWire NetworkInterface Addresses FileDescriptor Sockets Adapter EventLoop.
From Stdlib Require Import Strings.Byte.
From Stdlib Require Strings.String.

(** The device below an adapter: how one packet is read from the descriptor, and how
    one that the adapter has sent is written to it. *)
Class FdDevice (K A Device : Type) `{Kernel K} `{FdAdapter A Device} : Type := {
  Packet : Type;
  adapter_log : A -> list Packet;
  device_read : FileDescriptor.t -> io (world K) Device;
  device_write : FileDescriptor.t -> Packet -> io (world K) unit
}.

#[global] Instance udp_device (K : Type) `{Kernel K} :
  FdDevice K TCPOverUDPSocketAdapter.t UDPSocket.received_datagram := {|
  Packet := Address.t * BufferList.t;
  adapter_log := TCPOverUDPSocketAdapter._sock;
  device_read := UDPSocket.recv UDPSocket.default_mtu;
  device_write := fun h p => UDPSocket.sendto p.1 (BufferViewList.of_buffers p.2) h
|}.

(** [_tun.read()], and [_tun.write(...)] with its default of writing everything. *)
Definition write_packet {K} `{Kernel K} (h : FileDescriptor.t) (p : BufferList.t) : io (world K) unit :=
  _ ← FileDescriptor.write (BufferViewList.of_buffers p) true h; mret tt.

#[global] Instance tun_device (K : Type) `{Kernel K} `{Address.Netdb} :
  FdDevice K TCPOverIPv4OverTunFdAdapter.t bytes := {|
  Packet := BufferList.t;
  adapter_log := TCPOverIPv4OverTunFdAdapter._tun;
  device_read := FileDescriptor.read FileDescriptor.no_limit;
  device_write := write_packet
|}.

#[global] Instance ethernet_device (K : Type) `{Kernel K} `{Address.Netdb} :
  FdDevice K TCPOverIPv4OverEthernetAdapter.t bytes := {|
  Packet := BufferList.t;
  adapter_log := TCPOverIPv4OverEthernetAdapter._tap;
  device_read := FileDescriptor.read FileDescriptor.no_limit;
  device_write := write_packet
|}.

#[global] Instance lossy_device (K A Device : Type) `{FdDevice K A Device} (mt19937 : nat -> Z) :
  @FdDevice K (@LossyFdAdapter.t A) Device _ (LossyFdAdapter.lossy_adapter mt19937) := {|
  Packet := Packet;
  adapter_log := fun l => adapter_log (LossyFdAdapter._adapter l);
  device_read := device_read;
  device_write := device_write
|}.

Definition TCP_TICK_MS : Z := 10.

Module TCPSpongeSocket.
Section TCPSpongeSocket.
Context {K A Device : Type} `{FdDevice K A Device}.

(** [class TCPSpongeSocket<AdaptT>]: [self] is the owner's end (the base class),
    [adapter_fd] the descriptor that the adapter converts to. *)
Record t : Type := mk {
  os : world K;
  self : FileDescriptor.t;
  _thread_data : FileDescriptor.t;
  _datagram_adapter : A;
  adapter_fd : FileDescriptor.t;
  _tcp : option TCPConnection.t;
  _abort : bool;
  _inbound_shutdown : bool;
  _outbound_shutdown : bool;
  _fully_acked : bool
}.

Definition set_os (w : world K) (s : t) : t :=
  mk w (self s) (_thread_data s) (_datagram_adapter s) (adapter_fd s) (_tcp s) (_abort s)
     (_inbound_shutdown s) (_outbound_shutdown s) (_fully_acked s).
Definition set_adapter (a : A) (s : t) : t :=
  mk (os s) (self s) (_thread_data s) a (adapter_fd s) (_tcp s) (_abort s)
     (_inbound_shutdown s) (_outbound_shutdown s) (_fully_acked s).
Definition set_tcp (c : option TCPConnection.t) (s : t) : t :=
  mk (os s) (self s) (_thread_data s) (_datagram_adapter s) (adapter_fd s) c (_abort s)
     (_inbound_shutdown s) (_outbound_shutdown s) (_fully_acked s).
Definition set_abort (s : t) : t :=
  mk (os s) (self s) (_thread_data s) (_datagram_adapter s) (adapter_fd s) (_tcp s) true
     (_inbound_shutdown s) (_outbound_shutdown s) (_fully_acked s).
Definition set_inbound_shutdown (s : t) : t :=
  mk (os s) (self s) (_thread_data s) (_datagram_adapter s) (adapter_fd s) (_tcp s) (_abort s)
     true (_outbound_shutdown s) (_fully_acked s).
Definition set_outbound_shutdown (s : t) : t :=
  mk (os s) (self s) (_thread_data s) (_datagram_adapter s) (adapter_fd s) (_tcp s) (_abort s)
     (_inbound_shutdown s) true (_fully_acked s).
Definition set_fully_acked (s : t) : t :=
  mk (os s) (self s) (_thread_data s) (_datagram_adapter s) (adapter_fd s) (_tcp s) (_abort s)
     (_inbound_shutdown s) (_outbound_shutdown s) true.

#[export] Instance socket_os : Holds t (world K) := {|
  view := os; update := set_os;
  view_update := fun _ _ => eq_refl;
  update_view := fun s => match s with mk _ _ _ _ _ _ _ _ _ _ => eq_refl end;
  update_update := fun _ _ _ => eq_refl
|}.

(** [_tcp.value()] and [_tcp->]: undefined without a connection. *)
Definition tcp (s : t) : res TCPConnection.t :=
  match _tcp s with
  | Some c => Ok c
  | None => Throw undefined
  end.
Definition with_tcp {B} (f : TCPConnection.t -> res (B * TCPConnection.t)) : io t B := fun s =>
  match tcp s with
  | Throw e => Throw e
  | Ok c =>
      match f c with
      | Ok (b, c') => Ok (b, set_tcp (Some c') s)
      | Throw e => Throw e
      end
  end.
Definition on_tcp (f : TCPConnection.t -> res TCPConnection.t) : io t unit :=
  with_tcp (fun c => c' ← f c; Ok (tt, c')).
Definition ask_tcp {B} (f : TCPConnection.t -> B) : io t B := with_tcp (fun c => Ok (f c, c)).

(** An operation of the adapter; what it sends goes to the device. *)
Fixpoint flush (h : FileDescriptor.t) (ps : list Packet) : io (world K) unit :=
  match ps with
  | [] => mret tt
  | p :: ps' => _ ← device_write h p; flush h ps'
  end.
Definition with_adapter {B} (f : A -> res (B * A)) : io t B := fun s =>
  match f (_datagram_adapter s) with
  | Throw e => Throw e
  | Ok (b, a) =>
      let sent := drop (length (adapter_log (_datagram_adapter s))) (adapter_log a) in
      (_ ← lift (flush (adapter_fd s) sent); mret b) (set_adapter a s)
  end.

Definition adapter_read_segment : io t (option TCPSegment.t) := fun s =>
  (dev ← lift (device_read (adapter_fd s)); with_adapter (adapter_read dev)) s.
Definition adapter_write_segment (seg : TCPSegment.t) : io t unit :=
  _ ← with_adapter (adapter_write seg); mret tt.
Definition adapter_tick_ms (ms : Z) : io t unit :=
  with_adapter (fun a => a' ← adapter_tick ms a; Ok (tt, a')).

(** A descriptor of the object. *)
Definition on_fd {B} (fd : t -> FileDescriptor.t) (f : FileDescriptor.t -> io (world K) B) : io t B := fun s =>
  lift (f (fd s)) s.

(** ** The four rules of [_initialize_TCP] *)

(** Rule 1: a datagram from the peer. *)
Definition callback1 : io t unit :=
  seg ← adapter_read_segment;
  _ ← match seg with
      | Some g => on_tcp (TCPConnection.segment_received g)
      | None => mret tt
      end;
  eof ← on_fd _thread_data FileDescriptor.eof;
  in_flight ← ask_tcp TCPConnection.bytes_in_flight;
  s ← get;
  if eof && (in_flight =? 0) && negb (_fully_acked s) then modify set_fully_acked else mret tt.
Definition interest1 (s : t) : res bool := c ← tcp s; Ok (TCPConnection.active c).

(** The cancellation of rule 2, and the end of its callback. *)
Definition end_outbound : io t unit :=
  _ ← on_tcp TCPConnection.end_input_stream;
  modify set_outbound_shutdown.

(** Rule 2: bytes from the owner. *)
Definition callback2 : io t unit :=
  capacity ← ask_tcp TCPConnection.remaining_outbound_capacity;
  data ← on_fd _thread_data (FileDescriptor.read capacity);
  amount_written ← with_tcp (TCPConnection.write data);
  if negb (amount_written =? zlen data) then throw runtime_error
  else
    eof ← on_fd _thread_data FileDescriptor.eof;
    if (eof : bool) then end_outbound else mret tt.
Definition interest2 (s : t) : res bool :=
  c ← tcp s;
  Ok (TCPConnection.active c && negb (_outbound_shutdown s) &&
      (0 <? TCPConnection.remaining_outbound_capacity c)).

(** Rule 3: bytes for the owner. *)
Definition set_inbound (st : ByteStream.t) (c : TCPConnection.t) : TCPConnection.t :=
  TCPConnection.set_receiver (TCPReceiver.set_stream_out st (TCPConnection._receiver c)) c.
Definition callback3 : io t unit :=
  inbound ← ask_tcp TCPConnection.inbound_stream;
  let amount_to_write := Z.min 65536 (ByteStream.buffer_size inbound) in
  buffer ← of_res (ByteStream.peek_output amount_to_write inbound);
  bytes_written ← on_fd _thread_data (FileDescriptor.write_string buffer false);
  _ ← on_tcp (fun c => st ← ByteStream.pop_output bytes_written (TCPConnection.inbound_stream c);
                       Ok (set_inbound st c));
  inbound ← ask_tcp TCPConnection.inbound_stream;
  if ByteStream.eof inbound || ByteStream.error inbound then
    _ ← on_fd _thread_data (Socket.shutdown SHUT_WR);
    modify set_inbound_shutdown
  else mret tt.
Definition interest3 (s : t) : res bool :=
  c ← tcp s;
  let inbound := TCPConnection.inbound_stream c in
  Ok (negb (ByteStream.buffer_empty inbound) ||
      ((ByteStream.eof inbound || ByteStream.error inbound) && negb (_inbound_shutdown s))).

(** Rule 4: segments for the peer.  One segment is written per round, so the length
    of the queue bounds the rounds. *)
Fixpoint send_queue (fuel : nat) : io t unit :=
  queue ← ask_tcp TCPConnection._segments_out;
  match queue with
  | [] => mret tt
  | seg :: rest =>
      match fuel with
      | O => throw nontermination
      | S fuel' =>
          _ ← adapter_write_segment seg;
          _ ← on_tcp (fun c => Ok (TCPConnection.set_segments_out rest c));
          send_queue fuel'
      end
  end.
Definition callback4 : io t unit :=
  queue ← ask_tcp TCPConnection._segments_out;
  send_queue (length queue).
Definition interest4 (s : t) : res bool :=
  c ← tcp s; Ok (match TCPConnection._segments_out c with [] => false | _ => true end).

(** The rules as they stand in the loop, given the handle they hold. *)
Definition rule1 (h : FileDescriptor.t) : @EventLoop.Rule t :=
  EventLoop.mkRule h DirIn callback1 interest1 (mret tt).
Definition rule2 (h : FileDescriptor.t) : @EventLoop.Rule t :=
  EventLoop.mkRule h DirIn callback2 interest2 end_outbound.
Definition rule3 (h : FileDescriptor.t) : @EventLoop.Rule t :=
  EventLoop.mkRule h DirOut callback3 interest3 (mret tt).
Definition rule4 (h : FileDescriptor.t) : @EventLoop.Rule t :=
  EventLoop.mkRule h DirOut callback4 interest4 (mret tt).

(** [_initialize_TCP]; [random] is for the initial sequence number. *)
Definition _initialize_TCP (config : TCPConfig.t) (random : Z) : io t (list (@EventLoop.Rule t)) :=
  _ ← modify (set_tcp (Some (TCPConnection.make config random)));
  s ← get;
  r ← EventLoop.add_rule (adapter_fd s) DirIn callback1 interest1 (mret tt) EventLoop.make;
  r ← EventLoop.add_rule (_thread_data s) DirIn callback2 interest2 end_outbound r;
  r ← EventLoop.add_rule (_thread_data s) DirOut callback3 interest3 (mret tt) r;
  EventLoop.add_rule (adapter_fd s) DirOut callback4 interest4 (mret tt) r.

(** ** The loop *)

(** [timestamp_ms]. *)
Definition timestamp_ms : io t Z :=
  lift (fun w => let '(now, k) := k_clock (kernel w) in Ok (u64 now, set_kernel k w)).

(** One round of [_tcp_loop] after the condition has been found true: whether to go
    on, the new base time, and the rules. *)
Definition tcp_round (base_time : Z) (rs : list (@EventLoop.Rule t))
  : io t (bool * Z * list (@EventLoop.Rule t)) :=
  '(ret, rs) ← EventLoop.wait_next_event TCP_TICK_MS rs;
  s ← get;
  if match ret with EventLoop.Exit => true | _ => _abort s end then mret (false, base_time, rs)
  else
    active ← ask_tcp TCPConnection.active;
    if (active : bool) then
      next_time ← timestamp_ms;
      _ ← on_tcp (fun c => Ok (TCPConnection.tick (next_time ⊟ base_time) c));
      _ ← adapter_tick_ms (next_time ⊟ base_time);
      mret (true, next_time, rs)
    else mret (true, base_time, rs).

(** [_tcp_loop], cut off after [fuel] rounds: the result says whether it ended. *)
Fixpoint tcp_rounds (fuel : nat) (condition : t -> res bool) (base_time : Z) (rs : list (@EventLoop.Rule t))
  : io t (bool * list (@EventLoop.Rule t)) := fun s =>
  match condition s with
  | Throw e => Throw e
  | Ok false => Ok ((true, rs), s)
  | Ok true =>
      match fuel with
      | O => Ok ((false, rs), s)
      | S fuel' =>
          ('(continue, base_time, rs) ← tcp_round base_time rs;
           if (continue : bool) then tcp_rounds fuel' condition base_time rs else mret (true, rs)) s
      end
  end.
Definition _tcp_loop (fuel : nat) (condition : t -> res bool) (rs : list (@EventLoop.Rule t))
  : io t (bool * list (@EventLoop.Rule t)) :=
  base_time ← timestamp_ms;
  tcp_rounds fuel condition base_time rs.

(** ** The owner's calls *)

(** [socket_pair_helper]. *)
Definition socket_pair_helper (type : Z) : io (world K) (FileDescriptor.t * FileDescriptor.t) :=
  '(a, fds) ← syscall_out (k_socketpair type);
  _ ← of_res (SystemCall a 0);
  h0 ← FileDescriptor.make fds.1;
  h1 ← FileDescriptor.make fds.2;
  mret (h0, h1).

(** The constructors: the object over a pair of connected sockets. *)
Definition make (a : A) (a_fd : FileDescriptor.t) (w : world K) : res (t * world K) :=
  ('(h0, h1) ← socket_pair_helper SOCK_STREAM;
   first ← LocalStreamSocket.of_fd h0;
   second ← LocalStreamSocket.of_fd h1;
   _ ← FileDescriptor.set_blocking false second;
   w ← get;
   mret (mk w first second a a_fd None false false false false)) w.

(** The state the connection must have, or not have, while the owner waits. *)
Definition state_is (x : TCPState.State) (s : t) : res bool :=
  c ← tcp s; Ok (TCPState.eqb (TCPState.state c) (TCPState.of_state x)).

(** [connect], up to the launch of the thread that runs [_tcp_main]. *)
Definition connect (fuel : nat) (c_tcp : TCPConfig.t) (random : Z) (c_ad : FdAdapterConfig)
  : io t (bool * list (@EventLoop.Rule t)) :=
  s ← get;
  match _tcp s with
  | Some _ => throw runtime_error
  | None =>
      rs ← _initialize_TCP c_tcp random;
      _ ← modify (fun s => set_adapter (adapter_set_config c_ad (_datagram_adapter s)) s);
      _ ← on_tcp TCPConnection.connect;
      st ← ask_tcp TCPState.state;
      if TCPState.neqb st (TCPState.of_state TCPState.SYN_SENT) then throw runtime_error
      else _tcp_loop fuel (state_is TCPState.SYN_SENT) rs
  end.

(** [listen_and_accept], likewise. *)
Definition handshaking (s : t) : res bool :=
  c ← tcp s;
  let st := TCPState.state c in
  Ok (TCPState.eqb st (TCPState.of_state TCPState.LISTEN) ||
      TCPState.eqb st (TCPState.of_state TCPState.SYN_RCVD) ||
      TCPState.eqb st (TCPState.of_state TCPState.SYN_SENT)).
Definition listen_and_accept (fuel : nat) (c_tcp : TCPConfig.t) (random : Z) (c_ad : FdAdapterConfig)
  : io t (bool * list (@EventLoop.Rule t)) :=
  s ← get;
  match _tcp s with
  | Some _ => throw runtime_error
  | None =>
      rs ← _initialize_TCP c_tcp random;
      _ ← modify (fun s => set_adapter
            (adapter_set_listening true (adapter_set_config c_ad (_datagram_adapter s))) s);
      _tcp_loop fuel handshaking rs
  end.

(** [_tcp_main], the body of the thread; a loop that is cut off leaves the connection. *)
Definition _tcp_main (fuel : nat) (rs : list (@EventLoop.Rule t)) : io t bool :=
  s ← get;
  match _tcp s with
  | None => throw runtime_error
  | Some _ =>
      '(ended, _) ← _tcp_loop fuel (fun _ => Ok true) rs;
      if negb ended then mret false
      else
        _ ← on_fd self (Socket.shutdown SHUT_RDWR);
        _ ← modify (set_tcp None);
        mret true
  end.

(** [wait_until_closed] before it joins the thread; the destructor's request. *)
Definition wait_until_closed : io t unit := on_fd self (Socket.shutdown SHUT_RDWR).
Definition destroy (joinable : bool) : io t unit :=
  if joinable then modify set_abort else mret tt.

(** ** Running the pieces *)

Lemma with_tcp_run {B} (f : TCPConnection.t -> res (B * TCPConnection.t)) s c b c' :
  _tcp s = Some c -> f c = Ok (b, c') -> with_tcp f s = Ok (b, set_tcp (Some c') s).
Proof. intros Hc Hf. unfold with_tcp, tcp. by rewrite Hc, Hf. Qed.

Lemma on_tcp_run f s c c' : _tcp s = Some c -> f c = Ok c' -> on_tcp f s = Ok (tt, set_tcp (Some c') s).
Proof. intros Hc Hf. apply (with_tcp_run _ _ c); [done|]. by rewrite Hf. Qed.

Lemma set_tcp_id s c : _tcp s = Some c -> set_tcp (Some c) s = s.
Proof. destruct s. cbn. by intros ->. Qed.

Lemma ask_tcp_run {B} (f : TCPConnection.t -> B) s c : _tcp s = Some c -> ask_tcp f s = Ok (f c, s).
Proof. intros Hc. unfold ask_tcp. rewrite (with_tcp_run _ _ c (f c) c) by done. by rewrite set_tcp_id. Qed.

Lemma on_fd_run {B} (fd : t -> FileDescriptor.t) (f : FileDescriptor.t -> io (world K) B) s b w :
  f (fd s) (os s) = Ok (b, w) -> on_fd fd f s = Ok (b, set_os w s).
Proof. intros E. unfold on_fd, lift. cbn [view update socket_os]. by rewrite E. Qed.

Lemma set_os_id s : set_os (os s) s = s.
Proof. by destruct s. Qed.

(** Asking a descriptor for its flag. *)
Lemma thread_eof_run s x n : heap (os s) !! _thread_data s = Some (mkCell x n) ->
  on_fd _thread_data FileDescriptor.eof s = Ok (FDWrapper._eof x, s).
Proof.
  intros E. rewrite (on_fd_run _ _ _ (FDWrapper._eof x) (os s)); [by rewrite set_os_id|].
  unfold FileDescriptor.eof. by rewrite (io_bind_run _ _ _ _ _ (FileDescriptor.deref_run _ _ _ E)).
Qed.

(** [_initialize_TCP] adds the four rules, each with a handle of its own. *)
Lemma initialize_installs cfg random s x n y p : _thread_data s <> adapter_fd s ->
  heap (os s) !! _thread_data s = Some (mkCell x n) -> heap (os s) !! adapter_fd s = Some (mkCell y p) ->
  exists w, _initialize_TCP cfg random s =
      Ok ([rule1 (adapter_fd s); rule2 (_thread_data s); rule3 (_thread_data s); rule4 (adapter_fd s)],
          set_os w (set_tcp (Some (TCPConnection.make cfg random)) s)) /\
    kernel w = kernel (os s) /\
    heap w !! _thread_data s = Some (mkCell x (n + 1 + 1)) /\
    heap w !! adapter_fd s = Some (mkCell y (p + 1 + 1)) /\
    (forall h, h <> _thread_data s -> h <> adapter_fd s -> heap w !! h = heap (os s) !! h).
Proof.
  intros Hd Hx Hy. unfold _initialize_TCP.
  set (s0 := set_tcp _ s). rewrite (io_bind_run _ _ _ s0 tt), (io_bind_run _ _ _ s0 s0) by done.
  change (adapter_fd s0) with (adapter_fd s). change (_thread_data s0) with (_thread_data s).
  pose proof (EventLoop.add_rule_run (S := t)) as Hadd. cbn [view update socket_os] in Hadd.
  rewrite (io_bind_run _ _ _ _ _ (Hadd (adapter_fd s) _ _ _ _ _ s0 y p Hy)).
  set (s1 := set_os _ s0). assert (Hx1 : heap (os s1) !! _thread_data s = Some (mkCell x n))
    by (cbn; by rewrite lookup_insert_ne by done).
  rewrite (io_bind_run _ _ _ _ _ (Hadd (_thread_data s) _ _ _ _ _ s1 x n Hx1)).
  set (s2 := set_os _ s1). assert (Hx2 : heap (os s2) !! _thread_data s = Some (mkCell x (n + 1)))
    by (cbn; by rewrite lookup_insert_eq).
  rewrite (io_bind_run _ _ _ _ _ (Hadd (_thread_data s) _ _ _ _ _ s2 x (n + 1) Hx2)).
  set (s3 := set_os _ s2). assert (Hy3 : heap (os s3) !! adapter_fd s = Some (mkCell y (p + 1)))
    by (cbn; by rewrite !(lookup_insert_ne _ (_thread_data s)), lookup_insert_eq by done).
  rewrite (Hadd (adapter_fd s) _ _ _ _ _ s3 y (p + 1) Hy3). eexists. split; [done|]. split; [done|]. cbn. split_and!.
  - by rewrite lookup_insert_ne, lookup_insert_eq by done.
  - by rewrite lookup_insert_eq.
  - intros h Hh1 Hh2. by rewrite !lookup_insert_ne by done.
Qed.

(** Before the SYN has been sent the callback of rule 2 throws on any bytes it reads. *)
Lemma callback2_early s c x n a data k : _tcp s = Some c -> TCPConnection.syn_sent c = false ->
  heap (os s) !! _thread_data s = Some (mkCell x n) -> 0 <= TCPConnection.remaining_outbound_capacity c ->
  k_read (FDWrapper._fd x) (Z.min FileDescriptor.BUFFER_SIZE (TCPConnection.remaining_outbound_capacity c))
    (kernel (os s)) = (a, data, k) ->
  ret a = zlen data -> zlen data <= Z.min FileDescriptor.BUFFER_SIZE (TCPConnection.remaining_outbound_capacity c) ->
  data <> [] -> callback2 s = Throw runtime_error.
Proof.
  intros Htcp Hsyn Hcell Hroom Hread Hret Hlen Hdata. unfold callback2.
  rewrite (io_bind_run _ _ _ _ _ (ask_tcp_run _ s c Htcp)).
  pose proof (FileDescriptor.read_run _ (_thread_data s) (os s) (mkCell x n) a data k Hcell Hroom Hread Hret Hlen) as E1.
  rewrite (io_bind_run _ _ _ _ _ (on_fd_run _thread_data _ s _ _ E1)). set (s1 := set_os _ s).
  rewrite (io_bind_run _ _ _ s1 0); [destruct data; done|].
  rewrite <- (set_tcp_id s1 c) at 2 by done. apply (with_tcp_run _ s1 c); [done|].
  unfold TCPConnection.write. rewrite Hsyn. by rewrite orb_true_r.
Qed.

Lemma first_capacity cfg random : 0 < TCPConfig.send_capacity cfg < two64 ->
  TCPConnection.remaining_outbound_capacity (TCPConnection.make cfg random) = TCPConfig.send_capacity cfg.
Proof. intros Hc. change (u64 (TCPConfig.send_capacity cfg - 0) = TCPConfig.send_capacity cfg). rewrite u64_small by lia. lia. Qed.

(** The four rules while nothing has happened: both descriptors are asked about for
    reading only. *)
Lemma first_setup s cfg random x n y p : _tcp s = Some (TCPConnection.make cfg random) ->
  0 < TCPConfig.send_capacity cfg < two64 -> _outbound_shutdown s = false ->
  heap (os s) !! _thread_data s = Some (mkCell x n) -> heap (os s) !! adapter_fd s = Some (mkCell y p) ->
  FDWrapper._closed x = false -> FDWrapper._eof x = false ->
  FDWrapper._closed y = false -> FDWrapper._eof y = false ->
  let rs := [rule1 (adapter_fd s); rule2 (_thread_data s); rule3 (_thread_data s); rule4 (adapter_fd s)] in
  EventLoop.setup rs [] [] false s =
    Ok ((rs, [mkPollfd (FDWrapper._fd y) POLLIN 0; mkPollfd (FDWrapper._fd x) POLLIN 0;
              mkPollfd (FDWrapper._fd x) 0 0; mkPollfd (FDWrapper._fd y) 0 0], true), s).
Proof.
  intros Htcp Hcap Hout Hx Hy Hxc Hxe Hyc Hye rs.
  assert (Ht : tcp s = Ok (TCPConnection.make cfg random)) by (unfold tcp; by rewrite Htcp).
  assert (Hi1 : interest1 s = Ok true) by (unfold interest1; by rewrite Ht).
  assert (Hi2 : interest2 s = Ok true).
  { unfold interest2. rewrite Ht, Hout. cbn [mbind res_bind]. rewrite first_capacity by done.
    by rewrite (proj2 (Z.ltb_lt _ _)) by lia. }
  assert (Hi3 : interest3 s = Ok false) by (unfold interest3; by rewrite Ht).
  assert (Hi4 : interest4 s = Ok false) by (unfold interest4; by rewrite Ht).
  assert (Hrs : Forall (EventLoop.live s) rs /\ Forall (EventLoop.answers s) rs).
  { split; unfold rs; forall_list; by eexists. }
  rewrite EventLoop.setup_live by apply Hrs. unfold rs, EventLoop.request, EventLoop.interested.
  cbn [fmap list_fmap existsb EventLoop.fd EventLoop.interest EventLoop.direction rule1 rule2 rule3 rule4 view socket_os].
  by rewrite Hi1, Hi2, Hi3, Hi4, Hx, Hy.
Qed.

(** C39: an owner that writes before the peer has connected makes [listen_and_accept]
    fail.  Take a socket that has no connection yet, with its two descriptors open and
    a positive outbound capacity configured, and suppose that, at the first poll of the
    loop, no datagram is there and the local socket is readable, and that reading it
    gives some bytes.  Then [listen_and_accept] throws: the listening connection
    advertises room for the owner's bytes, so that they are read, but [write] accepts
    none of them before the SYN has been sent, which the rule takes for an error. *)
Theorem early_data_breaks_listen (fuel : nat) (cfg : TCPConfig.t) (random : Z) (c_ad : FdAdapterConfig)
  (s : t) (x y : FDWrapper.t) (n p now : Z) (a b : answer) (revs : list Z) (data : bytes) (k1 k2 k3 : K)
  (Hnew : _tcp s = None) (Hopen : _outbound_shutdown s = false)
  (Hcap : 0 < TCPConfig.send_capacity cfg < two64)
  (Hdistinct : _thread_data s <> adapter_fd s)
  (Hx : heap (os s) !! _thread_data s = Some (mkCell x n))
  (Hxs : FDWrapper._closed x = false /\ FDWrapper._eof x = false)
  (Hy : heap (os s) !! adapter_fd s = Some (mkCell y p))
  (Hys : FDWrapper._closed y = false /\ FDWrapper._eof y = false)
  (Hclock : k_clock (kernel (os s)) = (now, k1))
  (Hpoll : k_poll [mkPollfd (FDWrapper._fd y) POLLIN 0; mkPollfd (FDWrapper._fd x) POLLIN 0;
                   mkPollfd (FDWrapper._fd x) 0 0; mkPollfd (FDWrapper._fd y) 0 0] TCP_TICK_MS k1
           = (a, 0 :: POLLIN :: revs, k2))
  (Ha : 0 < ret a < two31)
  (Hread : k_read (FDWrapper._fd x) (Z.min FileDescriptor.BUFFER_SIZE (TCPConfig.send_capacity cfg)) k2
           = (b, data, k3))
  (Hret : ret b = zlen data /\ zlen data <= Z.min FileDescriptor.BUFFER_SIZE (TCPConfig.send_capacity cfg))
  (Hdata : data <> []) :
  listen_and_accept (S fuel) cfg random c_ad s = Throw runtime_error.
Proof.
  destruct Hxs as [Hxc Hxe]. destruct Hys as [Hyc Hye].
  destruct (initialize_installs cfg random s x n y p Hdistinct Hx Hy) as (w & E1 & Hk & Hwx & Hwy & _).
  unfold listen_and_accept. rewrite (io_bind_run _ _ _ s s eq_refl), Hnew.
  rewrite (io_bind_run _ _ _ _ _ E1), (io_bind_run _ _ _ _ _ eq_refl).
  set (s1 := set_adapter _ _). unfold _tcp_loop.
  rewrite (io_bind_run _ _ _ (set_os (set_kernel k1 w) s1) (u64 now))
    by (unfold timestamp_ms, lift; cbn; by rewrite Hk, Hclock).
  set (s2 := set_os _ s1).
  pose proof (first_setup s2 cfg random x (n + 1 + 1) y (p + 1 + 1) eq_refl Hcap Hopen Hwx Hwy Hxc Hxe Hyc Hye) as E2.
  cbv zeta in E2. change (adapter_fd s2) with (adapter_fd s) in E2. change (_thread_data s2) with (_thread_data s) in E2.
  cbn [tcp_rounds]. change (handshaking s2) with (Ok (A := bool) true). cbv iota.
  set (rs := [rule1 _; _; _; _]) in *.
  assert (E3 : EventLoop.wait_next_event TCP_TICK_MS rs s2 = Throw runtime_error).
  { unfold EventLoop.wait_next_event. rewrite (io_bind_run _ _ _ _ _ E2). cbn [negb].
    set (s3 := set_os (set_kernel k2 (os s2)) s2).
    rewrite (io_bind_run _ _ _ s3 (a, 0 :: POLLIN :: revs)) by (unfold lift, syscall_out; cbn [view update socket_os kernel os s2 set_os set_kernel]; by rewrite Hpoll).
    rewrite FileDescriptor.SystemCall_ok by lia. destruct (ret a) as [|r|r] eqn:Er; [lia| |lia]. apply io_bind_throw.
    change (EventLoop.fill_revents _ _) with
      ([mkPollfd (FDWrapper._fd y) POLLIN 0] ++ mkPollfd (FDWrapper._fd x) POLLIN POLLIN ::
       EventLoop.fill_revents [mkPollfd (FDWrapper._fd x) 0 0; mkPollfd (FDWrapper._fd y) 0 0] revs).
    change rs with ([rule1 (adapter_fd s)] ++ rule2 (_thread_data s) :: [rule3 (_thread_data s); rule4 (adapter_fd s)]).
    rewrite EventLoop.serve_app, EventLoop.serve_idle by done.
    rewrite (EventLoop.serve_throws _ _ _ _ s3 (FDWrapper._read_count x) runtime_error); try done.
    - unfold EventLoop.service_count. cbn [EventLoop.direction EventLoop.fd rule2].
      unfold lift, FileDescriptor.read_count. cbn [view update socket_os].
      by rewrite (io_bind_run _ _ _ _ _ (FileDescriptor.deref_run (_thread_data s) (os s3) (mkCell x (n + 1 + 1)) Hwx)).
    - apply (callback2_early s3 (TCPConnection.make cfg random) x (n + 1 + 1) b data k3); try done;
        rewrite ?first_capacity by done; try done; lia || apply Hret. }
  unfold tcp_round. by do 2 apply io_bind_throw.
Qed.

End TCPSpongeSocket.
End TCPSpongeSocket.

(** The owner has written one byte; nobody has connected. *)
Lemma early_data_breaks_listen_witness :
  let s := TCPSpongeSocket.mk (A := TCPOverUDPSocketAdapter.t)
    (mkWorld (Scripted.mk 5 [] [[x61]] [] [(0, [0; 1; 0; 0])] 0)
       (<[1%nat := mkCell (FDWrapper.mk 4 false false 0 0) 1]>
        (<[2%nat := mkCell (FDWrapper.mk 6 false false 0 0) 1]> ∅)) 3)
    0%nat 1%nat
    (TCPOverUDPSocketAdapter.mk (FdAdapterBase.mk (mkConfig (Address.mk 0 0) (Address.mk 0 0) 0 0) false) [])
    2%nat None false false false false in
  TCPSpongeSocket.listen_and_accept 100 TCPConnection.demo_cfg 0 (mkConfig (Address.mk 0 0) (Address.mk 0 0) 0 0) s
    = Throw runtime_error.
Proof.
  intros s. apply (TCPSpongeSocket.early_data_breaks_listen 99 TCPConnection.demo_cfg 0 _ s
    (FDWrapper.mk 4 false false 0 0) (FDWrapper.mk 6 false false 0 0) 1 1 0 (Answer 1 0) (Answer 1 0) [0; 0] [x61]
    (Scripted.mk 5 [] [[x61]] [] [(0, [0; 1; 0; 0])] 0) (Scripted.mk 5 [] [[x61]] [] [] 0)
    (Scripted.mk 5 [] [] [] [] 0)).
  - reflexivity.
  - reflexivity.
  - vm_compute. split; reflexivity.
  - discriminate.
  - reflexivity.
  - split; reflexivity.
  - reflexivity.
  - split; reflexivity.
  - reflexivity.
  - reflexivity.
  - vm_compute. split; reflexivity.
  - vm_compute. reflexivity.
  - split; [reflexivity|vm_compute; congruence].
  - discriminate.
Defined.

(** ** The ready-made sockets *)

(** [FdAdapterConfig()]: the addresses are 0.0.0.0, port 0. *)
Definition default_config : FdAdapterConfig := mkConfig (Address.mk 0 0) (Address.mk 0 0) 0 0.

(** [random_private_ethernet_address]; [random] are the numbers drawn, one per octet. *)
Definition random_private_ethernet_address (random : nat -> Z) : EthernetAddress.t :=
  let addr := (fun i => u8 (random i)) <$> seq 0 6 in
  match addr with
  | b :: rest => Z.land (Z.lor b 2) 254 :: rest
  | [] => []
  end.

(** It is an individual address that is locally administered. *)
Theorem random_address_private (random : nat -> Z) :
  EthernetAddress.wf (random_private_ethernet_address random) /\
  exists b, head (random_private_ethernet_address random) = Some b /\ Z.testbit b 0 = false /\ Z.testbit b 1 = true.
Proof.
  assert (Hb : forall i, 0 <= u8 (random i) < two8) by (intros i; apply u8_range).
  split.
  - split; [done|]. cbn. forall_list. rewrite Z.land_comm.
    assert (Hle : Z.land 254 (Z.lor (u8 (random 0%nat)) 2) = Z.land (Z.lor (u8 (random 0%nat)) 2) (Z.land 254 (Z.ones 8)))
      by (by rewrite Z.land_comm).
    rewrite Hle, Z.land_assoc. apply (low_bits _ 8). lia.
  - eexists. split; [done|]. split; by rewrite Z.land_spec, ?Z.lor_spec, ?andb_false_r, ?orb_true_r.
Qed.

Section Ready.
Context {K : Type} `{Kernel K} `{Address.Netdb}.

(** [Address(const std::string &hostname, const std::string &service)], by the
    resolver of the C library. *)
Context (resolve : String.string -> String.string -> res Address.t).

(** The text of a [uint16_t]. *)
Definition port_string (port : Z) : String.string := pretty port.

(** A configuration with the short timeout that both sockets use. *)
Definition quick_config : TCPConfig.t :=
  TCPConfig.mk 100 TCPConfig.DEFAULT_CAPACITY TCPConfig.DEFAULT_CAPACITY None.

(** [CS144TCPSocket()]. *)
Definition cs144_make : io (world K) (@TCPSpongeSocket.t K TCPOverIPv4OverTunFdAdapter.t) :=
  h ← TunTapFD.make (String.list_byte_of_string "tun144") true;
  TCPSpongeSocket.make (TCPOverIPv4OverTunFdAdapter.mk (FdAdapterBase.mk default_config false) []) h.

(** [CS144TCPSocket::connect]; [random_port] and [random] are drawn from the random
    device, for the source port and for the initial sequence number. *)
Definition cs144_connect (fuel : nat) (address : Address.t) (random_port random : Z)
  : io (@TCPSpongeSocket.t K TCPOverIPv4OverTunFdAdapter.t) (bool * list EventLoop.Rule) :=
  source ← of_res (resolve "169.254.144.9" (port_string (u16 random_port)));
  TCPSpongeSocket.connect (Device := bytes) fuel quick_config random (mkConfig source address 0 0).

Definition LOCAL_TAP_IP_ADDRESS : String.string := "169.254.10.9".
Definition LOCAL_TAP_NEXT_HOP_ADDRESS : String.string := "169.254.10.1".

(** [FullStackSocket()]; the adapter's constructor writes its first frame. *)
Definition full_stack_make (random : nat -> Z)
  : io (world K) (@TCPSpongeSocket.t K TCPOverIPv4OverEthernetAdapter.t) :=
  h ← TunTapFD.make (String.list_byte_of_string "tap10") false;
  ip ← of_res (resolve LOCAL_TAP_IP_ADDRESS "0");
  next_hop ← of_res (resolve LOCAL_TAP_NEXT_HOP_ADDRESS "0");
  let a := TCPOverIPv4OverEthernetAdapter.make (FdAdapterBase.mk default_config false)
             (random_private_ethernet_address random) ip next_hop in
  _ ← TCPSpongeSocket.flush (A := TCPOverIPv4OverEthernetAdapter.t) (Device := bytes) h (adapter_log a);
  TCPSpongeSocket.make a h.

(** [FullStackSocket::connect]. *)
Definition full_stack_connect (fuel : nat) (address : Address.t) (random_port random : Z)
  : io (@TCPSpongeSocket.t K TCPOverIPv4OverEthernetAdapter.t) (bool * list EventLoop.Rule) :=
  source ← of_res (resolve LOCAL_TAP_IP_ADDRESS (port_string (u16 random_port)));
  TCPSpongeSocket.connect (Device := bytes) fuel quick_config random (mkConfig source address 0 0).

End Ready.
