(* ===== verification/SocketSafety.v ===== *)
(** * Safety of the socket on top of TCP (tcp_helpers/tcp_sponge_socket.cc)

    The whole of [TCPSpongeSocket] over its event loop: between a kernel whose calls
    succeed and a peer that sends a stream, [connect] and [_tcp_main] never
    throw, the owner is given a prefix of what the peer sent, and the connection
    sends what the owner wrote. *)

From S2P Require Import Prelude Wrapping Stream Reassembly Buffers Parsing TcpWire TcpReceiver TcpSender Transfer TcpConnection TcpState EthernetWire NetworkInterface Addresses FileDescriptor Sockets Adapter EventLoop SpongeSocket.
From Stdlib Require Import Strings.Byte.
Import TCPSpongeSocket.

(** The owner writes the stream [Ds] of length [Ns], the peer sends [Dr] of length
    [Nr].  [F] is the number of the local socket's descriptor. *)

Module SocketSafety.
Section Safety.
Context {K A Device : Type} `{FdDevice K A Device}.
#[local] Abbreviation t := (@TCPSpongeSocket.t K A).
Context (Ds : Z -> byte) (Ns : Z) (Is : WrappingInt32.t).
Context (Dr : Z -> byte) (Nr cap : Z) (Ir : WrappingInt32.t).
Context (F : Z).

(** What the socket relies on.  [taken] bytes of the owner's stream have been handed
    out by the kernel, [given] is what it has accepted for the owner; the other
    predicates say which states, packets and descriptors are fit for use. *)
Record environment : Type := mkEnv {
  k_ok : K -> Prop;
  taken : K -> Z;
  given : K -> bytes;
  owner_readable : K -> Prop;
  owner_writable : K -> Prop;
  peer_readable : K -> Prop;
  adapter_ok : A -> Prop;
  dev_ok : Device -> Prop;
  packet_ok : Packet -> Prop
}.

Context (E : environment).

(** From [k] to [k'] the local socket was left alone. *)
Record quiet (k k' : K) : Prop := {
  qt_ok : k_ok E k';
  qt_taken : taken E k' = taken E k;
  qt_given : given E k' = given E k;
  qt_readable : owner_readable E k -> owner_readable E k';
  qt_writable : owner_writable E k -> owner_writable E k'
}.

#[local] Abbreviation incoming := (TCPConnection.incoming Dr Nr Ir).

(** What a result of [poll] tells about the kernel's state: no error, readiness of
    the descriptor asked about, and, when the local socket was asked about for reading,
    a hangup without readability only when the owner's stream has been read to its end.
    (A hangup that is reported together with unread bytes says nothing.) *)
Record reported (k : K) (p : pollfd) : Prop := {
  rp_error : EventLoop.poll_error p = false;
  rp_in : poll_fd p = F -> EventLoop.poll_ready p = true -> events p = POLLIN -> owner_readable E k;
  rp_out : poll_fd p = F -> EventLoop.poll_ready p = true -> events p = POLLOUT -> owner_writable E k;
  rp_hup : poll_fd p = F -> EventLoop.hung_up p = true -> events p = POLLIN -> taken E k = Ns;
  rp_peer : poll_fd p <> F -> EventLoop.poll_ready p = true -> events p = POLLIN -> peer_readable E k
}.

(** The kernel hands out the owner's stream in order and reports its end only at the
    end; it accepts at least a byte when [poll] has said so; the adapter delivers
    only segments of the peer's connection; no system call fails. *)
Record lawful : Prop := {
  law_read : forall k size a data k', k_ok E k -> owner_readable E k -> 0 <= size ->
    k_read F size k = (a, data, k') ->
    ret a = zlen data /\ zlen data <= size /\ data = slice Ds (taken E k) (zlen data) /\
    (data = [] -> 0 < size -> taken E k = Ns) /\
    k_ok E k' /\ taken E k' = taken E k + zlen data /\ taken E k' <= Ns /\ given E k' = given E k /\
    (owner_writable E k -> owner_writable E k');
  law_writev : forall k iovecs a k', k_ok E k -> owner_writable E k -> k_writev F iovecs k = (a, k') ->
    0 <= ret a <= zlen (concat (fst <$> iovecs)) /\ (ret a = 0 -> concat (fst <$> iovecs) = []) /\
    k_ok E k' /\ taken E k' = taken E k /\
    given E k' = given E k ++ take (Z.to_nat (ret a)) (concat (fst <$> iovecs));
  law_shutdown : forall k fd how a k', k_ok E k -> k_shutdown fd how k = (a, k') ->
    0 <= ret a < two31 /\ k_ok E k' /\ taken E k' = taken E k /\ given E k' = given E k;
  law_clock : forall k now k', k_ok E k -> k_clock k = (now, k') -> quiet k k';
  law_poll : forall k fds timeout a revs k', k_ok E k -> k_poll fds timeout k = (a, revs, k') ->
    quiet k k' /\ Forall (reported k') (EventLoop.fill_revents fds revs);
  law_dev_read : forall w h x n, k_ok E (kernel w) -> peer_readable E (kernel w) ->
    heap w !! h = Some (mkCell x n) -> FDWrapper._fd x <> F ->
    exists dev x' k', device_read h w = Ok (dev, mkWorld k' (<[h := mkCell x' n]> (heap w)) (next w)) /\
      dev_ok E dev /\ quiet (kernel w) k' /\ FDWrapper._fd x' = FDWrapper._fd x /\
      FDWrapper._closed x' = FDWrapper._closed x /\
      FDWrapper._read_count x' = u32 (FDWrapper._read_count x + 1);
  law_dev_write : forall w h x n p, k_ok E (kernel w) -> packet_ok E p ->
    heap w !! h = Some (mkCell x n) -> FDWrapper._fd x <> F ->
    exists x' k', device_write h p w = Ok (tt, mkWorld k' (<[h := mkCell x' n]> (heap w)) (next w)) /\
      quiet (kernel w) k' /\ FDWrapper._fd x' = FDWrapper._fd x /\
      FDWrapper._closed x' = FDWrapper._closed x /\ FDWrapper._read_count x' = FDWrapper._read_count x;
  law_adapter_read : forall dev a, adapter_ok E a -> dev_ok E dev ->
    exists r a' new, adapter_read dev a = Ok (r, a') /\ adapter_ok E a' /\
      adapter_log a' = adapter_log a ++ new /\ Forall (packet_ok E) new /\
      (forall seg, r = Some seg -> incoming seg);
  law_adapter_write : forall seg a, adapter_ok E a -> TCPConnection.outgoing Ds Ns Is seg ->
    exists seg' a' new, adapter_write seg a = Ok (seg', a') /\ adapter_ok E a' /\
      adapter_log a' = adapter_log a ++ new /\ Forall (packet_ok E) new;
  law_adapter_tick : forall ms a, adapter_ok E a ->
    exists a' new, adapter_tick ms a = Ok a' /\ adapter_ok E a' /\
      adapter_log a' = adapter_log a ++ new /\ Forall (packet_ok E) new
}.

(** Which of the four rules are still in the loop. *)
Record mask : Type := mkMask { m1 : bool; m2 : bool; m3 : bool; m4 : bool }.

(** The connection works for the two streams and its outbound stream is what the
    kernel has handed out; what the owner has been given is what was read from the
    inbound one. *)
Record conn_ok (s : t) (c : TCPConnection.t) : Prop := {
  cn_wf : TCPConnection.wf Ds Ns Is Dr Nr cap Ir c;
  cn_syn : TCPConnection.syn_sent c = true;
  cn_taken : ByteStream.n_bytes_written (TCPConnection.stream_in c) = taken E (kernel (os s));
  cn_ended : ByteStream.done_writing (TCPConnection.stream_in c) = _outbound_shutdown s;
  cn_given : given E (kernel (os s)) =
    slice Dr 0 (ByteStream.n_bytes_read (TCPConnection.inbound_stream c))
}.

Record thread_ok (s : t) (pointers : Z) : Prop := {
  th_cell : exists x n, heap (os s) !! _thread_data s = Some (mkCell x n) /\ pointers <= n /\
    FDWrapper._fd x = F /\ FDWrapper._closed x = false /\
    (FDWrapper._eof x = true -> _outbound_shutdown s = true)
}.
Record peer_ok (s : t) (pointers : Z) : Prop := {
  pr_cell : exists x n, heap (os s) !! adapter_fd s = Some (mkCell x n) /\ pointers <= n /\
    FDWrapper._fd x <> F /\ FDWrapper._closed x = false
}.

(** The owner's end, which the loop leaves alone. *)
Record self_ok (s : t) : Prop := {
  sf_cell : is_Some (heap (os s) !! self s);
  sf_thread : self s <> _thread_data s;
  sf_peer : self s <> adapter_fd s
}.

Definition count (b : bool) : Z := if b then 1 else 0.

Record inv (m : mask) (s : t) : Prop := {
  iv_conn : exists c, _tcp s = Some c /\ conn_ok s c;
  iv_kernel : k_ok E (kernel (os s));
  iv_adapter : adapter_ok E (_datagram_adapter s);
  iv_thread : thread_ok s (1 + count (m2 m) + count (m3 m));
  iv_peer : peer_ok s (1 + count (m1 m) + count (m4 m));
  iv_distinct : _thread_data s <> adapter_fd s;
  iv_self : self_ok s
}.

(** *** Steps that keep the invariant *)

Lemma quiet_trans k1 k2 k3 : quiet k1 k2 -> quiet k2 k3 -> quiet k1 k3.
Proof. intros [] []. split; [done|congruence|congruence|auto|auto]. Qed.

Lemma quiet_refl k : k_ok E k -> quiet k k.
Proof. by split. Qed.

(** A change of one of the other two cells, or of none. *)
Lemma self_step s s' h x : self_ok s -> self s' = self s -> _thread_data s' = _thread_data s ->
  adapter_fd s' = adapter_fd s -> heap (os s') = <[h := x]> (heap (os s)) ->
  h = _thread_data s \/ h = adapter_fd s -> self_ok s'.
Proof.
  intros [] Hs Ht Ha Hh Hor. split; rewrite ?Hs, ?Ht, ?Ha; try done.
  rewrite Hh, lookup_insert_ne; [done|]. by destruct Hor as [-> | ->]; apply not_eq_sym.
Qed.

Lemma inv_set_adapter m s a : inv m s -> adapter_ok E a -> inv m (set_adapter a s).
Proof. intros [(c & Hc & []) ? ? [] [] ? []] Ha. split; try done; [|by split..]. exists c. by split. Qed.

Lemma inv_set_tcp m s c : inv m s -> conn_ok s c -> inv m (set_tcp (Some c) s).
Proof. intros [_ ? ? [] [] ? []] []. split; try done; [|by split..]. exists c. by split. Qed.

(** Only the kernel and the adapter's descriptor have changed. *)
Definition peer_step (s : t) (w : world K) : Prop :=
  quiet (kernel (os s)) (kernel w) /\ exists x n x',
    heap (os s) !! adapter_fd s = Some (mkCell x n) /\
    heap w = <[adapter_fd s := mkCell x' n]> (heap (os s)) /\
    FDWrapper._fd x' = FDWrapper._fd x /\ FDWrapper._closed x' = FDWrapper._closed x /\
    FDWrapper._read_count x' = FDWrapper._read_count x.

Lemma inv_peer_cell m s w x n x' : inv m s -> quiet (kernel (os s)) (kernel w) ->
  heap (os s) !! adapter_fd s = Some (mkCell x n) ->
  heap w = <[adapter_fd s := mkCell x' n]> (heap (os s)) ->
  FDWrapper._fd x' = FDWrapper._fd x -> FDWrapper._closed x' = FDWrapper._closed x ->
  inv m (set_os w s).
Proof.
  intros [(c & Hc & [])  Hk Ha [(y & p & Hy & Hth)] [(y' & p' & Hy' & Hp & Hfd & Hcl)] Hd Hso] [] Hx Hw Hf Hcx.
  rewrite Hx in Hy'. injection Hy' as <- <-.
  split; cbn; try done.
  - exists c. split; [done|]. split; cbn; congruence.
  - split. exists y, p. cbn. by rewrite Hw, lookup_insert_ne.
  - split. exists x', n. cbn. rewrite Hw, lookup_insert_eq. split_and!; congruence || done.
  - eapply self_step; [exact Hso|done..|exact Hw|by right].
Qed.

Lemma inv_peer_step m s w : inv m s -> peer_step s w -> inv m (set_os w s).
Proof. intros Hi (Hq & x & n & x' & Hx & Hw & Hf & Hc & _). by eapply inv_peer_cell. Qed.

Context (HL : lawful).

Lemma flush_ok ps : forall h w x n, Forall (packet_ok E) ps -> k_ok E (kernel w) ->
  heap w !! h = Some (mkCell x n) -> FDWrapper._fd x <> F ->
  exists x' k', flush h ps w = Ok (tt, mkWorld k' (<[h := mkCell x' n]> (heap w)) (next w)) /\
    quiet (kernel w) k' /\ FDWrapper._fd x' = FDWrapper._fd x /\
    FDWrapper._closed x' = FDWrapper._closed x /\ FDWrapper._read_count x' = FDWrapper._read_count x.
Proof.
  induction ps as [|p ps IH]; intros h w x n Hps Hk Hx Hf; cbn [flush].
  { exists x, (kernel w). rewrite insert_id by done. split; [by destruct w|]. split; [by apply quiet_refl|done]. }
  apply Forall_cons in Hps as [Hp Hps].
  destruct (law_dev_write HL w h x n p Hk Hp Hx Hf) as (x1 & k1 & E1 & Hq & Hf1 & Hc1 & Hr1).
  rewrite (io_bind_run _ _ _ _ _ E1). set (w1 := mkWorld _ _ _).
  destruct (IH h w1 x1 n) as (x2 & k2 & E2 & Hq2 & Hf2 & Hc2 & Hr2);
    [done|apply Hq|apply lookup_insert_eq|congruence|].
  exists x2, k2. rewrite E2. unfold w1. cbn. rewrite insert_insert_eq. split; [done|].
  split; [by eapply quiet_trans|]. split_and!; congruence.
Qed.

Lemma with_adapter_ok {B} (f : A -> res (B * A)) m s b a new : inv m s ->
  f (_datagram_adapter s) = Ok (b, a) -> adapter_ok E a ->
  adapter_log a = adapter_log (_datagram_adapter s) ++ new -> Forall (packet_ok E) new ->
  exists w, with_adapter f s = Ok (b, set_os w (set_adapter a s)) /\ peer_step s w /\
    inv m (set_os w (set_adapter a s)).
Proof.
  intros Hi Hf Ha Hlog Hnew. unfold with_adapter. rewrite Hf, Hlog, drop_app_length.
  pose proof Hi as [_ Hk _ _ [(x & n & Hx & _ & Hfd & _)] _ _].
  destruct (flush_ok new (adapter_fd s) (os s) x n Hnew Hk Hx Hfd) as (x' & k' & E1 & Hq & Hf1 & Hc1 & Hr1).
  set (w := mkWorld _ _ _) in E1. exists w.
  assert (Hs : peer_step s w) by (split; [done|]; by exists x, n, x').
  split; [|split; [done|by apply inv_peer_step; [apply inv_set_adapter|]]].
  unfold mbind, io_bind, lift. cbn [view update socket_os os set_adapter]. by rewrite E1.
Qed.

(** A segment from the peer may be given to the connection. *)
Context (HNr : 0 <= Nr < two31 - 2).

Lemma conn_keeps s c c' : conn_ok s c -> TCPConnection.wf Ds Ns Is Dr Nr cap Ir c' ->
  TCPConnection.keeps c c' -> conn_ok s c'.
Proof. intros [] Hw []. split; [done|by auto|congruence..]. Qed.

(** What a callback leaves for the rules after it. *)
Record stays (s s' : t) : Prop := {
  st_thread : _thread_data s' = _thread_data s;
  st_peer : adapter_fd s' = adapter_fd s;
  st_taken : taken E (kernel (os s')) = taken E (kernel (os s));
  st_readable : owner_readable E (kernel (os s)) -> owner_readable E (kernel (os s'));
  st_writable : owner_writable E (kernel (os s)) -> owner_writable E (kernel (os s'))
}.

(** The cell of a descriptor, and a counter that has moved. *)
Definition wrapper_at (h : FileDescriptor.t) (s : t) (x : FDWrapper.t) : Prop :=
  exists n, heap (os s) !! h = Some (mkCell x n).
Definition moved (counter : FDWrapper.t -> Z) (h : FileDescriptor.t) (s s' : t) : Prop :=
  exists x x', wrapper_at h s x /\ wrapper_at h s' x' /\ counter x <> counter x'.

Lemma u32_succ_neq n : n <> u32 (n + 1).
Proof. unfold u32. intros Hn. pose proof (Z.mod_pos_bound (n + 1) two32). Z.div_mod_to_equations. lia. Qed.

Lemma adapter_read_ok m s : inv m s -> peer_readable E (kernel (os s)) ->
  exists r s', adapter_read_segment s = Ok (r, s') /\ inv m s' /\ stays s s' /\
    _outbound_shutdown s' = _outbound_shutdown s /\ (forall seg, r = Some seg -> incoming seg) /\
    moved FDWrapper._read_count (adapter_fd s) s s'.
Proof.
  intros Hi Hr. pose proof Hi as [_ Hk Ha _ [(x & n & Hx & _ & Hfd & _)] _ _].
  destruct (law_dev_read HL (os s) (adapter_fd s) x n Hk Hr Hx Hfd)
    as (dev & x1 & k1 & E1 & Hdev & Hq & Hf1 & Hc1 & Hn1).
  set (w1 := mkWorld k1 _ _) in E1. set (s1 := set_os w1 s).
  assert (Hi1 : inv m s1) by (eapply (inv_peer_cell m s w1 x n x1); done).
  destruct (law_adapter_read HL dev (_datagram_adapter s) Ha Hdev) as (r & a & new & E2 & Ha2 & Hlog & Hnew & Hin).
  destruct (with_adapter_ok (adapter_read dev) m s1 r a new Hi1 E2 Ha2 Hlog Hnew) as (w2 & E3 & Hst & Hi2).
  exists r, (set_os w2 (set_adapter a s1)). split; [|split; [done|]].
  { unfold adapter_read_segment. unfold mbind at 1, io_bind at 1, lift at 1. cbn [view update socket_os].
    rewrite E1. exact E3. }
  destruct Hst as [Hq2 (y & p & y' & Hy & Hw2 & _ & _ & Hn2)].
  split; [|split; [done|split; [done|]]].
  - pose proof (quiet_trans _ _ _ Hq Hq2) as []. by split.
  - unfold s1, w1 in Hy. cbn in Hy. rewrite lookup_insert_eq in Hy. injection Hy as <- <-.
    exists x, y'. split; [by exists n|]. split.
    + exists n. cbn. rewrite Hw2. apply lookup_insert_eq.
    + rewrite Hn2, Hn1. apply u32_succ_neq.
Qed.

Context (HIr : WrappingInt32.wf Ir) (Hcap : 0 < cap).

(** Giving a segment of the peer to the connection. *)
Lemma receive_ok m s seg : inv m s -> incoming seg ->
  exists c, on_tcp (TCPConnection.segment_received seg) s = Ok (tt, set_tcp (Some c) s) /\
    inv m (set_tcp (Some c) s).
Proof.
  intros Hi Hin. pose proof Hi as [(c & Hc & Hco) _ _ _ _ _ _]. pose proof Hco as [Hw _ _ _ _].
  pose proof (TCPConnection.incoming_allowed Ds Ns Is Dr Nr cap Ir seg c HNr Hw Hin) as Ha.
  destruct (TCPConnection.segment_received_wf Ds Ns Is Dr Nr cap Ir HIr c seg Hw Ha) as (c' & E1 & Hw').
  exists c'. split; [by apply (on_tcp_run _ s c)|]. apply inv_set_tcp; [done|].
  eapply conn_keeps; [done|done|]. by eapply TCPConnection.keeps_segment_received.
Qed.

Lemma callback1_ok m s : inv m s -> peer_readable E (kernel (os s)) ->
  exists s', callback1 s = Ok (tt, s') /\ inv m s' /\ stays s s' /\
    _outbound_shutdown s' = _outbound_shutdown s /\ moved FDWrapper._read_count (adapter_fd s) s s'.
Proof.
  intros Hi Hr. destruct (adapter_read_ok m s Hi Hr) as (r & s1 & E1 & Hi1 & Hst & Ho & Hin & Hmv).
  unfold callback1. rewrite (io_bind_run _ _ _ _ _ E1).
  assert (H2 : exists s2, match r with Some g => on_tcp (TCPConnection.segment_received g) | None => mret tt end s1
      = Ok (tt, s2) /\ inv m s2 /\ os s2 = os s1 /\ _thread_data s2 = _thread_data s1 /\
      adapter_fd s2 = adapter_fd s1 /\ _outbound_shutdown s2 = _outbound_shutdown s1).
  { destruct r as [seg|]; [|by exists s1].
    destruct (receive_ok m s1 seg Hi1 (Hin seg eq_refl)) as (c & E2 & Hi2). by eexists. }
  destruct H2 as (s2 & E2 & Hi2 & Hos & Hth & Had & Hos2). rewrite (io_bind_run _ _ _ _ _ E2).
  pose proof Hi2 as [(c & Hc & Hco) _ _ [(x & n & Hx & _)] _ _ _].
  rewrite (io_bind_run _ _ _ _ _ (thread_eof_run s2 x n Hx)).
  rewrite (io_bind_run _ _ _ _ _ (ask_tcp_run _ s2 c Hc)).
  assert (Hfin : forall s3, os s3 = os s2 -> _thread_data s3 = _thread_data s2 -> adapter_fd s3 = adapter_fd s2 ->
    _outbound_shutdown s3 = _outbound_shutdown s2 ->
    stays s s3 /\ _outbound_shutdown s3 = _outbound_shutdown s /\
    moved FDWrapper._read_count (adapter_fd s) s s3).
  { intros s3 K1 K2 K3 K4. destruct Hst. split; [split; try congruence; rewrite K1, Hos; done|].
    split; [congruence|]. destruct Hmv as (y & y' & Hy & (p & Hy') & Hne). exists y, y'. split; [done|].
    split; [|done]. exists p. by rewrite K1, Hos. }
  rewrite (io_bind_run _ _ _ s2 s2) by done. destruct (_ && _).
  - exists (set_fully_acked s2). split; [done|]. split; [|by apply Hfin].
    destruct Hi2 as [_ ? ? [] [] ? []]. split; try done; [|by split..]. exists c. destruct Hco. by split.
  - exists s2. split; [done|]. split; [done|by apply Hfin].
Qed.

(** Ending the outbound stream, when all of it has been taken; the descriptor's end
    need not have been noted yet. *)
Lemma end_outbound_run m s c x n : _tcp s = Some c -> conn_ok s c -> k_ok E (kernel (os s)) ->
  adapter_ok E (_datagram_adapter s) -> heap (os s) !! _thread_data s = Some (mkCell x n) ->
  1 + count (m2 m) + count (m3 m) <= n -> FDWrapper._fd x = F -> FDWrapper._closed x = false ->
  peer_ok s (1 + count (m1 m) + count (m4 m)) -> _thread_data s <> adapter_fd s -> self_ok s ->
  taken E (kernel (os s)) = Ns ->
  exists c', end_outbound s = Ok (tt, set_outbound_shutdown (set_tcp (Some c') s)) /\
    inv m (set_outbound_shutdown (set_tcp (Some c') s)).
Proof.
  intros Hc [] Hk Ha Hx Hp Hfd Hcl Hpeer Hd [] Ht.
  destruct (TCPConnection.end_input_effect Ds Ns Is Dr Nr cap Ir c) as (c' & E1 & Hw & Hs & Hwr & Hdn & Hrd);
    [done|cbn; unfold TCPConnection.stream_in, TCPSender.stream_in in *; congruence|].
  exists c'. split.
  { unfold end_outbound. by rewrite (io_bind_run _ _ _ _ _ (on_tcp_run _ s c c' Hc E1)). }
  split; cbn; try done.
  - exists c'. split; [done|]. split; cbn; try done; congruence.
  - split. exists x, n. cbn. split_and!; done.
  - destruct Hpeer. by split.
Qed.

Lemma end_outbound_ok m s : inv m s -> taken E (kernel (os s)) = Ns ->
  exists c, end_outbound s = Ok (tt, set_outbound_shutdown (set_tcp (Some c) s)) /\
    inv m (set_outbound_shutdown (set_tcp (Some c) s)).
Proof.
  intros [(c & Hc & Hco) Hk Ha [(x & n & Hx & Hp & Hfd & Hcl & _)] Hpeer Hd Hso] Ht.
  by eapply end_outbound_run.
Qed.

(** Taking bytes from the owner: the read, and the write into the connection. *)
Lemma take_ok m s : inv m s -> owner_readable E (kernel (os s)) -> _outbound_shutdown s = false ->
  exists c0 data w1 c1 x n, _tcp s = Some c0 /\
    on_fd _thread_data (FileDescriptor.read (TCPConnection.remaining_outbound_capacity c0)) s
      = Ok (data, set_os w1 s) /\
    TCPConnection.write data c0 = Ok (zlen data, c1) /\
    conn_ok (set_os w1 s) c1 /\ k_ok E (kernel w1) /\
    heap (os s) !! _thread_data s = Some (mkCell x n) /\
    heap w1 = <[_thread_data s := mkCell (FileDescriptor.after_read
      (TCPConnection.remaining_outbound_capacity c0) data x) n]> (heap (os s)) /\
    (data = [] -> 0 < TCPConnection.remaining_outbound_capacity c0 -> taken E (kernel w1) = Ns) /\
    (owner_writable E (kernel (os s)) -> owner_writable E (kernel w1)).
Proof.
  intros [(c & Hc & [Hw Hsyn Ht Hend Hg]) Hk _ [(x & n & Hx & _ & Hfd & _ & _)] _ _ _] Hr Ho.
  set (room := TCPConnection.remaining_outbound_capacity c).
  assert (Hroom : 0 <= room) by apply u64_range.
  set (size := Z.min FileDescriptor.BUFFER_SIZE room).
  assert (Hsize : 0 <= size <= room) by (unfold size, FileDescriptor.BUFFER_SIZE; lia).
  destruct (k_read F size (kernel (os s))) as [[a data] k1] eqn:Hkr.
  destruct (law_read HL _ _ _ _ _ Hk Hr (proj1 Hsize) Hkr)
    as (Hret & Hlen & Hdata & Hdone & Hk1 & Htk & HtN & Hgv & Hwrt).
  pose proof (FileDescriptor.read_run room (_thread_data s) (os s) (mkCell x n) a data k1 Hx Hroom) as E1.
  cbn [wrapper use_count] in E1. rewrite Hfd in E1. specialize (E1 Hkr Hret Hlen).
  set (w1 := set_cell _ _ _) in E1.
  assert (Hal : TCPConnection.allowed Ds Ns Dr Nr Ir (TCPConnection.Write data) c).
  { right. unfold TCPConnection.stream_in, TCPSender.stream_in in *. cbn.
    change (ByteStream.remaining_capacity (TCPSender._stream (TCPConnection._sender c))) with room.
    rewrite Z.min_l, Nat2Z.id, firstn_all by lia. rewrite Ht, Hend. split_and!; [done|lia|done]. }
  destruct (TCPConnection.write_accepts Ds Ns Is Dr Nr cap Ir data c Hw Hal Hsyn) as (c1 & E2 & Hw1 & Hs1 & Hn1 & Hd1 & Hr1);
    [congruence|change (zlen data <= room); lia|].
  exists c, data, w1, c1, x, n. split_and!; try done.
  - by apply on_fd_run.
  - split; cbn; try done; congruence.
  - intros Hnil Hpos. rewrite Hnil in Htk. cbn in *. rewrite Htk, Hdone; [lia|done|].
    unfold size, FileDescriptor.BUFFER_SIZE. fold room in Hpos. lia.
Qed.

Lemma callback2_ok m s : inv m s -> owner_readable E (kernel (os s)) -> _outbound_shutdown s = false ->
  exists s', callback2 s = Ok (tt, s') /\ inv m s' /\
    _thread_data s' = _thread_data s /\ adapter_fd s' = adapter_fd s /\
    (owner_writable E (kernel (os s)) -> owner_writable E (kernel (os s'))) /\
    moved FDWrapper._read_count (_thread_data s) s s'.
Proof.
  intros Hi Hr Ho.
  destruct (take_ok m s Hi Hr Ho) as (c & data & w1 & c1 & x & n & Hc & E1 & E2 & Hco & Hk1 & Hx & Hw1 & Hdone & Hwr).
  set (room := TCPConnection.remaining_outbound_capacity c) in *.
  destruct Hi as [_ _ Ha [(x0 & n0 & Hx0 & Hp & Hfd & Hcl & He)] [(y & p & Hy & Hpy)] Hd Hso].
  rewrite Hx in Hx0. injection Hx0 as <- <-.
  unfold callback2. rewrite (io_bind_run _ _ _ _ _ (ask_tcp_run _ s c Hc)). fold room.
  rewrite (io_bind_run _ _ _ _ _ E1).
  rewrite (io_bind_run _ _ _ (set_tcp (Some c1) (set_os w1 s)) (zlen data)) by (by eapply with_tcp_run).
  rewrite Z.eqb_refl. cbn [negb]. set (s2 := set_tcp _ _). set (x1 := FileDescriptor.after_read room data x) in *.
  assert (Hx2 : heap (os s2) !! _thread_data s2 = Some (mkCell x1 n)) by (cbn; rewrite Hw1; apply lookup_insert_eq).
  rewrite (io_bind_run _ _ _ _ _ (thread_eof_run s2 _ _ Hx2)).
  assert (Hpeer : peer_ok s2 (1 + count (m1 m) + count (m4 m))).
  { split. exists y, p. cbn. rewrite Hw1, lookup_insert_ne by done. done. }
  assert (Hco2 : conn_ok s2 c1) by (destruct Hco; by split).
  assert (Hso2 : self_ok s2) by (eapply self_step; [exact Hso|done..|exact Hw1|by left]).
  assert (Hx1 : FDWrapper._fd x1 = F /\ FDWrapper._closed x1 = false /\
    FDWrapper._read_count x <> FDWrapper._read_count x1).
  { unfold x1, FileDescriptor.after_read. destruct (_ && _); (split_and!; [done..|apply u32_succ_neq]). }
  destruct Hx1 as (Hfd1 & Hcl1 & Hcnt).
  assert (Hmv : forall s3, heap (os s3) = heap (os s2) -> moved FDWrapper._read_count (_thread_data s) s s3).
  { intros s3 K3. exists x, x1. split; [by exists n|]. split; [|done]. exists n. by rewrite K3. }
  destruct (FDWrapper._eof x1) eqn:Eeof.
  - assert (HtN : taken E (kernel w1) = Ns).
    { unfold x1, FileDescriptor.after_read in Eeof. destruct ((0 <? room) && _) eqn:Eb.
      - apply andb_true_iff in Eb as [Epos%Z.ltb_lt Enil%bool_decide_eq_true]. by apply Hdone.
      - cbn in Eeof. rewrite (He Eeof) in Ho. done. }
    destruct (end_outbound_run m s2 c1 x1 n) as (c' & E3 & Hi3); try done.
    eexists. split; [exact E3|]. split; [done|]. split_and!; try done. by apply Hmv.
  - exists s2. split; [done|]. split; [|split_and!; try done; by apply Hmv].
    split; cbn; try done.
    + by exists c1.
    + split. exists x1, n. split_and!; try done. congruence.
Qed.

(** Taking [n] bytes out of the inbound stream. *)
Lemma pop_inbound_ok c n : TCPConnection.wf Ds Ns Is Dr Nr cap Ir c ->
  0 <= n <= ByteStream.cur_size (TCPConnection.inbound_stream c) ->
  exists st, ByteStream.pop_output n (TCPConnection.inbound_stream c) = Ok st /\
    TCPConnection.wf Ds Ns Is Dr Nr cap Ir (set_inbound st c) /\
    0 <= ByteStream.n_bytes_read (TCPConnection.inbound_stream c) /\
    ByteStream.n_bytes_read st = ByteStream.n_bytes_read (TCPConnection.inbound_stream c) + n /\
    take (Z.to_nat n) (ByteStream.contents (TCPConnection.inbound_stream c)) =
      slice Dr (ByteStream.n_bytes_read (TCPConnection.inbound_stream c)) n.
Proof.
  intros Hw Hn. destruct (TCPConnection.read_inbound_ok Ds Ns Is Dr Nr cap Ir c n Hcap Hw Hn) as (st & E1 & Hw' & Hr0 & Hnr).
  exists st. destruct Hw as [_ _ _ [[[Hst Hcp] _] Hc _] _].
  change (StreamReassembler._output (TCPReceiver._reassembler (TCPConnection._receiver c)))
    with (TCPConnection.inbound_stream c) in *.
  assert (Hlen : zlen (take (Z.to_nat n) (ByteStream.contents (TCPConnection.inbound_stream c))) = n)
    by (rewrite length_take; pose proof (ByteStream.zlen_contents _ Hst); lia).
  unfold ByteStream.read in E1. rewrite ByteStream.peek_output_spec in E1 by (done || lia).
  cbn [mbind res_bind] in E1. rewrite Hlen in E1. apply bind_Ok in E1 as (st' & E1 & [= Htk <-]). done.
Qed.

(** Handing bytes to the owner. *)
Lemma give_ok m s : inv m s -> owner_writable E (kernel (os s)) ->
  exists c n w1 st x p, _tcp s = Some c /\ 0 <= n /\
    on_fd _thread_data (FileDescriptor.write_string
      (take (Z.to_nat (Z.min 65536 (ByteStream.buffer_size (TCPConnection.inbound_stream c))))
         (ByteStream.contents (TCPConnection.inbound_stream c))) false) s = Ok (n, set_os w1 s) /\
    ByteStream.pop_output n (TCPConnection.inbound_stream c) = Ok st /\
    conn_ok (set_os w1 s) (set_inbound st c) /\ k_ok E (kernel w1) /\
    heap (os s) !! _thread_data s = Some (mkCell x p) /\
    heap w1 = <[_thread_data s := mkCell (FDWrapper.register_write x) p]> (heap (os s)).
Proof.
  intros [(c & Hc & [Hw Hsyn Ht Hend Hg]) Hk _ [(x & p & Hx & _ & Hfd & _ & _)] _ _ _] Hwr.
  set (ib := TCPConnection.inbound_stream c) in *. unfold ByteStream.buffer_size.
  assert (Hib : ByteStream.wf ib) by (destruct Hw as [_ _ _ [[[] _] _ _] _]; done).
  pose proof (ByteStream.wf_size _ Hib) as Hsz. pose proof (ByteStream.zlen_contents ib Hib) as Hct.
  remember (take (Z.to_nat (Z.min 65536 (ByteStream.cur_size ib))) (ByteStream.contents ib)) as buf eqn:Eb.
  assert (Hbuf : zlen buf = Z.min 65536 (ByteStream.cur_size ib)) by (rewrite Eb, length_take; lia).
  destruct (k_writev F (BufferViewList.as_iovecs (BufferViewList.of_string buf)) (kernel (os s))) as [a k1] eqn:Hkw.
  destruct (law_writev HL _ _ _ _ Hk Hwr Hkw) as (Hret & Hz & Hk1 & Htk & Hgv).
  rewrite BufferViewList.iovecs_bytes in Hret, Hz, Hgv. cbn [BufferViewList.of_string concat] in Hret, Hz, Hgv.
  rewrite app_nil_r in Hret, Hz, Hgv.
  pose proof (FileDescriptor.write_once_run buf (_thread_data s) (os s) (mkCell x p) a k1 Hx) as E1.
  cbn [wrapper use_count] in E1. rewrite Hfd in E1. specialize (E1 Hkw ltac:(lia) Hret ltac:(lia) Hz).
  destruct (pop_inbound_ok c (ret a) Hw) as (st & E2 & Hw2 & Hnn & Hn2 & Htake); [fold ib; lia|]. fold ib in Hnn, Hn2, Htake, E2.
  set (w1 := set_cell _ _ _) in E1.
  exists c, (ret a), w1, st, x, p. fold ib. rewrite <- Eb.
  split_and!; [done|lia|exact (on_fd_run _ _ _ _ _ E1)|done| |done|done|done].
  split; [exact Hw2|exact Hsyn|exact (eq_trans Ht (eq_sym Htk))|exact Hend|].
  change (kernel (os (set_os w1 s))) with k1. rewrite Hgv, Hg. change (ByteStream.n_bytes_read (TCPConnection.inbound_stream (set_inbound st c))) with (ByteStream.n_bytes_read st).
  rewrite Hn2, Eb, take_take.
  replace (Z.to_nat (ret a) `min` _)%nat with (Z.to_nat (ret a)) by lia.
  rewrite Htake. rewrite (slice_app Dr 0) by lia. by rewrite Z.add_0_l.
Qed.

Lemma shutdown_ok how h w x n : k_ok E (kernel w) -> heap w !! h = Some (mkCell x n) ->
  how = SHUT_WR \/ how = SHUT_RDWR ->
  exists k, Socket.shutdown how h w =
      Ok (tt, mkWorld k (<[h := mkCell (Socket.after_shutdown how x) n]> (heap w)) (next w)) /\
    k_ok E k /\ taken E k = taken E (kernel w) /\ given E k = given E (kernel w).
Proof.
  intros Hk Hx Hhow. destruct (k_shutdown (FDWrapper._fd x) how (kernel w)) as [a k] eqn:Hks.
  destruct (law_shutdown HL _ _ _ _ _ Hk Hks) as (Hret & Hk2 & Ht & Hg). exists k. split; [|done].
  by apply (Socket.shutdown_run _ _ _ _ _ a).
Qed.

Lemma callback3_ok m s : inv m s -> owner_writable E (kernel (os s)) ->
  exists s', callback3 s = Ok (tt, s') /\ inv m s' /\
    _thread_data s' = _thread_data s /\ adapter_fd s' = adapter_fd s /\
    moved FDWrapper._write_count (_thread_data s) s s'.
Proof.
  intros Hi Hwr.
  destruct (give_ok m s Hi Hwr) as (c & n & w1 & st & x & p & Hc & Hn & E1 & E2 & Hco & Hk1 & Hx & Hw1).
  destruct Hi as [(c0 & Hc0 & [Hw _ _ _ _]) _ Ha [(x0 & p0 & Hx0 & Hp & Hfd & Hcl & He)] [(y & q & Hy & Hpy)] Hd Hso].
  rewrite Hx in Hx0. injection Hx0 as <- <-. rewrite Hc in Hc0. injection Hc0 as <-.
  set (ib := TCPConnection.inbound_stream c) in *.
  assert (Hib : ByteStream.wf ib) by (destruct Hw as [_ _ _ [[[] _] _ _] _]; done).
  unfold callback3. rewrite (io_bind_run _ _ _ _ _ (ask_tcp_run _ s c Hc)). fold ib.
  rewrite (io_bind_run _ _ _ s (take (Z.to_nat (Z.min 65536 (ByteStream.buffer_size ib))) (ByteStream.contents ib))).
  2:{ unfold of_res. rewrite ByteStream.peek_output_spec; [done|done|]. unfold ByteStream.buffer_size.
      pose proof (ByteStream.wf_size _ Hib). lia. }
  rewrite (io_bind_run _ _ _ _ _ E1).
  set (s2 := set_tcp (Some (set_inbound st c)) (set_os w1 s)).
  rewrite (io_bind_run _ _ _ s2 tt) by (apply (on_tcp_run _ _ c); [done|]; fold ib; by rewrite E2).
  rewrite (io_bind_run _ _ _ _ _ (ask_tcp_run _ s2 (set_inbound st c) eq_refl)).
  set (x1 := FDWrapper.register_write x) in *.
  assert (Hx2 : heap (os s2) !! _thread_data s2 = Some (mkCell x1 p)) by (cbn; rewrite Hw1; apply lookup_insert_eq).
  assert (Hi2 : inv m s2).
  { split; cbn; try done.
    - exists (set_inbound st c). split; [done|]. destruct Hco. by split.
    - split. exists x1, p. by split_and!.
    - split. exists y, q. cbn. by rewrite Hw1, lookup_insert_ne by done.
    - eapply self_step; [exact Hso|done..|exact Hw1|by left]. }
  destruct (_ || _).
  - destruct (shutdown_ok SHUT_WR (_thread_data s) w1 x1 p) as (k2 & E3 & Hk2 & Ht2 & Hg2); [done|exact Hx2|by left|].
    set (w2 := mkWorld _ _ _) in E3. rewrite (io_bind_run _ _ _ _ _ (on_fd_run _thread_data _ s2 _ _ E3)).
    exists (set_inbound_shutdown (set_os w2 s2)). split; [done|]. split; [|split_and!; try done].
    + split; cbn; try done.
      * exists (set_inbound st c). split; [done|]. destruct Hco. split; cbn in *; congruence || done.
      * split. exists (FDWrapper.register_write x1), p. cbn. by rewrite lookup_insert_eq.
      * split. exists y, q. cbn. by rewrite lookup_insert_ne, Hw1, lookup_insert_ne by done.
      * eapply (self_step s2 _ (_thread_data s)); [apply Hi2|done..|by left].
    + exists x, (FDWrapper.register_write x1). split; [by exists p|]. split; [exists p; apply lookup_insert_eq|].
      cbn. unfold u32. intros Heq. Z.div_mod_to_equations. lia.
  - exists s2. split; [done|]. split; [done|]. split_and!; try done.
    exists x, x1. split; [by exists p|]. split; [by exists p|]. apply u32_succ_neq.
Qed.

Lemma send_queue_ok m fuel : forall s c, inv m s -> _tcp s = Some c ->
  (length (TCPConnection._segments_out c) <= fuel)%nat ->
  exists s' c', send_queue fuel s = Ok (tt, s') /\ inv m s' /\
    _thread_data s' = _thread_data s /\ adapter_fd s' = adapter_fd s /\
    _tcp s' = Some c' /\ TCPConnection._segments_out c' = [].
Proof.
  induction fuel as [|fuel IH]; intros s c Hi Hc Hlen; cbn [send_queue];
    rewrite (io_bind_run _ _ _ _ _ (ask_tcp_run _ s c Hc)).
  { destruct (TCPConnection._segments_out c) eqn:Eq; [by exists s, c|cbn in Hlen; lia]. }
  destruct (TCPConnection._segments_out c) as [|seg rest] eqn:Eq; [by exists s, c|]. cbn in Hlen.
  pose proof Hi as [(c0 & Hc0 & Hco) _ Ha _ _ _]. rewrite Hc in Hc0. injection Hc0 as <-.
  pose proof Hco as [Hw Hsyn Ht Hend Hg]. destruct Hw as [Hw1 Hw2 Hw3 Hw4 Hout]. rewrite Eq in Hout.
  apply Forall_cons in Hout as [Hseg Hrest].
  destruct (law_adapter_write HL seg _ Ha Hseg) as (seg' & a & new & E1 & Ha' & Hlog & Hnew).
  destruct (with_adapter_ok (adapter_write seg) m s seg' a new Hi E1 Ha' Hlog Hnew) as (w & E2 & _ & Hi2).
  set (s1 := set_os w (set_adapter a s)) in *.
  rewrite (io_bind_run _ _ _ s1 tt)
    by (unfold adapter_write_segment; by rewrite (io_bind_run _ _ _ _ _ E2)).
  set (c1 := TCPConnection.set_segments_out rest c).
  rewrite (io_bind_run _ _ _ (set_tcp (Some c1) s1) tt) by (by apply (on_tcp_run _ _ c)).
  assert (Hi3 : inv m (set_tcp (Some c1) s1)).
  { apply inv_set_tcp; [done|]. destruct Hi2 as [(c2 & Hc2 & Hco2) _ _ _ _ _ _].
    change (_tcp s1) with (_tcp s) in Hc2. rewrite Hc in Hc2. injection Hc2 as <-.
    by destruct Hco2. }
  destruct (IH _ c1 Hi3 eq_refl) as (s' & c' & E3 & Hi' & Hth & Had & Hc' & Hq); [cbn; lia|].
  by exists s', c'.
Qed.

Lemma callback4_ok m s : inv m s ->
  exists s', callback4 s = Ok (tt, s') /\ inv m s' /\
    _thread_data s' = _thread_data s /\ adapter_fd s' = adapter_fd s /\ interest4 s' = Ok false.
Proof.
  intros Hi. pose proof Hi as [(c & Hc & _) _ _ _ _ _ _]. unfold callback4.
  rewrite (io_bind_run _ _ _ _ _ (ask_tcp_run _ s c Hc)).
  destruct (send_queue_ok m _ s c Hi Hc (le_n _)) as (s' & c' & E1 & Hi' & Hth & Had & Hc' & Hq).
  assert (Hn : interest4 s' = Ok false) by (unfold interest4, tcp; rewrite Hc'; cbn; by rewrite Hq).
  by exists s'.
Qed.

(** Time passes. *)
Lemma socket_tick_ok m s ms : inv m s ->
  exists s1 s2, on_tcp (fun c => Ok (TCPConnection.tick ms c)) s = Ok (tt, s1) /\
    adapter_tick_ms ms s1 = Ok (tt, s2) /\
    inv m s2 /\ _thread_data s2 = _thread_data s /\ adapter_fd s2 = adapter_fd s.
Proof.
  intros Hi. pose proof Hi as [(c & Hc & Hco) _ Ha _ _ _].
  set (s1 := set_tcp (Some (TCPConnection.tick ms c)) s). assert (Hi1 : inv m s1).
  { apply inv_set_tcp; [done|]. eapply conn_keeps; [done| |apply TCPConnection.keeps_tick].
    apply TCPConnection.connection_tick_wf. apply Hco. }
  destruct (law_adapter_tick HL ms _ Ha) as (a & new & E1 & Ha' & Hlog & Hnew).
  destruct (with_adapter_ok (fun a => a' ← adapter_tick ms a; Ok (tt, a')) m s1 tt a new Hi1)
    as (w & E2 & _ & Hi2); [cbn; by rewrite E1|done|done|done|].
  exists s1, (set_os w (set_adapter a s1)). split; [by apply (on_tcp_run _ s c)|done].
Qed.

Lemma timestamp_ok m s : inv m s ->
  exists now s', timestamp_ms s = Ok (now, s') /\ inv m s' /\
    _thread_data s' = _thread_data s /\ adapter_fd s' = adapter_fd s /\ _tcp s' = _tcp s.
Proof.
  intros [(c & Hc & []) Hk Ha [] [] Hd []]. unfold timestamp_ms, lift. cbn [view update socket_os].
  destruct (k_clock (kernel (os s))) as [now k] eqn:Ek. destruct (law_clock HL _ _ _ Hk Ek).
  eexists _, _. split; [done|]. split; [|done]. split; cbn; try done; [|by split..].
  exists c. split; [done|]. split; cbn; try done; congruence.
Qed.

(** *** One round of the event loop *)

Definition opt {T} (b : bool) (x : T) : list T := if b then [x] else [].

(** The rules of a mask, for the descriptors of [s]. *)
Definition rules_of (m : mask) (s : t) : list (@EventLoop.Rule t) :=
  opt (m1 m) (rule1 (adapter_fd s)) ++ opt (m2 m) (rule2 (_thread_data s)) ++
  opt (m3 m) (rule3 (_thread_data s)) ++ opt (m4 m) (rule4 (adapter_fd s)).

Lemma deref_thread m s : inv m s -> exists x n, heap (os s) !! _thread_data s = Some (mkCell x n) /\
  1 + count (m2 m) + count (m3 m) <= n /\ FDWrapper._fd x = F /\ FDWrapper._closed x = false /\
  (FDWrapper._eof x = true -> _outbound_shutdown s = true) /\
  lift (FileDescriptor.deref (_thread_data s)) s = Ok (x, s).
Proof.
  intros [_ _ _ [(x & n & Hx & ? & ? & ? & ?)] _ _]. exists x, n. split_and!; try done.
  unfold lift. cbn [view update socket_os].
  rewrite (FileDescriptor.deref_run _ _ _ Hx). by rewrite set_os_id.
Qed.

Lemma deref_peer m s : inv m s -> exists x n, heap (os s) !! adapter_fd s = Some (mkCell x n) /\
  1 + count (m1 m) + count (m4 m) <= n /\ FDWrapper._fd x <> F /\ FDWrapper._closed x = false /\
  lift (FileDescriptor.deref (adapter_fd s)) s = Ok (x, s).
Proof.
  intros [_ _ _ _ [(x & n & Hx & ? & ? & ?)] _]. exists x, n. split_and!; try done.
  unfold lift. cbn [view update socket_os].
  rewrite (FileDescriptor.deref_run _ _ _ Hx). by rewrite set_os_id.
Qed.

(** Removing a rule of the adapter's descriptor. *)
Lemma drop_peer m m' s : inv m s -> m2 m' = m2 m -> m3 m' = m3 m ->
  count (m1 m') + count (m4 m') = count (m1 m) + count (m4 m) - 1 ->
  exists w, lift (FileDescriptor.destroy (adapter_fd s)) s = Ok (tt, set_os w s) /\
    inv m' (set_os w s) /\ kernel w = kernel (os s).
Proof.
  intros Hi E2 E3 Ec. destruct (deref_peer m s Hi) as (x & n & Hx & Hn & Hf & Hcl & _).
  assert (0 <= count (m1 m') /\ 0 <= count (m4 m')) by (split; unfold count; case_match; lia).
  eexists. split; [|split].
  - unfold lift. cbn [view update socket_os]. by rewrite (FileDescriptor.destroy_run _ _ x n Hx) by lia.
  - destruct Hi as [(c & Hc & []) Hk Ha [(y & p & Hy & Hth)] _ Hd Hso]. split; cbn; try done.
    + exists c. by split.
    + split. exists y, p. cbn. rewrite E2, E3, lookup_insert_ne by done. done.
    + split. exists x, (n - 1). cbn. rewrite lookup_insert_eq. split_and!; try done. lia.
    + eapply (self_step s _ (adapter_fd s)); [done..|by right].
  - done.
Qed.

Lemma drop_thread m m' s : inv m s -> m1 m' = m1 m -> m4 m' = m4 m ->
  count (m2 m') + count (m3 m') = count (m2 m) + count (m3 m) - 1 ->
  exists w, lift (FileDescriptor.destroy (_thread_data s)) s = Ok (tt, set_os w s) /\
    inv m' (set_os w s) /\ kernel w = kernel (os s).
Proof.
  intros Hi E1 E4 Ec. destruct (deref_thread m s Hi) as (x & n & Hx & Hn & Hf & Hcl & He & _).
  assert (0 <= count (m2 m') /\ 0 <= count (m3 m')) by (split; unfold count; case_match; lia).
  eexists. split; [|split].
  - unfold lift. cbn [view update socket_os]. by rewrite (FileDescriptor.destroy_run _ _ x n Hx) by lia.
  - destruct Hi as [(c & Hc & []) Hk Ha _ [(y & p & Hy & Hth)] Hd Hso]. split; cbn; try done.
    + exists c. by split.
    + split. exists x, (n - 1). cbn. rewrite lookup_insert_eq. split_and!; try done. lia.
    + split. exists y, p. cbn. rewrite E1, E4, lookup_insert_ne by done. done.
    + eapply (self_step s _ (_thread_data s)); [done..|by left].
  - done.
Qed.

(** The request for a rule: its descriptor, and its direction or nothing. *)
Record asked (fd_ok : Z -> Prop) (d : Direction) (p : pollfd) : Prop := {
  ak_fd : fd_ok (poll_fd p);
  ak_events : events p = direction_short d \/ events p = 0
}.

Lemma polled_ready fd_ok d p : asked fd_ok d p -> EventLoop.poll_ready p = true -> events p = direction_short d.
Proof.
  intros [_ [?|He]] Hr; [done|]. unfold EventLoop.poll_ready in Hr. rewrite He, Z.land_0_r in Hr. done.
Qed.

Lemma polled_hung_up fd_ok d p : asked fd_ok d p -> EventLoop.hung_up p = true -> events p = direction_short d.
Proof.
  intros [_ [?|He]] Hh; [done|]. unfold EventLoop.hung_up in Hh. by rewrite He, andb_false_r in Hh.
Qed.

Definition mask1 (b : bool) (m : mask) : mask := mkMask b (m2 m) (m3 m) (m4 m).
Definition mask2 (b : bool) (m : mask) : mask := mkMask (m1 m) b (m3 m) (m4 m).
Definition mask3 (b : bool) (m : mask) : mask := mkMask (m1 m) (m2 m) b (m4 m).
Definition mask4 (b : bool) (m : mask) : mask := mkMask (m1 m) (m2 m) (m3 m) b.

(** The interest of a rule can always be asked for. *)
Lemma interests_defined m s : inv m s ->
  (exists b, interest1 s = Ok b) /\ (exists b, interest2 s = Ok b) /\
  (exists b, interest3 s = Ok b) /\ (exists b, interest4 s = Ok b).
Proof.
  intros [(c & Hc & _) _ _ _ _ _ _]. unfold interest1, interest2, interest3, interest4, tcp. rewrite Hc.
  cbn. by eauto 10.
Qed.

(** Retiring rule 1, rule 3 or rule 4 only drops a handle. *)
Lemma retire_peer m m' s (r : @EventLoop.Rule t) : inv m s -> EventLoop.fd r = adapter_fd s ->
  EventLoop.cancel r = mret tt -> m2 m' = m2 m -> m3 m' = m3 m ->
  count (m1 m') + count (m4 m') = count (m1 m) + count (m4 m) - 1 ->
  exists w, EventLoop.retire r s = Ok (tt, set_os w s) /\ inv m' (set_os w s) /\ kernel w = kernel (os s).
Proof.
  intros Hi Hfd Hcn E2 E3 Ec. destruct (drop_peer m m' s Hi E2 E3 Ec) as (w & E1 & Hi' & Hk).
  exists w. split; [|done]. unfold EventLoop.retire. rewrite Hcn, Hfd.
  by rewrite (io_bind_run _ _ _ s tt).
Qed.

Lemma retire3 m s : inv m s -> m3 m = true ->
  exists w, EventLoop.retire (rule3 (_thread_data s)) s = Ok (tt, set_os w s) /\
    inv (mask3 false m) (set_os w s) /\ kernel w = kernel (os s).
Proof.
  intros Hi Hm. destruct (drop_thread m (mask3 false m) s Hi eq_refl eq_refl) as (w & E1 & Hi' & Hk);
    [cbn; rewrite Hm; cbn; lia|].
  exists w. split; [|done]. unfold EventLoop.retire. by rewrite (io_bind_run _ _ _ s tt).
Qed.

(** Retiring rule 2 also ends the outbound stream. *)
Lemma retire2 m s : inv m s -> m2 m = true -> taken E (kernel (os s)) = Ns ->
  exists s', EventLoop.retire (rule2 (_thread_data s)) s = Ok (tt, s') /\ inv (mask2 false m) s' /\
    _thread_data s' = _thread_data s /\ adapter_fd s' = adapter_fd s /\ kernel (os s') = kernel (os s).
Proof.
  intros Hi Hm Ht. destruct (end_outbound_ok m s Hi Ht) as (c & E1 & Hi1).
  destruct (drop_thread m (mask2 false m) _ Hi1 eq_refl eq_refl) as (w & E2 & Hi2 & Hk);
    [cbn; rewrite Hm; cbn; lia|].
  eexists. split; [|split; [exact Hi2|done]]. unfold EventLoop.retire, rule2. cbn [EventLoop.cancel EventLoop.fd].
  rewrite (io_bind_run _ _ _ _ _ E1). exact E2.
Qed.

(** *** The first loop *)

Lemma setup1 m s kept pollfds st : inv m s ->
  exists b p st' w, EventLoop.setup (opt (m1 m) (rule1 (adapter_fd s))) kept pollfds st s =
      Ok ((kept ++ opt b (rule1 (adapter_fd s)), pollfds ++ opt b p, st'), set_os w s) /\
    inv (mask1 b m) (set_os w s) /\ asked (fun fd => fd <> F) DirIn p.
Proof.
  intros Hi. destruct (deref_peer m s Hi) as (x & n & Hx & Hn & Hf & Hcl & Hd).
  destruct (m1 m) eqn:Em; cbn [opt].
  2:{ exists false, (mkPollfd (F + 1) 0 0), st, (os s). cbn. rewrite set_os_id, !app_nil_r. split; [done|].
      split; [by destruct m; cbn in *; subst|]. split; cbn; [lia|by right]. }
  destruct (FDWrapper._eof x) eqn:Ee.
  - destruct (retire_peer m (mask1 false m) s (rule1 (adapter_fd s)) Hi) as (w & E1 & Hi' & Hk); try done.
    { cbn. rewrite Em. cbn. lia. }
    exists false, (mkPollfd (F + 1) 0 0), st, w. cbn [opt]. rewrite !app_nil_r.
    split; [by eapply EventLoop.setup_retire|]. split; [done|]. split; cbn; [lia|by right].
  - destruct (interests_defined m s Hi) as ([i Hint] & _).
    exists true. eexists _, _, (os s). rewrite set_os_id. split; [|split].
    + eapply (EventLoop.setup_keep (rule1 (adapter_fd s)) x i); [done|by cbn|done|done].
    + by destruct m; cbn in *; subst.
    + split; [done|]. cbn. destruct i; [by left|by right].
Qed.

Lemma setup2 m s kept pollfds st : inv m s ->
  exists b p st' s', EventLoop.setup (opt (m2 m) (rule2 (_thread_data s))) kept pollfds st s =
      Ok ((kept ++ opt b (rule2 (_thread_data s)), pollfds ++ opt b p, st'), s') /\
    inv (mask2 b m) s' /\ _thread_data s' = _thread_data s /\ adapter_fd s' = adapter_fd s /\
    asked (fun fd => fd = F) DirIn p /\ (events p <> 0 -> _outbound_shutdown s' = false).
Proof.
  intros Hi. destruct (deref_thread m s Hi) as (x & n & Hx & Hn & Hf & Hcl & He & Hd).
  destruct (m2 m) eqn:Em; cbn [opt].
  2:{ exists false, (mkPollfd F 0 0), st, s. cbn. rewrite !app_nil_r. split; [done|].
      split; [by destruct m; cbn in *; subst|]. split_and!; try done. split; cbn; [done|by right]. }
  destruct (FDWrapper._eof x) eqn:Ee.
  - destruct (retire2 m s Hi Em) as (s' & E1 & Hi' & Hth & Had & _).
    { destruct Hi as [(c & Hc & [Hw _ Ht Hend _]) _ _ _ _ _ _].
      destruct Hw as [[? ? ? ? ? ? Hended ? ? ? ?] _ _ _ _]. rewrite <- Ht. apply Hended.
      change (ByteStream.done_writing (TCPConnection.stream_in c) = true). rewrite Hend. by apply He. }
    exists false, (mkPollfd F 0 0), st, s'. cbn [opt]. rewrite !app_nil_r.
    split; [by eapply EventLoop.setup_retire|]. split; [done|]. split_and!; try done. split; cbn; [done|by right].
  - destruct (interests_defined m s Hi) as (_ & [i Hint] & _).
    exists true. eexists _, _, s. split; [|split; [|split; [done|split; [done|split]]]].
    + eapply (EventLoop.setup_keep (rule2 (_thread_data s)) x i); [done|by cbn|done|done].
    + by destruct m; cbn in *; subst.
    + split; [done|]. cbn. destruct i; [by left|by right].
    + cbn. unfold interest2 in Hint. destruct (tcp s); cbn in Hint; [|done]. injection Hint as Hint.
      destruct i; [|done]. intros _. apply andb_true_iff in Hint as [Hint _].
      apply andb_true_iff in Hint as [_ Hint]. by apply negb_true_iff in Hint.
Qed.

(** Rules 3 and 4 are kept as they are. *)
Lemma setup34 m s kept pollfds st : inv m s ->
  exists p3 p4 st', EventLoop.setup (opt (m3 m) (rule3 (_thread_data s)) ++ opt (m4 m) (rule4 (adapter_fd s)))
      kept pollfds st s =
      Ok ((kept ++ opt (m3 m) (rule3 (_thread_data s)) ++ opt (m4 m) (rule4 (adapter_fd s)),
           pollfds ++ opt (m3 m) p3 ++ opt (m4 m) p4, st'), s) /\
    asked (fun fd => fd = F) DirOut p3 /\ asked (fun fd => fd <> F) DirOut p4.
Proof.
  intros Hi. destruct (deref_thread m s Hi) as (x & n & Hx & Hn & Hf & Hcl & He & Hd).
  destruct (deref_peer m s Hi) as (y & q & Hy & Hq & Hfy & Hcly & Hdy).
  destruct (interests_defined m s Hi) as (_ & _ & [i3 Hi3] & [i4 Hi4]).
  assert (H3 : forall kept pollfds st, exists st', EventLoop.setup (opt (m3 m) (rule3 (_thread_data s))) kept pollfds st s
    = Ok ((kept ++ opt (m3 m) (rule3 (_thread_data s)),
           pollfds ++ opt (m3 m) (mkPollfd F (if i3 then POLLOUT else 0) 0), st'), s)).
  { intros k ps b. destruct (m3 m); cbn [opt]; [|exists b; by rewrite !app_nil_r].
    eexists. rewrite <- Hf. by apply (EventLoop.setup_keep (rule3 (_thread_data s)) x i3). }
  assert (H4 : forall kept pollfds st, exists st', EventLoop.setup (opt (m4 m) (rule4 (adapter_fd s))) kept pollfds st s
    = Ok ((kept ++ opt (m4 m) (rule4 (adapter_fd s)),
           pollfds ++ opt (m4 m) (mkPollfd (FDWrapper._fd y) (if i4 then POLLOUT else 0) 0), st'), s)).
  { intros k ps b. destruct (m4 m); cbn [opt]; [|exists b; by rewrite !app_nil_r].
    eexists. by apply (EventLoop.setup_keep (rule4 (adapter_fd s)) y i4). }
  destruct (H3 kept pollfds st) as (st1 & E3). destruct (H4 (kept ++ opt (m3 m) (rule3 (_thread_data s)))
    (pollfds ++ opt (m3 m) (mkPollfd F (if i3 then POLLOUT else 0) 0)) st1) as (st2 & E4).
  eexists _, _, st2. split; [|split].
  - rewrite EventLoop.setup_app, E3, E4, <- !app_assoc. done.
  - split; [done|]. cbn. destruct i3; [by left|by right].
  - split; [done|]. cbn. destruct i4; [by left|by right].
Qed.

(** *** The second loop *)

Lemma service_count_run (r : @EventLoop.Rule t) s x : wrapper_at (EventLoop.fd r) s x ->
  EventLoop.service_count r s =
    Ok (match EventLoop.direction r with DirIn => FDWrapper._read_count x | DirOut => FDWrapper._write_count x end, s).
Proof.
  intros [n Hx]. unfold EventLoop.service_count, lift. cbn [view update socket_os].
  unfold FileDescriptor.read_count, FileDescriptor.write_count.
  destruct (EventLoop.direction r);
    rewrite (io_bind_run _ _ _ _ _ (FileDescriptor.deref_run _ _ _ Hx)); cbn; by rewrite set_os_id.
Qed.

(** A callback that has moved the counter of its rule passes the check. *)
Lemma serve_moved (r : @EventLoop.Rule t) p s s1 : EventLoop.poll_error p = false -> EventLoop.hung_up p = false ->
  EventLoop.poll_ready p = true -> EventLoop.callback r s = Ok (tt, s1) ->
  moved (match EventLoop.direction r with DirIn => FDWrapper._read_count | DirOut => FDWrapper._write_count end)
    (EventLoop.fd r) s s1 ->
  EventLoop.serve [r] [p] s = Ok ([r], s1).
Proof.
  intros He Hh Hr E1 (x & x' & Hx & Hx' & Hne).
  eapply EventLoop.serve_ready; [done..|by apply service_count_run|by apply service_count_run|left].
  by destruct (EventLoop.direction r).
Qed.

Lemma serve1 m s p : inv m s ->
  (m1 m = true -> EventLoop.poll_error p = false /\
    (EventLoop.poll_ready p = true -> peer_readable E (kernel (os s)))) ->
  exists b s', EventLoop.serve (opt (m1 m) (rule1 (adapter_fd s))) (opt (m1 m) p) s =
      Ok (opt b (rule1 (adapter_fd s)), s') /\
    inv (mask1 b m) s' /\ stays s s' /\ _outbound_shutdown s' = _outbound_shutdown s.
Proof.
  intros Hi Hp. assert (Hsame : inv (mask1 (m1 m) m) s) by (by destruct m).
  destruct (m1 m) eqn:Em; cbn [opt]; [destruct (Hp eq_refl) as [He Hr]|by exists false, s].
  destruct (EventLoop.hung_up p) eqn:Eh.
  - destruct (retire_peer m (mask1 false m) s (rule1 (adapter_fd s)) Hi) as (w & E1 & Hi' & Hk); try done.
    { cbn. rewrite Em. cbn. lia. }
    exists false, (set_os w s). split; [by apply EventLoop.serve_hung_up|]. split; [done|].
    split; [|done]. split; cbn; try done; by rewrite Hk.
  - destruct (EventLoop.poll_ready p) eqn:Er.
    + destruct (callback1_ok m s Hi (Hr eq_refl)) as (s' & E1 & Hi' & Hst & Ho & Hmv).
      exists true, s'. split; [by apply serve_moved|]. split; [|done].
      by destruct m; cbn in *; subst.
    + exists true, s. split; [by apply EventLoop.serve_idle|done].
Qed.

Lemma serve2 m s p : inv m s ->
  (m2 m = true -> EventLoop.poll_error p = false /\
    (EventLoop.poll_ready p = true -> owner_readable E (kernel (os s)) /\ _outbound_shutdown s = false) /\
    (EventLoop.hung_up p = true -> taken E (kernel (os s)) = Ns)) ->
  exists b s', EventLoop.serve (opt (m2 m) (rule2 (_thread_data s))) (opt (m2 m) p) s =
      Ok (opt b (rule2 (_thread_data s)), s') /\
    inv (mask2 b m) s' /\ _thread_data s' = _thread_data s /\ adapter_fd s' = adapter_fd s /\
    (owner_writable E (kernel (os s)) -> owner_writable E (kernel (os s'))).
Proof.
  intros Hi Hp. assert (Hsame : inv (mask2 (m2 m) m) s) by (by destruct m).
  destruct (m2 m) eqn:Em; cbn [opt]; [destruct (Hp eq_refl) as (He & Hr & Hh)|by exists false, s].
  destruct (EventLoop.hung_up p) eqn:Eh.
  - destruct (retire2 m s Hi Em) as (s' & E1 & Hi' & Hth & Had & Hk).
    { by apply Hh. }
    exists false, s'. split; [by apply EventLoop.serve_hung_up|]. by rewrite Hk.
  - destruct (EventLoop.poll_ready p) eqn:Er.
    + destruct (Hr eq_refl) as [Hrd Ho].
      destruct (callback2_ok m s Hi Hrd Ho) as (s' & E1 & Hi' & Hth & Had & Hwr & Hmv).
      exists true, s'. split; [by apply serve_moved|]. split; [|done].
      by destruct m; cbn in *; subst.
    + exists true, s. split; [by apply EventLoop.serve_idle|done].
Qed.

Lemma serve3 m s p : inv m s ->
  (m3 m = true -> EventLoop.poll_error p = false /\
    (EventLoop.poll_ready p = true -> owner_writable E (kernel (os s)))) ->
  exists b s', EventLoop.serve (opt (m3 m) (rule3 (_thread_data s))) (opt (m3 m) p) s =
      Ok (opt b (rule3 (_thread_data s)), s') /\
    inv (mask3 b m) s' /\ _thread_data s' = _thread_data s /\ adapter_fd s' = adapter_fd s.
Proof.
  intros Hi Hp. assert (Hsame : inv (mask3 (m3 m) m) s) by (by destruct m).
  destruct (m3 m) eqn:Em; cbn [opt]; [destruct (Hp eq_refl) as [He Hr]|by exists false, s].
  destruct (EventLoop.hung_up p) eqn:Eh.
  - destruct (retire3 m s Hi Em) as (w & E1 & Hi' & _).
    exists false, (set_os w s). split; [by apply EventLoop.serve_hung_up|done].
  - destruct (EventLoop.poll_ready p) eqn:Er.
    + destruct (callback3_ok m s Hi (Hr eq_refl)) as (s' & E1 & Hi' & Hth & Had & Hmv).
      exists true, s'. split; [by apply serve_moved|]. split; [|done].
      by destruct m; cbn in *; subst.
    + exists true, s. split; [by apply EventLoop.serve_idle|done].
Qed.

Lemma serve4 m s p : inv m s -> (m4 m = true -> EventLoop.poll_error p = false) ->
  exists b s', EventLoop.serve (opt (m4 m) (rule4 (adapter_fd s))) (opt (m4 m) p) s =
      Ok (opt b (rule4 (adapter_fd s)), s') /\
    inv (mask4 b m) s' /\ _thread_data s' = _thread_data s /\ adapter_fd s' = adapter_fd s.
Proof.
  intros Hi Hp. assert (Hsame : inv (mask4 (m4 m) m) s) by (by destruct m).
  destruct (m4 m) eqn:Em; cbn [opt]; [pose proof (Hp eq_refl) as He|by exists false, s].
  destruct (EventLoop.hung_up p) eqn:Eh.
  - destruct (retire_peer m (mask4 false m) s (rule4 (adapter_fd s)) Hi) as (w & E1 & Hi' & _); try done.
    { cbn. rewrite Em. cbn. lia. }
    exists false, (set_os w s). split; [by apply EventLoop.serve_hung_up|done].
  - destruct (EventLoop.poll_ready p) eqn:Er.
    + destruct (callback4_ok m s Hi) as (s' & E1 & Hi' & Hth & Had & Hn).
      destruct (deref_peer m s Hi) as (x & n & Hx & _). destruct (deref_peer m s' Hi') as (x' & n' & Hx' & _).
      exists true, s'. split; [|split; [by destruct m; cbn in *; subst|done]].
      eapply EventLoop.serve_ready; [done..| | |by right].
      * apply (service_count_run _ s x). by exists n.
      * apply (service_count_run _ s' x'). exists n'. cbn. by rewrite <- Had.
    + exists true, s. split; [by apply EventLoop.serve_idle|done].
Qed.

(** *** Both loops *)

Lemma fill_opt b p ps rs : exists r rs',
  EventLoop.fill_revents (opt b p ++ ps) rs =
    opt b (mkPollfd (poll_fd p) (events p) r) ++ EventLoop.fill_revents ps rs'.
Proof. destruct b; [by eexists _, _|by exists 0, rs]. Qed.

(** The requests that the first loop has prepared for the rules of [m]. *)
Definition requests (m : mask) (p1 p2 p3 p4 : pollfd) : list pollfd :=
  opt (m1 m) p1 ++ opt (m2 m) p2 ++ opt (m3 m) p3 ++ opt (m4 m) p4.

Record asked_all (s : t) (p1 p2 p3 p4 : pollfd) : Prop := {
  aa1 : asked (fun fd => fd <> F) DirIn p1;
  aa2 : asked (fun fd => fd = F) DirIn p2;
  aa3 : asked (fun fd => fd = F) DirOut p3;
  aa4 : asked (fun fd => fd <> F) DirOut p4;
  aa_out : events p2 <> 0 -> _outbound_shutdown s = false
}.

Lemma setup_ok m s : inv m s ->
  exists m' p1 p2 p3 p4 st s',
    EventLoop.setup (rules_of m s) [] [] false s = Ok ((rules_of m' s', requests m' p1 p2 p3 p4, st), s') /\
    inv m' s' /\ _thread_data s' = _thread_data s /\ adapter_fd s' = adapter_fd s /\ asked_all s' p1 p2 p3 p4.
Proof.
  intros Hi. destruct (setup1 m s [] [] false Hi) as (b1 & p1 & st1 & w & E1 & Hi1 & A1).
  destruct (setup2 _ _ (opt b1 (rule1 (adapter_fd s))) (opt b1 p1) st1 Hi1)
    as (b2 & p2 & st2 & s2 & E2 & Hi2 & Hth & Had & A2 & Hout).
  destruct (setup34 _ _ (opt b1 (rule1 (adapter_fd s)) ++ opt b2 (rule2 (_thread_data s)))
    (opt b1 p1 ++ opt b2 p2) st2 Hi2) as (p3 & p4 & st3 & E3 & A3 & A4).
  cbn [m1 m2 m3 m4 mask1 mask2] in *. change (_thread_data (set_os w s)) with (_thread_data s) in *.
  change (adapter_fd (set_os w s)) with (adapter_fd s) in *. rewrite Hth, Had in E3.
  exists (mkMask b1 b2 (m3 m) (m4 m)), p1, p2, p3, p4, st3, s2.
  split; [|split; [done|split; [done|split; [done|by split]]]].
  unfold rules_of, requests. cbn [m1 m2 m3 m4]. rewrite Hth, Had.
  rewrite EventLoop.setup_app, E1. cbn [app]. rewrite EventLoop.setup_app, E2, E3. by rewrite <- !app_assoc.
Qed.

Lemma serve_ok m s s0 p1 p2 p3 p4 revs : inv m s -> asked_all s0 p1 p2 p3 p4 ->
  _outbound_shutdown s0 = _outbound_shutdown s ->
  Forall (reported (kernel (os s)))
    (EventLoop.fill_revents (requests m p1 p2 p3 p4) revs) ->
  exists m' s', EventLoop.serve (rules_of m s) (EventLoop.fill_revents (requests m p1 p2 p3 p4) revs) s
      = Ok (rules_of m' s', s') /\
    inv m' s' /\ _thread_data s' = _thread_data s /\ adapter_fd s' = adapter_fd s.
Proof.
  intros Hi [A1 A2 A3 A4 Hout] Hos. unfold requests.
  destruct (fill_opt (m1 m) p1 (opt (m2 m) p2 ++ opt (m3 m) p3 ++ opt (m4 m) p4) revs) as (r1 & rs1 & ->).
  destruct (fill_opt (m2 m) p2 (opt (m3 m) p3 ++ opt (m4 m) p4) rs1) as (r2 & rs2 & ->).
  destruct (fill_opt (m3 m) p3 (opt (m4 m) p4) rs2) as (r3 & rs3 & ->).
  rewrite <- (app_nil_r (opt (m4 m) p4)).
  destruct (fill_opt (m4 m) p4 [] rs3) as (r4 & rs4 & ->). cbn [EventLoop.fill_revents]. rewrite app_nil_r.
  set (q1 := mkPollfd _ _ r1). set (q2 := mkPollfd _ _ r2). set (q3 := mkPollfd _ _ r3). set (q4 := mkPollfd _ _ r4).
  assert (B1 : asked (fun fd => fd <> F) DirIn q1) by (destruct A1; by split).
  assert (B2 : asked (fun fd => fd = F) DirIn q2) by (destruct A2; by split).
  assert (B3 : asked (fun fd => fd = F) DirOut q3) by (destruct A3; by split).
  assert (B4 : asked (fun fd => fd <> F) DirOut q4) by (destruct A4; by split).
  intros HF. apply Forall_app in HF as [F1 HF]. apply Forall_app in HF as [F2 HF]. apply Forall_app in HF as [F3 F4].
  assert (Hone : forall b q, Forall (reported (kernel (os s))) (opt b q) -> b = true ->
    reported (kernel (os s)) q) by (intros b q Hq ->; by inversion Hq).
  assert (Hlen : forall (b : bool) (r : @EventLoop.Rule t) (q : pollfd), length (opt b q) = length (opt b r))
    by (by intros []).
  destruct (serve1 m s q1 Hi) as (b1 & s1 & E1 & Hi1 & [Hth1 Had1 Htk1 Hrd1 Hwr1] & Ho1).
  { intros Hm. destruct (Hone _ _ F1 Hm) as [He _ _ _ Hpr]. split; [done|]. intros Hr.
    apply Hpr; [apply B1|done|exact (polled_ready _ _ _ B1 Hr)]. }
  destruct (serve2 _ s1 q2 Hi1) as (b2 & s2 & E2 & Hi2 & Hth2 & Had2 & Hwr2).
  { intros Hm. destruct (Hone _ _ F2 Hm) as [He Hrd _ Hhup _]. split; [done|]. split.
    - intros Hr. pose proof (polled_ready _ _ _ B2 Hr) as Hev. split; [apply Hrd1, Hrd; [apply B2|done|exact Hev]|].
      rewrite Ho1, <- Hos. apply Hout. change (events p2) with (events q2). rewrite Hev. done.
    - intros Hh. rewrite Htk1. apply Hhup; [apply B2|done|exact (polled_hung_up _ _ _ B2 Hh)]. }
  destruct (serve3 _ s2 q3 Hi2) as (b3 & s3 & E3 & Hi3 & Hth3 & Had3).
  { intros Hm. destruct (Hone _ _ F3 Hm) as [He _ Hwr _ _]. split; [done|]. intros Hr.
    apply Hwr2, Hwr1, Hwr; [apply B3|done|exact (polled_ready _ _ _ B3 Hr)]. }
  destruct (serve4 _ s3 q4 Hi3) as (b4 & s4 & E4 & Hi4 & Hth4 & Had4).
  { intros Hm. by destruct (Hone _ _ F4 Hm). }
  cbn [m1 m2 m3 m4 mask1 mask2 mask3 mask4] in *.
  exists (mkMask b1 b2 b3 b4), s4. split; [|split; [done|split; congruence]].
  unfold rules_of. cbn [m1 m2 m3 m4]. rewrite EventLoop.serve_app, E1 by apply Hlen.
  rewrite <- Hth1, EventLoop.serve_app, E2 by apply Hlen.
  rewrite <- Hth2, EventLoop.serve_app, E3 by apply Hlen.
  rewrite <- Had1, <- Had2, <- Had3, E4. rewrite Had4, Hth4, Hth3. done.
Qed.

(** A round of the event loop never throws and keeps the invariant. *)
Lemma wait_ok m s : inv m s ->
  exists r m' s', EventLoop.wait_next_event TCP_TICK_MS (rules_of m s) s = Ok ((r, rules_of m' s'), s') /\
    inv m' s' /\ _thread_data s' = _thread_data s /\ adapter_fd s' = adapter_fd s.
Proof.
  intros Hi. destruct (setup_ok m s Hi) as (m' & p1 & p2 & p3 & p4 & st & s1 & E1 & Hi1 & Hth & Had & Hask).
  unfold EventLoop.wait_next_event. rewrite (io_bind_run _ _ _ _ _ E1).
  destruct st; cbn [negb]; [|by exists EventLoop.Exit, m', s1].
  destruct (k_poll (requests m' p1 p2 p3 p4) TCP_TICK_MS (kernel (os s1))) as [[a revs] k] eqn:Hk.
  pose proof Hi1 as [(c & Hc & [Hcw Hcs Hct Hce Hcg]) Hko Ha [Hth0] [Hpr0] Hd []].
  destruct (law_poll HL _ _ _ _ _ _ Hko Hk) as [[Hq1 Hq2 Hq3 Hq4 Hq5] HF].
  set (s2 := set_os (set_kernel k (os s1)) s1).
  rewrite (io_bind_run _ _ _ s2 (a, revs)).
  2:{ unfold lift, syscall_out. cbn [view update socket_os]. by rewrite Hk. }
  assert (Hi2 : inv m' s2).
  { split; cbn; try done; [|by split..]. exists c. split; [done|]. split; cbn; try done; congruence. }
  destruct (serve_ok m' s2 s1 p1 p2 p3 p4 revs Hi2 Hask eq_refl HF) as (m2' & s3 & E3 & Hi3 & Hth3 & Had3).
  change (rules_of m' s1) with (rules_of m' s2).
  assert (Hs : exists r m3 s4, (rules ← EventLoop.serve (rules_of m' s2)
      (EventLoop.fill_revents (requests m' p1 p2 p3 p4) revs); mret (EventLoop.Success, rules)) s2
      = Ok ((r, rules_of m3 s4), s4) /\ inv m3 s4 /\ _thread_data s4 = _thread_data s /\ adapter_fd s4 = adapter_fd s).
  { exists EventLoop.Success, m2', s3. rewrite (io_bind_run _ _ _ _ _ E3).
    split; [done|]. split; [done|]. rewrite Hth3, Had3. done. }
  destruct (SystemCall a 0) as [[|n|n]|[]]; try exact Hs; [by exists EventLoop.Timeout, m', s2|].
  case_match; [by exists EventLoop.Exit, m', s2|exact Hs].
Qed.

Lemma rules_of_same m s s' : _thread_data s' = _thread_data s -> adapter_fd s' = adapter_fd s ->
  rules_of m s' = rules_of m s.
Proof. intros Hth Had. unfold rules_of. by rewrite Hth, Had. Qed.

Lemma tcp_round_ok m s base : inv m s ->
  exists b base' m' s', tcp_round base (rules_of m s) s = Ok ((b, base', rules_of m' s'), s') /\ inv m' s'.
Proof.
  intros Hi. destruct (wait_ok m s Hi) as (r & m' & s1 & E1 & Hi1 & _).
  unfold tcp_round. rewrite (io_bind_run _ _ _ _ _ E1), (io_bind_run _ _ _ s1 s1) by done.
  destruct (match r with EventLoop.Exit => true | _ => _abort s1 end); [by exists false, base, m', s1|].
  pose proof Hi1 as [(c & Hc & _) _ _ _ _ _ _]. rewrite (io_bind_run _ _ _ _ _ (ask_tcp_run _ s1 c Hc)).
  destruct (TCPConnection.active c); [|by exists true, base, m', s1].
  destruct (timestamp_ok m' s1 Hi1) as (now & s2 & E2 & Hi2 & Hth2 & Had2 & _). rewrite (io_bind_run _ _ _ _ _ E2).
  destruct (socket_tick_ok m' s2 (now ⊟ base) Hi2) as (s3 & s4 & E3 & E4 & Hi4 & Hth4 & Had4).
  rewrite (io_bind_run _ _ _ _ _ E3), (io_bind_run _ _ _ _ _ E4).
  exists true, now, m', s4. split; [|done]. rewrite (rules_of_same m' s1 s4) by congruence. done.
Qed.

(** Any number of rounds, while any condition holds. *)
Lemma tcp_rounds_ok condition fuel : (forall m s, inv m s -> exists b, condition s = Ok b) ->
  forall m s base, inv m s ->
  exists b m' s', tcp_rounds fuel condition base (rules_of m s) s = Ok ((b, rules_of m' s'), s') /\ inv m' s'.
Proof.
  intros Hcond. induction fuel as [|fuel IH]; intros m s base Hi; destruct (Hcond m s Hi) as [b Hb];
    cbn [tcp_rounds]; rewrite Hb; destruct b; try by exists true, m, s.
  - by exists false, m, s.
  - destruct (tcp_round_ok m s base Hi) as (b & base' & m' & s' & E1 & Hi').
    rewrite (io_bind_run _ _ _ _ _ E1). destruct b; [by apply IH|by exists true, m', s'].
Qed.

Lemma tcp_loop_ok condition fuel m s : (forall m s, inv m s -> exists b, condition s = Ok b) -> inv m s ->
  exists b m' s', _tcp_loop fuel condition (rules_of m s) s = Ok ((b, rules_of m' s'), s') /\ inv m' s'.
Proof.
  intros Hcond Hi. unfold _tcp_loop. destruct (timestamp_ok m s Hi) as (now & s1 & E1 & Hi1 & Hth & Had & _).
  rewrite (io_bind_run _ _ _ _ _ E1), <- (rules_of_same m s s1) by done. by apply tcp_rounds_ok.
Qed.

(** *** From the constructor on *)

(** A socket that has been constructed and not been used. *)
Record fresh (s : t) : Prop := {
  fr_tcp : _tcp s = None;
  fr_out : _outbound_shutdown s = false;
  fr_kernel : k_ok E (kernel (os s)) /\ taken E (kernel (os s)) = 0 /\ given E (kernel (os s)) = [];
  fr_thread : exists x n, heap (os s) !! _thread_data s = Some (mkCell x n) /\ 1 <= n /\
    FDWrapper._fd x = F /\ FDWrapper._closed x = false /\ FDWrapper._eof x = false;
  fr_peer : exists x n, heap (os s) !! adapter_fd s = Some (mkCell x n) /\ 1 <= n /\
    FDWrapper._fd x <> F /\ FDWrapper._closed x = false;
  fr_distinct : _thread_data s <> adapter_fd s;
  fr_self : self_ok s
}.

Definition all_rules : mask := mkMask true true true true.

(** [_initialize_TCP] adds the four rules, each with a handle of its own. *)
Lemma initialize_run cfg random s : fresh s ->
  exists w, _initialize_TCP cfg random s =
      Ok (rules_of all_rules s, set_os w (set_tcp (Some (TCPConnection.make cfg random)) s)) /\
    kernel w = kernel (os s) /\
    (exists x n, heap w !! _thread_data s = Some (mkCell x n) /\ 3 <= n /\
       FDWrapper._fd x = F /\ FDWrapper._closed x = false /\ FDWrapper._eof x = false) /\
    (exists x n, heap w !! adapter_fd s = Some (mkCell x n) /\ 3 <= n /\
       FDWrapper._fd x <> F /\ FDWrapper._closed x = false) /\
    is_Some (heap w !! self s).
Proof.
  intros [_ _ _ (x & n & Hx & Hn & Hxs) (y & p & Hy & Hp & Hys) Hd [Hse Hse1 Hse2]].
  destruct (initialize_installs cfg random s x n y p Hd Hx Hy) as (w & E1 & Hk & Hwx & Hwy & Hw).
  exists w. split; [exact E1|]. split; [done|]. rewrite (Hw _ Hse1 Hse2). split_and!; [..|done].
  - exists x, (n + 1 + 1). split_and!; try apply Hxs; lia || done.
  - exists y, (p + 1 + 1). split_and!; try apply Hys; lia || done.
Qed.

(** The configuration of the connection. *)
Record config_ok (cfg : TCPConfig.t) : Prop := {
  cf_length : 0 <= Ns < 2 ^ 62;
  cf_recv : TCPConfig.recv_capacity cfg = cap /\ cap < two63;
  cf_send : 0 < TCPConfig.send_capacity cfg < two63;
  cf_isn : TCPConfig.fixed_isn cfg = Some Is /\ WrappingInt32.wf Is
}.

(** The call of [connect] on a new connection. *)
Lemma connection_connect cfg random : config_ok cfg ->
  exists c, TCPConnection.connect (TCPConnection.make cfg random) = Ok c /\
    TCPConnection.wf Ds Ns Is Dr Nr cap Ir c /\ TCPState.state c = TCPState.of_state TCPState.SYN_SENT /\
    TCPConnection.syn_sent c = true /\ TCPConnection.keeps (TCPConnection.make cfg random) c.
Proof.
  intros [HN [Hrc Hcp] Hsc [Hisn HIs]].
  assert (Hw : TCPConnection.wf Ds Ns Is Dr Nr cap Ir (TCPConnection.make cfg random))
    by (apply TCPConnection.connection_make_wf; done || lia).
  destruct (TCPConnection.wf_connect Ds Ns Is Dr Nr cap Ir _ Hw) as (c & E1 & Hw1).
  exists c. split; [done|]. split; [done|].
  split; [|split; [|by eapply TCPConnection.keeps_connect]]; clear - E1 Hsc;
    destruct cfg as [rt rc [|sc|] isn]; cbn in Hsc; try lia; apply Ok_inj in E1 as <-; cbv; reflexivity.
Qed.

Lemma connect_ok fuel cfg random c_ad s : fresh s -> config_ok cfg ->
  adapter_ok E (adapter_set_config c_ad (_datagram_adapter s)) ->
  exists b m s', connect fuel cfg random c_ad s = Ok ((b, rules_of m s'), s') /\ inv m s'.
Proof.
  intros Hf Hcfg Hsc. destruct (initialize_run cfg random s Hf) as (w & E1 & Hkw & Hth & Hpr & Hse).
  destruct Hf as [Hno Hout (Hk & Ht & Hg) _ _ Hd [_ Hd1 Hd2]].
  destruct (connection_connect cfg random Hcfg) as (c & E2 & Hw & Hst & Hsyn & [Kw Ke _ Kr]).
  unfold connect. rewrite (io_bind_run _ _ _ s s eq_refl), Hno.
  rewrite (io_bind_run _ _ _ _ _ E1). set (s1 := set_os w _). set (a := adapter_set_config _ _) in *.
  rewrite (io_bind_run _ _ _ (set_adapter a s1) tt eq_refl).
  rewrite (io_bind_run _ _ _ _ _ (on_tcp_run _ (set_adapter a s1) _ c eq_refl E2)). set (s2 := set_tcp _ _).
  rewrite (io_bind_run _ _ _ _ _ (ask_tcp_run _ s2 c eq_refl)), Hst. cbn [TCPState.neqb].
  change (TCPState.neqb _ _) with false. cbv iota. change (rules_of all_rules s) with (rules_of all_rules s2).
  apply tcp_loop_ok.
  - intros m' s' [(c' & Hc' & _) _ _ _ _ _ _]. unfold state_is, tcp. rewrite Hc'. by eexists.
  - destruct Hth as (x & n & Hx & Hn & Hxf & Hxc & Hxe). split; cbn; try done.
    + exists c. split; [done|]. split; cbn; try done; rewrite ?Hkw, ?Kw, ?Ke, ?Kr, ?Ht, ?Hg, ?Hout; done.
    + by rewrite Hkw.
    + split. exists x, n. split_and!; try done. cbn. congruence.
Qed.

(** What the invariant says about the two streams. *)
Lemma inv_streams m s : inv m s ->
  0 <= taken E (kernel (os s)) <= Ns /\ exists n, 0 <= n <= Nr /\ given E (kernel (os s)) = slice Dr 0 n.
Proof.
  intros [(c & _ & [Hw _ Ht _ Hg]) _ _ _ _ _ _]. destruct Hw as [[] _ _ [[[] _] _ _] _].
  split; [rewrite <- Ht; destruct wf_stream; unfold TCPConnection.stream_in, TCPSender.stream_in; lia|].
  exists (ByteStream.n_bytes_read (TCPConnection.inbound_stream c)). split; [|done].
  unfold ByteStream.bytes_written in co_written. destruct co_out.
  unfold TCPConnection.inbound_stream, TCPReceiver.stream_out, StreamReassembler.stream_out.
  rewrite wf_written0 in co_written. unfold u64 in co_written. Z.div_mod_to_equations. lia.
Qed.

(** The state the socket is left in: still connected, or closed after its loop ended. *)
Definition left_in (over : bool) (s : t) : Prop :=
  match _tcp s with
  | Some c => over = false /\ conn_ok s c
  | None => over = true
  end.

Lemma main_ok fuel m s : inv m s ->
  exists over s', _tcp_main fuel (rules_of m s) s = Ok (over, s') /\ left_in over s' /\
    0 <= taken E (kernel (os s')) <= Ns /\ exists n, 0 <= n <= Nr /\ given E (kernel (os s')) = slice Dr 0 n.
Proof.
  intros Hi. unfold _tcp_main. rewrite (io_bind_run _ _ _ s s) by done.
  pose proof Hi as [(c & Hc & _) _ _ _ _ _ _]. rewrite Hc.
  destruct (tcp_loop_ok (fun _ => Ok true) fuel m s) as (over & m' & s1 & E1 & Hi1); [by eexists|done|].
  rewrite (io_bind_run _ _ _ _ _ E1). pose proof (inv_streams _ _ Hi1) as Hstr.
  pose proof Hi1 as [(c1 & Hc1 & Hco) Hk _ _ _ _ [[[x n] Hx] _ _]].
  destruct over; cbn [negb]; [|exists false, s1; unfold left_in; by rewrite Hc1].
  destruct (shutdown_ok SHUT_RDWR (self s1) (os s1) x n Hk Hx) as (k & E2 & _ & Ht & Hg); [by right|].
  rewrite (io_bind_run _ _ _ _ _ (on_fd_run self _ s1 _ _ E2)), (io_bind_run _ _ _ _ tt eq_refl).
  eexists true, _. split; [done|]. split; [done|]. cbn. by rewrite Ht, Hg.
Qed.

End Safety.

(** C5: the socket as a whole is safe, as long as the system calls succeed.  Suppose
    that no system call fails and that poll reports no error; that the kernel hands out
    the owner's bytes in order, accepts at least one byte for the owner where poll has
    said that it would, and reports a hangup without readability of the local socket
    only when the owner's bytes have been read to their end; and that the adapter, which
    accepts the segments it is given, delivers only segments of the peer's connection
    (in any order, any number of times, or never).  Then after [connect], for any number
    of rounds of the handshake's loop and of the thread's loop, nothing throws: in
    particular neither the event loop's busy-wait check, nor the check that the
    connection accepted what it had advertised room for, nor the check of the state
    after [connect]; what the owner has been given is a prefix of the peer's stream; and
    a connection that is still there has exactly the bytes taken from the owner in its
    outbound stream. *)
Theorem socket_safe {K A Device : Type} `{FdDevice K A Device}
  (Ds Dr : Z -> byte) (Ns Nr F random : Z) (Is Ir : WrappingInt32.t) (E : environment) (cfg : TCPConfig.t)
  (c_ad : FdAdapterConfig) (fuel fuel' : nat) (s : TCPSpongeSocket.t)
  (HL : lawful Ds Ns Is Dr Nr Ir F E) (HNr : 0 <= Nr < two31 - 2) (HIr : WrappingInt32.wf Ir)
  (Hcap : 0 < TCPConfig.recv_capacity cfg)
  (Hcfg : config_ok Ns Is (TCPConfig.recv_capacity cfg) cfg)
  (Had : adapter_ok E (adapter_set_config c_ad (_datagram_adapter s))) (Hs : fresh F E s) :
  exists over s',
    ('(_, rs) ← connect fuel cfg random c_ad; _tcp_main fuel' rs) s = Ok (over, s') /\
    left_in Ds Ns Is Dr Nr (TCPConfig.recv_capacity cfg) Ir E over s' /\
    0 <= taken E (kernel (os s')) <= Ns /\
    exists n, 0 <= n <= Nr /\ given E (kernel (os s')) = slice Dr 0 n.
Proof.
  destruct (connect_ok Ds Ns Is Dr Nr (TCPConfig.recv_capacity cfg) Ir F E HL HNr HIr Hcap fuel cfg random c_ad s)
    as (b & m & s1 & E1 & Hi); [done..|].
  rewrite (io_bind_run _ _ _ _ _ E1). by eapply main_ok.
Qed.

(** ** A kernel and a peer

    The owner writes three letters and closes; the peer accepts the connection and
    sends two letters and its FIN, over UDP.  [F] is 4. *)
Module Demo.

Definition peer : Address.t := Address.mk 167772162 80.
Definition letter_b (_ : Z) : byte := x62.
Definition Is : WrappingInt32.t := WrappingInt32.make 5.
Definition Ir : WrappingInt32.t := WrappingInt32.make 9.

(** The peer's two datagrams. *)
Definition segment (seqno : Z) (syn fin : bool) (payload : bytes) : TCPSegment.t :=
  TCPSegment.mk (TCPHeader.mk 80 1024 (WrappingInt32.make seqno) (WrappingInt32.make 6) 5
    false true false false syn fin 100 0 0) (Buffer.of_string payload).
Definition datagram (seg : TCPSegment.t) : bytes :=
  match TCPSegment.serialize 0 seg with
  | Ok bl => BufferList.concatenate bl
  | Throw _ => []
  end.
Definition syn_ack : bytes := Eval vm_compute in datagram (segment 9 true false []).
Definition letters : bytes := Eval vm_compute in datagram (segment 10 false true [x62; x62]).

Record t : Type := mk { sent : Z; received : bytes; arriving : list bytes; time : Z }.

Definition ok : answer := Answer 0 0.
Definition do_read (fd size : Z) (k : t) : answer * bytes * t :=
  let n := Z.min size (3 - sent k) in
  (Answer n 0, slice TCPSender.letter_a (sent k) n, mk (sent k + n) (received k) (arriving k) (time k)).
Definition do_writev (fd : Z) (iovecs : list (bytes * Z)) (k : t) : answer * t :=
  let bs := concat (fst <$> iovecs) in
  (Answer (zlen bs) 0, mk (sent k) (received k ++ bs) (arriving k) (time k)).
(** The owner has closed its end, so a hangup of the local socket is reported all the
    time, with or without unread bytes. *)
Definition do_poll (fds : list pollfd) (timeout : Z) (k : t) : answer * list Z * t :=
  (Answer (zlen fds) 0,
   (fun p => if poll_fd p =? 4 then Z.lor (Z.land (events p) 5) POLLHUP
             else if negb (bool_decide (arriving k = [])) then Z.land (events p) 5
             else Z.land (events p) POLLOUT) <$> fds, k).
Definition do_recvfrom (fd size : Z) (k : t) : answer * bytes * Address.t * t :=
  match arriving k with
  | [] => (Answer (-1) 11, [], Address.mk 0 0, k)
  | d :: rest => (Answer (zlen d) 0, take (Z.to_nat size) d, peer, mk (sent k) (received k) rest (time k))
  end.
Definition do_sendmsg (fd : Z) (dst : option Address.t) (iovecs : list (bytes * Z)) (k : t) : answer * t :=
  (Answer (zlen (concat (fst <$> iovecs))) 0, k).

#[global] Instance kernel : Kernel t := {|
  k_close := fun _ k => (ok, k);
  k_read := do_read;
  k_writev := do_writev;
  k_getfl := fun _ k => (ok, k);
  k_setfl := fun _ _ k => (ok, k);
  k_poll := do_poll;
  k_clock := fun k => (time k, mk (sent k) (received k) (arriving k) (time k + 1));
  k_socket := fun _ _ k => (Answer 5 0, k);
  k_socketpair := fun _ k => (ok, (3, 4), k);
  k_getsockopt := fun _ _ _ k => (ok, 1, 4, k);
  k_setsockopt := fun _ _ _ _ k => (ok, k);
  k_getname := fun _ _ k => (ok, Address.mk 0 0, k);
  k_bind := fun _ _ k => (ok, k);
  k_connect := fun _ _ k => (ok, k);
  k_shutdown := fun _ _ k => (ok, k);
  k_recvfrom := do_recvfrom;
  k_sendmsg := do_sendmsg;
  k_listen := fun _ _ k => (ok, k);
  k_accept := fun _ k => (Answer 6 0, k);
  k_open_tun := fun k => (Answer 7 0, k);
  k_tunsetiff := fun _ _ _ k => (ok, k)
|}.

Definition known (d : bytes) : Prop := d = syn_ack \/ d = letters.

Definition E : @environment t TCPOverUDPSocketAdapter.t UDPSocket.received_datagram _ _ _ := {|
  k_ok := fun k => 0 <= sent k <= 3 /\ Forall known (arriving k);
  taken := sent;
  given := received;
  owner_readable := fun _ => True;
  owner_writable := fun _ => True;
  peer_readable := fun k => arriving k <> [];
  adapter_ok := fun a =>
    let b := TCPOverUDPSocketAdapter.base a in
    FdAdapterBase.listening b = false /\ destination (FdAdapterBase.config b) = peer /\
    Address.port (source (FdAdapterBase.config b)) = 1024;
  dev_ok := fun d => UDPSocket.source_address d = peer /\ known (UDPSocket.payload d);
  packet_ok := fun p => BufferList.wf p.2 /\ zlen (concat (BufferViewList.of_buffers p.2)) < two31
|}.

#[local] Abbreviation incoming := (TCPConnection.incoming letter_b 2 Ir).

(** What the adapter parses from them, and the segments that the peer's sender made. *)
Definition parsed (d : bytes) : TCPSegment.t :=
  match TCPSegment.parse (Buffer.of_string d) 0 TCPSegment.default with
  | Ok (_, seg) => seg
  | Throw _ => TCPSegment.default
  end.
Definition syn_ack_in : TCPSegment.t := Eval vm_compute in parsed syn_ack.
Definition letters_in : TCPSegment.t := Eval vm_compute in parsed letters.

Lemma parse_syn_ack : TCPSegment.parse (Buffer.of_string syn_ack) 0 TCPSegment.default = Ok (NoError, syn_ack_in).
Proof. vm_compute. reflexivity. Qed.

Lemma parse_letters : TCPSegment.parse (Buffer.of_string letters) 0 TCPSegment.default = Ok (NoError, letters_in).
Proof. vm_compute. reflexivity. Qed.

(** They are segments of the peer's connection. *)
Lemma incoming_syn_ack : incoming syn_ack_in.
Proof.
  split; [|done].
  exists (TCPSegment.mk (TCPSender.header (WrappingInt32.wrap 0 Ir) true false) (TCPSegment.payload syn_ack_in)).
  split; [|by split_and!]. left. exists 0. split; try reflexivity; try done.
  split; [reflexivity|done|by left|done].
Qed.

Lemma incoming_letters : incoming letters_in.
Proof.
  split; [|done].
  exists (TCPSegment.mk (TCPSender.header (WrappingInt32.wrap 1 Ir) false true) (TCPSegment.payload letters_in)).
  split; [|by split_and!]. left. exists 1. split; try reflexivity; try done.
  split; [reflexivity|done|by left|reflexivity].
Qed.

(** The adapter and the device. *)
Lemma demo_adapter_read dev a : adapter_ok E a -> dev_ok E dev ->
  exists r a' new, adapter_read dev a = Ok (r, a') /\ adapter_ok E a' /\
    adapter_log a' = adapter_log a ++ new /\ Forall (packet_ok E) new /\ (forall seg, r = Some seg -> incoming seg).
Proof.
  destruct dev as [src d], a as [b log]. intros (Hl & Hd & Hp) [Hsrc Hknown]. cbn in Hl, Hd, Hp, Hsrc, Hknown. subst src.
  assert (Hr : exists seg, TCPSegment.parse (Buffer.of_string d) 0 TCPSegment.default = Ok (NoError, seg) /\ incoming seg)
    by (destruct Hknown as [-> | ->]; [exists syn_ack_in|exists letters_in]; split;
        [apply parse_syn_ack|apply incoming_syn_ack|apply parse_letters|apply incoming_letters]).
  destruct Hr as (seg & Hparse & Hin). exists (Some seg), (TCPOverUDPSocketAdapter.mk b log), [].
  split; [|split; [done|split; [by rewrite app_nil_r|split; [done|by intros ? [= <-]]]]].
  cbn [adapter_read udp_adapter]. unfold TCPOverUDPSocketAdapter.read. cbn. rewrite Hl, Hd. cbn [negb andb].
  replace (Address.eqb peer peer) with true by done. cbn [negb]. by rewrite Hparse.
Qed.

Lemma demo_adapter_write seg a : adapter_ok E a -> TCPConnection.outgoing TCPSender.letter_a 3 Is seg ->
  exists seg' a' new, adapter_write seg a = Ok (seg', a') /\ adapter_ok E a' /\
    adapter_log a' = adapter_log a ++ new /\ Forall (packet_ok E) new.
Proof.
  destruct a as [b log]. intros (Hl & Hd & Hp) Hout. cbn in Hl, Hd, Hp.
  destruct (TCPConnection.outgoing_wf _ _ _ _ Hout) as (Hh & Hb & Hdoff & Hlen).
  set (seg1 := set_ports 1024 80 seg).
  assert (Hw : TCPSegment.wf 0 seg1).
  { destruct Hh. unfold TCPConfig.MAX_PAYLOAD_SIZE in Hlen.
    split; [split; cbn; done || lia|done|lia|cbn; rewrite Hdoff; lia]. }
  destruct (TCPSegment.segment_serialize_spec 0 seg1 Hw) as (c & bl & E1 & _ & _ & _ & Hbl & (bs & E2 & Hflat) & _).
  exists seg1, (TCPOverUDPSocketAdapter.mk b (log ++ [(peer, bl)])), [(peer, bl)].
  split; [|split; [done|split; [done|]]].
  - cbn [adapter_write udp_adapter]. unfold TCPOverUDPSocketAdapter.write. cbn [TCPOverUDPSocketAdapter.base].
    rewrite Hd, Hp. cbv zeta. change (set_ports 1024 _ seg) with seg1. by rewrite E1.
  - apply Forall_singleton. split; [done|]. cbn [snd].
    rewrite BufferViewList.of_buffers_fmap. change (zlen (BufferList.flat bl) < two31). rewrite Hflat, length_app.
    rewrite TCPHeader.tcp_header_serialize_layout in E2 by (cbn; lia). apply Ok_inj in E2 as <-.
    unfold TCPHeader.back. rewrite !length_app, TCPHeader.tcp_header_length_front, !NetUnparser.length_be, length_replicate.
    unfold TCPConfig.MAX_PAYLOAD_SIZE in Hlen. cbn. rewrite Hdoff. lia.
Qed.

Lemma quiet_same k k' : k_ok E k -> sent k' = sent k -> received k' = received k ->
  Forall known (arriving k') -> quiet E k k'.
Proof. intros [Hs _] Hs' Hr Ha. split; try done. split; [by rewrite Hs'|done]. Qed.

Lemma demo_dev_read w h x n : k_ok E (FileDescriptor.kernel w) -> peer_readable E (FileDescriptor.kernel w) ->
  heap w !! h = Some (mkCell x n) -> FDWrapper._fd x <> 4 ->
  exists dev x' k', device_read h w = Ok (dev, mkWorld k' (<[h := mkCell x' n]> (heap w)) (next w)) /\
    dev_ok E dev /\ quiet E (FileDescriptor.kernel w) k' /\ FDWrapper._fd x' = FDWrapper._fd x /\
    FDWrapper._closed x' = FDWrapper._closed x /\ FDWrapper._read_count x' = u32 (FDWrapper._read_count x + 1).
Proof.
  destruct w as [[sn rc ar tm] hp nx]. intros [Hsn Har] Hne Hx _. cbn in Hsn, Har, Hne, Hx.
  destruct ar as [|d ar]; [done|]. apply Forall_cons in Har as [Hd Har].
  assert (Hlen : zlen d <= 65536 /\ take (Z.to_nat 65536) d = d)
    by (destruct Hd as [-> | ->]; split; [vm_compute; congruence|vm_compute; done|vm_compute; congruence|vm_compute; done]).
  destruct Hlen as [Hlen Htake].
  exists (UDPSocket.mkReceived peer d), (FDWrapper.register_read x), (mk sn rc ar tm).
  split; [|split; [done|split; [apply quiet_same; try done; by split; [|constructor]|done]]].
  cbn [device_read udp_device].
  rewrite (recv_outcome h (mkCell x n) _ UDPSocket.default_mtu (Answer (zlen d) 0) d peer (mk sn rc ar tm));
    cbn [ret errno]; [|done|done|cbn; unfold do_recvfrom, UDPSocket.default_mtu; cbn; by rewrite Htake|lia|lia|done].
  unfold UDPSocket.default_mtu. zcase; done || lia.
Qed.

Lemma demo_dev_write w h x n p : k_ok E (FileDescriptor.kernel w) -> packet_ok E p ->
  heap w !! h = Some (mkCell x n) -> FDWrapper._fd x <> 4 ->
  exists x' k', device_write h p w = Ok (tt, mkWorld k' (<[h := mkCell x' n]> (heap w)) (next w)) /\
    quiet E (FileDescriptor.kernel w) k' /\ FDWrapper._fd x' = FDWrapper._fd x /\
    FDWrapper._closed x' = FDWrapper._closed x /\ FDWrapper._read_count x' = FDWrapper._read_count x.
Proof.
  destruct p as [dst bl]. intros Hk [_ Hlen] Hx _. cbn [snd] in Hlen.
  set (views := BufferViewList.of_buffers bl) in *.
  exists (FDWrapper.register_write x), (FileDescriptor.kernel w).
  split; [|split; [by apply quiet_same; [| | |apply Hk]|done]]. cbn [device_write udp_device fst snd]. fold views.
  pose proof (send_outcome h (mkCell x n) w (Some dst) views (Answer (zlen (concat views)) 0)
    (FileDescriptor.kernel w) Hx Hlen) as Ho. cbn [ret errno] in Ho.
  rewrite Ho; [|cbn; unfold do_sendmsg; by rewrite BufferViewList.iovecs_bytes|lia|lia].
  zcase; done || lia.
Qed.

(** The answers of [poll]. *)
Lemma demo_reported k fds : Forall (reported 3 4 E k)
  (EventLoop.fill_revents fds
     ((fun p => if poll_fd p =? 4 then Z.lor (Z.land (events p) 5) POLLHUP
                else if negb (bool_decide (arriving k = [])) then Z.land (events p) 5
                else Z.land (events p) POLLOUT) <$> fds)).
Proof.
  induction fds as [|p fds IH]; cbn [EventLoop.fill_revents fmap list_fmap]; constructor; [|exact IH]. clear IH. cbn [head default].
  assert (Hbits : forall m m', Z.land m m' = 0 -> Z.land (Z.land (events p) m) m' = 0)
    by (intros m m' Hm; by rewrite <- Z.land_assoc, Hm, Z.land_0_r).
  split; unfold EventLoop.poll_error, EventLoop.hung_up, EventLoop.poll_ready, EventLoop.poll_hup;
    cbn [poll_fd events revents]; try done.
  - apply negb_false_iff, Z.eqb_eq. destruct (poll_fd p =? 4); [|destruct (negb _); by apply Hbits].
    unfold id. rewrite Z.land_lor_distr_l, Hbits by done. done.
  - intros -> Hh Hev. by rewrite Hev in Hh.
  - intros Hfd%Z.eqb_neq Hr Hev. rewrite Hfd, Hev in Hr. by case_bool_decide.
Qed.

Lemma demo_lawful : lawful TCPSender.letter_a 3 Is letter_b 2 Ir 4 E.
Proof.
  split.
  - intros k size a data k' [Hs Ha] _ Hsz [= <- <- <-]. cbn [ret].
    assert (Hl : zlen (slice TCPSender.letter_a (sent k) (Z.min size (3 - sent k))) = Z.min size (3 - sent k))
      by (apply zlen_slice; lia).
    rewrite Hl. split_and!; try done; try lia.
    + intros Hnil Hpos. rewrite Hnil in Hl. cbn in *. lia.
    + cbn. split; [lia|done].
    + cbn. lia.
  - intros k iovecs a k' Hk _ [= <- <-]. cbn [ret]. split_and!; try done; try lia.
    + by destruct (concat _).
    + by rewrite Nat2Z.id, firstn_all.
  - intros k fd how a k' Hk [= <- <-]. cbn [ret ok]. by split_and!.
  - intros k now k' Hk [= <- <-]. apply quiet_same; try done. apply Hk.
  - intros k fds timeout a revs k' Hk [= <- <- <-]. split; [by apply quiet_same; [| | |apply Hk]|apply demo_reported].
  - apply demo_dev_read.
  - apply demo_dev_write.
  - apply demo_adapter_read.
  - apply demo_adapter_write.
  - intros ms a Ha. exists a, []. split; [by destruct a|]. split; [done|]. by rewrite app_nil_r.
Qed.

(** The socket after its constructor, over this kernel. *)
Definition start : TCPSpongeSocket.t :=
  TCPSpongeSocket.mk
    (mkWorld (mk 0 [] [syn_ack; letters] 0)
       (<[0%nat := mkCell (FDWrapper.mk 3 false false 0 0) 1]>
          (<[1%nat := mkCell (FDWrapper.mk 4 false false 0 0) 1]>
             {[2%nat := mkCell (FDWrapper.mk 5 false false 0 0) 1]})) 3)
    0%nat 1%nat
    (TCPOverUDPSocketAdapter.mk (FdAdapterBase.mk (mkConfig (Address.mk 0 0) (Address.mk 0 0) 0 0) false) [])
    2%nat None false false false false.
Definition cfg : TCPConfig.t := TCPConfig.mk 1000 100 100 (Some Is).
Definition c_ad : FdAdapterConfig := mkConfig (Address.mk 167772161 1024) peer 0 0.
Definition session (fuel fuel' : nat) : io TCPSpongeSocket.t bool :=
  '(_, rs) ← connect (Device := UDPSocket.received_datagram) fuel cfg 0 c_ad;
  _tcp_main (Device := UDPSocket.received_datagram) fuel' rs.

(** In this session both streams cross completely. *)
Lemma session_completes :
  match session 10 10 start with
  | Ok (_, s') => (sent (FileDescriptor.kernel (os s')), received (FileDescriptor.kernel (os s'))) = (3, [x62; x62])
  | Throw _ => False
  end.
Proof. vm_compute. reflexivity. Qed.

End Demo.

Lemma socket_safe_witness :
  exists over s', Demo.session 10 10 Demo.start = Ok (over, s') /\
    exists n, 0 <= n <= 2 /\ Demo.received (kernel (os s')) = slice Demo.letter_b 0 n.
Proof.
  destruct (socket_safe TCPSender.letter_a Demo.letter_b 3 2 4 0 Demo.Is Demo.Ir Demo.E Demo.cfg Demo.c_ad 10 10 Demo.start)
    as (over & s' & E1 & _ & _ & Hg).
  - exact Demo.demo_lawful.
  - lia.
  - apply WrappingInt32.wrapping_make_wf.
  - cbn. lia.
  - split; [lia|cbn; lia|cbn; lia|split; [done|apply WrappingInt32.wrapping_make_wf]].
  - by split_and!.
  - split; try done.
    + split; [split; [cbn; lia|]|done]. apply Forall_cons; split; [by left|]. apply Forall_singleton. by right.
    + by eexists _, _.
    + by eexists _, _.
  - exists over, s'. split; [exact E1|exact Hg].
Defined.

End SocketSafety.
