(* ===== verification/Benchmark.v ===== *)
(** * The benchmark (apps/tcp_benchmark.cc)

    Two connections in one program: [x] sends a long string to [y], the segments are
    moved between them by hand, in order or in reverse, and a second passes after
    every exchange.  Measuring the time is left out; the string, which the program
    fills with [rand()], and the initial sequence numbers are arguments. *)

From S2P Require Import Prelude Wrapping Stream Reassembly Buffers TcpWire TcpReceiver TcpSender TcpConnection.
From Stdlib Require Import Strings.Byte.

Module Benchmark.

(** [segment_received] for each of the segments in turn. *)
Fixpoint receive_all (segments : list TCPSegment.t) (y : TCPConnection.t) : res TCPConnection.t :=
  match segments with
  | [] => Ok y
  | seg :: segments' => y ← TCPConnection.segment_received seg y; receive_all segments' y
  end.

(** [move_segments]: the vector comes back empty. *)
Definition move_segments (x y : TCPConnection.t) (segments : list TCPSegment.t) (reorder : bool)
  : res (TCPConnection.t * TCPConnection.t * list TCPSegment.t) :=
  let segments := segments ++ TCPConnection._segments_out x in
  let x := TCPConnection.set_segments_out [] x in
  y ← receive_all (if reorder then reverse segments else segments) y;
  Ok (x, y, []).

(** The local variables of [main_loop]. *)
Record t : Type := mk {
  x : TCPConnection.t;
  y : TCPConnection.t;
  bytes_to_send : Buffer.t;
  x_closed : bool;
  string_received : bytes
}.

(** "write input into x"; every round of the loop takes at least one byte. *)
Fixpoint write_input (fuel : nat) (c : TCPConnection.t) (b : Buffer.t) : res (TCPConnection.t * Buffer.t) :=
  if negb (Buffer.size b =? 0) && negb (TCPConnection.remaining_outbound_capacity c =? 0) then
    match fuel with
    | O => Throw nontermination
    | S fuel' =>
        let want := Z.min (TCPConnection.remaining_outbound_capacity c) (Buffer.size b) in
        data ← substr (Buffer.str b) 0 want;
        '(written, c) ← TCPConnection.write data c;
        if negb (want =? written) then Throw runtime_error
        else b ← Buffer.remove_prefix written b; write_input fuel' c b
    end
  else Ok (c, b).

(** Reading all of the output of [y]. *)
Definition read_output (c : TCPConnection.t) : res (bytes * TCPConnection.t) :=
  let available_output := ByteStream.buffer_size (TCPConnection.inbound_stream c) in
  if 0 <? available_output then
    '(data, st) ← ByteStream.read available_output (TCPConnection.inbound_stream c);
    Ok (data, TCPConnection.set_receiver (TCPReceiver.set_stream_out st (TCPConnection._receiver c)) c)
  else Ok ([], c).

(** The function [loop]. *)
Definition loop (reorder : bool) (s : t) : res t :=
  '(cx, b) ← write_input (Z.to_nat (Buffer.size (bytes_to_send s))) (x s) (bytes_to_send s);
  let close := (Buffer.size b =? 0) && negb (x_closed s) in
  cx ← (if close then TCPConnection.end_input_stream cx else Ok cx);
  '(cx, cy, segments) ← move_segments cx (y s) [] reorder;
  '(cy, cx, _) ← move_segments cy cx segments false;
  '(data, cy) ← read_output cy;
  Ok (mk (TCPConnection.tick 1000 cx) (TCPConnection.tick 1000 cy) b (x_closed s || close)
        (string_received s ++ data)).

(** [while (not stop) { loop(); }], cut off after [fuel] rounds: the flag says whether
    the loop has ended. *)
Fixpoint until (stop : t -> bool) (fuel : nat) (reorder : bool) (s : t) : res (bool * t) :=
  if stop s then Ok (true, s)
  else
    match fuel with
    | O => Ok (false, s)
    | S fuel' => s ← loop reorder s; until stop fuel' reorder s
    end.

(** The connections before the first round; [random_x] and [random_y] are what
    [random_device] returns. *)
Definition start (string_to_send : bytes) (random_x random_y : Z) : res t :=
  let config := TCPConfig.default in
  cx ← TCPConnection.connect (TCPConnection.make config random_x);
  cy ← TCPConnection.end_input_stream (TCPConnection.make config random_y);
  Ok (mk cx cy (Buffer.of_string string_to_send) false []).

Definition received_all (s : t) : bool := ByteStream.eof (TCPConnection.inbound_stream (y s)).
Definition both_done (s : t) : bool := negb (TCPConnection.active (x s) || TCPConnection.active (y s)).

(** [main_loop]. *)
Definition main_loop (fuel : nat) (reorder : bool) (string_to_send : bytes) (random_x random_y : Z)
  : res (bool * t) :=
  s ← start string_to_send random_x random_y;
  '(ended, s) ← until received_all fuel reorder s;
  if negb ended then Ok (false, s)
  else if negb (bool_decide (string_received s = string_to_send)) then Throw runtime_error
  else until both_done fuel reorder s.

(** ** Safety *)

(** The stream that a string is. *)
Definition stream_of (data : bytes) : Z -> byte := fun i => data !!! Z.to_nat i.

Lemma slice_stream data i n : 0 <= i -> 0 <= n -> i + n <= zlen data ->
  slice (stream_of data) i n = take (Z.to_nat n) (drop (Z.to_nat i) data).
Proof.
  intros Hi Hn Hl. apply list_eq_same_length with (Z.to_nat n).
  - rewrite length_take, length_drop. lia.
  - pose proof (zlen_slice (stream_of data) i n Hn). lia.
  - intros j a b Hj Ha Hb. rewrite lookup_take_lt in Hb by done. rewrite lookup_drop in Hb.
    unfold slice in Ha. rewrite list_lookup_fmap, lookup_seqZ_lt in Ha by lia. injection Ha as <-.
    unfold stream_of. replace (Z.to_nat (i + Z.of_nat j)) with (Z.to_nat i + j)%nat by lia.
    by apply list_lookup_total_correct.
Qed.

Section Safety.
Context (data : bytes) (Ix Iy : WrappingInt32.t).
Context (HIx : WrappingInt32.wf Ix) (HIy : WrappingInt32.wf Iy) (HN : zlen data < two31 - 2).
Abbreviation D := (stream_of data).
Abbreviation cap := TCPConfig.DEFAULT_CAPACITY.

(** [x] sends the string and receives nothing, [y] the other way round. *)
Abbreviation wf_x := (TCPConnection.wf D (zlen data) Ix D 0 cap Iy).
Abbreviation wf_y := (TCPConnection.wf D 0 Iy D (zlen data) cap Ix).

Abbreviation sent c := (ByteStream.n_bytes_written (TCPConnection.stream_in c)).
Abbreviation got c := (ByteStream.n_bytes_read (TCPConnection.inbound_stream c)).

(** The connection [x] and what is still to be written to it. *)
Record source (c : TCPConnection.t) (b : Buffer.t) (closed : bool) : Prop := {
  so_wf : wf_x c;
  so_syn : TCPConnection.syn_sent c = true;
  so_buffer : Buffer.wf b;
  so_rest : 0 <= sent c <= zlen data /\ Buffer.str b = drop (Z.to_nat (sent c)) data;
  so_ended : ByteStream.done_writing (TCPConnection.stream_in c) = closed;
  so_closed : closed = true -> Buffer.str b = []
}.

Record inv (s : t) : Prop := {
  in_source : source (x s) (bytes_to_send s) (x_closed s);
  in_y : wf_y (y s);
  in_received : string_received s = slice D 0 (got (y s))
}.

(** Moving segments between connections for opposite streams. *)
Lemma receive_all_ok Ds Ns Is Dr Nr Ir segs : 0 <= Nr < two31 - 2 -> WrappingInt32.wf Ir -> forall c,
  TCPConnection.wf Ds Ns Is Dr Nr cap Ir c -> Forall (TCPConnection.incoming Dr Nr Ir) segs ->
  exists c', receive_all segs c = Ok c' /\ TCPConnection.wf Ds Ns Is Dr Nr cap Ir c' /\ TCPConnection.keeps c c'.
Proof.
  intros HNr HIr. induction segs as [|seg segs IH]; intros c Hw Hs; cbn [receive_all]; [by exists c|].
  apply Forall_cons in Hs as [Hseg Hs].
  pose proof (TCPConnection.incoming_allowed _ _ _ _ _ _ _ seg c HNr Hw Hseg) as Ha.
  destruct (TCPConnection.segment_received_wf _ _ _ _ _ _ _ HIr c seg Hw Ha) as (c1 & E & Hw1).
  pose proof (TCPConnection.keeps_segment_received _ _ _ _ _ _ _ HIr seg c c1 Hw Ha E) as K.
  rewrite E. destruct (IH c1 Hw1 Hs) as (c' & E' & Hw' & K'). exists c'. split; [done|]. split; [done|].
  by transitivity c1.
Qed.

Lemma move_ok Ds Ns Is Dr Nr Ir reorder a b : 0 <= Ns < two31 - 2 -> WrappingInt32.wf Is ->
  TCPConnection.wf Ds Ns Is Dr Nr cap Ir a -> TCPConnection.wf Dr Nr Ir Ds Ns cap Is b ->
  exists a' b', move_segments a b [] reorder = Ok (a', b', []) /\
    TCPConnection.wf Ds Ns Is Dr Nr cap Ir a' /\ TCPConnection.wf Dr Nr Ir Ds Ns cap Is b' /\
    TCPConnection.keeps a a' /\ TCPConnection.keeps b b'.
Proof.
  intros HNs HIs Ha Hb. unfold move_segments. cbn [app].
  assert (Hin : Forall (TCPConnection.incoming Ds Ns Is) (TCPConnection._segments_out a)).
  { eapply Forall_impl; [apply Ha|]. intros. by apply TCPConnection.outgoing_incoming. }
  destruct (receive_all_ok Dr Nr Ir Ds Ns Is
    (if reorder then reverse (TCPConnection._segments_out a) else TCPConnection._segments_out a) HNs HIs b Hb)
    as (b' & E & Hb' & K).
  { destruct reorder; [|done]. by rewrite reverse_Permutation. }
  rewrite E. exists (TCPConnection.set_segments_out [] a), b'. split; [done|]. split; [|done].
  destruct Ha. by split.
Qed.

Lemma write_input_ok fuel : forall c b, source c b false -> Buffer.size b <= Z.of_nat fuel ->
  exists c' b', write_input fuel c b = Ok (c', b') /\ source c' b' false.
Proof.
  induction fuel as [|fuel IH]; intros c b Hs Hf; pose proof Hs as [Hw Hsyn Hb [Hr Hd] He _];
    pose proof (Buffer.size_str b Hb) as Hsz; cbn [write_input].
  { replace (Buffer.size b) with 0 by lia. by exists c, b. }
  destruct (_ && _) eqn:Eg; [|by exists c, b]. zb.
  set (want := Z.min _ _).
  assert (Hst : ByteStream.wf (TCPConnection.stream_in c)) by (destruct Hw as [[] _ _ _ _]; done).
  assert (Hrem : 0 <= TCPConnection.remaining_outbound_capacity c).
  { unfold TCPConnection.remaining_outbound_capacity. rewrite ByteStream.remaining_capacity_eq by done.
    pose proof (ByteStream.wf_size _ Hst). lia. }
  rewrite substr_prefix. cbn [mbind res_bind]. set (d := take _ _).
  assert (Hlen : zlen d = want) by (unfold d; rewrite length_take; lia).
  assert (Hsum : sent c + Buffer.size b = zlen data) by (rewrite Hsz, Hd, length_drop; lia).
  destruct (TCPConnection.write_accepts D (zlen data) Ix D 0 cap Iy d c) as (c1 & E & Hw1 & Hs1 & Hn1 & He1 & Hr1);
    try done; [|lia|].
  { right. split; [done|]. fold (TCPConnection.stream_in c) (TCPConnection.remaining_outbound_capacity c).
    change (TCPSender._stream (TCPConnection._sender c)) with (TCPConnection.stream_in c).
    change (ByteStream.remaining_capacity (TCPConnection.stream_in c)) with (TCPConnection.remaining_outbound_capacity c).
    rewrite Hlen, Z.min_l by lia. split; [lia|]. unfold agrees. rewrite (take_ge d) by lia.
    rewrite Hlen, slice_stream by lia. unfold d. by rewrite Hd. }
  rewrite E. cbn [mbind res_bind]. rewrite Hlen, Z.eqb_refl. cbn [negb].
  destruct (Buffer.remove_prefix_ok want b Hb ltac:(lia)) as (b1 & Eb & Hwb & Hsb). rewrite Eb. cbn [mbind res_bind].
  apply IH; [|rewrite Buffer.size_str, Hsb, length_drop by done; lia].
  split; try done. rewrite Hn1, Hlen. split; [lia|]. rewrite Hsb, Hd, drop_drop. f_equal. lia.
Qed.

(** An open source stays as it is while its buffer is empty. *)
Lemma write_phase_ok c b closed : source c b closed ->
  exists c' b', write_input (Z.to_nat (Buffer.size b)) c b = Ok (c', b') /\ source c' b' closed.
Proof.
  intros Hs. destruct closed; [|apply write_input_ok; [done|]].
  - pose proof Hs as [_ _ Hb _ _ Hc]. pose proof (Buffer.size_str b Hb) as Hsz. rewrite Hc in Hsz by done.
    change (zlen []) with 0 in Hsz. exists c, b. split; [|done]. replace (Z.to_nat (Buffer.size b)) with 0%nat by lia.
    cbn [write_input]. by rewrite Hsz.
  - destruct Hs as [_ _ Hb _ _ _]. rewrite (Buffer.size_str b Hb). lia.
Qed.

(** Closing [x] once everything has been written. *)
Lemma close_phase_ok c b closed : source c b closed ->
  let close := (Buffer.size b =? 0) && negb closed in
  exists c', (if close then TCPConnection.end_input_stream c else Ok c) = Ok c' /\ source c' b (closed || close).
Proof.
  intros Hs. cbv zeta. pose proof Hs as [Hw Hsyn Hb [Hr Hd] He Hc].
  destruct (_ && _) eqn:Eg; [|exists c; by rewrite orb_false_r]. zb. subst closed.
  rewrite (Buffer.size_str b Hb) in *. apply (f_equal length) in Hd as Hl. rewrite length_drop in Hl.
  destruct (TCPConnection.end_input_effect D (zlen data) Ix D 0 cap Iy c) as (c' & E & Hw' & Hs' & Hn & He' & _);
    [done|change (sent c = zlen data); lia|].
  exists c'. split; [done|]. rewrite orb_true_r. split; try done; [by rewrite Hn|].
  intros _. apply nil_length_inv. lia.
Qed.

Lemma read_output_ok c : wf_y c -> exists d c', read_output c = Ok (d, c') /\ wf_y c' /\
  0 <= got c /\ d = slice D (got c) (got c' - got c) /\ got c <= got c'.
Proof.
  intros Hw. pose proof (TCPConnection.inbound_read_bound _ _ _ _ _ _ _ c Hw) as Hb.
  unfold read_output, ByteStream.buffer_size. destruct (0 <? _) eqn:E; zb.
  - destruct (TCPConnection.read_inbound_ok D 0 Iy D (zlen data) cap Ix c
      (ByteStream.cur_size (TCPConnection.inbound_stream c)) eq_refl Hw ltac:(lia)) as (st & E1 & Hw' & H0 & Hn). rewrite E1. cbn [mbind res_bind].
    eexists _, _. split; [done|]. split; [done|]. split; [done|].
    match goal with |- context [TCPConnection.inbound_stream (TCPConnection.set_receiver ?r ?c)] =>
      change (TCPConnection.inbound_stream (TCPConnection.set_receiver r c)) with st end.
    rewrite Hn. split; [f_equal; lia|lia].
  - exists [], c. split; [done|]. split; [done|]. split; [lia|]. split; [|lia].
    by replace (got c - got c) with 0 by lia.
Qed.

Lemma loop_ok reorder s : inv s -> exists s', loop reorder s = Ok s' /\ inv s'.
Proof.
  intros [Hs Hy Hrec]. unfold loop.
  destruct (write_phase_ok _ _ _ Hs) as (c1 & b & E1 & Hs1). rewrite E1. cbn [mbind res_bind].
  destruct (close_phase_ok _ _ _ Hs1) as (c2 & E2 & Hs2). cbv zeta in E2, Hs2. rewrite E2. cbn [mbind res_bind].
  pose proof Hs2 as [Hw2 Hsyn2 Hb2 Hr2 He2 Hc2].
  destruct (move_ok D (zlen data) Ix D 0 Iy reorder c2 (y s)) as (c3 & y3 & E3 & Hw3 & Hy3 & K3 & L3); try done; [lia|].
  rewrite E3. cbn [mbind res_bind].
  destruct (move_ok D 0 Iy D (zlen data) Ix false y3 c3) as (y4 & c4 & E4 & Hy4 & Hw4 & L4 & K4); try done.
  rewrite E4. cbn [mbind res_bind].
  destruct (read_output_ok y4 Hy4) as (d & y5 & E5 & Hy5 & H0 & Hd & Hle). rewrite E5. cbn [mbind res_bind].
  eexists. split; [done|].
  assert (L : TCPConnection.keeps (y s) y4) by (by transitivity y3).
  assert (K : TCPConnection.keeps c2 (TCPConnection.tick 1000 c4))
    by (transitivity c3; [done|]; transitivity c4; [done|apply TCPConnection.keeps_tick]).
  split; cbn [x y bytes_to_send x_closed string_received].
  - destruct K as [Kw Ke Ks _]. split; [by apply TCPConnection.connection_tick_wf|by auto|done| | |done].
    + rewrite Kw. done.
    + by rewrite Ke.
  - by apply TCPConnection.connection_tick_wf.
  - destruct (TCPConnection.keeps_tick 1000 y5) as [_ _ _ ->]. rewrite Hrec, Hd.
    destruct L as [_ _ _ L]. rewrite <- L. rewrite <- slice_app by lia. f_equal. lia.
Qed.

Lemma until_ok stop fuel reorder : forall s, inv s ->
  exists ended s', until stop fuel reorder s = Ok (ended, s') /\ inv s' /\ (ended = true -> stop s' = true).
Proof.
  induction fuel as [|fuel IH]; intros s Hi; cbn [until]; destruct (stop s) eqn:Es;
    [by exists true, s|by exists false, s|by exists true, s|].
  destruct (loop_ok reorder s Hi) as (s1 & E & Hi1). rewrite E. by apply IH.
Qed.

(** What the invariant says about the string. *)
Lemma received_prefix s : inv s -> exists n, string_received s = take n data.
Proof.
  intros [_ Hy Hr]. pose proof (TCPConnection.inbound_read_bound _ _ _ _ _ _ _ _ Hy) as Hb.
  exists (Z.to_nat (got (y s))). rewrite Hr, slice_stream by lia. done.
Qed.

Lemma received_whole s : inv s -> received_all s = true -> string_received s = data.
Proof.
  intros [_ Hy Hr] He. apply (TCPConnection.inbound_eof _ _ _ _ _ _ _ _ Hy) in He. rewrite He in Hr.
  rewrite Hr, slice_stream by lia. cbn [Z.to_nat drop]. apply take_ge. lia.
Qed.
End Safety.

(** The connections at the start: their initial sequence numbers are random. *)
Lemma start_ok data rx ry : zlen data < two31 - 2 ->
  exists s, start data rx ry = Ok s /\ inv data (WrappingInt32.make rx) (WrappingInt32.make ry) s.
Proof.
  intros HN. unfold start.
  assert (HIx := WrappingInt32.wrapping_make_wf rx). assert (HIy := WrappingInt32.wrapping_make_wf ry).
  assert (Hx : TCPConnection.wf (stream_of data) (zlen data) (WrappingInt32.make rx) (stream_of data) 0
    TCPConfig.DEFAULT_CAPACITY (WrappingInt32.make ry) (TCPConnection.make TCPConfig.default rx))
    by (apply TCPConnection.connection_make_isn_wf; cbn; done || lia).
  assert (Hy : TCPConnection.wf (stream_of data) 0 (WrappingInt32.make ry) (stream_of data) (zlen data)
    TCPConfig.DEFAULT_CAPACITY (WrappingInt32.make rx) (TCPConnection.make TCPConfig.default ry))
    by (apply TCPConnection.connection_make_isn_wf; cbn; done || lia).
  destruct (TCPConnection.wf_connect _ _ _ _ _ _ _ _ Hx) as (cx & E & Hcx).
  pose proof (TCPConnection.keeps_connect _ _ _ _ _ _ _ _ _ Hx E) as [Kw Ke _ _].
  destruct (TCPConnection.end_input_effect _ _ _ _ _ _ _ _ Hy) as (cy & E' & Hcy & _ & _ & _ & Kr); [done|].
  rewrite E, E'. eexists. split; [done|].
  split; cbn [x y bytes_to_send x_closed string_received]; [|done|by rewrite Kr].
  split; [exact Hcx| |apply Buffer.buffer_of_string_wf; lia| |exact Ke|discriminate].
  2:{ rewrite Kw. change (ByteStream.n_bytes_written (TCPConnection.stream_in (TCPConnection.make TCPConfig.default rx))) with 0. split; [lia|done]. }
  unfold TCPConnection.connect in E. apply bind_Ok in E as (c1 & E & [= <-]).
  destruct (TCPConnection.wf_fill _ _ _ _ _ _ _ _ Hx) as (c2 & E2 & _ & Hs & _). rewrite E in E2. injection E2 as <-.
  by apply TCPConnection.keeps_send.
Qed.

Lemma main_loop_ok (fuel : nat) (reorder : bool) (string_to_send : bytes) (random_x random_y : Z)
  : zlen string_to_send < two31 - 2 ->
  exists ended s, main_loop fuel reorder string_to_send random_x random_y = Ok (ended, s) /\
    (exists n, string_received s = take n string_to_send) /\
    (received_all s = true -> string_received s = string_to_send) /\
    (ended = true -> both_done s = true).
Proof.
  intros HN.
  assert (HIx := WrappingInt32.wrapping_make_wf random_x). assert (HIy := WrappingInt32.wrapping_make_wf random_y).
  destruct (start_ok string_to_send random_x random_y HN) as (s0 & E0 & Hi0). unfold main_loop. rewrite E0.
  cbn [mbind res_bind].
  destruct (until_ok _ _ _ HIx HIy HN received_all fuel reorder s0 Hi0) as (e1 & s1 & E1 & Hi1 & He1). rewrite E1.
  cbn [mbind res_bind].
  destruct e1; cbn [negb]; [|exists false, s1; split_and!; [done|by eapply received_prefix|intros; by eapply received_whole|done]].
  assert (Hs1 : string_received s1 = string_to_send) by (eapply received_whole; eauto).
  rewrite (bool_decide_true _ Hs1). cbn [negb].
  destruct (until_ok _ _ _ HIx HIy HN both_done fuel reorder s1 Hi1) as (e2 & s2 & E2 & Hi2 & He2).
  exists e2, s2. split_and!; [done|by eapply received_prefix|intros; by eapply received_whole|done].
Qed.

(** C21: the benchmark cannot fail.  For every string shorter than 2^31 - 2 bytes, all
    initial sequence numbers, with the segments in order or reversed, and however many
    rounds are run, no exception is thrown: [x] accepts every byte it is offered, and
    what [y] has received is a prefix of the string, and all of it once the inbound
    stream of [y] is at its end, so that the final comparison succeeds. *)
Theorem benchmark_safe (fuel : nat) (reorder : bool) (string_to_send : bytes) (random_x random_y : Z)
  (HN : zlen string_to_send < two31 - 2) :
  exists ended s, main_loop fuel reorder string_to_send random_x random_y = Ok (ended, s) /\
    (exists n, string_received s = take n string_to_send) /\
    (received_all s = true -> string_received s = string_to_send) /\
    (ended = true -> both_done s = true).
Proof. exact (main_loop_ok fuel reorder string_to_send random_x random_y HN). Qed.

Lemma benchmark_safe_witness :
  exists s, main_loop 15 true [x61; x62; x63] 5 7 = Ok (true, s) /\ string_received s = [x61; x62; x63].
Proof.
  destruct (benchmark_safe 15 true [x61; x62; x63] 5 7) as (ended & s & E & _ & Hall & _); [cbn; lia|].
  assert (H : match main_loop 15 true [x61; x62; x63] 5 7 with
    | Ok (e, s) => e && received_all s | Throw _ => false end = true) by (vm_compute; reflexivity).
  rewrite E in H. apply andb_true_iff in H as [-> H]. exists s. split; [exact E|exact (Hall H)].
Defined.

End Benchmark.
