(* ===== verification/StreamCopy.v ===== *)
(** * Copying in both directions (apps/bidirectional_stream_copy.cc)

    [bidirectional_stream_copy] connects a socket with the standard input and output
    through two byte streams and four rules of an event loop.  The state is that of
    the function's local variables, with the descriptors and the kernel in it. *)

From S2P Require Import Prelude Stream Buffers Addresses FileDescriptor Sockets EventLoop.
From Stdlib Require Import Strings.Byte.

Definition STDIN_FILENO : Z := 0.
Definition STDOUT_FILENO : Z := 1.

Module StreamCopy.

Definition max_copy_length : Z := 65536.
Definition buffer_size : Z := 1048576.

Section StreamCopy.
Context {K : Type} `{Kernel K}.

(** The local variables (the event loop apart) and the argument [socket]. *)
Record t : Type := mk {
  os : world K;
  socket : FileDescriptor.t;
  _input : FileDescriptor.t;
  _output : FileDescriptor.t;
  _outbound : ByteStream.t;
  _inbound : ByteStream.t;
  _outbound_shutdown : bool;
  _inbound_shutdown : bool
}.

Definition set_os (w : world K) (s : t) : t :=
  mk w (socket s) (_input s) (_output s) (_outbound s) (_inbound s) (_outbound_shutdown s) (_inbound_shutdown s).
Definition set_outbound (x : ByteStream.t) (s : t) : t :=
  mk (os s) (socket s) (_input s) (_output s) x (_inbound s) (_outbound_shutdown s) (_inbound_shutdown s).
Definition set_inbound (x : ByteStream.t) (s : t) : t :=
  mk (os s) (socket s) (_input s) (_output s) (_outbound s) x (_outbound_shutdown s) (_inbound_shutdown s).
Definition set_outbound_shutdown (s : t) : t :=
  mk (os s) (socket s) (_input s) (_output s) (_outbound s) (_inbound s) true (_inbound_shutdown s).
Definition set_inbound_shutdown (s : t) : t :=
  mk (os s) (socket s) (_input s) (_output s) (_outbound s) (_inbound s) (_outbound_shutdown s) true.

#[export] Instance copy_os : Holds t (world K) := {|
  view := os; update := set_os;
  view_update := fun _ _ => eq_refl;
  update_view := fun s => match s with mk _ _ _ _ _ _ _ _ => eq_refl end;
  update_update := fun _ _ _ => eq_refl
|}.

(** A descriptor of the state. *)
Definition on_fd {B} (fd : t -> FileDescriptor.t) (f : FileDescriptor.t -> io (world K) B) : io t B := fun s =>
  lift (f (fd s)) s.

Definition end_outbound : io t unit := modify (fun s => set_outbound (ByteStream.end_input (_outbound s)) s).
Definition end_inbound : io t unit := modify (fun s => set_inbound (ByteStream.end_input (_inbound s)) s).

(** Rule 1: read from stdin into outbound byte stream. *)
Definition callback1 : io t unit :=
  s ← get;
  data ← on_fd _input (FileDescriptor.read (ByteStream.remaining_capacity (_outbound s)));
  _ ← modify (fun s => set_outbound (ByteStream.write data (_outbound s)).2 s);
  eof ← on_fd _input FileDescriptor.eof;
  if (eof : bool) then end_outbound else mret tt.
Definition interest1 (s : t) : res bool :=
  Ok (negb (ByteStream.error (_outbound s)) && (0 <? ByteStream.remaining_capacity (_outbound s)) &&
      negb (ByteStream.error (_inbound s))).

(** Rule 2: read from outbound byte stream into socket. *)
Definition callback2 : io t unit :=
  s ← get;
  let bytes_to_write := Z.min max_copy_length (ByteStream.buffer_size (_outbound s)) in
  data ← of_res (ByteStream.peek_output bytes_to_write (_outbound s));
  bytes_written ← on_fd socket (FileDescriptor.write_string data false);
  s ← get;
  st ← of_res (ByteStream.pop_output bytes_written (_outbound s));
  _ ← modify (set_outbound st);
  if ByteStream.eof st then
    _ ← on_fd socket (Socket.shutdown SHUT_WR);
    modify set_outbound_shutdown
  else mret tt.
Definition interest2 (s : t) : res bool :=
  Ok (negb (ByteStream.buffer_empty (_outbound s)) ||
      (ByteStream.eof (_outbound s) && negb (_outbound_shutdown s))).

(** Rule 3: read from socket into inbound byte stream. *)
Definition callback3 : io t unit :=
  s ← get;
  data ← on_fd socket (FileDescriptor.read (ByteStream.remaining_capacity (_inbound s)));
  _ ← modify (fun s => set_inbound (ByteStream.write data (_inbound s)).2 s);
  eof ← on_fd socket FileDescriptor.eof;
  if (eof : bool) then end_inbound else mret tt.
Definition interest3 (s : t) : res bool :=
  Ok (negb (ByteStream.error (_inbound s)) && (0 <? ByteStream.remaining_capacity (_inbound s)) &&
      negb (ByteStream.error (_outbound s))).

(** Rule 4: read from inbound byte stream into stdout. *)
Definition callback4 : io t unit :=
  s ← get;
  let bytes_to_write := Z.min max_copy_length (ByteStream.buffer_size (_inbound s)) in
  data ← of_res (ByteStream.peek_output bytes_to_write (_inbound s));
  bytes_written ← on_fd _output (FileDescriptor.write_string data false);
  s ← get;
  st ← of_res (ByteStream.pop_output bytes_written (_inbound s));
  _ ← modify (set_inbound st);
  if ByteStream.eof st then
    _ ← on_fd _output FileDescriptor.close;
    modify set_inbound_shutdown
  else mret tt.
Definition interest4 (s : t) : res bool :=
  Ok (negb (ByteStream.buffer_empty (_inbound s)) ||
      (ByteStream.eof (_inbound s) && negb (_inbound_shutdown s))).

(** The rules as they stand in the loop, given the handle they hold. *)
Definition rule1 (h : FileDescriptor.t) : @EventLoop.Rule t :=
  EventLoop.mkRule h DirIn callback1 interest1 end_outbound.
Definition rule2 (h : FileDescriptor.t) : @EventLoop.Rule t :=
  EventLoop.mkRule h DirOut callback2 interest2 end_outbound.
Definition rule3 (h : FileDescriptor.t) : @EventLoop.Rule t :=
  EventLoop.mkRule h DirIn callback3 interest3 end_inbound.
Definition rule4 (h : FileDescriptor.t) : @EventLoop.Rule t :=
  EventLoop.mkRule h DirOut callback4 interest4 end_inbound.

(** The local variables and their initial values. *)
Definition init (h : FileDescriptor.t) : io (world K) t :=
  i ← FileDescriptor.make STDIN_FILENO;
  o ← FileDescriptor.make STDOUT_FILENO;
  w ← get;
  mret (mk w h i o (ByteStream.make buffer_size) (ByteStream.make buffer_size) false false).

(** The calls of [set_blocking] and [add_rule]. *)
Definition install : io t (list (@EventLoop.Rule t)) :=
  _ ← on_fd socket (FileDescriptor.set_blocking false);
  _ ← on_fd _input (FileDescriptor.set_blocking false);
  _ ← on_fd _output (FileDescriptor.set_blocking false);
  s ← get;
  r ← EventLoop.add_rule (_input s) DirIn callback1 interest1 end_outbound EventLoop.make;
  r ← EventLoop.add_rule (socket s) DirOut callback2 interest2 end_outbound r;
  r ← EventLoop.add_rule (socket s) DirIn callback3 interest3 end_inbound r;
  EventLoop.add_rule (_output s) DirOut callback4 interest4 end_inbound r.

(** "loop until completion", cut off after [fuel] rounds: the flag says whether the
    loop has ended. *)
Fixpoint copy_loop (fuel : nat) (rs : list (@EventLoop.Rule t)) : io t (bool * list (@EventLoop.Rule t)) :=
  match fuel with
  | O => mret (false, rs)
  | S fuel' =>
      '(r, rs) ← EventLoop.wait_next_event (-1) rs;
      match r with
      | EventLoop.Exit => mret (true, rs)
      | _ => copy_loop fuel' rs
      end
  end.

(** The destructors at the end of the function, in the reverse order of the
    declarations: [_output], [_input], [_eventloop]. *)
Fixpoint destroy_rules (rs : list (@EventLoop.Rule t)) : io t unit :=
  match rs with
  | [] => mret tt
  | r :: rs' => _ ← lift (FileDescriptor.destroy (EventLoop.fd r)); destroy_rules rs'
  end.
Definition leave (rs : list (@EventLoop.Rule t)) : io t unit :=
  _ ← on_fd _output FileDescriptor.destroy;
  _ ← on_fd _input FileDescriptor.destroy;
  destroy_rules rs.

(** The whole function: whether the loop ended, and the rules and the local variables
    as they were at its end. *)
Definition bidirectional_stream_copy (fuel : nat) (h : FileDescriptor.t)
  : io (world K) (bool * list (@EventLoop.Rule t) * t) := fun w =>
  '(s, w) ← init h w;
  '(rs, s) ← install s;
  '(ended, rs, s) ← copy_loop fuel rs s;
  '(_, s') ← (if (ended : bool) then leave rs s else Ok (tt, s));
  Ok ((ended, rs, s), os s').

(** ** What is relied on

    [got k fd] and [sent k fd] are the bytes that were read from, and accepted on, a
    descriptor so far; [readable] and [writable] are what [poll] reports. *)
Record environment : Type := mkEnv {
  k_ok : K -> Prop;
  got : K -> Z -> bytes;
  sent : K -> Z -> bytes;
  readable : K -> Z -> Prop;
  writable : K -> Z -> Prop
}.

Context (E : environment).

(** A change of the kernel's state that moves no bytes; [P] and [Q] say on which
    descriptors it keeps a report of [poll] valid. *)
Record calm (P Q : Z -> Prop) (k k' : K) : Prop := {
  cm_ok : k_ok E k';
  cm_got : forall fd, got E k' fd = got E k fd;
  cm_sent : forall fd, sent E k' fd = sent E k fd;
  cm_readable : forall fd, P fd -> readable E k fd -> readable E k' fd;
  cm_writable : forall fd, Q fd -> writable E k fd -> writable E k' fd
}.

Definition anywhere (fd : Z) : Prop := True.
Definition succeeds (a : answer) : Prop := 0 <= ret a < two31.

Record reported (k : K) (p : pollfd) : Prop := {
  rp_error : EventLoop.poll_error p = false;
  rp_in : EventLoop.poll_ready p = true -> events p = POLLIN -> readable E k (poll_fd p);
  rp_out : EventLoop.poll_ready p = true -> events p = POLLOUT -> writable E k (poll_fd p)
}.

(** The documented behaviour of the system calls, none of which fails here: reading a
    readable descriptor gives its next bytes, writing to a writable one accepts a
    prefix that is not empty unless there is nothing to write. *)
Record lawful : Prop := {
  law_read : forall k fd size a data k', k_ok E k -> readable E k fd -> 0 <= size ->
    k_read fd size k = (a, data, k') ->
    ret a = zlen data /\ zlen data <= size /\ k_ok E k' /\ got E k' fd = got E k fd ++ data /\
    (forall fd', fd' <> fd -> got E k' fd' = got E k fd' /\ (readable E k fd' -> readable E k' fd')) /\
    (forall fd', sent E k' fd' = sent E k fd' /\ (writable E k fd' -> writable E k' fd'));
  law_writev : forall k fd iovecs a k', k_ok E k -> writable E k fd -> k_writev fd iovecs k = (a, k') ->
    0 <= ret a <= zlen (concat (fst <$> iovecs)) /\ (ret a = 0 -> concat (fst <$> iovecs) = []) /\
    k_ok E k' /\ sent E k' fd = sent E k fd ++ take (Z.to_nat (ret a)) (concat (fst <$> iovecs)) /\
    (forall fd', fd' <> fd -> sent E k' fd' = sent E k fd' /\ (writable E k fd' -> writable E k' fd')) /\
    (forall fd', got E k' fd' = got E k fd' /\ (readable E k fd' -> readable E k' fd'));
  law_close : forall k fd a k', k_ok E k -> k_close fd k = (a, k') ->
    succeeds a /\ calm (fun fd' => fd' <> fd) (fun fd' => fd' <> fd) k k';
  law_shutdown : forall k fd a k', k_ok E k -> k_shutdown fd SHUT_WR k = (a, k') ->
    succeeds a /\ calm anywhere (fun fd' => fd' <> fd) k k';
  law_getfl : forall k fd a k', k_ok E k -> k_getfl fd k = (a, k') ->
    succeeds a /\ calm anywhere anywhere k k';
  law_setfl : forall k fd flags a k', k_ok E k -> k_setfl fd flags k = (a, k') ->
    succeeds a /\ calm anywhere anywhere k k';
  law_poll : forall k fds timeout a revs k', k_ok E k -> k_poll fds timeout k = (a, revs, k') ->
    succeeds a /\ calm anywhere anywhere k k' /\ Forall (reported k') (EventLoop.fill_revents fds revs)
}.

(** ** The two directions *)

Inductive side : Type := Outbound | Inbound.
#[local] Instance side_eq_dec : EqDecision side.
Proof. solve_decision. Defined.

Definition stream (d : side) (s : t) : ByteStream.t := match d with Outbound => _outbound s | Inbound => _inbound s end.
Definition set_stream (d : side) (x : ByteStream.t) (s : t) : t :=
  match d with Outbound => set_outbound x s | Inbound => set_inbound x s end.
Definition shut (d : side) (s : t) : bool :=
  match d with Outbound => _outbound_shutdown s | Inbound => _inbound_shutdown s end.
Definition set_shut (d : side) (s : t) : t :=
  match d with Outbound => set_outbound_shutdown s | Inbound => set_inbound_shutdown s end.

(** The rules by name: the first rule of a direction fills its stream, the second
    empties it. *)
Inductive name : Type := Reader (d : side) | Writer (d : side).
#[local] Instance name_eq_dec : EqDecision name.
Proof. solve_decision. Defined.

(** The variables that hold the descriptors, as they are in [s]. *)
Definition handle (s : t) (m : name) : FileDescriptor.t :=
  match m with
  | Reader Outbound => _input s
  | Writer Outbound | Reader Inbound => socket s
  | Writer Inbound => _output s
  end.

Definition end_stream (d : side) : io t unit :=
  modify (fun s => set_stream d (ByteStream.end_input (stream d s)) s).
Definition pull (d : side) : io t unit :=
  s ← get;
  data ← on_fd (fun s => handle s (Reader d)) (FileDescriptor.read (ByteStream.remaining_capacity (stream d s)));
  _ ← modify (fun s => set_stream d (ByteStream.write data (stream d s)).2 s);
  eof ← on_fd (fun s => handle s (Reader d)) FileDescriptor.eof;
  if (eof : bool) then end_stream d else mret tt.
Definition finish (d : side) : FileDescriptor.t -> io (world K) unit :=
  match d with Outbound => Socket.shutdown SHUT_WR | Inbound => FileDescriptor.close end.
Definition push (d : side) : io t unit :=
  s ← get;
  let bytes_to_write := Z.min max_copy_length (ByteStream.buffer_size (stream d s)) in
  data ← of_res (ByteStream.peek_output bytes_to_write (stream d s));
  bytes_written ← on_fd (fun s => handle s (Writer d)) (FileDescriptor.write_string data false);
  s ← get;
  st ← of_res (ByteStream.pop_output bytes_written (stream d s));
  _ ← modify (set_stream d st);
  if ByteStream.eof st then
    _ ← on_fd (fun s => handle s (Writer d)) (finish d);
    modify (set_shut d)
  else mret tt.

(** The four callbacks are the two, once for each direction. *)
Lemma callbacks_by_side :
  callback1 = pull Outbound /\ callback2 = push Outbound /\ callback3 = pull Inbound /\ callback4 = push Inbound.
Proof. done. Qed.

(** ** The invariant *)

(** The handles and descriptor numbers do not change: [F] is the socket's number. *)
Context (hs hi ho : FileDescriptor.t) (F : Z).
Context (Hhandles : hi <> hs /\ ho <> hs /\ hi <> ho) (HF : F <> STDIN_FILENO /\ F <> STDOUT_FILENO).

Definition place (m : name) : FileDescriptor.t :=
  match m with Reader Outbound => hi | Writer Outbound | Reader Inbound => hs | Writer Inbound => ho end.
Definition fd_of (m : name) : Z :=
  match m with
  | Reader Outbound => STDIN_FILENO
  | Writer Outbound | Reader Inbound => F
  | Writer Inbound => STDOUT_FILENO
  end.
Definition rule (m : name) : @EventLoop.Rule t :=
  match m with
  | Reader Outbound => rule1 hi
  | Writer Outbound => rule2 hs
  | Reader Inbound => rule3 hs
  | Writer Inbound => rule4 ho
  end.

Definition at_end (m : name) (s : t) : Prop :=
  exists c, heap (os s) !! place m = Some c /\ FDWrapper._eof (wrapper c) = true.

(** One direction, from the logs [g0] and [s0] at the start: what was read is what was
    written followed by what the stream holds; a direction that was shut down has
    nothing left to write and its source is finished. *)
Record flow (names : list name) (d : side) (g0 s0 : bytes) (s : t) : Prop := {
  fl_wf : ByteStream.wf (stream d s);
  fl_cap : ByteStream.max_capacity (stream d s) = buffer_size;
  fl_copied : exists copied, got E (kernel (os s)) (fd_of (Reader d)) = g0 ++ copied ++ ByteStream.contents (stream d s) /\
    sent E (kernel (os s)) (fd_of (Writer d)) = s0 ++ copied;
  fl_drained : shut d s = true -> ByteStream.contents (stream d s) = [] /\ (Reader d ∈ names -> at_end (Reader d) s);
  fl_ended : ByteStream.done_writing (stream d s) = true -> Writer d ∈ names -> Reader d ∈ names ->
    at_end (Reader d) s
}.

Context (g0 s0 : side -> bytes).

(** The state while the rules [names] are installed; every descriptor is held by a
    variable of the function and by its rules. *)
Record body (names : list name) (s : t) : Prop := {
  bd_nodup : NoDup names;
  bd_cells : forall m, exists x n, heap (os s) !! place m = Some (mkCell x n) /\ FDWrapper._fd x = fd_of m /\
    1 + zlen (filter (fun m' => place m' = place m) names) <= n;
  bd_flow : forall d, flow names d (g0 d) (s0 d) s;
  bd_handles : socket s = hs /\ _input s = hi /\ _output s = ho;
  bd_kernel : k_ok E (kernel (os s))
}.
Definition inv (rs : list (@EventLoop.Rule t)) (s : t) : Prop := exists names, rs = rule <$> names /\ body names s.

Definition token (s : t) (r : @EventLoop.Rule t) : Prop :=
  match EventLoop.direction r with
  | DirIn => readable E (kernel (os s)) (EventLoop.number s r)
  | DirOut => writable E (kernel (os s)) (EventLoop.number s r)
  end.
Definition quiet (s : t) (r : @EventLoop.Rule t) : Prop :=
  forall d, r = rule (Writer d) -> ByteStream.contents (stream d s) = [].

(** ** A callback acts on its own side *)

Definition side_of (m : name) : side := match m with Reader d | Writer d => d end.
Definition counter (m : name) (x : FDWrapper.t) : Z :=
  match m with Reader _ => FDWrapper._read_count x | Writer _ => FDWrapper._write_count x end.

(** What the callback of the rule [m] does to everything but its stream. *)
Record acts (m : name) (s s' : t) : Prop := {
  ac_cell : exists x x' n, heap (os s) !! place m = Some (mkCell x n) /\
    heap (os s') = <[place m := mkCell x' n]> (heap (os s)) /\ FDWrapper._fd x' = FDWrapper._fd x /\
    (m <> Writer Inbound -> FDWrapper._closed x' = FDWrapper._closed x) /\
    (m = Writer Outbound -> FDWrapper._eof x' = FDWrapper._eof x) /\ counter m x <> counter m x';
  ac_handles : socket s' = socket s /\ _input s' = _input s /\ _output s' = _output s;
  ac_kernel : k_ok E (kernel (os s'));
  ac_other : forall d, d <> side_of m -> stream d s' = stream d s /\ shut d s' = shut d s;
  ac_read : forall d, Reader d <> m ->
    got E (kernel (os s')) (fd_of (Reader d)) = got E (kernel (os s)) (fd_of (Reader d)) /\
    (readable E (kernel (os s)) (fd_of (Reader d)) -> readable E (kernel (os s')) (fd_of (Reader d)));
  ac_write : forall d, Writer d <> m ->
    sent E (kernel (os s')) (fd_of (Writer d)) = sent E (kernel (os s)) (fd_of (Writer d)) /\
    (writable E (kernel (os s)) (fd_of (Writer d)) -> writable E (kernel (os s')) (fd_of (Writer d)))
}.

(** Two rules with one descriptor are the two of the socket. *)
Lemma same_place m m' : place m = place m' -> m' = m \/
  (m = Writer Outbound /\ m' = Reader Inbound) \/ (m = Reader Inbound /\ m' = Writer Outbound).
Proof. destruct Hhandles as (? & ? & ?). destruct m as [[]|[]], m' as [[]|[]]; cbn; intros; auto; congruence. Qed.

Lemma fd_place m : EventLoop.fd (rule m) = place m.
Proof. by destruct m as [[]|[]]. Qed.

Lemma handle_place names s m : body names s -> handle s m = place m.
Proof. intros [_ _ _ (Hs & Hi & Ho) _]. by destruct m as [[]|[]]. Qed.

Lemma number_cell s m x n : heap (os s) !! place m = Some (mkCell x n) ->
  EventLoop.number s (rule m) = FDWrapper._fd x.
Proof. intros Hx. unfold EventLoop.number. cbn [view copy_os]. by rewrite fd_place, Hx. Qed.

Lemma live_cell s m x n : heap (os s) !! place m = Some (mkCell x n) ->
  EventLoop.live s (rule m) <-> FDWrapper._closed x = false /\
    match m with Reader _ => FDWrapper._eof x = false | Writer _ => True end.
Proof.
  intros Hx. unfold EventLoop.live. cbn [view copy_os]. rewrite fd_place, Hx. split.
  - intros (c & [= <-] & Hc & He). split; [done|]. by destruct m as [[]|[]].
  - intros [Hc He]. exists (mkCell x n). split_and!; try done. by destruct m as [[]|[]].
Qed.

(** The other rules do not notice. *)
Lemma acts_keeps names m m' s s' : body names s -> acts m s s' -> m' <> m ->
  EventLoop.keeps token s s' (rule m').
Proof.
  intros Hb [(x & x' & n & Hx & Hh & Hfd & Hcl & He & _) _ _ _ Hrd Hwr] Hne.
  destruct (bd_cells _ _ Hb m') as (y & p & Hy & Hyfd & _).
  assert (Hy' : exists y' p', heap (os s') !! place m' = Some (mkCell y' p') /\ FDWrapper._fd y' = FDWrapper._fd y /\
    FDWrapper._closed y' = FDWrapper._closed y /\
    match m' with Reader _ => FDWrapper._eof y' = FDWrapper._eof y | Writer _ => True end).
  { rewrite Hh. destruct (decide (place m = place m')) as [Heq|Hneq].
    - rewrite Heq, lookup_insert_eq. exists x', n. rewrite Heq, Hy in Hx. injection Hx as <- <-.
      destruct (same_place _ _ Heq) as [->|[[-> ->]|[-> ->]]]; [done|..];
        (split_and!; [done|done|by apply Hcl|done || by apply He]).
    - rewrite lookup_insert_ne by done. exists y, p. split_and!; try done. by destruct m'. }
  destruct Hy' as (y' & p' & Hy' & Hfd' & Hcl' & He').
  split.
  - rewrite (live_cell _ _ _ _ Hy), (live_cell _ _ _ _ Hy'), Hcl'. destruct m'; [by rewrite He'|done].
  - unfold token. rewrite (number_cell _ _ _ _ Hy), (number_cell _ _ _ _ Hy'), Hfd', Hyfd.
    destruct m' as [[]|[]]; cbn [EventLoop.direction rule rule1 rule2 rule3 rule4]; (apply Hrd || apply Hwr); done.
  - by rewrite (number_cell _ _ _ _ Hy), (number_cell _ _ _ _ Hy').
Qed.

(** The other side goes on as before. *)
Lemma acts_flow names m d s s' : acts m s s' -> d <> side_of m -> flow names d (g0 d) (s0 d) s ->
  flow names d (g0 d) (s0 d) s'.
Proof.
  intros [(x & x' & n & Hx & Hh & _ & _ & He & _) _ _ Hoth Hrd Hwr] Hd [Hw Hc (cp & Hg & Hs) Hdr Hen].
  destruct (Hoth d Hd) as [Est Esh].
  assert (Hend : at_end (Reader d) s -> at_end (Reader d) s').
  { intros (c & Hcell & Heof). unfold at_end. rewrite Hh. destruct (decide (place m = place (Reader d))) as [Heq|Hneq].
    - rewrite <- Heq, lookup_insert_eq. eexists. split; [done|]. rewrite <- Heq, Hx in Hcell.
      injection Hcell as <-. destruct (same_place _ _ Heq) as [<-|[[-> _]|[-> [=]]]]; [by destruct Hd|].
      cbn [wrapper] in *. by rewrite (He eq_refl).
    - rewrite lookup_insert_ne by done. by exists c. }
  assert (Hm : Reader d <> m /\ Writer d <> m) by (split; intros <-; by apply Hd).
  split; rewrite ?Est, ?Esh; try done.
  - exists cp. rewrite (proj1 (Hrd d (proj1 Hm))), (proj1 (Hwr d (proj2 Hm))). done.
  - intros Hsh. destruct (Hdr Hsh). auto.
  - auto.
Qed.

Lemma acts_body names m s s' : body names s -> acts m s s' ->
  flow names (side_of m) (g0 (side_of m)) (s0 (side_of m)) s' -> body names s'.
Proof.
  intros Hb Ha Hf. pose proof Ha as [(x & x' & n & Hx & Hh & Hfd & _) (Hs & Hi & Ho) Hk _ _ _].
  destruct Hb as [Hnd Hcells Hflow (Hs' & Hi' & Ho') _]. split; try done.
  - intros m'. destruct (Hcells m') as (y & p & Hy & Hyf & Hp). rewrite Hh.
    destruct (decide (place m = place m')) as [Heq|Hneq].
    + rewrite Heq, lookup_insert_eq. rewrite Heq, Hy in Hx. injection Hx as <- <-.
      exists x', p. split; [done|]. split; [by rewrite Hfd|done].
    + rewrite lookup_insert_ne by done. by exists y, p.
  - intros d. destruct (decide (d = side_of m)) as [->|Hne]; [done|]. by eapply acts_flow.
  - by rewrite Hs, Hi, Ho.
Qed.

Lemma acts_counts m s s' : acts m s s' -> exists n1 n2, EventLoop.service_count (rule m) s = Ok (n1, s) /\
  EventLoop.service_count (rule m) s' = Ok (n2, s') /\ n1 <> n2.
Proof.
  assert (Hrun : forall s x n, heap (os s) !! place m = Some (mkCell x n) ->
    EventLoop.service_count (rule m) s = Ok (counter m x, s)).
  { clear s s'. intros s x n Hx. unfold EventLoop.service_count.
    rewrite <- (update_view s) at 2. apply lift_run. cbn [view copy_os]. rewrite fd_place.
    destruct m as [[]|[]]; cbn [EventLoop.direction rule rule1 rule2 rule3 rule4];
      unfold FileDescriptor.read_count, FileDescriptor.write_count;
      by rewrite (io_bind_run _ _ _ _ _ (FileDescriptor.deref_run _ _ _ Hx)). }
  intros [(x & x' & n & Hx & Hh & _ & _ & _ & Hne) _ _ _ _ _].
  exists (counter m x), (counter m x'). split; [by eapply Hrun|]. split; [|done].
  eapply Hrun. rewrite Hh. apply lookup_insert_eq.
Qed.

Lemma stream_set d x s : stream d (set_stream d x s) = x.
Proof. by destruct d. Qed.
Lemma os_set d x s : os (set_stream d x s) = os s.
Proof. by destruct d. Qed.

Lemma copy_on_fd_run {B} (fd : t -> FileDescriptor.t) (f : FileDescriptor.t -> io (world K) B) s b w :
  f (fd s) (os s) = Ok (b, w) -> on_fd fd f s = Ok (b, set_os w s).
Proof. intros Hf. unfold on_fd, lift. cbn [view update copy_os]. by rewrite Hf. Qed.

Lemma u32_advance n : n <> u32 (n + 1) /\ n <> u32 (u32 (n + 1) + 1).
Proof. unfold u32. split; Z.div_mod_to_equations; lia. Qed.

Context (HL : lawful).

(** The stream of a direction after [data] was read with at most [limit] bytes asked
    for, and whether that was the end. *)
Definition at_eof (limit : Z) (data : bytes) : bool := (0 <? limit) && bool_decide (data = []).
Definition filled (limit : Z) (data : bytes) (st : ByteStream.t) : ByteStream.t :=
  let st1 := (ByteStream.write data st).2 in if at_eof limit data then ByteStream.end_input st1 else st1.

(** The steps of [pull] once the descriptor has been read. *)
Lemma pull_steps d s x n data w :
  let limit := ByteStream.remaining_capacity (stream d s) in
  FDWrapper._eof x = false -> FileDescriptor.read limit (handle s (Reader d)) (os s) = Ok (data, w) ->
  heap w !! handle s (Reader d) = Some (mkCell (FileDescriptor.after_read limit data x) n) ->
  pull d s = Ok (tt, set_stream d (filled limit data (stream d s)) (set_os w s)).
Proof.
  intros limit Hx Hread Hcell. unfold pull. rewrite (io_bind_run _ _ _ s s) by done. fold limit.
  rewrite (io_bind_run _ _ _ _ _ (copy_on_fd_run (fun s => handle s (Reader d)) _ s _ _ Hread)).
  set (st1 := (ByteStream.write data (stream d s)).2). set (s1 := set_stream d st1 (set_os w s)).
  rewrite (io_bind_run _ _ _ s1 tt) by (unfold modify, s1, st1; by destruct d).
  rewrite (io_bind_run _ _ _ s1 (at_eof limit data)).
  - unfold filled. fold st1. destruct (at_eof limit data); [|done]. unfold end_stream, modify. do 2 f_equal.
    by destruct d.
  - rewrite (copy_on_fd_run _ _ _ (at_eof limit data) (os s1)); [by destruct s1|].
    assert (Hc : heap (os s1) !! handle s1 (Reader d) = Some (mkCell (FileDescriptor.after_read limit data x) n))
      by (rewrite <- Hcell; by destruct d).
    rewrite (FileDescriptor.eof_run _ _ _ Hc). cbn [wrapper]. unfold FileDescriptor.after_read.
    fold (at_eof limit data). destruct (at_eof limit data); [done|]. cbn. by rewrite Hx.
Qed.

(** All of [data] fits when no more than the room was asked for. *)
Lemma filled_spec limit data st : ByteStream.wf st ->
  zlen data <= ByteStream.max_capacity st - ByteStream.cur_size st ->
  ByteStream.wf (filled limit data st) /\ ByteStream.contents (filled limit data st) = ByteStream.contents st ++ data /\
  ByteStream.max_capacity (filled limit data st) = ByteStream.max_capacity st /\
  (ByteStream.done_writing (filled limit data st) = true -> ByteStream.done_writing st = true \/ at_eof limit data = true).
Proof.
  intros Hw Hlen. destruct (ByteStream.write_spec data st Hw) as (_ & Hw' & Hc & _ & _ & _ & Hm & Hd & _).
  rewrite Z.min_l, Nat2Z.id, firstn_all in Hc by lia. unfold filled. destruct (at_eof limit data).
  - split; [by apply ByteStream.stream_end_input_wf|]. by auto.
  - split_and!; try done. rewrite Hd. auto.
Qed.

(** Reading from the source of a direction. *)
Lemma pull_run names d s : body names s -> Reader d ∈ names ->
  ~ at_end (Reader d) s -> readable E (kernel (os s)) (fd_of (Reader d)) ->
  exists s', pull d s = Ok (tt, s') /\ acts (Reader d) s s' /\ flow names d (g0 d) (s0 d) s'.
Proof.
  intros Hb Hin Hne Hrd. pose proof (handle_place _ _ (Reader d) Hb) as Hh.
  destruct (bd_cells _ _ Hb (Reader d)) as (x & n & Hx & Hfd & _).
  destruct (bd_flow _ _ Hb d) as [Hw Hcap (cp & Hg & Hs) Hdr Hen].
  assert (Hx0 : FDWrapper._eof x = false).
  { destruct (FDWrapper._eof x) eqn:Ex; [|done]. exfalso. apply Hne. by eexists. }
  set (limit := ByteStream.remaining_capacity (stream d s)).
  assert (Hlim : 0 <= limit /\ limit = ByteStream.max_capacity (stream d s) - ByteStream.cur_size (stream d s)).
  { unfold limit. rewrite ByteStream.remaining_capacity_eq by done. destruct (ByteStream.wf_size _ Hw). lia. }
  destruct (k_read (fd_of (Reader d)) (Z.min FileDescriptor.BUFFER_SIZE limit) (kernel (os s))) as [[a data] k] eqn:Hk.
  assert (Hsz : 0 <= Z.min FileDescriptor.BUFFER_SIZE limit) by (unfold FileDescriptor.BUFFER_SIZE; lia).
  destruct (law_read HL _ _ _ _ _ _ (bd_kernel _ _ Hb) Hrd Hsz Hk) as (Hret & Hlen & Hok & Hgot & Hoth & Hsent).
  pose proof (FileDescriptor.read_run limit (place (Reader d)) (os s) (mkCell x n) a data k Hx (proj1 Hlim)
    ltac:(cbn [wrapper]; by rewrite Hfd) Hret Hlen) as Eread.
  set (w1 := set_cell _ _ _) in Eread. rewrite <- Hh in Eread.
  exists (set_stream d (filled limit data (stream d s)) (set_os w1 s)). split.
  { apply (pull_steps d s x n data w1 Hx0 Eread). rewrite Hh. apply lookup_insert_eq. }
  assert (Hos : os (set_stream d (filled limit data (stream d s)) (set_os w1 s)) = w1) by apply os_set.
  split.
  - split; rewrite ?Hos.
    + exists x, (FileDescriptor.after_read limit data x), n. split; [done|]. split; [done|].
      unfold FileDescriptor.after_read. pose proof (proj1 (u32_advance (FDWrapper._read_count x))).
      destruct (_ && _); split_and!; done.
    + by destruct d.
    + done.
    + intros d' Hd'. by destruct d, d'.
    + intros d' Hd'. apply Hoth. destruct HF. destruct d, d'; cbn; congruence.
    + intros d' _. apply Hsent.
  - destruct (filled_spec limit data (stream d s) Hw) as (Hw' & Hc' & Hm' & Hd'); [lia|].
    split; rewrite ?stream_set, ?Hos.
    + done.
    + by rewrite Hm'.
    + exists cp. rewrite Hc'. cbn [kernel w1 set_cell set_kernel]. rewrite Hgot, Hg.
      split; [by rewrite <- !app_assoc|]. by rewrite (proj1 (Hsent _)).
    + intros Hsh. assert (Hsh' : shut d s = true) by (by destruct d). by destruct Hne; apply Hdr.
    + intros Hdone Hwn _. destruct (Hd' Hdone) as [Hold|He]; [by destruct Hne; apply Hen|].
      unfold at_end. rewrite Hos. eexists. split; [apply lookup_insert_eq|].
      cbn [wrapper]. unfold FileDescriptor.after_read. fold (at_eof limit data). by rewrite He.
Qed.

(** Ending a direction: the socket is shut down for writing, the output is closed. *)
Lemma finish_run d w x n : heap w !! place (Writer d) = Some (mkCell x n) ->
  FDWrapper._fd x = fd_of (Writer d) -> k_ok E (kernel w) ->
  exists x' k, finish d (place (Writer d)) w =
      Ok (tt, mkWorld k (<[place (Writer d) := mkCell x' n]> (heap w)) (next w)) /\
    FDWrapper._fd x' = FDWrapper._fd x /\
    (d = Outbound -> FDWrapper._closed x' = FDWrapper._closed x /\ FDWrapper._eof x' = FDWrapper._eof x) /\
    (FDWrapper._write_count x' = FDWrapper._write_count x \/
     FDWrapper._write_count x' = u32 (FDWrapper._write_count x + 1)) /\
    calm (fun fd => d = Outbound \/ fd <> fd_of (Writer d)) (fun fd => fd <> fd_of (Writer d)) (kernel w) k.
Proof.
  intros Hx Hfd Hok. destruct d; cbn [finish].
  - destruct (k_shutdown (FDWrapper._fd x) SHUT_WR (kernel w)) as [a k] eqn:Hk.
    destruct (law_shutdown HL _ _ _ _ Hok Hk) as (Hr & [Hok' Hg Hs Hrd Hwr]). rewrite Hfd in Hwr.
    exists (Socket.after_shutdown SHUT_WR x), k. split; [by apply (Socket.shutdown_run _ _ _ _ _ a); auto|].
    split_and!; try done; [by right|]. split; try done. intros fd _. by apply Hrd.
  - destruct (k_close (FDWrapper._fd x) (kernel w)) as [a k] eqn:Hk.
    destruct (law_close HL _ _ _ _ Hok Hk) as (Hr & [Hok' Hg Hs Hrd Hwr]). rewrite Hfd in Hrd, Hwr.
    exists (FDWrapper.set_closed x), k.
    split; [exact (FileDescriptor.close_run _ w (mkCell x n) a k Hx Hk Hr)|].
    split_and!; try done; [by left|]. split; try done. intros fd [[=]|Hne]. by apply Hrd.
Qed.

(** The steps of [push]: [m] bytes were written, [st] is what is left. *)
Lemma push_steps d s data m w st :
  ByteStream.peek_output (Z.min max_copy_length (ByteStream.cur_size (stream d s))) (stream d s) = Ok data ->
  FileDescriptor.write_string data false (handle s (Writer d)) (os s) = Ok (m, w) ->
  ByteStream.pop_output m (stream d s) = Ok st ->
  forall w', (if ByteStream.eof st then finish d (handle s (Writer d)) w = Ok (tt, w') else w' = w) ->
  push d s = Ok (tt, let s' := set_stream d st (set_os w' s) in if ByteStream.eof st then set_shut d s' else s').
Proof.
  intros Hpeek Hwrite Hpop w' Hw'. unfold push. rewrite (io_bind_run _ _ _ s s) by done.
  unfold ByteStream.buffer_size. rewrite (io_bind_run _ _ _ s data) by (unfold of_res; by rewrite Hpeek).
  rewrite (io_bind_run _ _ _ _ _ (copy_on_fd_run (fun s => handle s (Writer d)) _ s _ _ Hwrite)).
  set (s1 := set_os w s). rewrite (io_bind_run _ _ _ s1 s1) by done.
  assert (Hst : stream d s1 = stream d s) by (by destruct d). rewrite Hst.
  rewrite (io_bind_run _ _ _ s1 st) by (unfold of_res; by rewrite Hpop).
  rewrite (io_bind_run _ _ _ (set_stream d st s1) tt) by done.
  destruct (ByteStream.eof st); [|by subst w'].
  assert (Hfin : finish d (handle (set_stream d st s1) (Writer d)) (os (set_stream d st s1)) = Ok (tt, w'))
    by (rewrite os_set, <- Hw'; by destruct d).
  rewrite (io_bind_run _ _ _ _ _ (copy_on_fd_run (fun s => handle s (Writer d)) _ _ _ _ Hfin)).
  unfold modify. do 2 f_equal. by destruct d.
Qed.


(** What the two system calls of [push] leave behind. *)
Record wrote (d : side) (m : Z) (data : bytes) (x : FDWrapper.t) (n : Z) (w w' : world K) : Prop := {
  wr_cell : exists x', heap w' = <[place (Writer d) := mkCell x' n]> (heap w) /\ FDWrapper._fd x' = FDWrapper._fd x /\
    (d = Outbound -> FDWrapper._closed x' = FDWrapper._closed x /\ FDWrapper._eof x' = FDWrapper._eof x) /\
    FDWrapper._write_count x <> FDWrapper._write_count x';
  wr_ok : k_ok E (kernel w');
  wr_sent : sent E (kernel w') (fd_of (Writer d)) = sent E (kernel w) (fd_of (Writer d)) ++ take (Z.to_nat m) data;
  wr_others : forall fd, fd <> fd_of (Writer d) -> sent E (kernel w') fd = sent E (kernel w) fd /\
    (writable E (kernel w) fd -> writable E (kernel w') fd);
  wr_readers : forall d', got E (kernel w') (fd_of (Reader d')) = got E (kernel w) (fd_of (Reader d')) /\
    (readable E (kernel w) (fd_of (Reader d')) -> readable E (kernel w') (fd_of (Reader d')))
}.

Lemma write_fd_run d data w x n : heap w !! place (Writer d) = Some (mkCell x n) ->
  FDWrapper._fd x = fd_of (Writer d) -> k_ok E (kernel w) -> writable E (kernel w) (fd_of (Writer d)) ->
  zlen data <= max_copy_length ->
  exists m w', FileDescriptor.write_string data false (place (Writer d)) w = Ok (m, w') /\
    0 <= m <= zlen data /\ wrote d m data x n w w' /\
    exists w'', finish d (place (Writer d)) w' = Ok (tt, w'') /\ wrote d m data x n w w''.
Proof.
  intros Hx Hfd Hok Hwr Hlen. unfold max_copy_length in Hlen.
  destruct (k_writev (FDWrapper._fd x) (BufferViewList.as_iovecs (BufferViewList.of_string data)) (kernel w))
    as [a k] eqn:Hk.
  assert (Hcat : concat (fst <$> BufferViewList.as_iovecs (BufferViewList.of_string data)) = data)
    by (rewrite BufferViewList.iovecs_bytes; apply app_nil_r).
  pose proof Hk as Hk'. rewrite Hfd in Hk'.
  destruct (law_writev HL _ _ _ _ _ Hok Hwr Hk') as (Hr & H0 & Hok' & Hs & Hso & Hg). rewrite Hcat in *.
  pose proof (FileDescriptor.write_once_run data _ _ (mkCell x n) a k Hx Hk) as Erun.
  rewrite Erun by (lia || done). clear Erun. set (w1 := set_cell _ _ _). cbn [wrapper use_count] in w1.
  destruct (u32_advance (FDWrapper._write_count x)) as [Hadv1 Hadv2].
  exists (ret a), w1. split; [done|]. split; [done|]. split.
  { split; try done. by exists (FDWrapper.register_write x). }
  destruct (finish_run d w1 (FDWrapper.register_write x) n) as (x' & k' & E' & Hfd' & Hfl & Hct & Hcalm);
    [apply lookup_insert_eq|done|done|].
  destruct Hcalm as [Hok2 Hg2 Hs2 Hr2 Hw2]. cbn [w1 kernel set_cell set_kernel] in Hg2, Hs2, Hr2, Hw2.
  eexists. split; [done|]. split; cbn [heap kernel].
  - exists x'. cbn [w1 heap set_cell set_kernel]. split; [by rewrite insert_insert_eq|]. split; [done|]. split; [done|].
    destruct Hct as [-> | ->]; done.
  - done.
  - by rewrite Hs2, Hs.
  - intros fd Hne. destruct (Hso fd Hne). rewrite Hs2. auto.
  - intros d'. destruct (Hg (fd_of (Reader d'))) as [Hg1 Hr1]. rewrite Hg2. split; [done|].
    intros Hrd. apply Hr2, Hr1, Hrd. destruct HF. destruct d; [by left|right]. by destruct d'.
Qed.

(** The state after [push]. *)
Definition pushed (d : side) (st : ByteStream.t) (w : world K) (s : t) : t :=
  let s' := set_stream d st (set_os w s) in if ByteStream.eof st then set_shut d s' else s'.

Lemma pushed_parts d st w s : os (pushed d st w s) = w /\ stream d (pushed d st w s) = st /\
  shut d (pushed d st w s) = ByteStream.eof st || shut d s.
Proof. unfold pushed. by destruct (ByteStream.eof st), d. Qed.

Lemma pushed_acts d m data x n st w s : heap (os s) !! place (Writer d) = Some (mkCell x n) ->
  wrote d m data x n (os s) w -> acts (Writer d) s (pushed d st w s).
Proof.
  intros Hx [(x' & Hheap & Hfd & Hflags & Hcount) Hok Hsent Hso Hrd].
  destruct (pushed_parts d st w s) as (Hos & _ & _). split; rewrite ?Hos.
  - exists x, x', n. split_and!; try done.
    + intros Hne. destruct d; [by apply Hflags|done].
    + intros [= ->]. by apply Hflags.
  - unfold pushed. by destruct (ByteStream.eof st), d.
  - done.
  - intros d' Hd'. unfold pushed. by destruct (ByteStream.eof st), d, d'.
  - intros d' _. apply Hrd.
  - intros d' Hd'. apply Hso. destruct HF. destruct d, d'; cbn; congruence.
Qed.

Lemma pushed_flow names d m data x n st w s : flow names d (g0 d) (s0 d) s -> Writer d ∈ names ->
  wrote d m data x n (os s) w -> ByteStream.wf st -> ByteStream.max_capacity st = ByteStream.max_capacity (stream d s) ->
  ByteStream.done_writing st = ByteStream.done_writing (stream d s) ->
  take (Z.to_nat m) data ++ ByteStream.contents st = ByteStream.contents (stream d s) ->
  flow names d (g0 d) (s0 d) (pushed d st w s).
Proof.
  intros [Hw Hcap (cp & Hg & Hs) Hdr Hen] Hin [(x' & Hheap & _) _ Hsent _ Hrd] Hwst Hmst Hdst Hsplit.
  destruct (pushed_parts d st w s) as (Hos & Hst & Hsh).
  assert (Hend : at_end (Reader d) s -> at_end (Reader d) (pushed d st w s)).
  { intros (c & Hc & He). exists c. rewrite Hos, Hheap. split; [|done]. rewrite lookup_insert_ne; [done|].
    destruct Hhandles as (? & ? & ?). destruct d; cbn; congruence. }
  split; rewrite ?Hst, ?Hos, ?Hsh.
  - done.
  - by rewrite Hmst.
  - exists (cp ++ take (Z.to_nat m) data). rewrite (proj1 (Hrd d)), Hg, Hsent, Hs.
    split; [|by rewrite <- app_assoc]. by rewrite <- Hsplit, <- !app_assoc.
  - destruct (ByteStream.eof st) eqn:Eeof; cbn [orb]; intros Hshut.
    + unfold ByteStream.eof, ByteStream.input_ended, ByteStream.buffer_empty in Eeof. zb. split.
      * apply length_zero_iff_nil. pose proof (ByteStream.zlen_contents _ Hwst). lia.
      * intros Hr. apply Hend, Hen; try done. congruence.
    + destruct (Hdr Hshut) as [Hnil Hre]. split; [|by auto]. rewrite Hnil in Hsplit. by apply app_eq_nil in Hsplit as [_ ?].
  - intros Hdone. rewrite Hdst in Hdone. auto.
Qed.

(** Writing to the sink of a direction. *)
Lemma push_run names d s : body names s -> Writer d ∈ names -> writable E (kernel (os s)) (fd_of (Writer d)) ->
  exists s', push d s = Ok (tt, s') /\ acts (Writer d) s s' /\ flow names d (g0 d) (s0 d) s'.
Proof.
  intros Hb Hin Hwr. pose proof (handle_place _ _ (Writer d) Hb) as Hh.
  destruct (bd_cells _ _ Hb (Writer d)) as (x & n & Hx & Hfd & _).
  destruct (bd_flow _ _ Hb d) as [Hw Hcap _ _ _].
  pose proof (ByteStream.wf_size _ Hw) as Hsz. pose proof (ByteStream.zlen_contents _ Hw) as Hzl.
  set (len := Z.min max_copy_length (ByteStream.cur_size (stream d s))).
  assert (Hlen : 0 <= len /\ len <= max_copy_length /\ len <= ByteStream.cur_size (stream d s))
    by (unfold len, max_copy_length; lia).
  pose proof (ByteStream.peek_output_spec len _ Hw (proj1 Hlen)) as Epeek.
  set (data := take (Z.to_nat len) _) in Epeek.
  assert (Hdata : zlen data = len) by (unfold data; rewrite length_take; lia).
  destruct (write_fd_run d data (os s) x n Hx Hfd (bd_kernel _ _ Hb) Hwr) as
    (m & w1 & Ewrite & Hm & Hw1 & w2 & Efin & Hw2); [lia|].
  destruct (ByteStream.pop_output_spec m (stream d s)) as (st & Epop & Hwst & Hcst & Hzst & _ & _ & Hmst & Hdst & _);
    [done|rewrite Hcap; unfold buffer_size; lia|lia|].
  set (w' := if ByteStream.eof st then w2 else w1).
  assert (Hwrote : wrote d m data x n (os s) w') by (unfold w'; by destruct (ByteStream.eof st)).
  exists (pushed d st w' s). split; [|split].
  - apply (push_steps d s data m w1 st); rewrite ?Hh; [exact Epeek|exact Ewrite|exact Epop|].
    unfold w'. by destruct (ByteStream.eof st).
  - by eapply pushed_acts.
  - eapply pushed_flow; try done; [apply (bd_flow _ _ Hb)|].
    rewrite Hcst. unfold data. rewrite take_take, Nat.min_l by lia. apply take_drop.
Qed.

(** ** The rules are sound *)

(** The state after a rule was cancelled and its handle destroyed. *)
Definition retired (m : name) (x : FDWrapper.t) (n : Z) (s : t) : t :=
  let d := side_of m in
  set_os (set_cell (place m) (mkCell x (n - 1)) (os s)) (set_stream d (ByteStream.end_input (stream d s)) s).

Lemma retired_stream m x n s d :
  stream d (retired m x n s) = (if decide (d = side_of m) then ByteStream.end_input (stream d s) else stream d s) /\
  shut d (retired m x n s) = shut d s.
Proof. by destruct m as [[]|[]], d. Qed.

Lemma retire_run m s x n : heap (os s) !! place m = Some (mkCell x n) -> 1 < n ->
  EventLoop.retire (rule m) s = Ok (tt, retired m x n s).
Proof.
  intros Hx Hn. unfold EventLoop.retire. set (d := side_of m).
  set (s1 := set_stream d (ByteStream.end_input (stream d s)) s).
  rewrite (io_bind_run _ _ _ s1 tt) by (by destruct m as [[]|[]]). rewrite fd_place.
  unfold lift. cbn [view update copy_os]. replace (os s1) with (os s) by (by destruct m as [[]|[]]).
  by rewrite (FileDescriptor.destroy_run _ _ x n Hx Hn).
Qed.

(** The flags of the wrappers are not touched. *)
Lemma retired_cell m x n s m' y p : heap (os s) !! place m = Some (mkCell x n) ->
  heap (os s) !! place m' = Some (mkCell y p) ->
  exists q, heap (os (retired m x n s)) !! place m' = Some (mkCell y q) /\
    q = if decide (place m' = place m) then p - 1 else p.
Proof.
  intros Hx Hy. unfold retired. cbn [os set_os heap set_cell]. destruct (decide (place m' = place m)) as [Heq|Hne].
  - rewrite <- Heq, lookup_insert_eq. rewrite <- Heq, Hy in Hx. injection Hx as -> ->. by eexists.
  - rewrite lookup_insert_ne by done. by eexists.
Qed.

Lemma retired_keeps m x n s m' : (exists y p, heap (os s) !! place m' = Some (mkCell y p)) ->
  heap (os s) !! place m = Some (mkCell x n) -> EventLoop.keeps token s (retired m x n s) (rule m').
Proof.
  intros (y & p & Hy) Hx. destruct (retired_cell m x n s m' y p Hx Hy) as (q & Hy' & _). split.
  - by rewrite (live_cell _ _ _ _ Hy), (live_cell _ _ _ _ Hy').
  - unfold token. rewrite (number_cell _ _ _ _ Hy), (number_cell _ _ _ _ Hy'). by destruct m as [[]|[]].
  - by rewrite (number_cell _ _ _ _ Hy), (number_cell _ _ _ _ Hy').
Qed.

Lemma retired_body n1 m n2 s x n : body (n1 ++ m :: n2) s -> heap (os s) !! place m = Some (mkCell x n) ->
  body (n1 ++ n2) (retired m x n s).
Proof.
  intros [Hnd Hcells Hflow Hh Hk] Hx.
  assert (Hsub : forall m', m' ∈ n1 ++ n2 -> m' ∈ n1 ++ m :: n2) by (intros m'; rewrite !elem_of_app, elem_of_cons; tauto).
  assert (Hm : m ∉ n1 ++ n2).
  { apply NoDup_app in Hnd as (_ & H2 & H3). apply NoDup_cons in H3 as [H3 _].
    intros [Hin|Hin]%elem_of_app; [|done]. apply (H2 m Hin). by left. }
  split.
  - apply (sublist_NoDup _ (n1 ++ m :: n2)); [done|]. apply sublist_app; [done|]. by apply sublist_cons.
  - intros m'. destruct (Hcells m') as (y & p & Hy & Hfd & Hp).
    destruct (retired_cell m x n s m' y p Hx Hy) as (q & Hy' & ->). exists y. eexists. split; [done|]. split; [done|].
    rewrite !filter_app, filter_cons, !length_app in *. destruct (decide (place m' = place m)) as [Heq|Hne].
    + rewrite decide_True in Hp by done. cbn [length] in Hp. lia.
    + rewrite decide_False in Hp by congruence. lia.
  - intros d. destruct (Hflow d) as [Hw Hc Hcp Hdr Hen]. destruct (retired_stream m x n s d) as [Est Esh].
    assert (Hsame : ByteStream.contents (stream d (retired m x n s)) = ByteStream.contents (stream d s))
      by (rewrite Est; by destruct (decide _)).
    assert (Hend : at_end (Reader d) s -> at_end (Reader d) (retired m x n s)).
    { intros ([y p] & Hy & He). destruct (retired_cell m x n s (Reader d) y p Hx Hy) as (q & Hy' & _). by eexists. }
    assert (Hkk : kernel (os (retired m x n s)) = kernel (os s)) by done.
    split; rewrite ?Hsame, ?Hkk.
    + rewrite Est. destruct (decide _); [by apply ByteStream.stream_end_input_wf|done].
    + rewrite Est. by destruct (decide _).
    + done.
    + rewrite Esh. intros Hsh. destruct (Hdr Hsh) as [H1 H2]. split; [done|]. intros Hin. by apply Hend, H2, Hsub.
    + intros Hdone Hwn Hrn. apply Hend, Hen; [|by apply Hsub..]. rewrite Est in Hdone.
      destruct (decide (d = side_of m)) as [->|]; [|done]. exfalso. apply Hm. by destruct m.
  - by destruct m as [[]|[]].
  - done.
Qed.

(** The kernel's state changes without a byte moving. *)
Lemma calm_body names s k : body names s -> calm anywhere anywhere (kernel (os s)) k ->
  body names (set_os (set_kernel k (os s)) s) /\
  forall m, EventLoop.keeps token s (set_os (set_kernel k (os s)) s) (rule m).
Proof.
  intros [Hnd Hcells Hflow Hh Hk] [Hok Hg Hs Hrd Hwr]. split.
  - split; try done. intros d. destruct (Hflow d) as [Hw Hc (cp & Hcp & Hcs) Hdr Hen].
    split; try by destruct d. exists cp. cbn [os set_os kernel set_kernel]. rewrite Hg, Hs. by destruct d.
  - intros m. destruct (Hcells m) as (y & p & Hy & _). split; [done| |done].
    unfold token. change (EventLoop.number (set_os (set_kernel k (os s)) s) (rule m)) with (EventLoop.number s (rule m)).
    destruct (EventLoop.direction (rule m)); [by apply Hrd|by apply Hwr].
Qed.

Lemma inv_split l1 r l2 s : inv (l1 ++ r :: l2) s ->
  exists n1 m n2, l1 = rule <$> n1 /\ r = rule m /\ l2 = rule <$> n2 /\ body (n1 ++ m :: n2) s.
Proof.
  intros (names & Heq & Hb). symmetry in Heq. apply fmap_app_inv in Heq as (n1 & n' & -> & Heq & ->).
  symmetry in Heq. apply fmap_cons_inv in Heq as (m & n2 & -> & -> & ->). by exists n1, m, n2.
Qed.


Lemma rule_in (names : list name) r : r ∈ rule <$> names -> exists m, m ∈ names /\ r = rule m.
Proof. intros (m & -> & Hm)%list_elem_of_fmap. by exists m. Qed.

(** A report of [poll] on a descriptor is a token for the rule. *)
#[local] Abbreviation asks := (EventLoop.asks (fun _ _ => True)).
Lemma reported_token s s' m p z : asks s (rule m) p -> EventLoop.number s' (rule m) = EventLoop.number s (rule m) ->
  reported (kernel (os s')) (mkPollfd (poll_fd p) (events p) z) ->
  EventLoop.poll_error (mkPollfd (poll_fd p) (events p) z) = false /\
  (EventLoop.poll_ready (mkPollfd (poll_fd p) (events p) z) = true -> token s' (rule m)).
Proof.
  intros Hp Hn [Herr Hin Hout]. split; [done|]. intros Hr.
  destruct (EventLoop.asked_ready _ _ _ _ _ Hp Hr) as [Hev _]. destruct Hp as [Hp _].
  unfold token. rewrite Hn, <- Hp. cbn [poll_fd events] in *.
  destruct (EventLoop.direction (rule m)); [by apply Hin|by apply Hout].
Qed.

Lemma callback_run n1 m n2 s : body (n1 ++ m :: n2) s -> EventLoop.live s (rule m) -> token s (rule m) ->
  exists s', EventLoop.callback (rule m) s = Ok (tt, s') /\ acts m s s' /\ body (n1 ++ m :: n2) s'.
Proof.
  intros Hb Hl Ht. destruct (bd_cells _ _ Hb m) as (x & n & Hx & Hfd & _).
  unfold token in Ht. rewrite (number_cell _ _ _ _ Hx), Hfd in Ht. destruct (proj1 (live_cell _ _ _ _ Hx) Hl) as [_ He].
  assert (Hin : m ∈ n1 ++ m :: n2) by (apply elem_of_app; right; by left).
  assert (H' : exists s', EventLoop.callback (rule m) s = Ok (tt, s') /\ acts m s s' /\
    flow (n1 ++ m :: n2) (side_of m) (g0 (side_of m)) (s0 (side_of m)) s').
  { destruct m as [d|d].
    - replace (EventLoop.callback (rule (Reader d))) with (pull d) by (by destruct d).
      apply (pull_run _ d s Hb Hin); [|by destruct d]. intros (c & Hc & Hce).
      assert (c = mkCell x n) as -> by congruence. cbn in Hce. congruence.
    - replace (EventLoop.callback (rule (Writer d))) with (push d) by (by destruct d).
      apply (push_run _ d s Hb Hin). by destruct d. }
  destruct H' as (s' & Ecb & Ha & Hf). exists s'. split; [done|]. split; [done|]. by eapply acts_body.
Qed.

Lemma NoDup_other (n1 n2 : list name) m m' : NoDup (n1 ++ m :: n2) -> m' ∈ n2 -> m' <> m.
Proof. intros (_ & _ & Hc)%NoDup_app Hin ->. by apply NoDup_cons in Hc as [? _]. Qed.

Lemma copy_sound : EventLoop.sound inv token quiet (fun _ _ => True).
Proof.
  split.
  - intros rs s r (names & -> & Hb) (m & Hm & ->)%rule_in. cbn [view copy_os]. rewrite fd_place.
    destruct (bd_cells _ _ Hb m) as (x & n & Hx & _). by eexists.
  - intros rs s r (names & -> & Hb) (m & Hm & ->)%rule_in. destruct m as [[]|[]]; by eexists.
  - intros rs s r (names & -> & Hb) (m & Hm & ->)%rule_in Hint d Hd. rewrite Hd in Hint. clear Hm Hd.
    assert (Hz : ByteStream.cur_size (stream d s) = 0).
    { destruct d; injection Hint as Hint; zb; unfold ByteStream.buffer_empty in *; zb; done. }
    unfold ByteStream.contents. by rewrite Hz.
  - done.
  - intros l1 r l2 s (n1 & m & n2 & -> & -> & -> & Hb)%inv_split.
    destruct (bd_cells _ _ Hb m) as (x & n & Hx & _ & Hn).
    exists (retired m x n s). split.
    { apply retire_run; [done|]. rewrite filter_app, filter_cons, decide_True, length_app in Hn by done. cbn in Hn. lia. }
    rewrite <- fmap_app. split; [exists (n1 ++ n2); split; [done|by apply retired_body]|].
    intros r' (m' & Hm' & ->)%rule_in. split.
    + apply retired_keeps; [|done]. destruct (bd_cells _ _ Hb m') as (y & p & Hy & _). by eexists _, _.
    + split; [|done].
      intros Hq d Hd. destruct (retired_stream m x n s d) as [-> _]. specialize (Hq d Hd). by destruct (decide _).
  - intros rs s fds timeout a revs k (names & -> & Hb) Ha Hk s'.
    destruct (law_poll HL _ _ _ _ _ _ (bd_kernel _ _ Hb) Hk) as (Hr & Hc & Hrep).
    destruct (calm_body _ _ _ Hb Hc) as [Hb' Hkp]. split; [done|]. split; [by exists names|]. split.
    + intros r (m & _ & ->)%rule_in. apply Hkp.
    + apply (EventLoop.answers_rules _ _ _ _ _ _ _ Ha Hrep). intros r p z (m & _ & ->)%rule_in Hp Hz.
      apply (reported_token s); [done| |done]. apply (EventLoop.kp_number _ _ _ _ (Hkp m)).
  - intros l1 r l2 s (n1 & m & n2 & -> & -> & -> & Hb)%inv_split Hl Ht.
    destruct (callback_run n1 m n2 s Hb Hl Ht) as (s' & Ecb & Ha & Hb').
    destruct (acts_counts m s s' Ha) as (c1 & c2 & Hc1 & Hc2 & Hne). exists s', c1, c2. split; [done|]. split.
    { exists (n1 ++ m :: n2). by rewrite fmap_app. }
    split_and!; try done. intros r' (m' & Hm' & ->)%rule_in.
    apply (acts_keeps (n1 ++ m :: n2) m m'); [done|done|]. eapply NoDup_other; [apply Hb|done].
Qed.


(** ** The loop, and what surrounds it *)

Lemma copy_loop_run fuel : forall rs s, inv rs s ->
  exists ended rs' s', copy_loop fuel rs s = Ok ((ended, rs'), s') /\ inv rs' s' /\
    (ended = true -> Forall (quiet s') rs').
Proof.
  induction fuel as [|fuel IH]; intros rs s Hi; cbn [copy_loop]; [by exists false, rs, s|].
  destruct (EventLoop.wait_sound inv token quiet _ copy_sound (-1) rs s Hi) as (r & rs1 & s1 & Ew & Hi1 & Hq).
  rewrite (io_bind_run _ _ _ _ _ Ew). destruct r; [by apply IH..|]. exists true, rs1, s1. auto.
Qed.

Lemma set_blocking_body names s (fd : t -> FileDescriptor.t) m : body names s -> fd s = place m ->
  exists k, on_fd fd (FileDescriptor.set_blocking false) s = Ok (tt, set_os (set_kernel k (os s)) s) /\
    body names (set_os (set_kernel k (os s)) s).
Proof.
  intros Hb Hm. destruct (bd_cells _ _ Hb m) as (x & n & Hx & _ & _).
  destruct (k_getfl (FDWrapper._fd x) (kernel (os s))) as [a k] eqn:Hk.
  destruct (law_getfl HL _ _ _ _ (bd_kernel _ _ Hb) Hk) as [Hr Hc].
  destruct (k_setfl (FDWrapper._fd x) (FileDescriptor.new_flags false (ret a)) k) as [a' k'] eqn:Hk'.
  destruct (law_setfl HL _ _ _ _ _ (cm_ok _ _ _ _ Hc) Hk') as [Hr' Hc'].
  exists k'. split.
  - apply copy_on_fd_run. rewrite Hm. by apply (FileDescriptor.set_blocking_run _ _ _ (mkCell x n) a k a').
  - apply (calm_body _ (set_os (set_kernel k (os s)) s)); [|done]. by apply calm_body.
Qed.

(** Before anything was copied a rule may be added. *)
Definition untouched (s : t) : Prop := forall d, shut d s = false /\ ByteStream.done_writing (stream d s) = false.

Lemma add_rule_body names s m cb i cn rs : body names s -> untouched s -> m ∉ names ->
  EventLoop.mkRule (place m) (EventLoop.direction (rule m)) cb i cn = rule m ->
  exists s', EventLoop.add_rule (place m) (EventLoop.direction (rule m)) cb i cn rs s = Ok (rs ++ [rule m], s') /\
    body (names ++ [m]) s' /\ untouched s' /\
    socket s' = socket s /\ _input s' = _input s /\ _output s' = _output s.
Proof.
  intros Hb Hu Hm Hr. destruct (bd_cells _ _ Hb m) as (x & n & Hx & _ & _).
  pose proof (EventLoop.add_rule_run (place m) (EventLoop.direction (rule m)) cb i cn rs s x n) as Hadd.
  cbn [view update copy_os] in Hadd. rewrite (Hadd Hx), Hr. eexists. split; [done|].
  assert (Hu' : untouched (set_os (set_cell (place m) (mkCell x (n + 1)) (os s)) s))
    by (intros d; specialize (Hu d); by destruct d).
  split; [|done]. destruct Hb as [Hnd Hcells Hflow Hh Hk]. split; try done.
  - apply NoDup_app. split; [done|]. split; [|by apply NoDup_singleton].
    intros m' Hm' ->%list_elem_of_singleton. done.
  - intros m'. destruct (Hcells m') as (y & p & Hy & Hfd & Hp). cbn [os set_os heap set_cell].
    rewrite filter_app, filter_cons, filter_nil, length_app. destruct (decide (place m = place m')) as [Heq|Hne].
    + rewrite Heq, lookup_insert_eq. rewrite Heq, Hy in Hx. injection Hx as -> ->.
      exists x, (n + 1). split; [done|]. split; [done|]. cbn [length]. lia.
    + rewrite lookup_insert_ne by done. exists y, p. split; [done|]. split; [done|]. cbn [length]. lia.
  - intros d. destruct (Hflow d) as [Hw Hc Hcp _ _]. destruct (Hu' d) as [Hsh Hdone].
    split; rewrite ?Hsh, ?Hdone; try done; by destruct d.
Qed.

Definition all_names : list name := [Reader Outbound; Writer Outbound; Reader Inbound; Writer Inbound].

(** A name that is not in an explicit list. *)
Ltac not_in := cbn; repeat (apply not_elem_of_cons; split; [done|]); apply not_elem_of_nil.

Lemma install_run s : body [] s -> untouched s ->
  exists s', install s = Ok (rule <$> all_names, s') /\ body all_names s'.
Proof.
  intros Hb Hu. unfold install.
  destruct (set_blocking_body [] s socket (Writer Outbound) Hb) as (k1 & E1 & Hb1); [apply Hb|].
  rewrite (io_bind_run _ _ _ _ _ E1). set (s1 := set_os _ s) in *.
  destruct (set_blocking_body [] s1 _input (Reader Outbound) Hb1) as (k2 & E2 & Hb2); [apply Hb1|].
  rewrite (io_bind_run _ _ _ _ _ E2). set (s2 := set_os _ s1) in *.
  destruct (set_blocking_body [] s2 _output (Writer Inbound) Hb2) as (k3 & E3 & Hb3); [apply Hb2|].
  rewrite (io_bind_run _ _ _ _ _ E3). set (s3 := set_os _ s2) in *. rewrite (io_bind_run _ _ _ s3 s3) by done.
  assert (Hu3 : untouched s3) by (intros d; specialize (Hu d); by destruct d).
  destruct (bd_handles _ _ Hb3) as (Hs & Hi & Ho). rewrite Hs, Hi, Ho.
  destruct (add_rule_body [] s3 (Reader Outbound) callback1 interest1 end_outbound [] Hb3 Hu3)
    as (s4 & E4 & Hb4 & Hu4 & _); [not_in|done|].
  rewrite (io_bind_run _ _ _ _ _ E4).
  destruct (add_rule_body _ s4 (Writer Outbound) callback2 interest2 end_outbound [rule (Reader Outbound)] Hb4 Hu4)
    as (s5 & E5 & Hb5 & Hu5 & _); [not_in|done|].
  rewrite (io_bind_run _ _ _ _ _ E5).
  destruct (add_rule_body _ s5 (Reader Inbound) callback3 interest3 end_inbound
    (rule <$> [Reader Outbound; Writer Outbound]) Hb5 Hu5) as (s6 & E6 & Hb6 & Hu6 & _); [not_in|done|].
  rewrite (io_bind_run _ _ _ _ _ E6).
  destruct (add_rule_body _ s6 (Writer Inbound) callback4 interest4 end_inbound
    (rule <$> [Reader Outbound; Writer Outbound; Reader Inbound]) Hb6 Hu6) as (s7 & E7 & Hb7 & _); [not_in|done|].
  exists s7. split; [exact E7|exact Hb7].
Qed.


(** Every handle that is still to be destroyed is counted. *)
Definition held (handles : list FileDescriptor.t) (s : t) : Prop := forall h, h ∈ handles ->
  exists x n, heap (os s) !! h = Some (mkCell x n) /\ zlen (filter (fun h' => h' = h) handles) <= n.

Definition same_logs (k k' : K) : Prop := forall fd, got E k' fd = got E k fd /\ sent E k' fd = sent E k fd.

Lemma destroy_step h rest s : held (h :: rest) s -> k_ok E (kernel (os s)) ->
  exists w, lift (FileDescriptor.destroy h) s = Ok (tt, set_os w s) /\ held rest (set_os w s) /\
    k_ok E (kernel w) /\ same_logs (kernel (os s)) (kernel w).
Proof.
  intros Hh Hk. destruct (Hh h) as (x & n & Hx & Hn); [by left|].
  rewrite filter_cons, decide_True in Hn by done. cbn [length] in Hn.
  assert (Hrest : forall w, (forall h', h' <> h -> heap w !! h' = heap (os s) !! h') ->
    (h ∈ rest -> exists n', heap w !! h = Some (mkCell x n') /\ n - 1 <= n') -> held rest (set_os w s)).
  { intros w Ho Hsame h' Hin. destruct (Hh h') as (y & p & Hy & Hp); [by right|].
    cbn [os set_os]. rewrite filter_cons in Hp. destruct (decide (h' = h)) as [->|Hne].
    - destruct (Hsame Hin) as (n' & Hn' & Hle). exists x, n'. split; [done|]. lia.
    - rewrite Ho by done. exists y, p. split; [done|]. rewrite decide_False in Hp by congruence. lia. }
  destruct (decide (n <= 1)) as [Hle|Hgt].
  - exists (mkWorld (kernel (FileDescriptor.destroy_wrapper x (os s))) (delete h (heap (os s))) (next (os s))). split.
    { unfold lift. cbn [view update copy_os]. unfold FileDescriptor.destroy. rewrite Hx. cbn [use_count wrapper].
      rewrite (proj2 (Z.leb_le _ _)) by lia. unfold FileDescriptor.destroy_wrapper. by destruct (FDWrapper._closed x). }
    split.
    { apply Hrest; cbn [heap].
      - intros h' Hne. by rewrite lookup_delete_ne by done.
      - intros Hin. exfalso. assert (h ∈ filter (fun h' => h' = h) rest) by (by apply list_elem_of_filter).
        destruct (filter _ rest); [by apply not_elem_of_nil in H0|cbn in Hn; lia]. }
    cbn [kernel]. unfold FileDescriptor.destroy_wrapper. destruct (FDWrapper._closed x); [done|].
    destruct (k_close (FDWrapper._fd x) (kernel (os s))) as [a k] eqn:Hc.
    destruct (law_close HL _ _ _ _ Hk Hc) as [_ [Hok Hg Hs _ _]]. split; [done|]. intros fd. by rewrite Hg, Hs.
  - exists (set_cell h (mkCell x (n - 1)) (os s)). split.
    { unfold lift. cbn [view update copy_os]. by rewrite (FileDescriptor.destroy_run _ _ x n Hx) by lia. }
    split; [|done]. apply Hrest; cbn [heap set_cell].
    + intros h' Hne. by rewrite lookup_insert_ne by done.
    + intros _. rewrite lookup_insert_eq. exists (n - 1). split; [done|lia].
Qed.

Lemma destroy_rules_run names : forall s, held (place <$> names) s -> k_ok E (kernel (os s)) ->
  exists w, destroy_rules (rule <$> names) s = Ok (tt, set_os w s) /\ same_logs (kernel (os s)) (kernel w).
Proof.
  induction names as [|m names IH]; intros s Hh Hk; cbn [fmap list_fmap destroy_rules] in *.
  { exists (os s). split; [by destruct s|done]. }
  rewrite fd_place. destruct (destroy_step _ _ s Hh Hk) as (w & Ed & Hh' & Hk' & Hl).
  rewrite (io_bind_run _ _ _ _ _ Ed). destruct (IH (set_os w s) Hh' Hk') as (w' & Er & Hl').
  rewrite Er. exists w'. split; [done|]. intros fd. destruct (Hl fd), (Hl' fd). cbn [os set_os] in *. split; congruence.
Qed.

Lemma leave_run names s : body names s ->
  exists w, leave (rule <$> names) s = Ok (tt, set_os w s) /\ same_logs (kernel (os s)) (kernel w).
Proof.
  intros Hb. destruct (bd_handles _ _ Hb) as (Hs & Hi & Ho). destruct Hhandles as (Hn1 & Hn2 & Hn3).
  assert (Hcount : forall h, length (filter (fun h' => h' = h) (place <$> names)) =
    length (filter (fun m' => place m' = h) names)).
  { intros h. clear Hb. induction names as [|m names IH]; [done|]. cbn [fmap list_fmap]. rewrite !filter_cons.
    destruct (decide (place m = h)); cbn [length]; congruence. }
  assert (Hheld : held (ho :: hi :: (place <$> names)) s).
  { intros h Hin. assert (exists m, h = place m) as (m & ->).
    { apply elem_of_cons in Hin as [->|Hin]; [by exists (Writer Inbound)|].
      apply elem_of_cons in Hin as [->|Hin]; [by exists (Reader Outbound)|].
      apply list_elem_of_fmap in Hin as (m & -> & _). by exists m. }
    destruct (bd_cells _ _ Hb m) as (x & n & Hx & _ & Hn). exists x, n. split; [done|].
    rewrite !filter_cons. destruct (decide (ho = place m)), (decide (hi = place m)); cbn [length]; rewrite ?Hcount;
      lia. }
  unfold leave. destruct (destroy_step _ _ s Hheld (bd_kernel _ _ Hb)) as (w1 & E1 & Hh1 & Hk1 & Hl1).
  rewrite (io_bind_run _ _ _ (set_os w1 s) tt) by (unfold on_fd; by rewrite Ho).
  destruct (destroy_step _ _ (set_os w1 s) Hh1 Hk1) as (w2 & E2 & Hh2 & Hk2 & Hl2).
  rewrite (io_bind_run _ _ _ (set_os w2 (set_os w1 s)) tt)
    by (unfold on_fd; change (_input (set_os w1 s)) with (_input s); by rewrite Hi).
  destruct (destroy_rules_run names _ Hh2 Hk2) as (w3 & E3 & Hl3). rewrite E3. exists w3. split; [done|].
  intros fd. destruct (Hl1 fd), (Hl2 fd), (Hl3 fd). cbn [os set_os] in *. split; congruence.
Qed.


(** The local variables at the start. *)
Definition started (w : world K) : t :=
  mk (mkWorld (kernel w)
        (<[ho := mkCell (FDWrapper.mk STDOUT_FILENO false false 0 0) 1]>
           (<[hi := mkCell (FDWrapper.mk STDIN_FILENO false false 0 0) 1]> (heap w))) (S ho))
     hs hi ho (ByteStream.make buffer_size) (ByteStream.make buffer_size) false false.

Lemma started_body w x n : heap w !! hs = Some (mkCell x n) -> 1 <= n -> FDWrapper._fd x = F -> k_ok E (kernel w) ->
  (forall d, g0 d = got E (kernel w) (fd_of (Reader d)) /\ s0 d = sent E (kernel w) (fd_of (Writer d))) ->
  body [] (started w) /\ untouched (started w).
Proof.
  intros Hx Hn Hfd Hk Hlogs. destruct Hhandles as (Hne1 & Hne2 & Hne3). split; [|by intros []].
  assert (Hst : forall d, stream d (started w) = ByteStream.make buffer_size /\ shut d (started w) = false)
    by (by intros []).
  split; try done; [constructor|..].
  - assert (Hs : heap (os (started w)) !! hs = Some (mkCell x n)) by (cbn; by rewrite !lookup_insert_ne by done).
    assert (Hi : heap (os (started w)) !! hi = Some (mkCell (FDWrapper.mk STDIN_FILENO false false 0 0) 1))
      by (cbn; by rewrite lookup_insert_ne, lookup_insert_eq by done).
    assert (Ho : heap (os (started w)) !! ho = Some (mkCell (FDWrapper.mk STDOUT_FILENO false false 0 0) 1))
      by (cbn; apply lookup_insert_eq).
    intros m. destruct m as [[]|[]]; [eexists _, _; split; [exact Hi|]|exists x, n; split; [exact Hs|]|
      exists x, n; split; [exact Hs|]|eexists _, _; split; [exact Ho|]]; (split; [done|cbn; lia]).
  - intros d. destruct (Hst d) as [Est Esh], (Hlogs d) as [-> ->]. split; rewrite ?Est, ?Esh.
    + apply ByteStream.stream_make_wf. unfold buffer_size. lia.
    + reflexivity.
    + exists []. by rewrite ByteStream.contents_make, !app_nil_r.
    + discriminate.
    + discriminate.
Qed.

Lemma init_run w : hi = next w -> ho = S (next w) ->
  init hs w = Ok (started w, os (started w)).
Proof. intros Hi Ho. unfold started. by rewrite Ho, Hi. Qed.

(** What the function leaves: in each direction the copied bytes, and the bytes that
    were read and are still in the stream. *)
Lemma copy_run fuel w x n : hi = next w -> ho = S (next w) ->
  heap w !! hs = Some (mkCell x n) -> 1 <= n -> FDWrapper._fd x = F -> k_ok E (kernel w) ->
  (forall d, g0 d = got E (kernel w) (fd_of (Reader d)) /\ s0 d = sent E (kernel w) (fd_of (Writer d))) ->
  exists ended rs s w', bidirectional_stream_copy fuel hs w = Ok ((ended, rs, s), w') /\
    forall d, exists copied,
      got E (kernel w') (fd_of (Reader d)) = g0 d ++ copied ++ ByteStream.contents (stream d s) /\
      sent E (kernel w') (fd_of (Writer d)) = s0 d ++ copied /\
      (shut d s = true \/ (ended = true /\ rule (Writer d) ∈ rs) -> ByteStream.contents (stream d s) = []).
Proof.
  intros Hi Ho Hx Hn Hfd Hk Hlogs. unfold bidirectional_stream_copy. rewrite (init_run w Hi Ho). cbn [mbind res_bind].
  destruct (started_body w x n Hx Hn Hfd Hk Hlogs) as [Hb Hu].
  destruct (install_run _ Hb Hu) as (s1 & -> & Hb1). cbn [mbind res_bind].
  destruct (copy_loop_run fuel (rule <$> all_names) s1) as (ended & rs & s2 & -> & (names & -> & Hb2) & Hq);
    [by exists all_names|]. cbn [mbind res_bind].
  assert (Hend : exists w', (if ended then leave (rule <$> names) s2 else Ok (tt, s2)) = Ok (tt, set_os w' s2) /\
    same_logs (kernel (os s2)) (kernel w')).
  { destruct ended; [by apply leave_run|]. exists (os s2). split; [by destruct s2|done]. }
  destruct Hend as (w' & -> & Hl). cbn [mbind res_bind]. exists ended, (rule <$> names), s2, w'. split; [done|].
  intros d. destruct (bd_flow _ _ Hb2 d) as [_ _ (cp & Hg & Hs) Hdr _]. exists cp.
  rewrite (proj1 (Hl _)), (proj2 (Hl _)). split; [done|]. split; [done|].
  intros [Hsh|[He Hin]]; [by apply Hdr|]. specialize (Hq He). rewrite Forall_forall in Hq. by apply (Hq _ Hin).
Qed.

End StreamCopy.

(** C17: copying is faithful.  With a kernel whose calls do not fail, the function runs
    for any number of rounds without an exception.  In each direction the bytes read
    from the source are, in order, those written to the sink followed by those still
    in the stream, so none is lost, repeated or reordered.  When a direction has been
    shut down, or the loop has ended while the rule that writes was still installed,
    nothing is left in the stream: everything that was read has been written. *)
Theorem stream_copy_faithful {K : Type} `{Kernel K} (E : @environment K) (HL : lawful E)
  (fuel : nat) (h : FileDescriptor.t) (w : world K) (x : FDWrapper.t) (n : Z)
  (Hx : heap w !! h = Some (mkCell x n)) (Hn : 1 <= n)
  (HF : FDWrapper._fd x <> STDIN_FILENO /\ FDWrapper._fd x <> STDOUT_FILENO)
  (Hfresh : heap w !! next w = None /\ heap w !! S (next w) = None) (Hk : k_ok E (kernel w)) :
  exists ended rs s w', bidirectional_stream_copy fuel h w = Ok ((ended, rs, s), w') /\
    (exists copied,
      got E (kernel w') STDIN_FILENO = got E (kernel w) STDIN_FILENO ++ copied ++ ByteStream.contents (_outbound s) /\
      sent E (kernel w') (FDWrapper._fd x) = sent E (kernel w) (FDWrapper._fd x) ++ copied /\
      (_outbound_shutdown s = true \/ (ended = true /\ rule2 h ∈ rs) -> ByteStream.contents (_outbound s) = [])) /\
    (exists copied,
      got E (kernel w') (FDWrapper._fd x) = got E (kernel w) (FDWrapper._fd x) ++ copied ++ ByteStream.contents (_inbound s) /\
      sent E (kernel w') STDOUT_FILENO = sent E (kernel w) STDOUT_FILENO ++ copied /\
      (_inbound_shutdown s = true \/ (ended = true /\ rule4 (S (next w)) ∈ rs) -> ByteStream.contents (_inbound s) = [])).
Proof.
  assert (Hne : next w <> h /\ S (next w) <> h /\ next w <> S (next w)).
  { destruct Hfresh as [H1 H2]. split_and!; [intros <-; discriminate (eq_trans (eq_sym Hx) H1)|intros <-; discriminate (eq_trans (eq_sym Hx) H2)|lia]. }
  destruct (copy_run E h (next w) (S (next w)) (FDWrapper._fd x) Hne HF
    (fun d => got E (kernel w) (fd_of (FDWrapper._fd x) (Reader d)))
    (fun d => sent E (kernel w) (fd_of (FDWrapper._fd x) (Writer d))) HL fuel w x n)
    as (ended & rs & s & w' & Erun & Hd); try done.
  exists ended, rs, s, w'. split; [done|]. split; [exact (Hd Outbound)|exact (Hd Inbound)].
Qed.

(** A kernel with a socket 5: chunks wait on the standard input and on the socket, and
    three bytes are accepted at a time. *)
Module Demo.

Record t : Type := mk { waiting : Z -> list bytes; taken : Z -> bytes; given : Z -> bytes }.

Definition at_fd {A} (fd : Z) (x : A) (f : Z -> A) : Z -> A := fun i => if i =? fd then x else f i.

Definition do_read (fd size : Z) (k : t) : answer * bytes * t :=
  match waiting k fd with
  | [] => (Answer 0 0, [], mk (waiting k) (at_fd fd (taken k fd ++ []) (taken k)) (given k))
  | chunk :: rest =>
      let data := take (Z.to_nat size) chunk in
      (Answer (zlen data) 0, data,
       mk (at_fd fd (drop (Z.to_nat size) chunk :: rest) (waiting k)) (at_fd fd (taken k fd ++ data) (taken k)) (given k))
  end.
Definition do_writev (fd : Z) (iovecs : list (bytes * Z)) (k : t) : answer * t :=
  let data := take 3 (concat (fst <$> iovecs)) in
  (Answer (zlen data) 0, mk (waiting k) (taken k) (at_fd fd (given k fd ++ data) (given k))).

#[global] Instance demo_kernel : Kernel t := {|
  k_close := fun _ k => (Answer 0 0, k);
  k_read := do_read;
  k_writev := do_writev;
  k_getfl := fun _ k => (Answer 0 0, k);
  k_setfl := fun _ _ k => (Answer 0 0, k);
  k_poll := fun fds _ k => (Answer 1 0, (fun p => Z.land (events p) 5) <$> fds, k);
  k_clock := fun k => (0, k);
  k_socket := fun _ _ k => (Answer 5 0, k);
  k_socketpair := fun _ k => (Answer 0 0, (3, 4), k);
  k_getsockopt := fun _ _ _ k => (Answer 0 0, 1, 4, k);
  k_setsockopt := fun _ _ _ _ k => (Answer 0 0, k);
  k_getname := fun _ _ k => (Answer 0 0, Address.mk 0 0, k);
  k_bind := fun _ _ k => (Answer 0 0, k);
  k_connect := fun _ _ k => (Answer 0 0, k);
  k_shutdown := fun _ _ k => (Answer 0 0, k);
  k_recvfrom := fun _ _ k => (Answer (-1) 11, [], Address.mk 0 0, k);
  k_sendmsg := fun _ _ _ k => (Answer (-1) 11, k);
  k_listen := fun _ _ k => (Answer 0 0, k);
  k_accept := fun _ k => (Answer 6 0, k);
  k_open_tun := fun k => (Answer 7 0, k);
  k_tunsetiff := fun _ _ _ k => (Answer 0 0, k)
|}.

Definition E : @environment t := mkEnv (fun _ => True) taken given (fun _ _ => True) (fun _ _ => True).

Lemma at_fd_same {A} fd (x : A) f : at_fd fd x f fd = x.
Proof. unfold at_fd. by rewrite Z.eqb_refl. Qed.
Lemma at_fd_other {A} fd fd' (x : A) f : fd' <> fd -> at_fd fd x f fd' = f fd'.
Proof. intros Hne. unfold at_fd. by rewrite (proj2 (Z.eqb_neq _ _)). Qed.

Lemma copy_demo_reported k : forall fds,
  Forall (reported E k) (EventLoop.fill_revents fds ((fun p => Z.land (events p) 5) <$> fds)).
Proof.
  induction fds as [|p fds IH]; cbn [EventLoop.fill_revents fmap list_fmap head tail default]; constructor; [|done].
  split; [|done..]. unfold EventLoop.poll_error. cbn [revents from_option]. unfold id.
  change (Z.lor POLLERR POLLNVAL) with 40. rewrite <- Z.land_assoc. change (Z.land 5 40) with 0. by rewrite Z.land_0_r.
Qed.

Lemma demo_calm P Q (k : t) : calm E P Q k k.
Proof. by split. Qed.

Lemma copy_demo_lawful : lawful E.
Proof.
  assert (Hok : succeeds (Answer 0 0)) by (unfold succeeds; cbn; lia).
  split.
  - intros k fd size a data k' _ _ Hs Hk. cbn [k_read demo_kernel] in Hk. unfold do_read in Hk.
    destruct (waiting k fd) as [|chunk rest]; injection Hk as <- <- <-; cbn [ret E got sent taken given].
    + split_and!; try done; [by rewrite at_fd_same|]. intros fd' Hne. by rewrite at_fd_other.
    + split_and!; try done; [rewrite length_take; lia|by rewrite at_fd_same|]. intros fd' Hne. by rewrite at_fd_other.
  - intros k fd iovecs a k' _ _ Hk. injection Hk as <- <-. cbn [ret E got sent taken given].
    set (data := concat (fst <$> iovecs)). split_and!; try done; [lia|rewrite length_take; lia|..].
    + destruct data; [done|]. cbn [take length]. lia.
    + rewrite at_fd_same. f_equal. rewrite length_take, Nat2Z.id.
      destruct (decide (3 <= length data)%nat); [by rewrite Nat.min_l by lia|].
      by rewrite Nat.min_r, firstn_all, take_ge by lia.
    + intros fd' Hne. by rewrite at_fd_other.
  - intros k fd a k' _ [= <- <-]. auto using demo_calm.
  - intros k fd a k' _ [= <- <-]. auto using demo_calm.
  - intros k fd a k' _ [= <- <-]. auto using demo_calm.
  - intros k fd flags a k' _ [= <- <-]. auto using demo_calm.
  - intros k fds timeout a revs k' _ [= <- <- <-]. split; [by cbv|]. split; [apply demo_calm|apply copy_demo_reported].
Qed.

Definition world : world t :=
  mkWorld (mk (fun fd => if fd =? 0 then [[x61; x62; x63; x64]] else if fd =? 5 then [[x65]] else [])
              (fun _ => []) (fun _ => []))
    {[ 0%nat := mkCell (FDWrapper.mk 5 false false 0 0) 1 ]} 1.

End Demo.

Lemma stream_copy_faithful_witness :
  exists ended rs s w', bidirectional_stream_copy 20 0%nat Demo.world = Ok ((ended, rs, s), w') /\
    exists copied, Demo.taken (kernel w') 0 = copied ++ ByteStream.contents (_outbound s) /\
      Demo.given (kernel w') 5 = copied.
Proof.
  destruct (stream_copy_faithful Demo.E Demo.copy_demo_lawful 20 0%nat Demo.world (FDWrapper.mk 5 false false 0 0) 1)
    as (ended & rs & s & w' & E & (copied & Hg & Hs & _) & _); [reflexivity|lia|split; discriminate|by split|exact I|].
  exists ended, rs, s, w'. split; [exact E|]. exists copied. split; [exact Hg|exact Hs].
Defined.

End StreamCopy.
