(* ===== verification/CommandLine.v ===== *)
(** * The command lines of the TCP programs (apps/tcp_udp.cc, tcp_ipv4.cc,
    tcp_ip_ethernet.cc)

    The three programs read options that stand before a host and a port.  Their
    loops have the same shape: a word is a switch, or takes the next word, or ends
    the program; [options] is that loop, and each program has its table of words.
    What a program does with the configuration is modelled up to the start of the
    thread that serves the connection.  Of the C library, [strncmp] and [strtol] are
    modelled; [strtof] and the resolver are parameters.

    The module [Manual] says what the options are and mean without the tables: the list
    of options of each program, the reading of the words, and each setting as the last
    value given or the default.  The theorem says that the programs do that. *)

From stdpp Require Import strings pretty.
From S2P Require Import Prelude Wrapping Buffers TcpSender EthernetWire NetworkInterface Addresses FileDescriptor Sockets Adapter EventLoop SpongeSocket.
From Stdlib Require Import Strings.Byte Floats.SpecFloat.
From Stdlib Require Strings.Ascii Strings.String.

#[local] Open Scope list_scope.
#[local] Open Scope Z_scope.

(** ** The C library *)

(** [strncmp(a, b, n) == 0]: the comparison stops after the terminators. *)
Fixpoint strncmp_eq (n : nat) (a b : string) : bool :=
  match n with
  | O => true
  | S n' =>
      match a, b with
      | EmptyString, EmptyString => true
      | String c a', String d b' => bool_decide (c = d) && strncmp_eq n' a' b'
      | _, _ => false
      end
  end.

Module Strtol.

Definition code (c : Ascii.ascii) : Z := Z.of_nat (Ascii.nat_of_ascii c).
Definition between (lo hi x : Z) : bool := (lo <=? x) && (x <=? hi).
Definition isspace (c : Ascii.ascii) : bool := (code c =? 32) || between 9 13 (code c).

(** The value of a digit: [0-9], then the letters in either case. *)
Definition digit_value (c : Ascii.ascii) : option Z :=
  if between 48 57 (code c) then Some (code c - 48)
  else if between 97 122 (code c) then Some (code c - 87)
  else if between 65 90 (code c) then Some (code c - 55)
  else None.
Definition digit (base : Z) (c : Ascii.ascii) : option Z :=
  match digit_value c with
  | Some d => if d <? base then Some d else None
  | None => None
  end.

Fixpoint digits (base acc : Z) (s : string) : Z :=
  match s with
  | EmptyString => acc
  | String c s' =>
      match digit base c with
      | Some d => digits base (acc * base + d) s'
      | None => acc
      end
  end.

Fixpoint skip_spaces (s : string) : string :=
  match s with
  | String c s' => if isspace c then skip_spaces s' else s
  | EmptyString => EmptyString
  end.

(** The number without its sign, in base 16 after [0x], 8 after [0], and 10. *)
Definition magnitude (s : string) : Z :=
  match s with
  | String z (String x (String d s')) =>
      if (code z =? 48) && ((code x =? 120) || (code x =? 88)) &&
         match digit 16 d with Some _ => true | None => false end
      then digits 16 0 (String d s')
      else if code z =? 48 then digits 8 0 s else digits 10 0 s
  | String z _ => if code z =? 48 then digits 8 0 s else digits 10 0 s
  | EmptyString => 0
  end.

(** [strtol(s, nullptr, 0)]; a [long] has 64 bits. *)
Definition strtol (s : string) : Z :=
  let s := skip_spaces s in
  let v :=
    match s with
    | String c s' =>
        if code c =? 45 then - magnitude s' else if code c =? 43 then magnitude s' else magnitude s
    | EmptyString => 0
    end in
  Z.max (- two63) (Z.min (two63 - 1) v).

End Strtol.

(** [static_cast<uint16_t>(static_cast<float>(65535) * lossrate)]: a product of
    floats, truncated; a value that does not fit is undefined. *)
Definition to_uint16 (x : spec_float) : res Z :=
  match x with
  | S754_zero _ => Ok 0
  | S754_finite sign m e =>
      let n := Z.shiftl (Zpos m) e in
      if n =? 0 then Ok 0 else if sign then Throw undefined
      else if n <? two16 then Ok n else Throw undefined
  | _ => Throw undefined
  end.
Definition max_rate : spec_float := S754_finite false 16776960 (-8).
Definition loss_rate (lossrate : spec_float) : res Z := to_uint16 (SFmul 24 128 max_rate lossrate).

(** ** The loop over the options *)

(** How a program goes on: with a result, or it prints its usage with a message and
    exits. *)
Inductive outcome (A : Type) : Type :=
| Run (a : A)
| Quit (status : Z) (msg : option string).
Arguments Run {A} a.
Arguments Quit {A} status msg.

(** What a word asks for: [curr += 1]; or [check_argc] with its message, the use of
    [argv[curr + 1]] and [curr += 2]; or the end. *)
Inductive action (C : Type) : Type :=
| Switch (f : C -> C)
| Setting (err : string) (f : string -> C -> res C)
| Usage (status : Z) (msg : option string).
Arguments Switch {C} f.
Arguments Setting {C} err f.
Arguments Usage {C} status msg.

(** [argv[i]], which is only defined below [argc]. *)
Definition arg (argv : list string) (i : Z) : res string :=
  if i <? 0 then Throw undefined
  else match argv !! Z.to_nat i with Some s => Ok s | None => Throw undefined end.

(** [while (argc - curr > 2)]: the index after the loop and the configuration. *)
Fixpoint options {C} (fuel : nat) (table : string -> action C) (argv : list string) (curr : Z) (c : C)
  : res (outcome (Z * C)) :=
  if negb (2 <? zlen argv - curr) then Ok (Run (curr, c))
  else
    match fuel with
    | O => Throw nontermination
    | S fuel' =>
        word ← arg argv curr;
        match table word with
        | Switch f => options fuel' table argv (curr + 1) (f c)
        | Setting err f =>
            if zlen argv <=? curr + 3 then Ok (Quit 1 (Some err))
            else
              value ← arg argv (curr + 1);
              c ← f value c;
              options fuel' table argv (curr + 2) c
        | Usage status msg => Ok (Quit status msg)
        end
    end.

Definition unrecognized {C} (word : string) : action C :=
  Usage 1 (Some ("ERROR: unrecognized option " +:+ word)).

(** Assignments to the members of the configurations. *)
Definition set_recv_capacity (x : Z) (c : TCPConfig.t) : TCPConfig.t :=
  TCPConfig.mk (TCPConfig.rt_timeout c) x (TCPConfig.send_capacity c) (TCPConfig.fixed_isn c).
Definition set_rt_timeout (x : Z) (c : TCPConfig.t) : TCPConfig.t :=
  TCPConfig.mk x (TCPConfig.recv_capacity c) (TCPConfig.send_capacity c) (TCPConfig.fixed_isn c).
Definition set_loss_up (x : Z) (c : FdAdapterConfig) : FdAdapterConfig :=
  mkConfig (source c) (destination c) (loss_rate_dn c) x.
Definition set_loss_dn (x : Z) (c : FdAdapterConfig) : FdAdapterConfig :=
  mkConfig (source c) (destination c) x (loss_rate_up c).
Definition set_source_address (x : Address.t) (c : FdAdapterConfig) : FdAdapterConfig :=
  mkConfig x (destination c) (loss_rate_dn c) (loss_rate_up c).
Definition set_destination_address (x : Address.t) (c : FdAdapterConfig) : FdAdapterConfig :=
  mkConfig (source c) x (loss_rate_dn c) (loss_rate_up c).

(** The two ways to get a connection, of a program that has both. *)
Definition establish {K A Device} `{FdDevice K A Device} (fuel : nat) (random : Z) (listen : bool)
  (c_fsm : TCPConfig.t) (c_filt : FdAdapterConfig) : io (@TCPSpongeSocket.t K A) (bool * list EventLoop.Rule) :=
  if listen then TCPSpongeSocket.listen_and_accept (Device := Device) fuel c_fsm random c_filt
  else TCPSpongeSocket.connect (Device := Device) fuel c_fsm random c_filt.

(** ** tcp_udp *)

Module TcpUdp.

(** What [get_config] builds. *)
Record config : Type := mk { c_fsm : TCPConfig.t; c_filt : FdAdapterConfig; listen : bool }.
Definition start : config := mk TCPConfig.default default_config false.

Definition on_fsm (f : TCPConfig.t -> TCPConfig.t) (c : config) : config := mk (f (c_fsm c)) (c_filt c) (listen c).
Definition on_filt (f : FdAdapterConfig -> FdAdapterConfig) (c : config) : config :=
  mk (c_fsm c) (f (c_filt c)) (listen c).
Definition set_listen (c : config) : config := mk (c_fsm c) (c_filt c) true.

Section TcpUdp.
Context {K : Type} `{Kernel K}.

(** [Address(hostname, service)] by the resolver, [strtof], and the numbers that the
    generator of the lossy adapter yields. *)
Context (resolve : string -> string -> res Address.t) (strtof : string -> spec_float) (mt19937 : nat -> Z).

(** The branches of the loop of [get_config]. *)
Definition table (word : string) : action config :=
  if strncmp_eq 3 "-l" word then Switch set_listen
  else if strncmp_eq 3 "-w" word then
    Setting "ERROR: -w requires one argument." (fun v c => Ok (on_fsm (set_recv_capacity (u64 (Strtol.strtol v))) c))
  else if strncmp_eq 3 "-t" word then
    Setting "ERROR: -t requires one argument." (fun v c => Ok (on_fsm (set_rt_timeout (u16 (Strtol.strtol v))) c))
  else if strncmp_eq 3 "-Lu" word then
    Setting "ERROR: -Lu requires one argument."
      (fun v c => r ← loss_rate (strtof v); Ok (on_filt (set_loss_up r) c))
  else if strncmp_eq 3 "-Ld" word then
    Setting "ERROR: -Lu requires one argument."
      (fun v c => r ← loss_rate (strtof v); Ok (on_filt (set_loss_dn r) c))
  else if strncmp_eq 3 "-h" word then Usage 0 None
  else unrecognized word.

(** The part of [get_config] after the loop. *)
Definition positional (argv : list string) (c : config) : res (outcome config) :=
  if listen c then
    port ← arg argv (zlen argv - 1);
    a ← resolve "0" port;
    Ok (Run (on_filt (set_source_address a) c))
  else
    host ← arg argv (zlen argv - 2);
    port ← arg argv (zlen argv - 1);
    a ← resolve host port;
    Ok (Run (on_filt (set_destination_address a) c)).

Definition get_config (argv : list string) : res (outcome config) :=
  r ← options (length argv) table argv 1 start;
  match r with
  | Run (_, c) => positional argv c
  | Quit status msg => Ok (Quit status msg)
  end.

(** [main], up to the start of the thread; the loop of the handshake is cut off after
    [fuel] rounds. *)
Abbreviation lossy := (@LossyFdAdapter.t TCPOverUDPSocketAdapter.t).
#[local] Instance lossy_udp : FdAdapter lossy UDPSocket.received_datagram := LossyFdAdapter.lossy_adapter mt19937.
#[local] Instance lossy_udp_device : FdDevice K lossy UDPSocket.received_datagram :=
  lossy_device K TCPOverUDPSocketAdapter.t UDPSocket.received_datagram mt19937.

Definition main (fuel : nat) (random : Z) (argv : list string) (w : world K)
  : res (outcome (bool * list EventLoop.Rule * @TCPSpongeSocket.t K lossy)) :=
  if zlen argv <? 3 then Ok (Quit 1 (Some "ERROR: required arguments are missing."))
  else
    r ← get_config argv;
    match r with
    | Quit status msg => Ok (Quit status msg)
    | Run c =>
        '(udp_sock, w) ← UDPSocket.make w;
        '(_, w) ← (if listen c then Socket.bind (source (c_filt c)) udp_sock w else Ok (tt, w));
        let a := LossyFdAdapter.mk 0 (TCPOverUDPSocketAdapter.mk (FdAdapterBase.mk default_config false) []) in
        '(s, _) ← TCPSpongeSocket.make a udp_sock w;
        '(r, s) ← establish fuel random (listen c) (c_fsm c) (c_filt c) s;
        Ok (Run (r, s))
    end.

End TcpUdp.
End TcpUdp.

(** ** tcp_ipv4 *)

Module TcpIpv4.

Definition TUN_DFLT : string := "tun144".
Definition LOCAL_ADDRESS_DFLT : string := "169.254.144.9".

Record config : Type := mk {
  c_fsm : TCPConfig.t;
  c_filt : FdAdapterConfig;
  tundev : option string;
  listen : bool;
  source_address : string;
  source_port : string
}.

(** The initial values; [random] is drawn for the port. *)
Definition start (random : Z) : config :=
  mk TCPConfig.default default_config None false LOCAL_ADDRESS_DFLT (port_string (u16 random)).

Definition on_fsm (f : TCPConfig.t -> TCPConfig.t) (c : config) : config :=
  mk (f (c_fsm c)) (c_filt c) (tundev c) (listen c) (source_address c) (source_port c).
Definition on_filt (f : FdAdapterConfig -> FdAdapterConfig) (c : config) : config :=
  mk (c_fsm c) (f (c_filt c)) (tundev c) (listen c) (source_address c) (source_port c).
Definition set_tundev (d : string) (c : config) : config :=
  mk (c_fsm c) (c_filt c) (Some d) (listen c) (source_address c) (source_port c).
Definition set_listen (c : config) : config :=
  mk (c_fsm c) (c_filt c) (tundev c) true (source_address c) (source_port c).
Definition set_address (a : string) (c : config) : config :=
  mk (c_fsm c) (c_filt c) (tundev c) (listen c) a (source_port c).
Definition set_port (p : string) (c : config) : config :=
  mk (c_fsm c) (c_filt c) (tundev c) (listen c) (source_address c) p.

Section TcpIpv4.
Context {K : Type} `{Kernel K} `{Address.Netdb}.
Context (resolve : string -> string -> res Address.t) (strtof : string -> spec_float) (mt19937 : nat -> Z).

Definition table (word : string) : action config :=
  if strncmp_eq 3 "-l" word then Switch set_listen
  else if strncmp_eq 3 "-a" word then
    Setting "ERROR: -a requires one argument." (fun v c => Ok (set_address v c))
  else if strncmp_eq 3 "-s" word then
    Setting "ERROR: -s requires one argument." (fun v c => Ok (set_port v c))
  else if strncmp_eq 3 "-w" word then
    Setting "ERROR: -w requires one argument." (fun v c => Ok (on_fsm (set_recv_capacity (u64 (Strtol.strtol v))) c))
  else if strncmp_eq 3 "-t" word then
    Setting "ERROR: -t requires one argument." (fun v c => Ok (on_fsm (set_rt_timeout (u16 (Strtol.strtol v))) c))
  else if strncmp_eq 3 "-d" word then
    Setting "ERROR: -t requires one argument." (fun v c => Ok (set_tundev v c))
  else if strncmp_eq 3 "-Lu" word then
    Setting "ERROR: -Lu requires one argument."
      (fun v c => r ← loss_rate (strtof v); Ok (on_filt (set_loss_up r) c))
  else if strncmp_eq 3 "-Ld" word then
    Setting "ERROR: -Lu requires one argument."
      (fun v c => r ← loss_rate (strtof v); Ok (on_filt (set_loss_dn r) c))
  else if strncmp_eq 3 "-h" word then Usage 0 None
  else unrecognized word.

(** "parse positional command-line arguments". *)
Definition positional (argv : list string) (curr : Z) (c : config) : res (outcome config) :=
  if listen c then
    port ← arg argv (curr + 1);
    a ← resolve "0" port;
    if Address.port a =? 0 then Ok (Quit 1 (Some "ERROR: listen port cannot be zero in server mode."))
    else Ok (Run (on_filt (set_source_address a) c))
  else
    host ← arg argv curr;
    port ← arg argv (curr + 1);
    d ← resolve host port;
    a ← resolve (source_address c) (source_port c);
    Ok (Run (on_filt (fun f => set_source_address a (set_destination_address d f)) c)).

Definition get_config (random : Z) (argv : list string) : res (outcome config) :=
  r ← options (length argv) table argv 1 (start random);
  match r with
  | Run (curr, c) => positional argv curr c
  | Quit status msg => Ok (Quit status msg)
  end.

Abbreviation lossy := (@LossyFdAdapter.t TCPOverIPv4OverTunFdAdapter.t).
#[local] Instance lossy_tun : FdAdapter lossy bytes := LossyFdAdapter.lossy_adapter mt19937.
#[local] Instance lossy_tun_device : FdDevice K lossy bytes :=
  lossy_device K TCPOverIPv4OverTunFdAdapter.t bytes mt19937.

Definition main (fuel : nat) (random_port random : Z) (argv : list string) (w : world K)
  : res (outcome (bool * list EventLoop.Rule * @TCPSpongeSocket.t K lossy)) :=
  if zlen argv <? 3 then Ok (Quit 1 (Some "ERROR: required arguments are missing."))
  else
    r ← get_config random_port argv;
    match r with
    | Quit status msg => Ok (Quit status msg)
    | Run c =>
        let name := match tundev c with Some d => d | None => TUN_DFLT end in
        '(tun, w) ← TunTapFD.make (String.list_byte_of_string name) true w;
        let a := LossyFdAdapter.mk 0 (TCPOverIPv4OverTunFdAdapter.mk (FdAdapterBase.mk default_config false) []) in
        '(s, _) ← TCPSpongeSocket.make a tun w;
        '(r, s) ← establish fuel random (listen c) (c_fsm c) (c_filt c) s;
        Ok (Run (r, s))
    end.

End TcpIpv4.
End TcpIpv4.

(** ** tcp_ip_ethernet *)

Module TcpIpEthernet.

Definition TAP_DFLT : string := "tap10".
Definition LOCAL_ADDRESS_DFLT : string := "169.254.10.9".
Definition GATEWAY_DFLT : string := "169.254.10.1".

Record config : Type := mk {
  c_fsm : TCPConfig.t;
  c_filt : FdAdapterConfig;
  tapdev : string;
  source_address : string;
  source_port : string;
  next_hop_address : string
}.

Definition start (random : Z) : config :=
  mk TCPConfig.default default_config TAP_DFLT LOCAL_ADDRESS_DFLT (port_string (u16 random)) GATEWAY_DFLT.

Definition on_fsm (f : TCPConfig.t -> TCPConfig.t) (c : config) : config :=
  mk (f (c_fsm c)) (c_filt c) (tapdev c) (source_address c) (source_port c) (next_hop_address c).
Definition set_filt (f : FdAdapterConfig) (c : config) : config :=
  mk (c_fsm c) f (tapdev c) (source_address c) (source_port c) (next_hop_address c).
Definition set_tapdev (d : string) (c : config) : config :=
  mk (c_fsm c) (c_filt c) d (source_address c) (source_port c) (next_hop_address c).
Definition set_address (a : string) (c : config) : config :=
  mk (c_fsm c) (c_filt c) (tapdev c) a (source_port c) (next_hop_address c).
Definition set_port (p : string) (c : config) : config :=
  mk (c_fsm c) (c_filt c) (tapdev c) (source_address c) p (next_hop_address c).
Definition set_next_hop (a : string) (c : config) : config :=
  mk (c_fsm c) (c_filt c) (tapdev c) (source_address c) (source_port c) a.

Section TcpIpEthernet.
Context {K : Type} `{Kernel K} `{Address.Netdb}.
Context (resolve : string -> string -> res Address.t).

Definition table (word : string) : action config :=
  if strncmp_eq 3 "-a" word then
    Setting "ERROR: -a requires one argument." (fun v c => Ok (set_address v c))
  else if strncmp_eq 3 "-s" word then
    Setting "ERROR: -s requires one argument." (fun v c => Ok (set_port v c))
  else if strncmp_eq 3 "-n" word then
    Setting "ERROR: -n requires one argument." (fun v c => Ok (set_next_hop v c))
  else if strncmp_eq 3 "-w" word then
    Setting "ERROR: -w requires one argument." (fun v c => Ok (on_fsm (set_recv_capacity (u64 (Strtol.strtol v))) c))
  else if strncmp_eq 3 "-t" word then
    Setting "ERROR: -t requires one argument." (fun v c => Ok (on_fsm (set_rt_timeout (u16 (Strtol.strtol v))) c))
  else if strncmp_eq 3 "-d" word then
    Setting "ERROR: -t requires one argument." (fun v c => Ok (set_tapdev v c))
  else if strncmp_eq 3 "-h" word then Usage 0 None
  else unrecognized word.

(** The result is the configuration and the next hop. *)
Definition positional (argv : list string) (curr : Z) (c : config) : res (outcome (config * Address.t)) :=
  host ← arg argv curr;
  port ← arg argv (curr + 1);
  d ← resolve host port;
  a ← resolve (source_address c) (source_port c);
  next_hop ← resolve (next_hop_address c) "0";
  Ok (Run (set_filt (set_source_address a (set_destination_address d (c_filt c))) c, next_hop)).

Definition get_config (random : Z) (argv : list string) : res (outcome (config * Address.t)) :=
  r ← options (length argv) table argv 1 (start random);
  match r with
  | Run (curr, c) => positional argv curr c
  | Quit status msg => Ok (Quit status msg)
  end.

(** [random_address] are the octets drawn for the Ethernet address. *)
Definition main (fuel : nat) (random_address : nat -> Z) (random_port random : Z) (argv : list string) (w : world K)
  : res (outcome (bool * list EventLoop.Rule * @TCPSpongeSocket.t K TCPOverIPv4OverEthernetAdapter.t)) :=
  if zlen argv <? 3 then Ok (Quit 1 (Some "ERROR: required arguments are missing."))
  else
    let local_ethernet_address := random_private_ethernet_address random_address in
    r ← get_config random_port argv;
    match r with
    | Quit status msg => Ok (Quit status msg)
    | Run (c, next_hop) =>
        '(tap, w) ← TunTapFD.make (String.list_byte_of_string (tapdev c)) false w;
        let a := TCPOverIPv4OverEthernetAdapter.make (FdAdapterBase.mk default_config false)
                   local_ethernet_address (source (c_filt c)) next_hop in
        '(_, w) ← TCPSpongeSocket.flush (A := TCPOverIPv4OverEthernetAdapter.t) (Device := bytes) tap (adapter_log a) w;
        '(s, _) ← TCPSpongeSocket.make a tap w;
        '(r, s) ← TCPSpongeSocket.connect (Device := bytes) fuel (c_fsm c) random (c_filt c) s;
        Ok (Run (r, s))
    end.

End TcpIpEthernet.
End TcpIpEthernet.

(** ** What the loop computes *)

(** The reference: the words before the last two, read from left to right. *)
Fixpoint interpret {C} (table : string -> action C) (words : list string) (c : C) : res (outcome C) :=
  match words with
  | [] => Ok (Run c)
  | word :: words' =>
      match table word with
      | Switch f => interpret table words' (f c)
      | Setting err f =>
          match words' with
          | [] => Ok (Quit 1 (Some err))
          | value :: words'' => c ← f value c; interpret table words'' c
          end
      | Usage status msg => Ok (Quit status msg)
      end
  end.

(** The outcome with the index at which the last two words begin. *)
Definition located {C} (curr : Z) (o : outcome C) : outcome (Z * C) :=
  match o with
  | Run c => Run (curr, c)
  | Quit status msg => Quit status msg
  end.

Lemma arg_middle pre s post : arg (pre ++ s :: post) (zlen pre) = Ok s.
Proof.
  unfold arg. rewrite (proj2 (Z.ltb_ge _ _)), Nat2Z.id by lia. by rewrite list_lookup_middle.
Qed.

Lemma options_interpret {C} (table : string -> action C) host port fuel : forall words pre c,
  (length words <= fuel)%nat ->
  options fuel table (pre ++ words ++ [host; port]) (zlen pre) c =
    located (zlen pre + zlen words) <$> interpret table words c.
Proof.
  induction fuel as [|fuel IH]; intros words pre c Hf; (destruct words as [|w ws]; cbn [options];
    rewrite !length_app; cbn [length]); [|cbn in Hf; lia| |].
  1,2: by rewrite (proj2 (Z.ltb_ge _ _)), Z.add_0_r by lia.
  rewrite (proj2 (Z.ltb_lt _ _)) by lia. cbn [negb app interpret]. rewrite arg_middle. cbn [mbind res_bind].
  destruct (table w) as [f|err f|status msg]; [|destruct ws as [|v ws]|done].
  - specialize (IH ws (pre ++ [w]) (f c) ltac:(cbn in *; lia)). rewrite <- app_assoc, length_app in IH.
    replace (zlen pre + 1) with (Z.of_nat (length pre + length [w])) by (cbn; lia). cbn [app] in IH. rewrite IH.
    f_equal. f_equal. cbn [length]. lia.
  - by rewrite (proj2 (Z.leb_le _ _)) by (cbn; lia).
  - rewrite (proj2 (Z.leb_gt _ _)) by (cbn; lia). cbn [app].
    pose proof (arg_middle (pre ++ [w]) v (ws ++ [host; port])) as Ha. rewrite <- app_assoc, length_app in Ha.
    replace (zlen pre + 1) with (Z.of_nat (length pre + length [w])) by (cbn; lia). cbn [app] in Ha. rewrite Ha.
    cbn [mbind res_bind]. destruct (f v c) as [c'|]; [|done]. cbn [mbind res_bind].
    specialize (IH ws (pre ++ [w; v]) c' ltac:(cbn in *; lia)). rewrite <- app_assoc, length_app in IH.
    replace (zlen pre + 2) with (Z.of_nat (length pre + length [w; v])) by (cbn; lia). cbn [app] in IH. rewrite IH.
    f_equal. f_equal. cbn [length]. lia.
Qed.

(** Options, then what the program does with the host and the port. *)
Definition reference {C R} (table : string -> action C) (words : list string) (c : C)
  (finish : C -> res (outcome R)) : res (outcome R) :=
  o ← interpret table words c;
  match o with
  | Run c => finish c
  | Quit status msg => Ok (Quit status msg)
  end.

Lemma options_reference {C R} (table : string -> action C) name words host port c
  (finish : Z -> C -> res (outcome R)) :
  let argv := name :: words ++ [host; port] in
  (r ← options (length argv) table argv 1 c;
   match r with Run (curr, c) => finish curr c | Quit status msg => Ok (Quit status msg) end) =
  reference table words c (finish (zlen argv - 2)).
Proof.
  cbv zeta. pose proof (options_interpret table host port (length (name :: words ++ [host; port])) words [name] c) as E.
  cbn [app] in E. change (zlen [name]) with 1 in E. rewrite E by (cbn [length]; rewrite length_app; lia).
  unfold reference. destruct (interpret table words c) as [[c'|status msg]|]; try done. cbn.
  f_equal. rewrite length_app. cbn [length]. lia.
Qed.

Lemma res_bind_ext {A B} (m : res A) (f g : A -> res B) : (forall a, f a = g a) -> (m ≫= f) = (m ≫= g).
Proof. intros Hf. destruct m; [apply Hf|done]. Qed.

(** The last two words. *)
Lemma last_words name words host port :
  let argv := name :: words ++ [host; port] in
  arg argv (zlen argv - 2) = Ok host /\ arg argv (zlen argv - 2 + 1) = Ok port /\ arg argv (zlen argv - 1) = Ok port.
Proof.
  cbv zeta. pose proof (arg_middle (name :: words) host [port]) as H1.
  pose proof (arg_middle (name :: words ++ [host]) port []) as H2. cbn [app length] in *.
  rewrite <- app_assoc in H2. cbn [app] in H2. rewrite !length_app in *. cbn [length] in *.
  split_and!; [rewrite <- H1|rewrite <- H2|rewrite <- H2]; f_equal; lia.
Qed.

(** ** The options, independently of the code

    What the usage messages say: which options a program has, how they are spelled,
    which take an argument, and what each of them sets. *)
Module Manual.

Inductive program : Type := tcp_udp | tcp_ipv4 | tcp_ip_ethernet.

Inductive kind : Type :=
| Listen | SourceAddress | SourcePort | NextHop | Window | Timeout | Device | LossUp | LossDown.
#[export] Instance kind_eq_dec : EqDecision kind.
Proof. solve_decision. Defined.

Definition spelling (k : kind) : string :=
  match k with
  | Listen => "-l"
  | SourceAddress => "-a"
  | SourcePort => "-s"
  | NextHop => "-n"
  | Window => "-w"
  | Timeout => "-t"
  | Device => "-d"
  | LossUp => "-Lu"
  | LossDown => "-Ld"
  end.

Definition known (p : program) : list kind :=
  match p with
  | tcp_udp => [Listen; Window; Timeout; LossUp; LossDown]
  | tcp_ipv4 => [Listen; SourceAddress; SourcePort; Window; Timeout; Device; LossUp; LossDown]
  | tcp_ip_ethernet => [SourceAddress; SourcePort; NextHop; Window; Timeout; Device]
  end.

(** [begins s w]: the word [w] begins with [s]. *)
Fixpoint begins (s w : string) : bool :=
  match s, w with
  | EmptyString, _ => true
  | String c s', String d w' => bool_decide (c = d) && begins s' w'
  | _, _ => false
  end.

(** The words that stand for an option: its spelling, and for the two loss rates any
    word that begins with it. *)
Definition spells (k : kind) (w : string) : bool :=
  match k with
  | LossUp | LossDown => begins (spelling k) w
  | _ => bool_decide (w = spelling k)
  end.

Inductive meaning : Type := Option (k : kind) | Help | Nonsense.
Definition meaning_of (p : program) (w : string) : meaning :=
  match List.find (fun k => spells k w) (known p) with
  | Some k => Option k
  | None => if bool_decide (w = "-h") then Help else Nonsense
  end.

(** Reading words from left to right: the options with their arguments, and why the
    reading stopped, if it stopped before the end. *)
Inductive stop : Type := StopHelp | StopUnknown (w : string) | StopMissing (k : kind).

Fixpoint read_options (p : program) (words : list string) : list (kind * string) * option stop :=
  match words with
  | [] => ([], None)
  | w :: words' =>
      match meaning_of p w with
      | Help => ([], Some StopHelp)
      | Nonsense => ([], Some (StopUnknown w))
      | Option Listen => let '(os, e) := read_options p words' in ((Listen, "") :: os, e)
      | Option k =>
          match words' with
          | [] => ([], Some (StopMissing k))
          | v :: words'' => let '(os, e) := read_options p words'' in ((k, v) :: os, e)
          end
      end
  end.

(** The messages blame [-t] for a missing device and [-Lu] for a missing downlink rate. *)
Definition blamed (k : kind) : string :=
  match k with
  | Device => "-t"
  | LossDown => "-Lu"
  | _ => spelling k
  end.
Definition farewell {A} (e : stop) : outcome A :=
  match e with
  | StopHelp => Quit 0 None
  | StopUnknown w => Quit 1 (Some ("ERROR: unrecognized option " +:+ w))
  | StopMissing k => Quit 1 (Some ("ERROR: " +:+ blamed k +:+ " requires one argument."))
  end.

(** The last argument given for an option. *)
Fixpoint given (k : kind) (os : list (kind * string)) : option string :=
  match os with
  | [] => None
  | (k', v) :: os' =>
      match given k os' with
      | Some v' => Some v'
      | None => if decide (k' = k) then Some v else None
      end
  end.

(** What the last argument given for an option says, or else the default. *)
Definition chosen {X} (k : kind) (f : string -> X) (dflt : X) (os : list (kind * string)) : X :=
  match given k os with Some v => f v | None => dflt end.

Definition listening : list (kind * string) -> bool := chosen Listen (fun _ => true) false.
Definition text (k : kind) (dflt : string) : list (kind * string) -> string := chosen k (fun v => v) dflt.

(** The parameters of the connection: the window (recv_capacity) and the timeout are
    numbers, and what no option sets is the default. *)
Definition number (v : string) : Z := Strtol.strtol v.
Definition tcp_config (os : list (kind * string)) : TCPConfig.t := {|
  TCPConfig.rt_timeout := chosen Timeout (fun v => u16 (number v)) TCPConfig.TIMEOUT_DFLT os;
  TCPConfig.recv_capacity := chosen Window (fun v => u64 (number v)) TCPConfig.DEFAULT_CAPACITY os;
  TCPConfig.send_capacity := TCPConfig.DEFAULT_CAPACITY;
  TCPConfig.fixed_isn := None
|}.

Definition unset : Address.t := Address.mk 0 0.

Section Rates.
Context (strtof : string -> spec_float).

(** A rate that cannot be converted, and the value of one that can. *)
Definition bad_rate (o : kind * string) : bool :=
  match o.1 with
  | LossUp | LossDown => match loss_rate (strtof o.2) with Ok _ => false | Throw _ => true end
  | _ => false
  end.
Definition rate (v : string) : Z := match loss_rate (strtof v) with Ok r => r | Throw _ => 0 end.

(** The two ends and the loss rates. *)
Definition link (src dst : Address.t) (os : list (kind * string)) : FdAdapterConfig := {|
  source := src;
  destination := dst;
  loss_rate_dn := chosen LossDown rate 0 os;
  loss_rate_up := chosen LossUp rate 0 os
|}.

End Rates.

(** How the options [os], read before [e] stopped the reading, end or continue. *)
Definition conclude {R} (bad : kind * string -> bool) (read : list (kind * string) * option stop)
  (finish : list (kind * string) -> res (outcome R)) : res (outcome R) :=
  let '(os, e) := read in
  if existsb bad os then Throw undefined
  else match e with
       | Some e => Ok (farewell e)
       | None => finish os
       end.

(** ** The tables of the programs *)

(** An entry of a table has the meaning [m], where [effect] says what an option does. *)
Definition implements {C} (effect : kind -> string -> C -> res C) (w : string) (m : meaning) (a : action C) : Prop :=
  match m, a with
  | Option k, Switch f => k = Listen /\ forall c, effect k "" c = Ok (f c)
  | Option k, Setting err f => k <> Listen /\ err = "ERROR: " +:+ blamed k +:+ " requires one argument." /\
      forall v c, effect k v c = f v c
  | Help, Usage status msg => status = 0 /\ msg = None
  | Nonsense, Usage status msg => status = 1 /\ msg = Some ("ERROR: unrecognized option " +:+ w)
  | _, _ => False
  end.

Fixpoint effects {C} (effect : kind -> string -> C -> res C) (os : list (kind * string)) (c : C) : res C :=
  match os with
  | [] => Ok c
  | (k, v) :: os' => c ← effect k v c; effects effect os' c
  end.

Lemma interpret_read {C} p (table : string -> action C) effect
  (Ht : forall w, implements effect w (meaning_of p w) (table w)) : forall n words c, (length words <= n)%nat ->
  interpret table words c =
    let '(os, e) := read_options p words in
    c ← effects effect os c;
    Ok (match e with Some e => farewell e | None => Run c end).
Proof.
  induction n as [|n IH]; intros [|w words] c Hn; try done; [cbn in Hn; lia|].
  cbn [interpret read_options]. specialize (Ht w). cbn [length] in Hn.
  destruct (meaning_of p w) as [k| |], (table w) as [f|err f|status msg]; try done; cbn [implements] in Ht.
  - destruct Ht as [-> Hf]. rewrite IH by lia. destruct (read_options p words) as [os e].
    cbn [effects]. by rewrite Hf.
  - destruct Ht as (Hk & -> & Hf). destruct words as [|v words].
    + by destruct k.
    + cbn [length] in Hn.
      assert (Hcont : (c ← f v c; interpret table words c) =
        (let '(os, e) := read_options p words in
         c ← effects effect ((k, v) :: os) c; Ok (match e with Some e => farewell e | None => Run c end))).
      { cbn [effects]. rewrite Hf. destruct (f v c) as [c'|]; cbn [mbind res_bind].
        - rewrite IH by lia. by destruct (read_options p words).
        - by destruct (read_options p words). }
      rewrite Hcont. by destruct k, (read_options p words).
  - by destruct Ht as [-> ->].
  - by destruct Ht as [-> ->].
Qed.

Lemma conclude_ext {R} bad read (f g : list (kind * string) -> res (outcome R)) :
  (forall os, f os = g os) -> conclude bad read f = conclude bad read g.
Proof. intros Hf. unfold conclude. destruct read as [os e]. by rewrite Hf. Qed.

Lemma reference_conclude {C R} p (table : string -> action C) effect bad (final : list (kind * string) -> C)
  words c (finish : C -> res (outcome R)) :
  (forall w, implements effect w (meaning_of p w) (table w)) ->
  (forall os, effects effect os c = if existsb bad os then Throw undefined else Ok (final os)) ->
  reference table words c finish = conclude bad (read_options p words) (fun os => finish (final os)).
Proof.
  intros Ht He. unfold reference, conclude. rewrite (interpret_read p table effect Ht (length words)) by done.
  destruct (read_options p words) as [os e]. rewrite He. destruct (existsb bad os); [done|]. by destruct e as [[]|].
Qed.

(** [strncmp] over three characters, for options of one letter and of two. *)
Lemma strncmp_short a b w : strncmp_eq 3 (String a (String b "")) w = bool_decide (w = String a (String b "")).
Proof.
  destruct w as [|d [|c' [|x w]]]; cbn [strncmp_eq]; rewrite ?andb_false_r, ?andb_true_r;
    repeat case_bool_decide; simplify_eq; done.
Qed.

Lemma strncmp_long a b c w : strncmp_eq 3 (String a (String b (String c ""))) w = begins (String a (String b (String c ""))) w.
Proof. destruct w as [|d [|c' [|x w]]]; cbn; rewrite ?andb_true_r; done. Qed.

(** *** What each option does to the variables of each program *)

Section Effects.
Context (strtof : string -> spec_float).

Definition udp_effect (k : kind) (v : string) (c : TcpUdp.config) : res TcpUdp.config :=
  match k with
  | Listen => Ok (TcpUdp.set_listen c)
  | Window => Ok (TcpUdp.on_fsm (set_recv_capacity (u64 (Strtol.strtol v))) c)
  | Timeout => Ok (TcpUdp.on_fsm (set_rt_timeout (u16 (Strtol.strtol v))) c)
  | LossUp => r ← loss_rate (strtof v); Ok (TcpUdp.on_filt (set_loss_up r) c)
  | LossDown => r ← loss_rate (strtof v); Ok (TcpUdp.on_filt (set_loss_dn r) c)
  | _ => Ok c
  end.

Definition ipv4_effect (k : kind) (v : string) (c : TcpIpv4.config) : res TcpIpv4.config :=
  match k with
  | Listen => Ok (TcpIpv4.set_listen c)
  | SourceAddress => Ok (TcpIpv4.set_address v c)
  | SourcePort => Ok (TcpIpv4.set_port v c)
  | Window => Ok (TcpIpv4.on_fsm (set_recv_capacity (u64 (Strtol.strtol v))) c)
  | Timeout => Ok (TcpIpv4.on_fsm (set_rt_timeout (u16 (Strtol.strtol v))) c)
  | Device => Ok (TcpIpv4.set_tundev v c)
  | LossUp => r ← loss_rate (strtof v); Ok (TcpIpv4.on_filt (set_loss_up r) c)
  | LossDown => r ← loss_rate (strtof v); Ok (TcpIpv4.on_filt (set_loss_dn r) c)
  | NextHop => Ok c
  end.

Definition ethernet_effect (k : kind) (v : string) (c : TcpIpEthernet.config) : res TcpIpEthernet.config :=
  match k with
  | SourceAddress => Ok (TcpIpEthernet.set_address v c)
  | SourcePort => Ok (TcpIpEthernet.set_port v c)
  | NextHop => Ok (TcpIpEthernet.set_next_hop v c)
  | Window => Ok (TcpIpEthernet.on_fsm (set_recv_capacity (u64 (Strtol.strtol v))) c)
  | Timeout => Ok (TcpIpEthernet.on_fsm (set_rt_timeout (u16 (Strtol.strtol v))) c)
  | Device => Ok (TcpIpEthernet.set_tapdev v c)
  | _ => Ok c
  end.

(** The chain of comparisons finds the same option as the list. *)
Ltac compare_words :=
  unfold meaning_of; cbn [known List.find spells spelling]; rewrite ?strncmp_short, ?strncmp_long;
  repeat (case_bool_decide; [by subst|]);
  repeat (match goal with |- context [begins ?s ?w] => destruct (begins s w); [done|] end);
  try (case_bool_decide; [by subst|]); done.

Lemma udp_table w : implements udp_effect w (meaning_of tcp_udp w) (TcpUdp.table strtof w).
Proof. unfold TcpUdp.table. compare_words. Qed.

Lemma ipv4_table w : implements ipv4_effect w (meaning_of tcp_ipv4 w) (TcpIpv4.table strtof w).
Proof. unfold TcpIpv4.table. compare_words. Qed.

Lemma ethernet_table w : implements ethernet_effect w (meaning_of tcp_ip_ethernet w) (TcpIpEthernet.table w).
Proof. unfold TcpIpEthernet.table. compare_words. Qed.

Lemma loss_rate_throws x e : loss_rate x = Throw e -> e = undefined.
Proof. unfold loss_rate, to_uint16. repeat case_match; congruence. Qed.

(** The variables after the options [os]. *)
Definition final_fsm (os : list (kind * string)) (t : TCPConfig.t) : TCPConfig.t :=
  TCPConfig.mk (chosen Timeout (fun v => u16 (number v)) (TCPConfig.rt_timeout t) os)
    (chosen Window (fun v => u64 (number v)) (TCPConfig.recv_capacity t) os)
    (TCPConfig.send_capacity t) (TCPConfig.fixed_isn t).
Definition final_filt (os : list (kind * string)) (f : FdAdapterConfig) : FdAdapterConfig :=
  mkConfig (source f) (destination f) (chosen LossDown (rate strtof) (loss_rate_dn f) os)
    (chosen LossUp (rate strtof) (loss_rate_up f) os).

Definition udp_final (os : list (kind * string)) (c : TcpUdp.config) : TcpUdp.config :=
  TcpUdp.mk (final_fsm os (TcpUdp.c_fsm c)) (final_filt os (TcpUdp.c_filt c))
    (chosen Listen (fun _ => true) (TcpUdp.listen c) os).
Definition ipv4_final (os : list (kind * string)) (c : TcpIpv4.config) : TcpIpv4.config :=
  TcpIpv4.mk (final_fsm os (TcpIpv4.c_fsm c)) (final_filt os (TcpIpv4.c_filt c))
    (chosen Device Some (TcpIpv4.tundev c) os) (chosen Listen (fun _ => true) (TcpIpv4.listen c) os)
    (text SourceAddress (TcpIpv4.source_address c) os) (text SourcePort (TcpIpv4.source_port c) os).
Definition ethernet_final (os : list (kind * string)) (c : TcpIpEthernet.config) : TcpIpEthernet.config :=
  TcpIpEthernet.mk (final_fsm os (TcpIpEthernet.c_fsm c)) (TcpIpEthernet.c_filt c)
    (text Device (TcpIpEthernet.tapdev c) os) (text SourceAddress (TcpIpEthernet.source_address c) os)
    (text SourcePort (TcpIpEthernet.source_port c) os) (text NextHop (TcpIpEthernet.next_hop_address c) os).

(** One more option in front changes only what it sets. *)
Lemma chosen_same {X} k (f : string -> X) d v os : chosen k f d ((k, v) :: os) = chosen k f (f v) os.
Proof. unfold chosen. cbn [given]. rewrite decide_True by done. by destruct (given k os). Qed.
Lemma chosen_other {X} k k' (f : string -> X) d v os : k' <> k -> chosen k f d ((k', v) :: os) = chosen k f d os.
Proof. intros Hk. unfold chosen. cbn [given]. rewrite decide_False by done. by destruct (given k os). Qed.

Lemma rate_ok v r : loss_rate (strtof v) = Ok r -> rate strtof v = r.
Proof. intros E. unfold rate. by rewrite E. Qed.

Ltac last_given IH :=
  cbn [effects existsb bad_rate fst snd orb udp_effect ipv4_effect ethernet_effect];
  try (let H := fresh in destruct (loss_rate _) eqn:H; [|apply loss_rate_throws in H as ->; reflexivity]);
  cbn [orb mbind res_bind]; rewrite IH; try (destruct (existsb _ _); [reflexivity|]); f_equal;
  unfold udp_final, ipv4_final, ethernet_final, final_fsm, final_filt, text;
  rewrite ?chosen_same, ?chosen_other by done;
  try (match goal with H : loss_rate _ = Ok _ |- _ => rewrite ?(rate_ok _ _ H) end); reflexivity.

Lemma udp_effects os : forall c, effects udp_effect os c =
  if existsb (bad_rate strtof) os then Throw undefined else Ok (udp_final os c).
Proof. induction os as [|[k v] os IH]; intros [[] [] l]; [done|]. destruct k; last_given IH. Qed.

Lemma ipv4_effects os : forall c, effects ipv4_effect os c =
  if existsb (bad_rate strtof) os then Throw undefined else Ok (ipv4_final os c).
Proof. induction os as [|[k v] os IH]; intros [[] [] ? ? ? ?]; [done|]. destruct k; last_given IH. Qed.

Lemma ethernet_effects os : forall c, effects ethernet_effect os c =
  if existsb (fun _ => false) os then Throw undefined else Ok (ethernet_final os c).
Proof. induction os as [|[k v] os IH]; intros [[] ? ? ? ? ?]; [done|]. destruct k; last_given IH. Qed.

End Effects.

(** ** Options written out *)

(** An option as one writes it. *)
Definition spell (o : kind * string) : list string :=
  match o.1 with
  | Listen => [spelling Listen]
  | k => [spelling k; o.2]
  end.

(** Any options of a program, in any number and order and with any texts as arguments,
    are read back. *)
Theorem options_read_back (p : program) (os : list (kind * string))
  (Hos : Forall (fun o => o.1 ∈ known p /\ (o.1 = Listen -> o.2 = "")) os) :
  read_options p (concat (spell <$> os)) = (os, None).
Proof.
  induction Hos as [|[k v] os [Hk Hv] _ IH]; [done|]. cbn [fst snd] in *.
  assert (Hm : meaning_of p (spelling k) = Option k).
  { destruct p, k; try reflexivity; exfalso; cbn in Hk;
      repeat (apply elem_of_cons in Hk as [[=]|Hk]); by apply elem_of_nil in Hk. }
  cbn [fmap list_fmap concat]. destruct k; cbn [spell fst snd app read_options]; rewrite Hm, IH; try done.
  by rewrite Hv.
Qed.

End Manual.

(** C28: what the command lines of the three programs mean, stated without the code's
    comparisons and assignments.  Given any words between the name of the program and
    the last two, they are read from left to right as options of that program, each but
    -l with the word after it as its argument.  The reading stops, and the program
    prints its usage and exits, at -h (status 0), at a word that is not an option and at
    an option whose argument is missing (status 1 and a message; it names -t for -d, and
    -Lu for -Ld).  A word is an option if it is spelled exactly like it, except that
    any word that begins with -Lu or -Ld counts as that option.  A loss rate that does
    not fit 16 bits after scaling, wherever it stands, is undefined behaviour.
    Otherwise every setting is what the last occurrence of its option says, or its
    default: -w sets the receive capacity (modulo 2^64) and -t the timeout (modulo
    2^16), -a and -s the source, -n the next hop, -d the device and -Lu and -Ld the loss
    rates.  A client connects to the last two words as host and port.  With -l the
    address to bind is the port at address 0, whatever the host (contrary to the usage
    text); tcp_ipv4 refuses port 0 there. *)
Theorem command_lines_reference (resolve : string -> string -> res Address.t) (strtof : string -> spec_float)
  (random : Z) (name : string) (words : list string) (host port : string) :
  let argv := name :: words ++ [host; port] in
  TcpUdp.get_config resolve strtof argv =
    Manual.conclude (Manual.bad_rate strtof) (Manual.read_options Manual.tcp_udp words) (fun os =>
      if Manual.listening os
      then a ← resolve "0" port;
           Ok (Run (TcpUdp.mk (Manual.tcp_config os) (Manual.link strtof a Manual.unset os) true))
      else a ← resolve host port;
           Ok (Run (TcpUdp.mk (Manual.tcp_config os) (Manual.link strtof Manual.unset a os) false))) /\
  TcpIpv4.get_config resolve strtof random argv =
    Manual.conclude (Manual.bad_rate strtof) (Manual.read_options Manual.tcp_ipv4 words) (fun os =>
      let device := Manual.given Manual.Device os in
      let addr := Manual.text Manual.SourceAddress "169.254.144.9" os in
      let sport := Manual.text Manual.SourcePort (pretty (u16 random)) os in
      if Manual.listening os
      then a ← resolve "0" port;
           if Address.port a =? 0 then Ok (Quit 1 (Some "ERROR: listen port cannot be zero in server mode."))
           else Ok (Run (TcpIpv4.mk (Manual.tcp_config os) (Manual.link strtof a Manual.unset os) device true addr sport))
      else d ← resolve host port;
           a ← resolve addr sport;
           Ok (Run (TcpIpv4.mk (Manual.tcp_config os) (Manual.link strtof a d os) device false addr sport))) /\
  TcpIpEthernet.get_config resolve random argv =
    Manual.conclude (fun _ => false) (Manual.read_options Manual.tcp_ip_ethernet words) (fun os =>
      let addr := Manual.text Manual.SourceAddress "169.254.10.9" os in
      let sport := Manual.text Manual.SourcePort (pretty (u16 random)) os in
      let hop := Manual.text Manual.NextHop "169.254.10.1" os in
      d ← resolve host port;
      a ← resolve addr sport;
      next_hop ← resolve hop "0";
      Ok (Run (TcpIpEthernet.mk (Manual.tcp_config os) (mkConfig a d 0 0)
                 (Manual.text Manual.Device "tap10" os) addr sport hop, next_hop))).
Proof.
  cbv zeta. destruct (last_words name words host port) as (H1 & H2 & H3). cbv zeta in H1, H2, H3.
  unfold TcpUdp.get_config, TcpIpv4.get_config, TcpIpEthernet.get_config. split_and!.
  - rewrite (options_reference _ name words host port _ (fun _ => TcpUdp.positional resolve _)).
    rewrite (Manual.reference_conclude _ _ _ _ (fun os => Manual.udp_final strtof os TcpUdp.start) _ _ _
      (Manual.udp_table strtof) (fun os => Manual.udp_effects strtof os _)).
    apply Manual.conclude_ext. intros os. unfold TcpUdp.positional. rewrite H1, H3. cbn [mbind res_bind].
    change (TcpUdp.listen _) with (Manual.listening os).
    destruct (Manual.listening os) eqn:El; unfold Manual.listening in El; apply res_bind_ext; intros a;
      unfold TcpUdp.on_filt; cbn [TcpUdp.listen TcpUdp.start Manual.udp_final]; by rewrite El.
  - rewrite options_reference.
    rewrite (Manual.reference_conclude _ _ _ _ (fun os => Manual.ipv4_final strtof os (TcpIpv4.start random)) _ _ _
      (Manual.ipv4_table strtof) (fun os => Manual.ipv4_effects strtof os _)).
    apply Manual.conclude_ext. intros os. unfold TcpIpv4.positional. rewrite H1, H2. cbn [mbind res_bind].
    change (TcpIpv4.listen _) with (Manual.listening os).
    assert (Hd : Manual.chosen Manual.Device Some None os = Manual.given Manual.Device os)
      by (unfold Manual.chosen; by destruct (Manual.given _ os)). rewrite <- Hd.
    destruct (Manual.listening os) eqn:El; unfold Manual.listening in El; apply res_bind_ext; intros a;
      [destruct (_ =? 0); [done|]|apply res_bind_ext; intros b];
      unfold TcpIpv4.on_filt; cbn [TcpIpv4.listen TcpIpv4.start Manual.ipv4_final]; by rewrite El.
  - rewrite options_reference.
    rewrite (Manual.reference_conclude _ _ _ (fun _ => false)
      (fun os => Manual.ethernet_final os (TcpIpEthernet.start random)) _ _ _
      Manual.ethernet_table (fun os => Manual.ethernet_effects os _)).
    apply Manual.conclude_ext. intros os. unfold TcpIpEthernet.positional. by rewrite H1, H2.
Qed.

(** A client with two windows, and a server with a loss rate. *)
Example command_line_client :
  TcpIpv4.get_config (fun h p => Ok (Address.mk 1 7)) (fun _ => S754_finite false 8388608 (-24)) 5
    ["tcp_ipv4"; "-w"; "100"; "-t"; "65537"; "-w"; "4096"; "host"; "7"] =
  Ok (Run (TcpIpv4.mk (TCPConfig.mk 1 4096 64000 None) (mkConfig (Address.mk 1 7) (Address.mk 1 7) 0 0)
             None false "169.254.144.9" "5")).
Proof. vm_compute. reflexivity. Qed.
Example command_line_server :
  TcpIpv4.get_config (fun h p => Ok (Address.mk 1 7)) (fun _ => S754_finite false 8388608 (-24)) 5
    ["tcp_ipv4"; "-Lux"; "0.5"; "-l"; "ignored"; "7"] =
  Ok (Run (TcpIpv4.mk TCPConfig.default (mkConfig (Address.mk 1 7) (Address.mk 0 0) 0 32767)
             None true "169.254.144.9" "5")).
Proof. vm_compute. reflexivity. Qed.

(** ** Numbers written out *)

Lemma pretty_digit d : (d < 10)%N ->
  Strtol.code (pretty_N_char d) = 48 + Z.of_N d /\ Strtol.digit 10 (pretty_N_char d) = Some (Z.of_N d).
Proof.
  intros Hd. assert (Hc : (d = 0 \/ d = 1 \/ d = 2 \/ d = 3 \/ d = 4 \/ d = 5 \/ d = 6 \/ d = 7 \/ d = 8 \/ d = 9)%N) by lia.
  by repeat (destruct Hc as [->|Hc] || rewrite Hc).
Qed.

Lemma digits_pretty x : forall s, Strtol.digits 10 0 (pretty_N_go x s) = Strtol.digits 10 (Z.of_N x) s.
Proof.
  induction (N.lt_wf_0 x) as [x _ IH]. intros s. destruct (decide (0 < x)%N) as [Hx|].
  - rewrite pretty_N_go_step, IH by (done || by apply N.div_lt). cbn [Strtol.digits].
    destruct (pretty_digit (x `mod` 10)) as [_ ->]; [by apply N.mod_lt|].
    f_equal. pose proof (N.div_mod x 10 ltac:(done)). lia.
  - by assert (x = 0%N) as -> by lia.
Qed.

Lemma pretty_head x : (0 < x)%N -> forall s, exists d s', (0 < d < 10)%N /\ pretty_N_go x s = String (pretty_N_char d) s'.
Proof.
  induction (N.lt_wf_0 x) as [x _ IH]. intros Hx s. rewrite pretty_N_go_step by done.
  destruct (decide (x < 10)%N).
  - rewrite N.div_small, N.mod_small, pretty_N_go_0 by done. by exists x, s.
  - apply IH; [by apply N.div_lt|]. apply N.div_str_pos. lia.
Qed.

(** [strtol] reads back what [std::to_string] has written. *)
Lemma strtol_pretty n : 0 <= n < two63 -> Strtol.strtol (pretty n) = n.
Proof.
  intros Hn. destruct n as [|p|]; [done| |lia].
  change (pretty (Zpos p)) with (pretty_N_go (Npos p) "").
  destruct (pretty_head (Npos p) eq_refl "") as (d & s' & Hd & E). destruct (pretty_digit d) as [Hc _]; [lia|].
  assert (Hm : Strtol.magnitude (pretty_N_go (Npos p) "") = Zpos p).
  { transitivity (Strtol.digits 10 0 (pretty_N_go (Npos p) "")); [|by rewrite digits_pretty].
    rewrite E. cbn [Strtol.magnitude]. rewrite (proj2 (Z.eqb_neq _ _)) by lia. by destruct s' as [|? [|? ?]]. }
  unfold Strtol.strtol. rewrite E in *. cbn [Strtol.skip_spaces]. unfold Strtol.isspace, Strtol.between.
  rewrite !(proj2 (Z.eqb_neq _ _)), (proj2 (Z.leb_gt (Strtol.code _) 13)), andb_false_r by lia. cbn [orb].
  rewrite !(proj2 (Z.eqb_neq _ _)), Hm by lia. lia.
Qed.
