(* ===== verification/RawAddress.v ===== *)
(** * Socket addresses as the code stores them (util/address.hh, util/address.cc)

    Elsewhere an [Address] is a pair of numbers.  Here it is what the class holds: a
    size and the bytes of a [sockaddr_storage].  The resolver of the C library is an
    interface ([Resolver]); the theorems show that the class implements the pairs of
    numbers, and the interface [Address.Netdb] is discharged from the documented
    behaviour of the resolver. *)

From stdpp Require Import strings pretty.
From S2P Require Import Prelude Parsing Addresses CommandLine.
From Stdlib Require Import Strings.Byte.
From Stdlib Require Strings.Ascii Strings.String.

#[local] Open Scope list_scope.
#[local] Open Scope Z_scope.

(** ** The C library *)

Definition AF_INET : Z := 2.
Definition AI_NUMERICHOST : Z := 4.
Definition AI_ALL : Z := 16.
Definition AI_NUMERICSERV : Z := 1024.
Definition NI_NUMERICHOST : Z := 1.
Definition NI_NUMERICSERV : Z := 2.
Definition sizeof_sockaddr_in : Z := 16.
Definition sizeof_sockaddr_storage : Z := 128.

(** [c_str()] as the library reads it: up to the first null character. *)
Fixpoint c_str (s : string) : string :=
  match s with
  | String c s' => if Strtol.code c =? 0 then EmptyString else String c (c_str s')
  | EmptyString => EmptyString
  end.

(** [std::stoi(s)]: [strtol] in base 10, where no digits and no [int] are errors. *)
Definition stoi (s : string) : res Z :=
  let s := Strtol.skip_spaces s in
  let '(sign, s) :=
    match s with
    | String c s' => if Strtol.code c =? 45 then (-1, s') else if Strtol.code c =? 43 then (1, s') else (1, s)
    | EmptyString => (1, s)
    end in
  match s with
  | String c _ =>
      match Strtol.digit 10 c with
      | Some _ =>
          let v := sign * Strtol.digits 10 0 s in
          if (v <? - two31) || (two31 - 1 <? v) then Throw out_of_range else Ok v
      | None => Throw invalid_argument
      end
  | EmptyString => Throw invalid_argument
  end.

(** The name service: a result code, and the first entry of the list if there is one,
    with its [ai_addrlen]; or the host and the service as strings. *)
Class Resolver : Type := {
  getaddrinfo : string -> string -> Z -> Z -> Z * option (bytes * Z);
  getnameinfo : bytes -> Z -> Z -> Z * string * string
}.

Module RawAddress.

(** The byte order of the machine. *)
Section Host.
Context (little : bool).

Definition store16 (v : Z) : bytes := if little then rev (NetUnparser.be 2 v) else NetUnparser.be 2 v.
Definition load16 (m : bytes) : Z := NetParser.be_val (if little then rev m else m).
Definition store32 (v : Z) : bytes := if little then rev (NetUnparser.be 4 v) else NetUnparser.be 4 v.
Definition load32 (m : bytes) : Z := NetParser.be_val (if little then rev m else m).

(** The number whose bytes in memory are the big-endian ones of [v], and back. *)
Definition htobe32 (v : Z) : Z := load32 (NetUnparser.be 4 v).
Definition be32toh (v : Z) : Z := NetParser.be_val (store32 v).

(** [struct sockaddr_in] in memory: family, port, address and eight unused bytes. *)
Definition sockaddr_in (sin_family : Z) (sin_port : bytes) (s_addr : Z) (sin_zero : bytes) : bytes :=
  store16 sin_family ++ sin_port ++ store32 s_addr ++ sin_zero.

(** [n] bytes of a memory block from an offset. *)
Definition field (off n : nat) (m : bytes) : bytes := take n (drop off m).

(** ** The class *)

(** [_size] and the bytes of [_address]. *)
Record t : Type := mk { _size : Z; _address : bytes }.

(** [Address(const sockaddr *addr, const size_t size)]. *)
Definition of_sockaddr (addr : bytes) (size : Z) : res t :=
  if sizeof_sockaddr_storage <? size then Throw runtime_error
  else if zlen addr <? size then Throw undefined
  else Ok (mk (u32 size) (take (Z.to_nat size) addr ++
                          drop (Z.to_nat size) (replicate (Z.to_nat sizeof_sockaddr_storage) x00))).

Context `{Resolver}.

(** [Address(node, service, hints)]; [hints] has two fields that are not zero.
    [tagged_error] is a [runtime_error]. *)
Definition of_names (node service : string) (ai_flags ai_family : Z) : res t :=
  let '(gai_ret, resolved_address) := getaddrinfo (c_str node) (c_str service) ai_flags ai_family in
  if negb (gai_ret =? 0) then Throw runtime_error
  else
    match resolved_address with
    | None => Throw runtime_error
    | Some (ai_addr, ai_addrlen) => of_sockaddr ai_addr ai_addrlen
    end.

Definition of_host (hostname service : string) : res t := of_names hostname service AI_ALL AF_INET.
Definition of_ip (ip : string) (port : Z) : res t :=
  of_names ip (pretty port) (Z.lor AI_NUMERICHOST AI_NUMERICSERV) AF_INET.

Definition ip_port (a : t) : res (string * Z) :=
  let '(gni_ret, ip, port) := getnameinfo (_address a) (_size a) (Z.lor NI_NUMERICHOST NI_NUMERICSERV) in
  if negb (gni_ret =? 0) then Throw runtime_error
  else
    n ← stoi port;
    Ok (ip, u16 n).
Definition ip (a : t) : res string := p ← ip_port a; Ok p.1.
Definition port (a : t) : res Z := p ← ip_port a; Ok p.2.

Definition to_string (a : t) : res string :=
  ip_and_port ← ip_port a;
  Ok (ip_and_port.1 +:+ ":" +:+ pretty ip_and_port.2).

Definition ipv4_numeric (a : t) : res Z :=
  if negb (load16 (field 0 2 (_address a)) =? AF_INET) || negb (_size a =? sizeof_sockaddr_in) then Throw runtime_error
  else Ok (be32toh (load32 (field 4 4 (_address a)))).

Definition from_ipv4_numeric (ip_address : Z) : res t :=
  of_sockaddr (sockaddr_in AF_INET (replicate 2 x00) (htobe32 ip_address) (replicate 8 x00)) sizeof_sockaddr_in.

(** [operator==]. *)
Definition eqb (a other : t) : bool :=
  if negb (_size a =? _size other) then false
  else bool_decide (take (Z.to_nat (_size a)) (_address a) = take (Z.to_nat (_size a)) (_address other)).

End Host.

(** ** The class implements a pair of numbers *)

(** The bytes of an address and a port; [pad] are the unused bytes. *)
Definition image (little : bool) (b : Address.t) (pad : bytes) : bytes :=
  sockaddr_in little AF_INET (NetUnparser.be 2 (Address.port b)) (htobe32 little (Address.ipv4_numeric b)) pad.

Definition stands (little : bool) (pad : bytes) (a : t) (b : Address.t) : Prop :=
  length pad = 8%nat /\ _size a = sizeof_sockaddr_in /\ exists rest, _address a = image little b pad ++ rest.

(** What is documented of the name service: dotted quads ([ntop]) and numbers are
    written and read back, and an answer for [AF_INET] is a [sockaddr_in]. *)
Record lawful (little : bool) (R : Resolver) (ntop : Z -> string) : Prop := {
  law_text : forall ip, 0 <= ip < two32 -> c_str (ntop ip) = ntop ip;
  law_numeric : forall b, Address.wf b -> exists pad, length pad = 8%nat /\
    getaddrinfo (ntop (Address.ipv4_numeric b)) (pretty (Address.port b)) (Z.lor AI_NUMERICHOST AI_NUMERICSERV) AF_INET =
      (0, Some (image little b pad, sizeof_sockaddr_in));
  law_getnameinfo : forall b pad rest, Address.wf b -> length pad = 8%nat ->
    getnameinfo (image little b pad ++ rest) sizeof_sockaddr_in (Z.lor NI_NUMERICHOST NI_NUMERICSERV) =
      (0, ntop (Address.ipv4_numeric b), pretty (Address.port b));
  law_family : forall node service flags r, getaddrinfo node service flags AF_INET = (0, r) ->
    exists b pad, Address.wf b /\ length pad = 8%nat /\ r = Some (image little b pad, sizeof_sockaddr_in)
}.

Lemma b2z_inj x y : b2z x = b2z y -> x = y.
Proof. intros Hx. by rewrite <- (z2b_b2z x), Hx, z2b_b2z. Qed.

Lemma be4_be_val m : length m = 4%nat -> NetUnparser.be 4 (NetParser.be_val m) = m.
Proof.
  destruct m as [|b0 [|b1 [|b2 [|b3 [|]]]]]; try discriminate. intros _. rewrite NetUnparser.be_4.
  unfold NetParser.be_val. cbn [foldl]. pose proof (b2z_range b0). pose proof (b2z_range b1).
  pose proof (b2z_range b2). pose proof (b2z_range b3).
  repeat f_equal; apply b2z_inj; rewrite b2z_z2b; unfold u8; Z.div_mod_to_equations; lia.
Qed.

Lemma store_htobe32 little v : store32 little (htobe32 little v) = NetUnparser.be 4 v.
Proof.
  pose proof (NetUnparser.length_be 4 v) as Hl. unfold store32, htobe32, load32. destruct little.
  - by rewrite be4_be_val, rev_involutive by (by rewrite length_rev).
  - by rewrite be4_be_val.
Qed.

Lemma load_store16 little v : 0 <= v < two16 -> load16 little (store16 little v) = v.
Proof.
  intros Hv. unfold load16, store16. destruct little; rewrite ?rev_involutive, NetUnparser.be_val_be2; by apply u16_small.
Qed.

Lemma be32toh_load little m : length m = 4%nat -> be32toh little (load32 little m) = NetParser.be_val m.
Proof.
  intros Hm. unfold be32toh, store32, load32. destruct little.
  - by rewrite be4_be_val, rev_involutive by (by rewrite length_rev).
  - by rewrite be4_be_val.
Qed.

Lemma length_store16 little v : length (store16 little v) = 2%nat.
Proof. unfold store16. destruct little; by rewrite ?length_rev, NetUnparser.length_be. Qed.

Lemma image_layout little b pad :
  image little b pad = store16 little AF_INET ++ NetUnparser.be 2 (Address.port b) ++ NetUnparser.be 4 (Address.ipv4_numeric b) ++ pad.
Proof. unfold image, sockaddr_in. by rewrite store_htobe32. Qed.

Lemma length_image little b pad : length pad = 8%nat -> length (image little b pad) = 16%nat.
Proof. intros Hp. by rewrite image_layout, !length_app, length_store16, !NetUnparser.length_be, Hp. Qed.

(** The image determines the numbers and the unused bytes. *)
Lemma image_inj little b b' pad pad' : Address.wf b -> Address.wf b' ->
  image little b pad = image little b' pad' -> b = b' /\ pad = pad'.
Proof.
  intros [Hi Hp] [Hi' Hp'] Heq. rewrite !image_layout in Heq. apply app_inv_head in Heq.
  apply app_inj_1 in Heq as [H1 Heq]; [|by rewrite !NetUnparser.length_be].
  apply app_inj_1 in Heq as [H2 ->]; [|by rewrite !NetUnparser.length_be].
  apply (f_equal NetParser.be_val) in H1, H2. rewrite !NetUnparser.be_val_be2, !u16_small in H1 by done.
  rewrite !NetUnparser.be_val_be4, !u32_small in H2 by done. split; [|done]. destruct b, b'; cbn in *; congruence.
Qed.

(** Storing a [sockaddr_in]. *)
Lemma of_sockaddr_image little b pad : length pad = 8%nat ->
  exists a, of_sockaddr (image little b pad) sizeof_sockaddr_in = Ok a /\ stands little pad a b.
Proof.
  intros Hp. pose proof (length_image little b pad Hp) as Hl. unfold of_sockaddr, sizeof_sockaddr_in, sizeof_sockaddr_storage.
  rewrite (proj2 (Z.ltb_ge (zlen _) _)) by lia. eexists. split; [reflexivity|]. split; [done|]. split; [done|].
  eexists. cbn [_address]. by rewrite take_ge by (change (Z.to_nat 16) with 16%nat; lia).
Qed.

Lemma stands_numeric little pad a b : Address.wf b -> stands little pad a b ->
  ipv4_numeric little a = Ok (Address.ipv4_numeric b).
Proof.
  intros [Hi _] (Hp & Hs & rest & Ha). unfold ipv4_numeric, field. rewrite Ha, Hs, image_layout, <- !app_assoc.
  rewrite drop_0, take_app_length' by (by rewrite length_store16). rewrite load_store16 by done. cbn [negb orb Z.eqb].
  rewrite !app_assoc, <- (app_assoc _ _ rest), <- (app_assoc _ _ (pad ++ rest)).
  rewrite drop_app_length' by (by rewrite length_app, length_store16, NetUnparser.length_be).
  rewrite take_app_length' by (by rewrite NetUnparser.length_be).
  rewrite be32toh_load, NetUnparser.be_val_be4 by (by rewrite NetUnparser.length_be). by rewrite u32_small.
Qed.

Lemma stands_eqb little pad pad' a a' b b' : Address.wf b -> Address.wf b' ->
  stands little pad a b -> stands little pad' a' b' -> eqb a a' = bool_decide (b = b' /\ pad = pad').
Proof.
  intros Hb Hb' (Hp & Hs & rest & Ha) (Hp' & Hs' & rest' & Ha'). unfold eqb. rewrite Hs, Hs', Ha, Ha'. cbn [negb Z.eqb].
  rewrite !take_app_length' by (by rewrite length_image). apply bool_decide_ext. split.
  - by apply image_inj.
  - by intros [-> ->].
Qed.

(** [stoi] reads what [to_string] writes. *)
Lemma stoi_pretty n : 0 <= n < two31 -> stoi (pretty n) = Ok n.
Proof.
  intros Hn. destruct n as [|p|]; [done| |lia].
  change (pretty (Zpos p)) with (pretty_N_go (Npos p) ""). unfold stoi.
  destruct (pretty_head (Npos p) eq_refl "") as (d & s' & Hd & E). destruct (pretty_digit d) as [Hc Hdg]; [lia|].
  pose proof (digits_pretty (Npos p) "") as Hv. rewrite E in *. cbn [Strtol.skip_spaces]. unfold Strtol.isspace, Strtol.between.
  rewrite !(proj2 (Z.eqb_neq _ _)), (proj2 (Z.leb_gt (Strtol.code _) 13)), andb_false_r by lia. cbn [orb].
  rewrite !(proj2 (Z.eqb_neq _ _)) by lia. rewrite Hdg, Hv. cbn [Strtol.digits]. rewrite Z.mul_1_l.
  by rewrite (proj2 (Z.ltb_ge _ _)), (proj2 (Z.ltb_ge _ _)) by lia.
Qed.

(** A number as text has no null character. *)
Lemma c_str_cons c s : Strtol.code c <> 0 -> c_str (String c s) = String c (c_str s).
Proof. intros Hc. cbn [c_str]. by rewrite (proj2 (Z.eqb_neq _ _) Hc). Qed.

Lemma c_str_pretty_go x : forall s, c_str s = s -> c_str (pretty_N_go x s) = pretty_N_go x s.
Proof.
  induction (N.lt_wf_0 x) as [x _ IH]. intros s Hs. destruct (decide (0 < x)%N) as [Hx|].
  - rewrite pretty_N_go_step by done. apply IH; [by apply N.div_lt|].
    destruct (pretty_digit (x `mod` 10)) as [Hc _]; [by apply N.mod_lt|].
    generalize dependent (x `mod` 10)%N. intros d Hc. by rewrite c_str_cons, Hs by lia.
  - by assert (x = 0%N) as -> by lia.
Qed.

Lemma c_str_pretty n : 0 <= n -> c_str (pretty n) = pretty n.
Proof.
  intros Hn. destruct n as [|p|]; [done| |lia]. change (pretty (Zpos p)) with (pretty_N_go (Npos p) "").
  by apply c_str_pretty_go.
Qed.

Section Refinement.
Context (little : bool) (R : Resolver) (ntop : Z -> string) (HL : lawful little R ntop).

Lemma of_ip_stands b : Address.wf b ->
  exists a pad, of_ip (ntop (Address.ipv4_numeric b)) (Address.port b) = Ok a /\ stands little pad a b.
Proof.
  intros Hb. pose proof Hb as [Hi Hp]. destruct (law_numeric _ _ _ HL b Hb) as (pad & Hpad & E).
  destruct (of_sockaddr_image little b pad Hpad) as (a & Ea & Ha). exists a, pad. split; [|done].
  unfold of_ip, of_names. rewrite (law_text _ _ _ HL) by done. rewrite c_str_pretty by lia. by rewrite E.
Qed.

Lemma stands_ip_port pad a b : Address.wf b -> stands little pad a b ->
  ip_port a = Ok (ntop (Address.ipv4_numeric b), Address.port b).
Proof.
  intros Hb (Hp & Hs & rest & Ha). unfold ip_port. rewrite Ha, Hs, (law_getnameinfo _ _ _ HL) by done. cbn [negb Z.eqb].
  destruct Hb as [_ Hport]. rewrite stoi_pretty by lia. cbn. by rewrite u16_small.
Qed.

(** The interface that the rest of the development relies on. *)
Definition netdb : Address.Netdb.
Proof.
  refine {| Address.inet_ntoa := ntop;
            Address.getaddrinfo := fun s p =>
              match of_ip s p with
              | Ok a => match ipv4_numeric little a, port a with Ok i, Ok q => Some (Address.mk i q) | _, _ => None end
              | Throw _ => None
              end |}.
  intros i p Hi Hp. set (b := Address.mk i p). assert (Hb : Address.wf b) by (by split).
  destruct (of_ip_stands b Hb) as (a & pad & E & Ha). cbn [Address.ipv4_numeric Address.port b] in E. rewrite E.
  unfold port. by rewrite (stands_numeric little pad a b Hb Ha), (stands_ip_port pad a b Hb Ha).
Defined.

End Refinement.

(** C37: the class [Address], which keeps the bytes of a [sockaddr], implements pairs of
    an address and a port, in either byte order.  A dotted quad and a port give an
    address that stands for them; from one that does, [ip_port], [to_string] and
    [ipv4_numeric] give them back, and [from_ipv4_numeric] makes one with port zero;
    two are equal exactly when the pairs, and the unused bytes, are; and every name
    that resolves gives an address of which [ipv4_numeric] does not throw. *)
Theorem address_refines_pair (little : bool) (R : Resolver) (ntop : Z -> string) (HL : lawful little R ntop)
  (b : Address.t) (Hb : Address.wf b) :
  (exists a pad, of_ip (ntop (Address.ipv4_numeric b)) (Address.port b) = Ok a /\ stands little pad a b) /\
  (exists a, from_ipv4_numeric little (Address.ipv4_numeric b) = Ok a /\
     stands little (replicate 8 x00) a (Address.from_ipv4_numeric (Address.ipv4_numeric b))) /\
  (forall pad a, stands little pad a b ->
     ip_port a = Ok (ntop (Address.ipv4_numeric b), Address.port b) /\
     to_string a = Ok (ntop (Address.ipv4_numeric b) +:+ ":" +:+ pretty (Address.port b)) /\
     ipv4_numeric little a = Ok (Address.ipv4_numeric b) /\
     forall pad' a' b', Address.wf b' -> stands little pad' a' b' -> eqb a a' = bool_decide (b = b' /\ pad = pad')) /\
  (forall hostname service a, of_host hostname service = Ok a -> exists i, ipv4_numeric little a = Ok i).
Proof.
  split; [by apply of_ip_stands|]. split.
  { destruct (of_sockaddr_image little (Address.from_ipv4_numeric (Address.ipv4_numeric b)) (replicate 8 x00) eq_refl)
      as (a & E & Ha). by exists a. }
  split.
  - intros pad a Ha. pose proof (stands_ip_port little R ntop HL pad a b Hb Ha) as E. split; [done|].
    split; [unfold to_string; by rewrite E|]. split; [by eapply stands_numeric|].
    intros pad' a' b' Hb' Ha'. by eapply stands_eqb.
  - intros hostname service a E. unfold of_host, of_names in E.
    destruct (getaddrinfo _ _ _ _) as [r x] eqn:Eg. destruct (r =? 0) eqn:Er; zb; cbn [negb] in E; [|done]. subst r.
    destruct (law_family _ _ _ HL _ _ _ _ Eg) as (b' & pad & Hb' & Hp & ->).
    destruct (of_sockaddr_image little b' pad Hp) as (a' & E' & Ha). rewrite E' in E. injection E as <-.
    exists (Address.ipv4_numeric b'). by eapply stands_numeric.
Qed.

(** A resolver that knows dotted quads and numbers only. *)
Module Numeric.

Definition demo_resolver : Resolver := {|
  getaddrinfo := fun node service _ _ =>
    (0, Some (image true (Address.mk (u32 (DottedQuad.read_quad node))
                (u16 (match stoi service with Ok n => n | Throw _ => 0 end))) (replicate 8 x00), sizeof_sockaddr_in));
  getnameinfo := fun m _ _ =>
    (0, DottedQuad.inet_ntoa (NetParser.be_val (field 4 4 m)), pretty (NetParser.be_val (field 2 2 m)))
|}.

Lemma digit_code d : 0 <= d < 10 -> Strtol.code (DottedQuad.digit d) <> 0.
Proof. intros Hd. unfold Strtol.code, DottedQuad.digit. rewrite Ascii.nat_ascii_embedding; lia. Qed.

Lemma octet_codes n : 0 <= n < 256 -> Forall (fun c => Strtol.code c <> 0) (DottedQuad.octet n).
Proof.
  intros Hn. unfold DottedQuad.octet. destruct (n <? 10) eqn:E1; [|destruct (n <? 100) eqn:E2]; zb;
    repeat (constructor; [apply digit_code; Z.div_mod_to_equations; lia|]); constructor.
Qed.

Lemma c_str_list l : Forall (fun c => Strtol.code c <> 0) l ->
  c_str (String.string_of_list_ascii l) = String.string_of_list_ascii l.
Proof. induction 1 as [|c l Hc _ IH]; [done|]. cbn [String.string_of_list_ascii]. by rewrite c_str_cons, IH. Qed.

Lemma demo_resolver_lawful : lawful true demo_resolver DottedQuad.inet_ntoa.
Proof.
  split.
  - intros i Hi. apply c_str_list. rewrite !Forall_app. split_and!; try (by repeat constructor);
      apply octet_codes; apply Z.mod_pos_bound; lia.
  - intros [i p] [Hi Hp]. cbn in Hi, Hp. exists (replicate 8 x00). split; [done|]. cbn [getaddrinfo demo_resolver Address.ipv4_numeric Address.port].
    by rewrite DottedQuad.read_inet_ntoa, stoi_pretty, u32_small, u16_small by lia.
  - intros b pad rest [Hi Hp] Hpad. cbn [getnameinfo demo_resolver]. unfold field. rewrite image_layout, <- !app_assoc.
    rewrite (drop_app_length' _ _ 2) by (by rewrite length_store16). rewrite take_app_length' by (by rewrite NetUnparser.length_be).
    rewrite (app_assoc (store16 _ _)), (drop_app_length' _ _ 4) by (by rewrite length_app, length_store16, NetUnparser.length_be).
    rewrite take_app_length' by (by rewrite NetUnparser.length_be).
    by rewrite NetUnparser.be_val_be2, NetUnparser.be_val_be4, u16_small, u32_small.
  - intros node service flags r [= <-]. eexists _, (replicate 8 x00). split; [|by split]. split; [apply u32_range|apply u16_range].
Qed.

End Numeric.

Lemma address_refines_pair_witness :
  exists a pad, @of_ip Numeric.demo_resolver "10.0.0.192" 1234 = Ok a /\ stands true pad a (Address.mk 167772352 1234).
Proof.
  destruct (address_refines_pair true Numeric.demo_resolver DottedQuad.inet_ntoa Numeric.demo_resolver_lawful
    (Address.mk 167772352 1234)) as (Ha & _); [split; vm_compute; intuition congruence|exact Ha].
Defined.

(** When the class throws: a [sockaddr] that does not fit is refused, and one that is
    not an IPv4 address has no number. *)
Theorem address_errors (little : bool) (addr : bytes) (size : Z) (Hsize : 0 <= size <= zlen addr) (a : t) :
  (of_sockaddr addr size = Throw runtime_error <-> sizeof_sockaddr_storage < size) /\
  (size <= sizeof_sockaddr_storage -> exists a', of_sockaddr addr size = Ok a' /\ _size a' = size /\
     zlen (_address a') = sizeof_sockaddr_storage /\ take (Z.to_nat size) (_address a') = take (Z.to_nat size) addr) /\
  (ipv4_numeric little a = Throw runtime_error <->
     load16 little (field 0 2 (_address a)) <> AF_INET \/ _size a <> sizeof_sockaddr_in).
Proof.
  unfold of_sockaddr, ipv4_numeric. rewrite (proj2 (Z.ltb_ge (zlen addr) size)) by lia. split_and!.
  - destruct (sizeof_sockaddr_storage <? size) eqn:E; zb; split; intros; try done; lia.
  - intros Hle. rewrite (proj2 (Z.ltb_ge _ _)) by done. eexists. split; [done|]. cbn [_size _address].
    unfold sizeof_sockaddr_storage in *. split; [apply u32_small; lia|]. split.
    + rewrite length_app, length_take, length_drop, length_replicate. lia.
    + rewrite take_app_length' by (rewrite length_take; lia). done.
  - destruct (_ =? AF_INET) eqn:E1, (_size a =? sizeof_sockaddr_in) eqn:E2; zb; cbn; split; intros; try done; try tauto;
      intuition congruence.
Qed.

End RawAddress.
