(* ===== verification/Apps.v ===== *)
(** * Small programs (apps/webget.cc, tcp_native.cc, tun.cc)

    [webget] fetches a page through a [FullStackSocket]; [tcp_native] copies between
    the terminal and a socket of the kernel; [tun] says what arrives on a TUN device.
    In [webget] the thread that serves the connection is on the other side of the
    kernel: it shows in what the descriptors deliver. *)

From stdpp Require Import strings.
From S2P Require Import Prelude Wrapping Buffers Parsing TcpWire Ipv4Wire TcpConnection EthernetWire NetworkInterface Addresses FileDescriptor Sockets Adapter EventLoop SpongeSocket StreamCopy CommandLine.
From Stdlib Require Import Strings.Byte.
From Stdlib Require Strings.Ascii Strings.String.

#[local] Open Scope list_scope.
#[local] Open Scope Z_scope.

(** ** webget *)

Module Webget.

Definition CRLF : string := String (Ascii.ascii_of_nat 13) (String (Ascii.ascii_of_nat 10) EmptyString).

(** The three strings that are written. *)
Definition request (host path : string) : list string :=
  [ "GET " +:+ path +:+ " HTTP/1.1" +:+ CRLF; "Host: " +:+ host +:+ CRLF; "Connection: close" +:+ CRLF +:+ CRLF ].

Section Webget.
Context {K : Type} `{Kernel K} `{Address.Netdb} (resolve : string -> string -> res Address.t).
Abbreviation socket := (@TCPSpongeSocket.t K TCPOverIPv4OverEthernetAdapter.t).

Definition on_self {B} (f : FileDescriptor.t -> io (world K) B) : io socket B :=
  TCPSpongeSocket.on_fd TCPSpongeSocket.self f.

Fixpoint write_all (texts : list string) : io socket unit :=
  match texts with
  | [] => mret tt
  | text :: texts' =>
      _ ← on_self (FileDescriptor.write_string (String.list_byte_of_string text) true);
      write_all texts'
  end.

(** The loop of [get_URL], cut off after [fuel] rounds: whether it has ended, and what
    was printed. *)
Fixpoint print_reply (fuel : nat) (printed : bytes) : io socket (bool * bytes) :=
  eof ← on_self FileDescriptor.eof;
  if (eof : bool) then mret (true, printed)
  else
    match fuel with
    | O => mret (false, printed)
    | S fuel' =>
        data ← on_self (FileDescriptor.read FileDescriptor.no_limit);
        print_reply fuel' (printed ++ data)
    end.

(** [sock.close(); sock.wait_until_closed();]. *)
Definition finish : io socket unit :=
  _ ← on_self FileDescriptor.close;
  TCPSpongeSocket.wait_until_closed.

(** [get_URL] once the socket is connected. *)
Definition converse (fuel : nat) (host path : string) : io socket (bool * bytes) :=
  _ ← write_all (request host path);
  '(ended, printed) ← print_reply fuel [];
  if negb ended then mret (false, printed)
  else _ ← finish; mret (true, printed).

(** [get_URL]; the numbers are drawn for the Ethernet address, the source port and the
    initial sequence number. *)
Definition get_URL (fuel : nat) (host path : string) (random_address : nat -> Z) (random_port random : Z) (w : world K)
  : res (bool * bytes * socket) :=
  '(s, _) ← full_stack_make resolve random_address w;
  address ← resolve host "http";
  '(connected, _, s) ← full_stack_connect resolve fuel address random_port random s;
  if negb connected then Ok (false, [], s) else converse fuel host path s.

(** [main]: two arguments. *)
Definition arguments (argv : list string) : option (string * string) :=
  match argv with
  | [_; host; path] => Some (host, path)
  | _ => None
  end.

End Webget.

(** [errno] of a system call on a descriptor that is not open. *)
Definition EBADF : Z := 9.

(** What POSIX says of [close] and [shutdown]: the first succeeds or fails with an error
    number, and a descriptor that has been closed cannot be shut down. *)
Definition closed_for_good (K : Type) `{Kernel K} : Prop := forall fd k a k', k_close fd k = (a, k') ->
  ret a = -1 /\ errno a <> 0 \/
  ret a = 0 /\ forall how, exists k'', k_shutdown fd how k' = (Answer (-1) EBADF, k'').

Section Finish.
Context {K : Type} `{Kernel K} `{Address.Netdb} (resolve : string -> string -> res Address.t).
Context (Hclosed : closed_for_good K).
Abbreviation socket := (@TCPSpongeSocket.t K TCPOverIPv4OverEthernetAdapter.t).

(** Waiting for a socket that was just closed: the descriptor is gone. *)
Lemma finish_throws (s : socket) (c : cell) : heap (TCPSpongeSocket.os s) !! TCPSpongeSocket.self s = Some c ->
  exists e, finish s = Throw (unix_error e) /\ e <> 0 /\
    (ret (k_close (FDWrapper._fd (wrapper c)) (kernel (TCPSpongeSocket.os s))).1 = 0 -> e = EBADF).
Proof.
  intros Hc. destruct (k_close (FDWrapper._fd (wrapper c)) (kernel (TCPSpongeSocket.os s))) as [a k'] eqn:Ek.
  unfold finish, on_self, TCPSpongeSocket.on_fd. unfold mbind at 1, io_bind at 1. unfold lift at 1. cbn [view TCPSpongeSocket.socket_os].
  unfold FileDescriptor.close. rewrite (io_bind_run _ _ _ _ _ (FileDescriptor.fd_num_run _ _ _ Hc)).
  set (w1 := set_kernel k' (TCPSpongeSocket.os s)).
  rewrite (io_bind_run _ _ _ w1 a) by (unfold syscall; by rewrite Ek).
  destruct (Hclosed _ _ _ _ Ek) as [[Hr He]|[Hr Hsh]].
  - exists (errno a). unfold mbind, io_bind, of_res. rewrite FileDescriptor.SystemCall_fails by done.
    split; [done|]. split; [done|]. cbn. lia.
  - rewrite (io_bind_run _ _ _ w1 (ret a)) by (unfold of_res; by rewrite FileDescriptor.SystemCall_ok by lia).
    rewrite (FileDescriptor.assign_run FDWrapper.set_closed (TCPSpongeSocket.self s) w1 c Hc).
    set (w2 := set_cell _ _ w1).
    assert (Hc2 : heap w2 !! TCPSpongeSocket.self s = Some (mkCell (FDWrapper.set_closed (wrapper c)) (use_count c)))
      by apply lookup_insert_eq.
    exists EBADF. split; [|done]. destruct (Hsh SHUT_RDWR) as [k'' Eks].
    unfold TCPSpongeSocket.wait_until_closed, TCPSpongeSocket.on_fd, lift. cbn [view update TCPSpongeSocket.socket_os TCPSpongeSocket.os TCPSpongeSocket.set_os TCPSpongeSocket.self].
    unfold Socket.shutdown. rewrite (io_bind_run _ _ _ _ _ (FileDescriptor.fd_num_run _ _ _ Hc2)).
    rewrite (io_bind_run _ _ _ (set_kernel k'' w2) (Answer (-1) EBADF)); [done|].
    unfold syscall. change (kernel w2) with k'. cbn [wrapper FDWrapper._fd FDWrapper.set_closed]. by rewrite Eks.
Qed.

Lemma finish_never_returns (s s' : socket) u : finish s = Ok (u, s') -> False.
Proof.
  intros E. destruct (heap (TCPSpongeSocket.os s) !! TCPSpongeSocket.self s) as [c|] eqn:Hc.
  - destruct (finish_throws s c Hc) as (e & Ef & _). congruence.
  - unfold finish, on_self, TCPSpongeSocket.on_fd, lift in E. apply io_bind_Ok in E as (x & s1 & E & _).
    cbn [view TCPSpongeSocket.socket_os] in E. unfold FileDescriptor.close, FileDescriptor.fd_num, FileDescriptor.deref,
      FileDescriptor.get_cell, mbind, io_bind in E. by rewrite Hc in E.
Qed.

(** [webget] cannot end normally.  It closes the socket before it waits for the
    connection to end, and waiting starts with a [shutdown] of the descriptor that
    was just closed: whatever the page and the network are like, [get_URL] throws, or
    it is still connecting or reading. *)
Theorem webget_never_finishes (fuel : nat) (host path : string) (random_address : nat -> Z)
  (random_port random : Z) (w : world K) :
  match get_URL resolve fuel host path random_address random_port random w with
  | Ok (ended, printed, s) => ended = false
  | Throw e => True
  end.
Proof.
  destruct (get_URL _ _ _ _ _ _ _ w) as [[[ended printed] s']|] eqn:E; [|done]. unfold get_URL in E.
  apply bind_Ok in E as ([s w1] & _ & E). apply bind_Ok in E as (address & _ & E).
  apply bind_Ok in E as ([[connected rs] s1] & _ & E). destruct (negb connected); [by injection E as <- _ _|].
  unfold converse in E. apply io_bind_Ok in E as (u & s2 & _ & E). apply io_bind_Ok in E as ([b out] & s3 & _ & E).
  destruct (negb b) eqn:Eb; [by injection E as <- _ _|]. apply io_bind_Ok in E as (u' & s4 & E & _).
  by apply finish_never_returns in E.
Qed.

End Finish.

(** A kernel on which calls succeed, except a [shutdown], which comes too late. *)
Definition plain : Kernel unit := {|
  k_close := fun _ k => (Answer 0 0, k);
  k_read := fun _ _ k => (Answer 0 0, [], k);
  k_writev := fun _ iovecs k => (Answer (zlen (concat (fst <$> iovecs))) 0, k);
  k_getfl := fun _ k => (Answer 0 0, k);
  k_setfl := fun _ _ k => (Answer 0 0, k);
  k_poll := fun _ _ k => (Answer 0 0, [], k);
  k_clock := fun k => (0, k);
  k_socket := fun _ _ k => (Answer 5 0, k);
  k_socketpair := fun _ k => (Answer 0 0, (3, 4), k);
  k_getsockopt := fun _ _ _ k => (Answer 0 0, 1, 4, k);
  k_setsockopt := fun _ _ _ _ k => (Answer 0 0, k);
  k_getname := fun _ _ k => (Answer 0 0, Address.mk 0 0, k);
  k_bind := fun _ _ k => (Answer 0 0, k);
  k_connect := fun _ _ k => (Answer 0 0, k);
  k_shutdown := fun _ _ k => (Answer (-1) EBADF, k);
  k_recvfrom := fun _ _ k => (Answer 0 0, [], Address.mk 0 0, k);
  k_sendmsg := fun _ _ _ k => (Answer 0 0, k);
  k_listen := fun _ _ k => (Answer 0 0, k);
  k_accept := fun _ k => (Answer 6 0, k);
  k_open_tun := fun k => (Answer 7 0, k);
  k_tunsetiff := fun _ _ _ k => (Answer 0 0, k)
|}.

(** The peer never answers: the program is still connecting after three rounds. *)
Definition unanswered : res (bool * bytes * @TCPSpongeSocket.t unit TCPOverIPv4OverEthernetAdapter.t) :=
  @get_URL unit plain DottedQuad.netdb (fun h p => Ok (Address.mk 1 80)) 3 "example.org" "/" (fun _ => 0) 1 2 (mkWorld tt ∅ 0).

Lemma webget_never_finishes_witness :
  match unanswered with Ok (ended, _, _) => ended = false | Throw _ => True end /\
  match unanswered with Ok _ => True | Throw _ => False end.
Proof.
  assert (Hc : closed_for_good unit (H := plain)).
  { intros fd k a k' [= <- <-]. right. split; [reflexivity|]. intros how. exists k. reflexivity. }
  pose proof (webget_never_finishes (H := plain) (H0 := DottedQuad.netdb) (fun h p => Ok (Address.mk 1 80)) Hc 3
    "example.org" "/" (fun _ => 0) 1 2 (mkWorld tt ∅ 0)) as Hw.
  fold unanswered in Hw. split; [exact Hw|].
  vm_compute. exact I.
Defined.

End Webget.

(** ** tcp_native *)

Module TcpNative.
Section TcpNative.
Context {K : Type} `{Kernel K} (resolve : string -> string -> res Address.t).

(** Whether to serve, with the host and the port; [None] is the usage message. *)
Definition arguments (argv : list string) : option (bool * string * string) :=
  match argv with
  | _ :: a1 :: a2 :: rest =>
      if strncmp_eq 3 "-l" a1 then
        match rest with
        | [] => None
        | a3 :: _ => Some (true, a2, a3)
        end
      else Some (false, a1, a2)
  | _ => None
  end.

(** The lambda that makes [socket]; in server mode the listening socket dies with it. *)
Definition open_socket (server_mode : bool) (host port : string) : io (world K) FileDescriptor.t :=
  if server_mode then
    listening_socket ← TCPSocket.make;
    _ ← Socket.set_reuseaddr listening_socket;
    address ← of_res (resolve host port);
    _ ← Socket.bind address listening_socket;
    _ ← TCPSocket.listen 16 listening_socket;
    s ← TCPSocket.accept listening_socket;
    _ ← FileDescriptor.destroy listening_socket;
    mret s
  else
    connecting_socket ← TCPSocket.make;
    address ← of_res (resolve host port);
    _ ← Socket.connect address connecting_socket;
    mret connecting_socket.

(** [main]: the status, or [None] when the copying was cut off after [fuel] rounds. *)
Definition main (fuel : nat) (argv : list string) : io (world K) (option Z) :=
  match arguments argv with
  | None => mret (Some 1)
  | Some (server_mode, host, port) =>
      socket ← open_socket server_mode host port;
      '(ended, _, _) ← StreamCopy.bidirectional_stream_copy fuel socket;
      if negb ended then mret None
      else _ ← FileDescriptor.destroy socket; mret (Some 0)
  end.

End TcpNative.
End TcpNative.

(** ** tun *)

Module Tun.

(** What is said about a packet. *)
Inductive report : Type :=
| NotIPv4
| NotTCP (d : IPv4Datagram.t)
| BadTCP (d : IPv4Datagram.t)
| Segment (d : IPv4Datagram.t) (seg : TCPSegment.t).

(** The body of the loop after [tun.read()]. *)
Definition inspect (buffer : bytes) : res report :=
  '(r, ip_dgram) ← IPv4Datagram.parse (Buffer.of_string buffer) IPv4Datagram.default;
  if negb (is_NoError r) then Ok NotIPv4
  else if negb (IPv4Header.proto (IPv4Datagram.header ip_dgram) =? IPv4Header.PROTO_TCP) then Ok (NotTCP ip_dgram)
  else
    payload ← BufferList.to_buffer (IPv4Datagram.payload ip_dgram);
    '(r, tcp_seg) ← TCPSegment.parse payload (IPv4Header.pseudo_cksum (IPv4Datagram.header ip_dgram)) TCPSegment.default;
    if negb (is_NoError r) then Ok (BadTCP ip_dgram) else Ok (Segment ip_dgram tcp_seg).

Section Tun.
Context {K : Type} `{Kernel K}.

(** [main], for [n] packets; the loop has no end. *)
Fixpoint packets (n : nat) (tun : FileDescriptor.t) : io (world K) (list report) :=
  match n with
  | O => mret []
  | S n' =>
      buffer ← FileDescriptor.read FileDescriptor.no_limit tun;
      r ← of_res (inspect buffer);
      rs ← packets n' tun;
      mret (r :: rs)
  end.
Definition main (n : nat) : io (world K) (list report) :=
  tun ← TunTapFD.make (String.list_byte_of_string "tun144") true;
  packets n tun.

End Tun.
End Tun.

(** Whatever the device delivers, the program has something to say. *)
Theorem tun_inspects_everything (buffer : bytes) (Hlen : zlen buffer < two64) :
  exists r, Tun.inspect buffer = Ok r.
Proof.
  assert (Hb : Buffer.wf (Buffer.of_string buffer)) by (by apply Buffer.buffer_of_string_wf).
  unfold Tun.inspect. destruct (parse_header_and_rest_safe (Buffer.of_string buffer) (IPv4Datagram.header IPv4Datagram.default) Hb)
    as (r & h & p & E & _).
  assert (Ep : exists r d, IPv4Datagram.parse (Buffer.of_string buffer) IPv4Datagram.default = Ok (r, d)).
  { unfold IPv4Datagram.parse. rewrite E. cbn. case_match; by eexists _, _. }
  destruct Ep as (r' & d & Ep). destruct (IPv4Datagram.parse_shape _ _ _ Hb Ep) as [(b & Hp & Hwb) _].
  rewrite Ep. cbn [mbind res_bind]. destruct (negb (is_NoError r')); [by eexists|]. destruct (negb _); [by eexists|].
  rewrite Hp. cbn [BufferList.of_buffer BufferList.to_buffer mbind res_bind].
  destruct (TCPSegment.segment_parse_safe b (IPv4Header.pseudo_cksum (IPv4Datagram.header d)) TCPSegment.default Hwb) as (? & ? & -> & _).
  cbn. case_match; by eexists.
Qed.
