(* ===== verification/Simulator.v ===== *)
(** * The network simulator (apps/network_simulator.cc)

    Hosts and a router whose interfaces exchange Ethernet frames.  [Host] and
    [Network] are the classes of the application; [network_simulator] is its script.
    What is printed is left out ([summary] is in Printing.v).  The random generator [rd] is a sequence of numbers
    of which the state counts how many were drawn. *)

From stdpp Require Import strings pretty.
From S2P Require Import Prelude Buffers Parsing Ipv4Wire EthernetWire NetworkInterface Router Addresses.
From Stdlib Require Import Strings.Byte.
From Stdlib Require Strings.String.

#[local] Open Scope list_scope.
#[local] Open Scope Z_scope.

(** ** Frames between interfaces *)

(** [frames_out()] of an interface that keeps its datagrams. *)
Definition async_frames (a : AsyncNetworkInterface.t) : list EthernetFrame.t :=
  NetworkInterface.frames_out (AsyncNetworkInterface.base a).
Definition set_async_frames (fs : list EthernetFrame.t) (a : AsyncNetworkInterface.t) : AsyncNetworkInterface.t :=
  let n := AsyncNetworkInterface.base a in
  AsyncNetworkInterface.mk
    (NetworkInterface.mk (NetworkInterface._ethernet_address n) (NetworkInterface._ip_address n) fs
       (NetworkInterface._forwarding_table n) (NetworkInterface._outstanding_msg n)
       (NetworkInterface._unsent_datagrams n))
    (AsyncNetworkInterface._datagrams_out a).

(** [clear(queue1, queue2)]: as many frames leave [queue2] as are in [queue1]. *)
Fixpoint clear {A} (queue1 queue2 : list A) : list A :=
  match queue1 with
  | [] => queue2
  | _ :: queue1' => clear queue1' (tail queue2)
  end.

(** [deliver]: a copy of every frame, with its payload in one piece. *)
Fixpoint deliver (src : list EthernetFrame.t) (dst : AsyncNetworkInterface.t) : res AsyncNetworkInterface.t :=
  match src with
  | [] => Ok dst
  | front :: rest =>
      let front := EthernetFrame.mk (EthernetFrame.header front)
        (BufferList.of_string (BufferList.concatenate (EthernetFrame.payload front))) in
      dst ← AsyncNetworkInterface.recv_frame front dst;
      deliver rest dst
  end.

(** [exchange_frames] of two and of three interfaces. *)
Definition exchange_frames (x y : AsyncNetworkInterface.t)
  : res (AsyncNetworkInterface.t * AsyncNetworkInterface.t) :=
  let x_frames := async_frames x in
  let y_frames := async_frames y in
  y ← deliver x_frames y;
  x ← deliver y_frames x;
  Ok (set_async_frames (clear x_frames (async_frames x)) x,
      set_async_frames (clear y_frames (async_frames y)) y).

Definition exchange_frames3 (x y z : AsyncNetworkInterface.t)
  : res (AsyncNetworkInterface.t * AsyncNetworkInterface.t * AsyncNetworkInterface.t) :=
  let x_frames := async_frames x in
  let y_frames := async_frames y in
  let z_frames := async_frames z in
  y ← deliver x_frames y;
  z ← deliver x_frames z;
  x ← deliver y_frames x;
  z ← deliver y_frames z;
  x ← deliver z_frames x;
  y ← deliver z_frames y;
  Ok (set_async_frames (clear x_frames (async_frames x)) x,
      set_async_frames (clear y_frames (async_frames y)) y,
      set_async_frames (clear z_frames (async_frames z)) z).

(** ** A link *)

Lemma clear_all {A} (l : list A) : clear l l = [].
Proof. induction l; [done|]. by cbn. Qed.

Lemma set_frames_id a : set_async_frames (async_frames a) a = a.
Proof. by destruct a as [[] ?]. Qed.

(** When only one end has frames to send. *)
Lemma exchange_left x y : async_frames y = [] ->
  exchange_frames x y = (y' ← deliver (async_frames x) y; Ok (set_async_frames [] x, y')).
Proof.
  intros Hy. unfold exchange_frames. rewrite Hy. destruct (deliver (async_frames x) y) as [y'|]; [|done].
  cbn [mbind res_bind deliver clear]. by rewrite clear_all, set_frames_id.
Qed.

Lemma exchange_right x y : async_frames x = [] ->
  exchange_frames x y = (x' ← deliver (async_frames y) x; Ok (x', set_async_frames [] y)).
Proof.
  intros Hx. unfold exchange_frames. rewrite Hx. cbn [mbind res_bind deliver].
  destruct (deliver (async_frames y) x) as [x'|]; [|done]. cbn [mbind res_bind clear]. by rewrite clear_all, set_frames_id.
Qed.

Definition in_one_piece (f : EthernetFrame.t) : EthernetFrame.t :=
  EthernetFrame.mk (EthernetFrame.header f)
    (BufferList.of_string (BufferList.concatenate (EthernetFrame.payload f))).

Lemma deliver_one f y : deliver [f] y = AsyncNetworkInterface.recv_frame (in_one_piece f) y.
Proof. cbn. unfold in_one_piece. by destruct (AsyncNetworkInterface.recv_frame _ y). Qed.

Lemma one_piece_payload f :
  BufferList.concatenate (EthernetFrame.payload (in_one_piece f)) = BufferList.concatenate (EthernetFrame.payload f).
Proof. cbn [in_one_piece EthernetFrame.payload]. by rewrite !BufferList.concatenate_flat, BufferList.flat_of_string. Qed.

Abbreviation mac a := (NetworkInterface._ethernet_address (AsyncNetworkInterface.base a)) (only parsing).
Abbreviation ip_of a := (NetworkInterface._ip_address (AsyncNetworkInterface.base a)) (only parsing).
Abbreviation table_of a := (NetworkInterface._forwarding_table (AsyncNetworkInterface.base a)) (only parsing).
Abbreviation queued a ip := (NetworkInterface.waiting ip (AsyncNetworkInterface.base a)) (only parsing).

(** An interface as its owner sets it up. *)
Record addressed (a : AsyncNetworkInterface.t) : Prop := {
  ad_wf : AsyncNetworkInterface.wf a;
  ad_mac : EthernetAddress.wf (mac a);
  ad_ip : 0 <= ip_of a < two32
}.

Definition arp_frame (dst src : EthernetAddress.t) (m : ARPMessage.t) : EthernetFrame.t :=
  EthernetFrame.mk (EthernetHeader.mk dst src EthernetHeader.TYPE_ARP) (BufferList.of_string (ARPMessage.encode m)).

(** An ARP message that arrives at the interface it is for. *)
Lemma deliver_arp msg dst src y : AsyncNetworkInterface.wf y -> ARPMessage.wf msg -> ARPMessage.supported msg = true ->
  ARPMessage.target_ip_address msg = ip_of y -> dst = mac y \/ dst = EthernetAddress.ETHERNET_BROADCAST ->
  let ip := ARPMessage.sender_ip_address msg in
  exists it fs y', deliver [arp_frame dst src msg] y = Ok y' /\ AsyncNetworkInterface.wf y' /\
    mac y' = mac y /\ ip_of y' = ip_of y /\
    AsyncNetworkInterface._datagrams_out y' = AsyncNetworkInterface._datagrams_out y /\
    table_of y' = NetworkInterface.map_insert ip (NetworkInterface.mkEntry (ARPMessage.sender_ethernet_address msg) 0) (table_of y) /\
    table_of y' !! ip = Some it /\
    NetworkInterface.carried_in (AsyncNetworkInterface.base y) (NetworkInterface.eth_addr it) (queued y ip) fs /\
    async_frames y' = async_frames y ++ fs ++
      (if ARPMessage.opcode msg =? ARPMessage.OPCODE_REQUEST
       then [arp_frame (ARPMessage.sender_ethernet_address msg) (mac y)
               (NetworkInterface.arp_reply (AsyncNetworkInterface.base y) msg)]
       else []).
Proof.
  intros [Hw Hq] Hm Hsup Ht Hdst ip. set (n := AsyncNetworkInterface.base y) in *.
  destruct (NetworkInterface.recv_arp_spec msg n Hw) as (it & fs & n' & Hit & E & Hw' & Hc & _ & Htab & _ & Hcase).
  fold ip in Hit, Hc, Htab. rewrite deliver_one. unfold AsyncNetworkInterface.recv_frame.
  rewrite (NetworkInterface.recv_frame_arp msg []); try done.
  - fold n. rewrite E. cbn [mbind res_bind]. exists it, fs. eexists. split; [done|].
    destruct (NetworkInterface.recv_arp_addresses _ _ _ E) as [Em Ei].
    cbn [AsyncNetworkInterface.base AsyncNetworkInterface._datagrams_out]. split_and!; try done.
    + by rewrite Htab.
    + unfold async_frames, NetworkInterface.frames_out. cbn [AsyncNetworkInterface.base].
      destruct (ARPMessage.opcode msg =? _); destruct Hcase as [-> _]; [done|by rewrite app_nil_r].
  - rewrite one_piece_payload, BufferList.concatenate_flat, app_nil_r. apply BufferList.flat_of_string.
Qed.

(** A datagram that arrives at the interface it was sent to. *)
Lemma deliver_ip d p src y : AsyncNetworkInterface.wf y -> IPv4Datagram.wf d -> IPv4Datagram.serialize d = Ok p ->
  exists c d' y', deliver [EthernetFrame.mk (EthernetHeader.mk (mac y) src EthernetHeader.TYPE_IPv4) p] y = Ok y' /\
    y' = AsyncNetworkInterface.mk (AsyncNetworkInterface.base y) (AsyncNetworkInterface._datagrams_out y ++ [d']) /\
    IPv4Datagram.header d' = IPv4Header.set_cksum c (IPv4Datagram.header d) /\ IPv4Datagram.wf d' /\
    BufferList.concatenate (IPv4Datagram.payload d') = BufferList.concatenate (IPv4Datagram.payload d).
Proof.
  intros [Hw Hq] Hd Hp. rewrite deliver_one. unfold AsyncNetworkInterface.recv_frame. set (f := in_one_piece _).
  destruct (NetworkInterface.recv_frame_ip d p f (AsyncNetworkInterface.base y) Hd Hp) as (c & d' & E & Hh & Hwd & Hpl);
    [done|done|apply one_piece_payload|].
  rewrite E. cbn [mbind res_bind]. exists c, d'. by eexists.
Qed.

Lemma request_wf x ip : addressed x -> 0 <= ip < two32 ->
  ARPMessage.wf (NetworkInterface.arp_request (AsyncNetworkInterface.base x) ip) /\
  ARPMessage.supported (NetworkInterface.arp_request (AsyncNetworkInterface.base x) ip) = true.
Proof. intros [_ Hm Hi] Hip. split; [|done]. split; cbn; try done. split; [done|]. repeat constructor; lia. Qed.

Lemma reply_wf y msg : addressed y -> ARPMessage.wf msg ->
  ARPMessage.wf (NetworkInterface.arp_reply (AsyncNetworkInterface.base y) msg) /\
  ARPMessage.supported (NetworkInterface.arp_reply (AsyncNetworkInterface.base y) msg) = true.
Proof. intros [_ Hm Hi] [H1 H2 _ _]. split; [|done]. by split. Qed.

(** Several exchanges on one link. *)
Fixpoint exchanges (n : nat) (x y : AsyncNetworkInterface.t)
  : res (AsyncNetworkInterface.t * AsyncNetworkInterface.t) :=
  match n with
  | O => Ok (x, y)
  | S n' => '(x, y) ← exchange_frames x y; exchanges n' x y
  end.

(** [d'] is [d] with a checksum that was filled in. *)
Definition arrived (d d' : IPv4Datagram.t) : Prop :=
  (exists c, IPv4Datagram.header d' = IPv4Header.set_cksum c (IPv4Datagram.header d)) /\ IPv4Datagram.wf d' /\
  BufferList.concatenate (IPv4Datagram.payload d') = BufferList.concatenate (IPv4Datagram.payload d).

(** What is left when the link has been idle: nothing to send and nothing waiting. *)
Record at_rest (x y : AsyncNetworkInterface.t) : Prop := {
  rs_x : addressed x;
  rs_y : addressed y;
  rs_frames : async_frames x = [] /\ async_frames y = [];
  rs_queued : queued y (ip_of x) = []
}.

(** [x] asks for [y]: the request arrives and is answered. *)
Lemma link_request x y : at_rest x y ->
  exists y' it, deliver [arp_frame EthernetAddress.ETHERNET_BROADCAST (mac x)
      (NetworkInterface.arp_request (AsyncNetworkInterface.base x) (ip_of y))] y = Ok y' /\
    addressed y' /\ mac y' = mac y /\ ip_of y' = ip_of y /\ table_of y' !! ip_of x = Some it /\
    AsyncNetworkInterface._datagrams_out y' = AsyncNetworkInterface._datagrams_out y /\
    async_frames y' = [arp_frame (mac x) (mac y) (NetworkInterface.arp_reply (AsyncNetworkInterface.base y)
      (NetworkInterface.arp_request (AsyncNetworkInterface.base x) (ip_of y)))].
Proof.
  intros [Hx Hy [_ Hf] Hq]. destruct (request_wf x (ip_of y) Hx (ad_ip _ Hy)) as [Hm Hs].
  set (req := NetworkInterface.arp_request _ _) in *.
  destruct (deliver_arp req EthernetAddress.ETHERNET_BROADCAST (mac x) y (ad_wf _ Hy) Hm Hs) as
    (it & fs & y' & E & Hw & Hmac & Hip & Hd & _ & Hit & Hc & Hfr); [done|by right|].
  exists y', it. split; [done|]. split; [by split; [|rewrite Hmac; apply Hy|rewrite Hip; apply Hy]|].
  change (ARPMessage.sender_ip_address req) with (ip_of x) in *. rewrite Hq in Hc. apply Forall2_nil_inv_l in Hc as ->.
  split_and!; try done. by rewrite Hfr, Hf.
Qed.

(** The answer arrives: the datagram that waited leaves. *)
Lemma link_reply x y d : addressed x -> addressed y -> async_frames x = [] -> queued x (ip_of y) = [d] ->
  table_of x !! ip_of y = None ->
  forall req, ARPMessage.wf req -> ARPMessage.sender_ip_address req = ip_of x ->
  exists p x', IPv4Datagram.serialize d = Ok p /\
    deliver [arp_frame (mac x) (mac y) (NetworkInterface.arp_reply (AsyncNetworkInterface.base y) req)] x = Ok x' /\
    addressed x' /\ mac x' = mac x /\ ip_of x' = ip_of x /\
    AsyncNetworkInterface._datagrams_out x' = AsyncNetworkInterface._datagrams_out x /\
    table_of x' !! ip_of y = Some (NetworkInterface.mkEntry (mac y) 0) /\
    async_frames x' = [EthernetFrame.mk (EthernetHeader.mk (mac y) (mac x) EthernetHeader.TYPE_IPv4) p].
Proof.
  intros Hx Hy Hf Hq Ht req Hreq Hsip. destruct (reply_wf y req Hy Hreq) as [Hm Hs].
  set (rep := NetworkInterface.arp_reply _ _) in *.
  destruct (deliver_arp rep (mac x) (mac y) x (ad_wf _ Hx) Hm Hs Hsip) as
    (it & fs & x' & E & Hw & Hmac & Hip & Hd & Htab & Hit & Hc & Hfr); [by left|].
  change (ARPMessage.sender_ip_address rep) with (ip_of y) in *.
  change (ARPMessage.sender_ethernet_address rep) with (mac y) in *.
  rewrite Htab, NetworkInterface.map_insert_fresh, lookup_insert_eq in Hit by done. injection Hit as <-.
  rewrite Hq in Hc. apply Forall2_cons_inv_l in Hc as (f & fs' & (p & Hp & ->) & Hc & ->).
  apply Forall2_nil_inv_l in Hc as ->. exists p, x'. split; [done|]. split; [done|].
  split; [by split; [|rewrite Hmac; apply Hx|rewrite Hip; apply Hx]|]. split_and!; try done.
  - by rewrite Htab, NetworkInterface.map_insert_fresh, lookup_insert_eq.
  - by rewrite Hfr, Hf.
Qed.

Lemma send_unknown_async x d ip : addressed x -> IPv4Datagram.wf d -> async_frames x = [] ->
  table_of x !! ip = None -> NetworkInterface._outstanding_msg (AsyncNetworkInterface.base x) !! ip = None ->
  queued x ip = [] ->
  exists x1, AsyncNetworkInterface.send_datagram d ip x = Ok x1 /\ addressed x1 /\
    mac x1 = mac x /\ ip_of x1 = ip_of x /\
    AsyncNetworkInterface._datagrams_out x1 = AsyncNetworkInterface._datagrams_out x /\
    queued x1 ip = [d] /\ table_of x1 !! ip = None /\
    async_frames x1 = [arp_frame EthernetAddress.ETHERNET_BROADCAST (mac x)
      (NetworkInterface.arp_request (AsyncNetworkInterface.base x) ip)].
Proof.
  intros [[Hw Hq] Hm Hi] Hd Hf Ht Ho Hqu. unfold AsyncNetworkInterface.send_datagram.
  destruct (NetworkInterface.send_unknown d ip (AsyncNetworkInterface.base x) Ht) as (n & E & Htab & Hwait & _ & Hmsg).
  destruct (NetworkInterface.interface_send_datagram_wf d ip _ Hw Hd) as (n' & E' & Hw').
  rewrite E in E'. injection E' as <-. destruct (NetworkInterface.send_datagram_addresses _ _ _ _ E) as [Em Ei].
  rewrite E. cbn [mbind res_bind]. eexists. split; [done|].
  cbn [AsyncNetworkInterface.base AsyncNetworkInterface._datagrams_out]. rewrite Ho in Hmsg. destruct Hmsg as [_ Hfr].
  split; [split; cbn; [by split|by rewrite Em|by rewrite Ei]|]. split_and!; try done.
  - by rewrite Hwait, Hqu.
  - by rewrite Htab.
  - unfold async_frames, NetworkInterface.frames_out in *. cbn [AsyncNetworkInterface.base]. by rewrite Hfr, Hf.
Qed.

(** ... and the end [x] has never tried to reach the other. *)
Record cold (x y : AsyncNetworkInterface.t) : Prop := {
  cd_rest : at_rest x y;
  cd_unknown : table_of x !! ip_of y = None;
  cd_unasked : NetworkInterface._outstanding_msg (AsyncNetworkInterface.base x) !! ip_of y = None;
  cd_empty : queued x (ip_of y) = []
}.

(** Three exchanges bring a datagram across such a link. *)
Lemma link_cold x y d : cold x y -> IPv4Datagram.wf d ->
  exists x1 x' y' d' it, AsyncNetworkInterface.send_datagram d (ip_of y) x = Ok x1 /\
    exchanges 3 x1 y = Ok (x', y') /\ arrived d d' /\ AsyncNetworkInterface.wf y' /\
    AsyncNetworkInterface._datagrams_out y' = AsyncNetworkInterface._datagrams_out y ++ [d'] /\
    AsyncNetworkInterface._datagrams_out x' = AsyncNetworkInterface._datagrams_out x /\
    async_frames x' = [] /\ async_frames y' = [] /\
    table_of x' !! ip_of y = Some (NetworkInterface.mkEntry (mac y) 0) /\ table_of y' !! ip_of x = Some it.
Proof.
  intros [Hr Ht Ho Hq] Hd. pose proof Hr as [Hx Hy [Hfx Hfy] _].
  destruct (send_unknown_async x d (ip_of y) Hx Hd Hfx Ht Ho Hq) as (x1 & E1 & Hx1 & Hm1 & Hi1 & Hd1 & Hq1 & Ht1 & Hf1).
  destruct (link_request x y Hr) as (y1 & it & E2 & Hy1 & Hmy & Hiy & Hty & Hdy & Hfy1).
  set (x2 := set_async_frames [] x1). set (y2 := set_async_frames [] y1).
  set (req := NetworkInterface.arp_request _ _) in *.
  destruct (request_wf x (ip_of y) Hx (ad_ip _ Hy)) as [Hreq _].
  assert (Hx2 : addressed x2) by (destruct Hx1 as [[[? ? ? ?] ?] ? ?]; by split).
  destruct (link_reply x2 y d Hx2 Hy eq_refl Hq1 Ht1 req Hreq (eq_sym Hi1)) as
    (p & x3 & Hp & E3 & Hx3 & Hm3 & Hi3 & Hd3 & Ht3 & Hf3).
  change (mac x2) with (mac x1) in E3, Hm3, Hf3. rewrite Hm1 in E3, Hf3.
  assert (Hy2 : AsyncNetworkInterface.wf y2) by (destruct Hy1 as [[[? ? ? ?] ?] ? ?]; by split).
  destruct (deliver_ip d p (mac x) y2 Hy2 Hd Hp) as (c & d' & y3 & E4 & -> & Hh & Hwd & Hpl).
  change (mac y2) with (mac y1) in E4. rewrite Hmy in E4.
  exists x1, (set_async_frames [] x3), (AsyncNetworkInterface.mk (AsyncNetworkInterface.base y2) (AsyncNetworkInterface._datagrams_out y2 ++ [d'])), d', it.
  split; [done|]. split.
  { cbn [exchanges]. rewrite exchange_left, Hf1, E2 by done. cbn [mbind res_bind]. fold x2.
    rewrite exchange_right, Hfy1, E3 by done. cbn [mbind res_bind]. fold y2.
    rewrite exchange_left, Hf3, E4 by done. done. }
  split; [split; [by exists c|done]|]. split_and!; try done.
  - destruct Hy2 as [Hb2 Hq2]. split; [done|]. cbn. apply Forall_app. by split; [|constructor].
  - cbn. by rewrite Hdy.
  - exact (eq_trans Hd3 Hd1).
Qed.

(** The router between two links: the only datagram in its queues goes, one hop older,
    to the interface of the selected route. *)
Lemma route_selected rules r0 x i ri' rj rj1 d : Router._routing_table r0 = ∅ ->
  Forall (Router.rule_ok (length (Router._interfaces r0))) rules ->
  Forall AsyncNetworkInterface.wf (Router._interfaces r0) ->
  Forall (fun k => AsyncNetworkInterface.datagrams_out k = []) (Router._interfaces r0) ->
  (i < length (Router._interfaces r0))%nat -> AsyncNetworkInterface.wf ri' ->
  AsyncNetworkInterface._datagrams_out ri' = [d] ->
  Router._interfaces r0 !! Z.to_nat (Router.interface_num (Router.out x)) = Some rj ->
  i <> Z.to_nat (Router.interface_num (Router.out x)) ->
  Router.selected rules (Router.dst d) x -> IPv4Datagram.wf d -> 1 < Router.ttl d ->
  AsyncNetworkInterface.send_datagram (Router.set_ttl (Router.ttl d - 1) d)
    match Router.next_hop (Router.out x) with Some h => h | None => Router.dst d end rj = Ok rj1 ->
  exists r', Router.route (Router.set_interface (Z.of_nat i) ri' (Router.add_rules rules r0)) = Ok r' /\
    Router.interface (Router.interface_num (Router.out x)) r' = Ok rj1.
Proof.
  intros Htable Hrules Hifs Hidle Hlt Hwri Hq Hrj Hij Hsel Hd Httl Hsend. set (j := Router.interface_num _) in *.
  set (r1 := Router.set_interface (Z.of_nat i) ri' r0).
  assert (Hr1 : Router._interfaces r1 = <[i := ri']> (Router._interfaces r0)) by (cbn; by rewrite Nat2Z.id).
  rewrite Router.add_rules_interface. fold r1.
  assert (Hrules1 : Forall (Router.rule_ok (length (Router._interfaces r1))) rules) by (by rewrite Hr1, length_insert).
  destruct (Router.add_rules_wf rules r1) as [Hwr Hir]; [|done|].
  { apply Router.empty_table_wf; [done|]. rewrite Hr1. by apply Forall_insert. }
  set (r := Router.add_rules rules r1) in *.
  assert (Hone : Router.route_one_datagram d r = Router.forward (Router.out x) d r).
  { destruct (Router.route_one_selected _ rules r1 d Hrules1 Htable) as [(x' & Hx' & E)|[Hno _]].
    - by rewrite (Router.selected_unique _ _ _ _ Hsel Hx').
    - exfalso. destruct Hsel as (k & Hk & Hm & _). apply (Hno x); [by eapply list_elem_of_lookup_2|done]. }
  assert (Hj : 0 <= j < zlen (Router._interfaces r)).
  { destruct Hsel as (k & Hk & _). destruct (Forall_lookup_1 _ _ _ _ Hrules1 Hk) as [_ Hj]. by rewrite Hir. }
  pose proof (Router.forward_spec (Router.out x) d r Hwr Hd Hj) as Hfw.
  rewrite (proj2 (Z.leb_gt _ _)) in Hfw by lia. destruct Hfw as (rj0 & rj2 & Hrj0 & Esend & Hwj & Hqj & Efw).
  fold j in Hrj0, Efw.
  assert (rj0 = rj) as -> by (rewrite Hir, Hr1, list_lookup_insert_ne in Hrj0 by done; congruence).
  assert (rj2 = rj1) as -> by congruence.
  destruct (Router.set_interface_wf _ _ _ _ Hwr Hrj0 Hwj Hqj) as [_ Hqs].
  eexists. split.
  - apply (Router.route_single i ri' d r (Router.set_ttl (Router.ttl d - 1) d) (Router.set_interface j rj1 r));
      [by rewrite Hir, Hr1, list_lookup_insert_eq|done| |by rewrite Hone|done|cbn; by rewrite length_insert].
    intros m Hm. unfold Router.queue_length. rewrite Hir, Hr1, list_lookup_insert_ne by done.
    destruct (Router._interfaces r0 !! m) as [k|] eqn:Ek; [|done]. by rewrite (Forall_lookup_1 _ _ _ _ Hidle Ek).
  - unfold Router.interface. cbn [Router._interfaces Router.set_interface].
    rewrite list_lookup_alter_ne, list_lookup_insert_eq by (done || lia). done.
Qed.

(** C19: a datagram crosses the router.  Host [a] sends a datagram to the router's
    interface [ri]; longest-prefix matching selects a route that leads through another
    interface [rj] to the host [b].  Nobody knows an Ethernet address yet: three
    exchanges on the first link (request, reply, datagram), one call of [route] and
    three exchanges on the second link bring the datagram to [b], exactly once, with
    its time to live lowered by one, a fresh checksum and the same payload. *)
Theorem routed_delivery (rules : list Router.rule) (r0 : Router.t) (x : Router.rule) (i : nat)
  (a b ri rj : AsyncNetworkInterface.t) (d : IPv4Datagram.t)
  (Htable : Router._routing_table r0 = ∅)
  (Hrules : Forall (Router.rule_ok (length (Router._interfaces r0))) rules)
  (Hifs : Forall AsyncNetworkInterface.wf (Router._interfaces r0))
  (Hidle : Forall (fun k => AsyncNetworkInterface.datagrams_out k = []) (Router._interfaces r0))
  (Hri : Router._interfaces r0 !! i = Some ri)
  (Hrj : Router._interfaces r0 !! Z.to_nat (Router.interface_num (Router.out x)) = Some rj)
  (Hij : i <> Z.to_nat (Router.interface_num (Router.out x)))
  (Hsel : Router.selected rules (Router.dst d) x)
  (Hhop : match Router.next_hop (Router.out x) with Some h => h | None => Router.dst d end = ip_of b)
  (Hlink1 : cold a ri) (Hlink2 : cold rj b)
  (Hd : IPv4Datagram.wf d) (Httl : 1 < Router.ttl d) :
  let j := Router.interface_num (Router.out x) in
  exists a1 a' ri' r' rj1 rj' b' d',
    AsyncNetworkInterface.send_datagram d (ip_of ri) a = Ok a1 /\
    exchanges 3 a1 ri = Ok (a', ri') /\
    Router.route (Router.set_interface (Z.of_nat i) ri' (Router.add_rules rules r0)) = Ok r' /\
    Router.interface j r' = Ok rj1 /\
    exchanges 3 rj1 b = Ok (rj', b') /\
    AsyncNetworkInterface.datagrams_out b' = AsyncNetworkInterface.datagrams_out b ++ [d'] /\
    arrived (Router.set_ttl (Router.ttl d - 1) d) d'.
Proof.
  intros j.
  destruct (link_cold a ri d Hlink1 Hd) as (a1 & a' & ri' & d1 & it & E1 & E2 & [(c1 & Hh1) [Hd1 Hp1]] & Hwri & Hq1 & _).
  assert (Hri0 : AsyncNetworkInterface._datagrams_out ri = [])
    by exact (Forall_lookup_1 _ _ _ _ Hidle Hri).
  rewrite Hri0 in Hq1. cbn [app] in Hq1.
  assert (Hdst1 : Router.dst d1 = Router.dst d) by (unfold Router.dst; by rewrite Hh1).
  assert (Httl1 : Router.ttl d1 = Router.ttl d) by (unfold Router.ttl; by rewrite Hh1).
  assert (Hd2 : IPv4Datagram.wf (Router.set_ttl (Router.ttl d1 - 1) d1)).
  { apply Router.set_ttl_wf; [done|]. destruct Hd as [[] _ _]. unfold Router.ttl in *. lia. }
  destruct (link_cold rj b _ Hlink2 Hd2) as (rj1 & rj' & b' & d' & it' & E3 & E4 & [(c2 & Hh2) [Hd' Hp2]] & _ & Hq2 & _).
  destruct (route_selected rules r0 x i ri' rj rj1 d1) as (r' & E5 & E6); try done.
  { by eapply lookup_lt_Some. }
  { by rewrite Hdst1. }
  { lia. }
  { by rewrite Hdst1, Hhop. }
  exists a1, a', ri', r', rj1, rj', b', d'. split_and!; try done. split; [|split; [done|]].
  - exists c2. rewrite Hh2. unfold Router.set_ttl. cbn [IPv4Datagram.header]. by rewrite Hh1, Httl1.
  - rewrite Hp2. cbn [Router.set_ttl IPv4Datagram.payload]. exact Hp1.
Qed.

(** Two hosts on the links of a router with two interfaces; 192.168.0.0/16 is behind
    the first. *)
Definition demo_interface (n ip : Z) : AsyncNetworkInterface.t :=
  AsyncNetworkInterface.make (NetworkInterface.make [2; 0; 0; 0; 0; n] ip).

Lemma demo_addressed n ip : 0 <= n < two8 -> 0 <= ip < two32 -> addressed (demo_interface n ip).
Proof.
  intros Hn Hip. split; [by split; [apply NetworkInterface.interface_make_wf|]| |done].
  split; [done|]. cbn. forall_list; lia.
Qed.

Lemma demo_cold n1 ip1 n2 ip2 : 0 <= n1 < two8 -> 0 <= ip1 < two32 -> 0 <= n2 < two8 -> 0 <= ip2 < two32 ->
  cold (demo_interface n1 ip1) (demo_interface n2 ip2).
Proof. intros. split; [split; [by apply demo_addressed..|done|done]|done..]. Qed.

Lemma routed_delivery_witness :
  exists r' rj1 rj' b' d',
    Router.interface 0 r' = Ok rj1 /\ exchanges 3 rj1 (demo_interface 8 3232235777) = Ok (rj', b') /\
    AsyncNetworkInterface.datagrams_out b' = [d'] /\
    arrived (Router.set_ttl 63 IPv4Datagram.example) d'.
Proof.
  set (x := Router.mkRule 3232235520 16 (Router.mkOut None 0)).
  destruct (routed_delivery Router.demo_rules Router.demo x 1 (demo_interface 7 5) (demo_interface 8 3232235777)
    (demo_interface 2 2) (demo_interface 1 1) IPv4Datagram.example)
    as (a1 & a' & ri' & r' & rj1 & rj' & b' & d' & _ & _ & _ & E1 & E2 & Hq & Ha).
  - reflexivity.
  - repeat constructor; cbn; lia.
  - exact Router.demo_interfaces_wf.
  - repeat constructor.
  - reflexivity.
  - reflexivity.
  - discriminate.
  - exists 0%nat. split; [reflexivity|]. split; [apply Router.masked_matches; [cbn; lia|vm_compute; reflexivity]|].
    intros [|[|j]] y Hy Hm; [injection Hy as <-; right; split; [reflexivity|lia]| |discriminate].
    exfalso. injection Hy as <-. specialize (Hm 8 ltac:(cbn; lia)). vm_compute in Hm. discriminate.
  - reflexivity.
  - apply demo_cold; lia.
  - apply demo_cold; lia.
  - apply NetworkInterface.example_wf.
  - vm_compute. reflexivity.
  - exists r', rj1, rj', b', d'. split; [exact E1|]. split; [exact E2|]. split; [exact Hq|exact Ha].
Defined.

#[local] Open Scope string_scope.
#[local] Open Scope list_scope.
#[local] Open Scope Z_scope.

Module Host.

(** [class Host]. *)
Record t : Type := mk {
  _name : string;
  _my_address : Address.t;
  _interface : AsyncNetworkInterface.t;
  _next_hop : Address.t;
  _expecting_to_receive : list IPv4Datagram.t
}.

Definition make (name : string) (eth : EthernetAddress.t) (my_address next_hop : Address.t) : t :=
  mk name my_address
     (AsyncNetworkInterface.make (NetworkInterface.make eth (Address.ipv4_numeric my_address))) next_hop [].

Definition set_interface (i : AsyncNetworkInterface.t) (h : t) : t :=
  mk (_name h) (_my_address h) i (_next_hop h) (_expecting_to_receive h).
Definition set_expecting (ds : list IPv4Datagram.t) (h : t) : t :=
  mk (_name h) (_my_address h) (_interface h) (_next_hop h) ds.

(** [x.serialize().concatenate() == y.serialize().concatenate()]. *)
Definition same_bytes (x y : IPv4Datagram.t) : res bool :=
  bx ← IPv4Datagram.serialize x;
  bz ← IPv4Datagram.serialize y;
  Ok (bool_decide (BufferList.concatenate bx = BufferList.concatenate bz)).

Fixpoint expecting (expected : IPv4Datagram.t) (l : list IPv4Datagram.t) : res bool :=
  match l with
  | [] => Ok false
  | x :: l' =>
      same ← same_bytes x expected;
      if (same : bool) then Ok true else expecting expected l'
  end.

Fixpoint remove_expectation (expected : IPv4Datagram.t) (l : list IPv4Datagram.t) : res (list IPv4Datagram.t) :=
  match l with
  | [] => Ok []
  | x :: l' =>
      same ← same_bytes x expected;
      if (same : bool) then Ok l' else l'' ← remove_expectation expected l'; Ok (x :: l'')
  end.

(** The datagram that [send_to] builds; [random] is the number in its payload. *)
Definition datagram (h : t) (destination : Address.t) (ttl random : Z) : IPv4Datagram.t :=
  let payload := BufferList.of_string
    (String.list_byte_of_string ("random payload: {" +:+ pretty random +:+ "}")) in
  let header := IPv4Header.default in
  IPv4Datagram.mk
    (IPv4Header.mk (IPv4Header.ver header) (IPv4Header.hlen header) (IPv4Header.tos header)
       (u16 (IPv4Header.hlen header * 4 + BufferList.size payload)) (IPv4Header.id header) (IPv4Header.df header)
       (IPv4Header.mf header) (IPv4Header.offset header) ttl (IPv4Header.proto header) (IPv4Header.cksum header)
       (Address.ipv4_numeric (_my_address h)) (Address.ipv4_numeric destination))
    payload.

Definition send_to (destination : Address.t) (ttl random : Z) (h : t) : res (IPv4Datagram.t * t) :=
  let dgram := datagram h destination ttl random in
  i ← AsyncNetworkInterface.send_datagram dgram (Address.ipv4_numeric (_next_hop h)) (_interface h);
  Ok (dgram, set_interface i h).

Definition expect (expected : IPv4Datagram.t) (h : t) : t :=
  set_expecting (_expecting_to_receive h ++ [expected]) h.

(** The loop of [check] over the queue [received]: what is left of the expectations. *)
Fixpoint check_received (received expectations : list IPv4Datagram.t) : res (list IPv4Datagram.t) :=
  match received with
  | [] => Ok expectations
  | dgram_received :: rest =>
      ok ← expecting dgram_received expectations;
      if negb ok then Throw runtime_error
      else
        expectations ← remove_expectation dgram_received expectations;
        check_received rest expectations
  end.

Definition check (h : t) : res t :=
  left ← check_received (AsyncNetworkInterface.datagrams_out (_interface h)) (_expecting_to_receive h);
  let h := set_expecting left
    (set_interface (AsyncNetworkInterface.mk (AsyncNetworkInterface.base (_interface h)) []) h) in
  match left with
  | [] => Ok h
  | _ :: _ => Throw runtime_error
  end.

End Host.

Module Network.

(** [class Network]; [drawn] counts the numbers taken from the generator. *)
Record t : Type := mk {
  drawn : nat;
  _router : Router.t;
  default_id : Z;
  eth0_id : Z;
  eth1_id : Z;
  eth2_id : Z;
  uun3_id : Z;
  hs4_id : Z;
  mit5_id : Z;
  _hosts : gmap string Host.t
}.

Definition set_router (r : Router.t) (s : t) : t :=
  mk (drawn s) r (default_id s) (eth0_id s) (eth1_id s) (eth2_id s) (uun3_id s) (hs4_id s) (mit5_id s) (_hosts s).
Definition set_hosts (h : gmap string Host.t) (s : t) : t :=
  mk (drawn s) (_router s) (default_id s) (eth0_id s) (eth1_id s) (eth2_id s) (uun3_id s) (hs4_id s) (mit5_id s) h.
Definition set_drawn (n : nat) (s : t) : t :=
  mk n (_router s) (default_id s) (eth0_id s) (eth1_id s) (eth2_id s) (uun3_id s) (hs4_id s) (mit5_id s) (_hosts s).

Section Network.
Context (rd : nat -> Z) `{Address.Netdb}.

(** [random_host_ethernet_address] and [random_router_ethernet_address], from the
    [n]th number on. *)
Definition random_host_ethernet_address (n : nat) : EthernetAddress.t :=
  match (fun i => u8 (rd i)) <$> seq n 6 with
  | b :: rest => Z.land (Z.lor b 2) 254 :: rest
  | [] => []
  end.
Definition random_router_ethernet_address (n : nat) : EthernetAddress.t :=
  match (fun i => u8 (rd i)) <$> seq n 6 with
  | _ :: _ :: _ :: rest => 2 :: 0 :: 0 :: rest
  | other => other
  end.

(** [Address{str}], whose port is 0, and [ip(str)]. *)
Definition address (str : String.string) : res Address.t := Address.of_string str 0.
Definition ip (str : String.string) : res Z := a ← address str; Ok (Address.ipv4_numeric a).

(** [_router.add_interface({random_router_ethernet_address(), {str}})]. *)
Definition add_interface (str : String.string) (n : nat) (r : Router.t) : res (Z * Router.t) :=
  a ← ip str;
  Ok (Router.add_interface
    (AsyncNetworkInterface.make (NetworkInterface.make (random_router_ethernet_address n) a)) r).

(** [_hosts.insert({name, {name, {str}, {next}}})]. *)
Definition insert_host (name : string) (str next : String.string) (n : nat) (hosts : gmap string Host.t)
  : res (gmap string Host.t) :=
  a ← address str;
  b ← address next;
  Ok (match hosts !! name with
      | Some _ => hosts
      | None => <[name := Host.make name (random_host_ethernet_address n) a b]> hosts
      end).

(** [host(name)]. *)
Definition host (name : string) (s : t) : res Host.t :=
  match _hosts s !! name with
  | None => Throw runtime_error
  | Some h => if bool_decide (Host._name h = name) then Ok h else Throw runtime_error
  end.
Definition set_host (name : string) (h : Host.t) (s : t) : t := set_hosts (<[name := h]> (_hosts s)) s.

(** [_router.add_route(ip(str), len, hop, id)]. *)
Definition add_route (str : String.string) (len : Z) (hop : option Z) (id : Z) (r : Router.t) : res Router.t :=
  p ← ip str; Ok (Router.add_route p len hop id r).

(** The constructor: six random numbers go into each Ethernet address. *)
Definition make : res t :=
  '(default_id, r) ← add_interface "171.67.76.46" 0 Router.make;
  '(eth0_id, r) ← add_interface "10.0.0.1" 6 r;
  '(eth1_id, r) ← add_interface "172.16.0.1" 12 r;
  '(eth2_id, r) ← add_interface "192.168.0.1" 18 r;
  '(uun3_id, r) ← add_interface "198.178.229.1" 24 r;
  '(hs4_id, r) ← add_interface "143.195.0.2" 30 r;
  '(mit5_id, r) ← add_interface "128.30.76.255" 36 r;
  hosts ← insert_host "applesauce" "10.0.0.2" "10.0.0.1" 42 ∅;
  hosts ← insert_host "default_router" "171.67.76.1" "0" 48 hosts;
  hosts ← insert_host "cherrypie" "192.168.0.2" "192.168.0.1" 54 hosts;
  hosts ← insert_host "hs_router" "143.195.0.1" "0" 60 hosts;
  hosts ← insert_host "dm42" "198.178.229.42" "198.178.229.1" 66 hosts;
  hosts ← insert_host "dm43" "198.178.229.43" "198.178.229.1" 72 hosts;
  let s := mk 78 r default_id eth0_id eth1_id eth2_id uun3_id hs4_id mit5_id hosts in
  default_router ← host "default_router" s;
  hs_router ← host "hs_router" s;
  let hop h := Some (Address.ipv4_numeric (Host._my_address h)) in
  r ← add_route "0.0.0.0" 0 (hop default_router) default_id r;
  r ← add_route "10.0.0.0" 8 None eth0_id r;
  r ← add_route "172.16.0.0" 16 None eth1_id r;
  r ← add_route "192.168.0.0" 24 None eth2_id r;
  r ← add_route "198.178.229.0" 24 None uun3_id r;
  r ← add_route "143.195.0.0" 17 (hop hs_router) hs4_id r;
  r ← add_route "143.195.128.0" 18 (hop hs_router) hs4_id r;
  r ← add_route "143.195.192.0" 19 (hop hs_router) hs4_id r;
  mit ← ip "128.30.0.1";
  r ← add_route "128.30.76.255" 16 (Some mit) mit5_id r;
  Ok (set_router r s).

(** An exchange between an interface of the router and one or two hosts. *)
Definition connect (id : Z) (name : string) (s : t) : res t :=
  i ← Router.interface id (_router s);
  h ← host name s;
  '(i, j) ← exchange_frames i (Host._interface h);
  Ok (set_host name (Host.set_interface j h) (set_router (Router.set_interface id i (_router s)) s)).

Definition connect3 (id : Z) (name1 name2 : string) (s : t) : res t :=
  i ← Router.interface id (_router s);
  h1 ← host name1 s;
  h2 ← host name2 s;
  '(i, j1, j2) ← exchange_frames3 i (Host._interface h1) (Host._interface h2);
  let s := set_router (Router.set_interface id i (_router s)) s in
  Ok (set_host name2 (Host.set_interface j2 h2) (set_host name1 (Host.set_interface j1 h1) s)).

Definition simulate_physical_connections (s : t) : res t :=
  s ← connect (default_id s) "default_router" s;
  s ← connect (eth0_id s) "applesauce" s;
  s ← connect (eth2_id s) "cherrypie" s;
  s ← connect (hs4_id s) "hs_router" s;
  connect3 (uun3_id s) "dm42" "dm43" s.

(** The first loop of [simulate], for [n] rounds. *)
Fixpoint rounds (n : nat) (s : t) : res t :=
  match n with
  | O => Ok s
  | S n' =>
      r ← Router.route (_router s);
      s ← simulate_physical_connections (set_router r s);
      rounds n' s
  end.

(** The second loop, over the hosts. *)
Fixpoint check_all (l : list (string * Host.t)) (s : t) : res t :=
  match l with
  | [] => Ok s
  | (name, h) :: l' => h ← Host.check h; check_all l' (set_host name h s)
  end.

Definition simulate (s : t) : res t :=
  s ← rounds 256 s;
  check_all (map_to_list (_hosts s)) s.

(** [network.host(name).send_to(destination, ttl)]. *)
Definition send (name : string) (destination : Address.t) (ttl : Z) (s : t) : res (IPv4Datagram.t * t) :=
  h ← host name s;
  '(d, h) ← Host.send_to destination ttl (rd (drawn s)) h;
  Ok (d, set_drawn (S (drawn s)) (set_host name h s)).

(** One scenario: [from] sends to [destination], [to] is to receive it with a time to
    live that is lower by one. *)
Definition scenario (from : string) (destination : t -> res Address.t) (to : string) (s : t) : res t :=
  a ← destination s;
  '(d, s) ← send from a 64 s;
  let d := Router.set_ttl (u8 (Router.ttl d - 1)) d in
  h ← host to s;
  simulate (set_host to (Host.expect d h) s).

(** The last scenarios, where nothing is to arrive. *)
Definition silent_scenario (from : string) (destination : String.string) (ttl : Z) (s : t) : res t :=
  a ← address destination;
  '(_, s) ← send from a ttl s;
  simulate s.

Definition of_host (name : string) (s : t) : res Address.t := h ← host name s; Ok (Host._my_address h).
Definition of_text (str : String.string) (s : t) : res Address.t := address str.

(** [network_simulator]. *)
Definition network_simulator : res t :=
  s ← make;
  s ← scenario "applesauce" (of_host "cherrypie") "cherrypie" s;
  s ← scenario "cherrypie" (of_host "applesauce") "applesauce" s;
  s ← scenario "applesauce" (of_text "1.2.3.4") "default_router" s;
  s ← scenario "applesauce" (of_text "143.195.131.17") "hs_router" s;
  s ← scenario "cherrypie" (of_text "143.195.193.52") "hs_router" s;
  s ← scenario "cherrypie" (of_text "143.195.223.255") "hs_router" s;
  s ← scenario "cherrypie" (of_text "143.195.224.0") "default_router" s;
  s ← scenario "dm42" (of_host "dm43") "dm43" s;
  s ← silent_scenario "applesauce" "1.2.3.4" 1 s;
  silent_scenario "applesauce" "1.2.3.4" 0 s.

End Network.

(** The script of the application, from the construction of the network to the last
    scenario, with one sequence of random numbers: every datagram is received where it
    is expected, and no other. *)
Example simulation_succeeds :
  match network_simulator (H := DottedQuad.netdb) (fun n => Z.of_nat (37 * n + n * n)) with
  | Ok s => bool_decide (Forall (fun h => Host._expecting_to_receive h.2 = []) (map_to_list (_hosts s)))
  | Throw _ => false
  end = true.
Proof. vm_compute. reflexivity. Qed.

End Network.
