(* ===== verification/Lab7.v ===== *)
(** * Two networks joined over the Internet (apps/lab7.cc)

    A host with a [TCPSocketLab7], whose frames go through a pair of local sockets to a
    [Router]; the router's other interface sends its frames in UDP datagrams to a
    bouncer, behind which the other network is.  Modelled are the adapter, the socket,
    the set-up of the router and the thread that moves the frames.  [summary], which
    the program prints in debug mode, is in Printing.v; the random generator is a sequence
    of numbers, and [exit_flag], which the main thread sets, is given per round. *)

From stdpp Require Import strings.
From S2P Require Import Prelude Buffers Parsing TcpSender TcpState Ipv4Wire EthernetWire NetworkInterface Router Addresses FileDescriptor Sockets Adapter EventLoop SpongeSocket Simulator.
From Stdlib Require Import Strings.Byte.
From Stdlib Require Strings.String.

#[local] Open Scope list_scope.
#[local] Open Scope Z_scope.

(** ** The adapter and the socket *)

Module NetworkInterfaceAdapter.
Section NetworkInterfaceAdapter.
Context `{Address.Netdb}.

(** [class NetworkInterfaceAdapter].  Its members are those of the adapter for TAP
    devices, with the first socket of [_data_socket_pair] in place of the device, and
    so are the bodies of [send_pending], [read], [write] and [tick]. *)
Definition t : Type := TCPOverIPv4OverEthernetAdapter.t.

(** The constructor sends nothing. *)
Definition make (eth_address : EthernetAddress.t) (ip_address next_hop : Address.t) : t :=
  TCPOverIPv4OverEthernetAdapter.mk (FdAdapterBase.mk default_config false) []
    (NetworkInterface.make eth_address (Address.ipv4_numeric ip_address)) next_hop.

Definition send_pending : t -> t := TCPOverIPv4OverEthernetAdapter.send_pending.
Definition read : bytes -> t -> res (option TcpWire.TCPSegment.t * t) := TCPOverIPv4OverEthernetAdapter.read.
Definition write : TcpWire.TCPSegment.t -> t -> res (TcpWire.TCPSegment.t * t) := TCPOverIPv4OverEthernetAdapter.write.
Definition tick : Z -> t -> res t := TCPOverIPv4OverEthernetAdapter.tick.

End NetworkInterfaceAdapter.
End NetworkInterfaceAdapter.

Module TCPSocketLab7.
Section TCPSocketLab7.
Context {K : Type} `{Kernel K} `{Address.Netdb}.

(** [class TCPSocketLab7]; [frame_fd] is the second socket of the adapter's pair. *)
Record t : Type := mk {
  base : @TCPSpongeSocket.t K NetworkInterfaceAdapter.t;
  frame_fd : FileDescriptor.t;
  _local_address : Address.t
}.

Definition make (eth_address : EthernetAddress.t) (ip_address next_hop : Address.t) : io (world K) t :=
  '(first, second) ← TCPSpongeSocket.socket_pair_helper SOCK_DGRAM;
  s ← TCPSpongeSocket.make (NetworkInterfaceAdapter.make eth_address ip_address next_hop) first;
  mret (mk s second ip_address).

(** A call of the base class. *)
Definition on_base {B} (f : io (@TCPSpongeSocket.t K NetworkInterfaceAdapter.t) B) : io t B := fun s =>
  match f (base s) with
  | Ok (b, x) => Ok (b, mk x (frame_fd s) (_local_address s))
  | Throw e => Throw e
  end.

Definition set_local_address (a : Address.t) : io t unit := modify (fun s => mk (base s) (frame_fd s) a).

(** [connect]; [random_port] and [random] are drawn from the random device. *)
Definition connect (fuel : nat) (address : Address.t) (random_port random : Z)
  : io t (bool * list EventLoop.Rule) :=
  s ← get;
  a ← of_res (Address.of_string (Address.ip (_local_address s)) (u16 random_port));
  _ ← set_local_address a;
  on_base (TCPSpongeSocket.connect (Device := bytes) fuel TCPConfig.default random (mkConfig a address 0 0)).

Definition bind (address : Address.t) : io t unit :=
  s ← get;
  if negb (bool_decide (Address.ip address = Address.ip (_local_address s))) then throw runtime_error
  else
    a ← of_res (Address.of_string (Address.ip (_local_address s)) (Address.port address));
    set_local_address a.

Definition listen_and_accept (fuel : nat) (random : Z) : io t (bool * list EventLoop.Rule) :=
  s ← get;
  on_base (TCPSpongeSocket.listen_and_accept (Device := bytes) fuel TCPConfig.default random
             (mkConfig (_local_address s) (Address.mk 0 0) 0 0)).

End TCPSocketLab7.
End TCPSocketLab7.

Module Lab7.
Section Lab7.
Context {K : Type} `{Kernel K} `{Address.Netdb} (rd : nat -> Z).

(** ** Setting up *)

(** The interfaces and routes of the two sides. *)
Definition router_setup (is_client : bool) : res (Z * Z * Router.t) :=
  if is_client then
    '(host_side, r) ← Network.add_interface rd "192.168.0.1" 0 Router.make;
    '(internet_side, r) ← Network.add_interface rd "10.0.0.192" 6 r;
    hop ← Network.ip "10.0.0.172";
    r ← Network.add_route "192.168.0.0" 16 None host_side r;
    r ← Network.add_route "10.0.0.0" 8 None internet_side r;
    r ← Network.add_route "172.16.0.0" 12 (Some hop) internet_side r;
    Ok (host_side, internet_side, r)
  else
    '(host_side, r) ← Network.add_interface rd "172.16.0.1" 0 Router.make;
    '(internet_side, r) ← Network.add_interface rd "10.0.0.172" 6 r;
    hop ← Network.ip "10.0.0.192";
    r ← Network.add_route "172.16.0.0" 12 None host_side r;
    r ← Network.add_route "10.0.0.0" 8 None internet_side r;
    r ← Network.add_route "192.168.0.0" 16 (Some hop) internet_side r;
    Ok (host_side, internet_side, r).

(** The addresses are drawn as in network_simulator.cc, whose two functions for it are
    repeated in lab7.cc. *)
Definition random_host_ethernet_address : nat -> EthernetAddress.t := Network.random_host_ethernet_address rd.
Definition random_router_ethernet_address : nat -> EthernetAddress.t := Network.random_router_ethernet_address rd.

(** "set up the client": the host's socket. *)
Definition socket_setup (is_client : bool) : io (world K) (@TCPSocketLab7.t K) :=
  let '(mine, hop) := if is_client then ("192.168.0.50", "192.168.0.1") else ("172.16.0.100", "172.16.0.1") in
  a ← of_res (Network.address mine);
  b ← of_res (Network.address hop);
  TCPSocketLab7.make (random_host_ethernet_address 12) a b.

(** "let bouncer know where we are"; [resolve] is [Address(host, port)]. *)
Definition greet (resolve : string -> string -> res Address.t) (bounce_host bounce_port : string)
  : io (world K) (FileDescriptor.t * Address.t) :=
  internet_socket ← UDPSocket.make;
  bounce_address ← of_res (resolve bounce_host bounce_port);
  _ ← UDPSocket.sendto bounce_address (BufferViewList.of_string []) internet_socket;
  _ ← UDPSocket.sendto bounce_address (BufferViewList.of_string []) internet_socket;
  _ ← UDPSocket.sendto bounce_address (BufferViewList.of_string []) internet_socket;
  mret (internet_socket, bounce_address).

(** What the main thread asks of the socket before it copies. *)
Definition establish (is_client : bool) (fuel : nat) (random_port random : Z)
  : io (@TCPSocketLab7.t K) (bool * list EventLoop.Rule) :=
  server ← of_res (Address.of_string "172.16.0.100" 1234);
  if is_client then TCPSocketLab7.connect fuel server random_port random
  else
    _ ← TCPSocketLab7.bind server;
    TCPSocketLab7.listen_and_accept fuel random.

(** ** The network thread *)

(** What the thread's functions refer to. *)
Record t : Type := mk {
  os : world K;
  router : Router.t;
  frame_fd : FileDescriptor.t;
  internet_socket : FileDescriptor.t;
  bounce_address : Address.t;
  host_side : Z;
  internet_side : Z
}.

Definition set_os (w : world K) (s : t) : t :=
  mk w (router s) (frame_fd s) (internet_socket s) (bounce_address s) (host_side s) (internet_side s).
Definition set_router (r : Router.t) (s : t) : t :=
  mk (os s) r (frame_fd s) (internet_socket s) (bounce_address s) (host_side s) (internet_side s).

#[export] Instance lab7_os : Holds t (world K) := {|
  view := os; update := set_os;
  view_update := fun _ _ => eq_refl;
  update_view := fun s => match s with mk _ _ _ _ _ _ _ => eq_refl end;
  update_update := fun _ _ _ => eq_refl
|}.

Definition on_fd {B} (fd : t -> FileDescriptor.t) (f : FileDescriptor.t -> io (world K) B) : io t B := fun s =>
  lift (f (fd s)) s.

(** [router.interface(side).recv_frame(frame); router.route();]. *)
Definition receive (side : Z) (frame : EthernetFrame.t) (r : Router.t) : res Router.t :=
  i ← Router.interface side r;
  i ← AsyncNetworkInterface.recv_frame frame i;
  Router.route (Router.set_interface side i r).

(** The rules that read: [data] was read, and is a frame or not. *)
Definition take_in (side : t -> Z) (data : bytes) : io t unit :=
  '(r, frame) ← of_res (EthernetFrame.parse (Buffer.of_string data) EthernetFrame.default);
  if negb (is_NoError r) then mret tt
  else
    s ← get;
    x ← of_res (receive (side s) frame (router s));
    modify (set_router x).

(** The rules that write: [f.front()] (undefined on an empty queue) and [f.pop()]. *)
Definition front (side : Z) (r : Router.t) : res EthernetFrame.t :=
  i ← Router.interface side r;
  match async_frames i with
  | [] => Throw undefined
  | f :: _ => Ok f
  end.
Definition pop (side : Z) (r : Router.t) : res Router.t :=
  i ← Router.interface side r;
  Ok (Router.set_interface side (set_async_frames (tail (async_frames i)) i) r).
Definition send_out (side : t -> Z) (write : BufferList.t -> io t unit) : io t unit :=
  s ← get;
  f ← of_res (front (side s) (router s));
  _ ← write (EthernetFrame.serialize f);
  s ← get;
  x ← of_res (pop (side s) (router s));
  modify (set_router x).
Definition pending (side : t -> Z) (s : t) : res bool :=
  i ← Router.interface (side s) (router s);
  Ok (match async_frames i with [] => false | _ :: _ => true end).

(** Frames from host to router. *)
Definition callback1 : io t unit :=
  data ← on_fd frame_fd (FileDescriptor.read FileDescriptor.no_limit);
  take_in host_side data.

(** Frames from router to host. *)
Definition callback2 : io t unit :=
  send_out host_side (fun p => on_fd frame_fd (fun h => write_packet h p)).

(** Frames from router to Internet. *)
Definition callback3 : io t unit :=
  send_out internet_side (fun p s =>
    on_fd internet_socket (UDPSocket.sendto (bounce_address s) (BufferViewList.of_buffers p)) s).

(** Frames from Internet to router. *)
Definition callback4 : io t unit :=
  data ← on_fd internet_socket (FileDescriptor.read FileDescriptor.no_limit);
  take_in internet_side data.

(** The defaults of [add_rule]: always interested, nothing to do on cancellation. *)
Definition always (s : t) : res bool := Ok true.

Definition rule1 (h : FileDescriptor.t) : @EventLoop.Rule t := EventLoop.mkRule h DirIn callback1 always (mret tt).
Definition rule2 (h : FileDescriptor.t) : @EventLoop.Rule t :=
  EventLoop.mkRule h DirOut callback2 (pending host_side) (mret tt).
Definition rule3 (h : FileDescriptor.t) : @EventLoop.Rule t :=
  EventLoop.mkRule h DirOut callback3 (pending internet_side) (mret tt).
Definition rule4 (h : FileDescriptor.t) : @EventLoop.Rule t := EventLoop.mkRule h DirIn callback4 always (mret tt).

Definition add_rules : io t (list (@EventLoop.Rule t)) :=
  s ← get;
  r ← EventLoop.add_rule (frame_fd s) DirIn callback1 always (mret tt) EventLoop.make;
  r ← EventLoop.add_rule (frame_fd s) DirOut callback2 (pending host_side) (mret tt) r;
  r ← EventLoop.add_rule (internet_socket s) DirOut callback3 (pending internet_side) (mret tt) r;
  EventLoop.add_rule (internet_socket s) DirIn callback4 always (mret tt) r.

(** [router.interface(side).tick(50)]. *)
Definition tick_side (side : t -> Z) : io t unit :=
  s ← get;
  i ← of_res (Router.interface (side s) (router s));
  modify (set_router (Router.set_interface (side s) (AsyncNetworkInterface.tick 50 i) (router s))).

(** The loop, cut off after [fuel] rounds: the flag says whether it has ended;
    [exit_flag n] is what the flag is found to be when [n] rounds are left. *)
Fixpoint network_rounds (fuel : nat) (exit_flag : nat -> bool) (rs : list (@EventLoop.Rule t))
  : io t (bool * list (@EventLoop.Rule t)) :=
  match fuel with
  | O => mret (false, rs)
  | S fuel' =>
      '(r, rs) ← EventLoop.wait_next_event 50 rs;
      match r with
      | EventLoop.Exit => mret (true, rs)
      | _ =>
          _ ← tick_side host_side;
          _ ← tick_side internet_side;
          if exit_flag fuel' then mret (true, rs) else network_rounds fuel' exit_flag rs
      end
  end.

(** The body of [network_thread]. *)
Definition network_thread (fuel : nat) (exit_flag : nat -> bool) : io t (bool * list (@EventLoop.Rule t)) :=
  rs ← add_rules;
  network_rounds fuel exit_flag rs.

End Lab7.

(** The command line: the side, the bouncer's host and port, and the debug switch. *)
Definition arguments (argv : list string) : option (bool * string * string * bool) :=
  match argv with
  | _ :: side :: host :: port :: rest =>
      match rest with
      | [] | [_] =>
          if negb (bool_decide (side = "client"%string)) && negb (bool_decide (side = "server"%string)) then None
          else Some (bool_decide (side = "client"%string), host, port, negb (bool_decide (rest = [])))
      | _ => None
      end
  | _ => None
  end.

(** ** The way between the two hosts *)

Definition quad (a b c d : Z) : Z := ((a * 256 + b) * 256 + c) * 256 + d.

(** The addresses of the client's network and of the server's. *)
Definition host_ip (is_client : bool) : Z := if is_client then quad 192 168 0 50 else quad 172 16 0 100.
Definition gateway_ip (is_client : bool) : Z := if is_client then quad 192 168 0 1 else quad 172 16 0 1.
Definition internet_ip (is_client : bool) : Z := if is_client then quad 10 0 0 192 else quad 10 0 0 172.
Definition network (is_client : bool) : Z * Z :=
  if is_client then (quad 192 168 0 0, 16) else (quad 172 16 0 0, 12).

(** The routes of one side: its own network, the network of the bouncer, and the other
    network behind the other router. *)
Definition routes (is_client : bool) : list Router.rule :=
  [ Router.mkRule (network is_client).1 (network is_client).2 (Router.mkOut None 0);
    Router.mkRule (quad 10 0 0 0) 8 (Router.mkOut None 1);
    Router.mkRule (network (negb is_client)).1 (network (negb is_client)).2
      (Router.mkOut (Some (internet_ip (negb is_client))) 1) ].

Definition fresh (eth : EthernetAddress.t) (ip : Z) : AsyncNetworkInterface.t :=
  AsyncNetworkInterface.make (NetworkInterface.make eth ip).

Definition fresh_router (rd : nat -> Z) (is_client : bool) : Router.t :=
  Router.mk [fresh (Network.random_router_ethernet_address rd 0) (gateway_ip is_client);
             fresh (Network.random_router_ethernet_address rd 6) (internet_ip is_client)] ∅.

(** [inet_ntoa] writes dotted quads. *)
Definition dotted `{Address.Netdb} : Prop :=
  forall a, 0 <= a < two32 -> Address.inet_ntoa a = DottedQuad.inet_ntoa a.

Lemma address_literal `{Address.Netdb} (str : String.string) a : dotted -> 0 <= a < two32 ->
  DottedQuad.inet_ntoa a = str -> Network.ip str = Ok a.
Proof.
  intros Hd Ha <-. unfold Network.ip, Network.address, Address.of_string.
  by rewrite <- Hd, Address.numeric_host by (done || lia).
Qed.

Lemma router_setup_routes `{Address.Netdb} rd b : dotted ->
  router_setup rd b = Ok (0, 1, Router.add_rules (routes b) (fresh_router rd b)).
Proof.
  intros Hd.
  assert (Hip : forall str a, 0 <= a < two32 -> DottedQuad.inet_ntoa a = str -> Network.ip str = Ok a)
    by eauto using address_literal.
  unfold router_setup, Network.add_interface, Network.add_route. destruct b.
  - rewrite (Hip "192.168.0.1" (quad 192 168 0 1)), (Hip "10.0.0.192" (quad 10 0 0 192)),
      (Hip "10.0.0.172" (quad 10 0 0 172)), (Hip "192.168.0.0" (quad 192 168 0 0)), (Hip "10.0.0.0" (quad 10 0 0 0)),
      (Hip "172.16.0.0" (quad 172 16 0 0)) by (done || reflexivity). reflexivity.
  - rewrite (Hip "172.16.0.1" (quad 172 16 0 1)), (Hip "10.0.0.192" (quad 10 0 0 192)),
      (Hip "10.0.0.172" (quad 10 0 0 172)), (Hip "192.168.0.0" (quad 192 168 0 0)), (Hip "10.0.0.0" (quad 10 0 0 0)),
      (Hip "172.16.0.0" (quad 172 16 0 0)) by (done || reflexivity). reflexivity.
Qed.

(** The two high-order bits tell the three networks apart. *)
Lemma routes_apart b i j x y addr : routes b !! i = Some x -> routes b !! j = Some y ->
  Router.matches x addr -> Router.matches y addr -> i = j.
Proof.
  intros Hx Hy Mx My.
  assert (Hlen : forall k z, routes b !! k = Some z -> Router.length_ z = 8 \/ Router.length_ z = 12 \/ Router.length_ z = 16).
  { intros k z Hz. destruct b, k as [|[|[|k]]]; try discriminate; injection Hz as <-; cbn; auto. }
  assert (Hbit : forall n, 30 <= n < 32 -> Z.testbit (Router.prefix x) n = Z.testbit (Router.prefix y) n).
  { intros n Hn. destruct (Hlen _ _ Hx) as [|[|]], (Hlen _ _ Hy) as [|[|]];
      rewrite <- Mx, <- My by lia; done. }
  pose proof (Hbit 30 ltac:(lia)) as H30. pose proof (Hbit 31 ltac:(lia)) as H31.
  destruct b, i as [|[|[|i]]], j as [|[|[|j]]]; try discriminate; try reflexivity;
    injection Hx as <-; injection Hy as <-; vm_compute in H30, H31; discriminate.
Qed.

Lemma routes_selected b i x addr : routes b !! i = Some x -> Router.matches x addr ->
  Router.selected (routes b) addr x.
Proof.
  intros Hx Hm. exists i. split; [done|]. split; [done|]. intros j y Hy My. right.
  assert (i = j) as <- by (by eapply routes_apart). split; [congruence|lia].
Qed.

Lemma fresh_cold e1 ip1 e2 ip2 : EthernetAddress.wf e1 -> EthernetAddress.wf e2 ->
  0 <= ip1 < two32 -> 0 <= ip2 < two32 -> cold (fresh e1 ip1) (fresh e2 ip2).
Proof.
  intros H1 H2 Hi1 Hi2.
  assert (Ha : forall e ip, EthernetAddress.wf e -> 0 <= ip < two32 -> addressed (fresh e ip)).
  { intros e ip He Hip. split; [by split; [apply NetworkInterface.interface_make_wf|]|done|done]. }
  split; [split; [by apply Ha..|done|done]|done..].
Qed.

Lemma router_address_wf rd n : EthernetAddress.wf (Network.random_router_ethernet_address rd n).
Proof. split; [done|]. cbn. forall_list; try apply u8_range; lia. Qed.

Lemma fresh_router_idle rd b : Forall AsyncNetworkInterface.wf (Router._interfaces (fresh_router rd b)) /\
  Forall (fun k => AsyncNetworkInterface.datagrams_out k = []) (Router._interfaces (fresh_router rd b)).
Proof. split; repeat (constructor; try done); apply NetworkInterface.interface_make_wf. Qed.

Lemma routes_ok rd b : Forall (Router.rule_ok (length (Router._interfaces (fresh_router rd b)))) (routes b).
Proof. destruct b; repeat constructor; cbn; lia. Qed.

(** One router of the way: a datagram [d] that has come in on the interface [i] leaves,
    one hop older, through the interface of the route that fits its destination, and
    reaches the fresh interface [y] behind it. *)
Lemma through_router rd b (i k : nat) x ri' d y :
  routes b !! k = Some x -> Router.matches x (Router.dst d) -> (i < 2)%nat ->
  i <> Z.to_nat (Router.interface_num (Router.out x)) ->
  AsyncNetworkInterface.wf ri' -> AsyncNetworkInterface._datagrams_out ri' = [d] ->
  IPv4Datagram.wf d -> 1 < Router.ttl d ->
  match Router.next_hop (Router.out x) with Some h => h | None => Router.dst d end = ip_of y ->
  (forall rj, Router._interfaces (fresh_router rd b) !! Z.to_nat (Router.interface_num (Router.out x)) = Some rj -> cold rj y) ->
  exists r' rj1 rj' y' d', Router.route (Router.set_interface (Z.of_nat i) ri' (Router.add_rules (routes b) (fresh_router rd b))) = Ok r' /\
    Router.interface (Router.interface_num (Router.out x)) r' = Ok rj1 /\ exchanges 3 rj1 y = Ok (rj', y') /\
    AsyncNetworkInterface.wf y' /\
    AsyncNetworkInterface._datagrams_out y' = AsyncNetworkInterface._datagrams_out y ++ [d'] /\
    arrived (Router.set_ttl (Router.ttl d - 1) d) d'.
Proof.
  intros Hx Hm Hi Hij Hw Hq Hd Ht Hhop Hcold. destruct (fresh_router_idle rd b) as [Hifs Hidle].
  assert (Hj : exists rj, Router._interfaces (fresh_router rd b) !! Z.to_nat (Router.interface_num (Router.out x)) = Some rj).
  { destruct (Forall_lookup_1 _ _ _ _ (routes_ok rd b) Hx) as [_ Hr]. apply lookup_lt_is_Some. lia. }
  destruct Hj as [rj Hrj].
  assert (Hd2 : IPv4Datagram.wf (Router.set_ttl (Router.ttl d - 1) d)).
  { apply Router.set_ttl_wf; [done|]. destruct Hd as [[] _ _]. unfold Router.ttl in *. lia. }
  destruct (link_cold rj y _ (Hcold rj Hrj) Hd2) as (rj1 & rj' & y' & d' & it & E3 & E4 & Harr & Hwy & Hqy & _).
  destruct (route_selected (routes b) (fresh_router rd b) x i ri' rj rj1 d) as (r' & E5 & E6); try done.
  - apply routes_ok.
  - by eapply routes_selected.
  - by rewrite Hhop.
  - by exists r', rj1, rj', y', d'.
Qed.

(** A chain of arrivals. *)
Lemma arrived_header d d1 : arrived d d1 -> Router.dst d1 = Router.dst d /\ Router.ttl d1 = Router.ttl d.
Proof. intros [(c & Hh) _]. unfold Router.dst, Router.ttl. by rewrite Hh. Qed.

Lemma arrived_next d d1 d' : arrived d d1 -> arrived (Router.set_ttl (Router.ttl d1 - 1) d1) d' ->
  arrived (Router.set_ttl (Router.ttl d - 1) d) d'.
Proof.
  intros H1 [(c' & Hh') [Hw Hp']]. destruct (arrived_header _ _ H1) as [_ Ht]. destruct H1 as [(c & Hh) [_ Hp]].
  split; [|split; [done|]].
  - exists c'. rewrite Hh'. unfold Router.set_ttl. cbn [IPv4Datagram.header]. by rewrite Hh, Ht.
  - rewrite Hp'. exact Hp.
Qed.

(** The interfaces of a router that was set up. *)
Lemma setup_interface rd b : let r := Router.add_rules (routes b) (fresh_router rd b) in
  Router.interface 0 r = Ok (fresh (Network.random_router_ethernet_address rd 0) (gateway_ip b)) /\
  Router.interface 1 r = Ok (fresh (Network.random_router_ethernet_address rd 6) (internet_ip b)).
Proof. by destruct b. Qed.

Lemma ips_wf b : 0 <= host_ip b < two32 /\ 0 <= gateway_ip b < two32 /\ 0 <= internet_ip b < two32.
Proof. destruct b; vm_compute; intuition congruence. Qed.

Lemma routes_match b : exists own other, routes b !! 0%nat = Some own /\ routes b !! 2%nat = Some other /\
  Router.matches own (host_ip b) /\ Router.out own = Router.mkOut None 0 /\
  Router.matches other (host_ip (negb b)) /\ Router.out other = Router.mkOut (Some (internet_ip (negb b))) 1.
Proof.
  eexists _, _. split; [done|]. split; [done|].
  destruct b; split_and!; try done; (apply Router.masked_matches; [cbn; lia|vm_compute; reflexivity]).
Qed.

(** C40: the two networks reach each other, in both directions.  With the routers as
    the program sets them up and nobody knowing an Ethernet address, a datagram from
    the host of one side to the host of the other crosses its own link, its router,
    the link between the routers, the other router and the last link.  It arrives
    exactly once, two hops older, with the same payload. *)
Theorem lab7_delivery (HN : Address.Netdb) (rd1 rd2 : nat -> Z) (b : bool) (eth1 eth2 : EthernetAddress.t)
  (d : IPv4Datagram.t) (Hnames : dotted) (He1 : EthernetAddress.wf eth1) (He2 : EthernetAddress.wf eth2)
  (Hd : IPv4Datagram.wf d) (Hdst : Router.dst d = host_ip (negb b)) (Httl : 2 < Router.ttl d) :
  exists r1 r2 x1 x2 i1 i1' r1' o1 o1' o2 o2' r2' j j' y d',
    router_setup rd1 b = Ok (0, 1, r1) /\ router_setup rd2 (negb b) = Ok (0, 1, r2) /\
    AsyncNetworkInterface.send_datagram d (gateway_ip b) (fresh eth1 (host_ip b)) = Ok x1 /\
    Router.interface 0 r1 = Ok i1 /\ exchanges 3 x1 i1 = Ok (x2, i1') /\
    Router.route (Router.set_interface 0 i1' r1) = Ok r1' /\
    Router.interface 1 r1' = Ok o1 /\ Router.interface 1 r2 = Ok o2 /\ exchanges 3 o1 o2 = Ok (o1', o2') /\
    Router.route (Router.set_interface 1 o2' r2) = Ok r2' /\
    Router.interface 0 r2' = Ok j /\ exchanges 3 j (fresh eth2 (host_ip (negb b))) = Ok (j', y) /\
    AsyncNetworkInterface.datagrams_out y = [d'] /\ arrived (Router.set_ttl (Router.ttl d - 2) d) d'.
Proof.
  assert (Hr1 := router_address_wf rd1). assert (Hr2 := router_address_wf rd2).
  destruct (ips_wf b) as (Hh & Hg & Hi), (ips_wf (negb b)) as (Hh' & Hg' & Hi').
  destruct (setup_interface rd1 b) as [I1 I2], (setup_interface rd2 (negb b)) as [J1 J2].
  set (i1 := fresh _ (gateway_ip b)) in *. set (o2 := fresh _ (internet_ip (negb b))) in *.
  destruct (link_cold (fresh eth1 (host_ip b)) i1 d) as (x1 & x2 & i1' & d1 & it & E1 & E2 & A1 & W1 & Q1 & _);
    [by apply fresh_cold|done|]. destruct (arrived_header _ _ A1) as [Hd1 Ht1].
  destruct (routes_match b) as (_ & x & _ & Hx & _ & _ & Mx & Ox).
  destruct (through_router rd1 b 0 2 x i1' d1 o2) as (r1' & o1 & o1' & o2' & d2 & E3 & E4 & E5 & W2 & Q2 & A2);
    try done; try apply A1; rewrite ?Ox, ?Hd1, ?Hdst; try done; [lia|lia|..].
  { intros rj [= <-]. by apply fresh_cold. }
  apply (arrived_next _ _ _ A1) in A2. destruct (arrived_header _ _ A2) as [Hd2 Ht2].
  change (Router.dst (Router.set_ttl _ d)) with (Router.dst d) in Hd2.
  change (Router.ttl (Router.set_ttl _ d)) with (Router.ttl d - 1) in Ht2.
  destruct (routes_match (negb b)) as (y & _ & Hy & _ & My & Oy & _).
  destruct (through_router rd2 (negb b) 1 0 y o2' d2 (fresh eth2 (host_ip (negb b))))
    as (r2' & j & j' & y' & d' & E6 & E7 & E8 & _ & Q3 & A3);
    try done; try apply A2; rewrite ?Oy, ?Hd2, ?Hdst; try done; [lia|lia|..].
  { intros rj [= <-]. by apply fresh_cold. }
  apply (arrived_next _ _ _ A2) in A3. rewrite Ox in E4. rewrite Oy in E7.
  exists (Router.add_rules (routes b) (fresh_router rd1 b)), (Router.add_rules (routes (negb b)) (fresh_router rd2 (negb b))).
  exists x1, x2, i1, i1', r1', o1, o1', o2, o2', r2', j, j', y', d'.
  split_and!; try done; try (by apply router_setup_routes).
  replace (Router.ttl d - 2) with (Router.ttl d - 1 - 1) by lia. exact A3.
Qed.

(** From the client's host to the server's. *)
Definition letter : IPv4Datagram.t :=
  IPv4Datagram.mk (IPv4Header.mk 4 5 0 23 0 true false 0 64 6 0 (host_ip true) (host_ip false))
    (BufferList.of_string [x61; x62; x63]).

Lemma lab7_delivery_witness :
  exists r2' j j' y d', Router.interface 0 r2' = Ok j /\
    exchanges 3 j (fresh [2; 0; 0; 0; 0; 8] (quad 172 16 0 100)) = Ok (j', y) /\
    AsyncNetworkInterface.datagrams_out y = [d'] /\ Router.ttl d' = 62.
Proof.
  destruct (lab7_delivery DottedQuad.netdb Z.of_nat (fun n => Z.of_nat (2 * n)) true [2; 0; 0; 0; 0; 7] [2; 0; 0; 0; 0; 8] letter)
    as (r1 & r2 & x1 & x2 & i1 & i1' & r1' & o1 & o1' & o2 & o2' & r2' & j & j' & y & d' &
        _ & _ & _ & _ & _ & _ & _ & _ & _ & _ & E1 & E2 & Hq & (c & Hh) & _).
  - intros a _. reflexivity.
  - split; [reflexivity|]. cbn. forall_list; lia.
  - split; [reflexivity|]. cbn. forall_list; lia.
  - split; [split; try reflexivity; (split; vm_compute; congruence) | | reflexivity].
    apply BufferList.buffer_list_of_string_wf. cbn. lia.
  - reflexivity.
  - vm_compute. reflexivity.
  - exists r2', j, j', y, d'. split; [exact E1|]. split; [exact E2|]. split; [exact Hq|].
    unfold Router.ttl. rewrite Hh. reflexivity.
Defined.

End Lab7.
