(* ===== verification/Lab7Safety.v ===== *)
(** * The network thread never fails (apps/lab7.cc)

    The thread of lab7 moves frames between the host's socket pair, the router and the
    UDP socket.  Over a kernel whose calls succeed, and with frames that the router can
    pass on in a UDP datagram, none of its steps throws: in particular a rule that
    writes is only called when there is a frame, so [front()] is never called on an
    empty queue.  The rules are shown to be a sound set in the sense of EventLoop.v. *)

From S2P Require Import Prelude Buffers Parsing Ipv4Wire EthernetWire NetworkInterface Router Addresses FileDescriptor Sockets Adapter EventLoop SpongeSocket Simulator Lab7.
From Stdlib Require Import Strings.Byte.

Module Lab7Safety.
Import Lab7.

(** ** The router *)

(** The longest payload of a UDP datagram over IPv4, and of a frame inside it. *)
Definition udp_max : Z := 65507.
Definition room : Z := udp_max - EthernetHeader.LENGTH.

(** The router's interfaces are in order, and what waits in them can be sent. *)
Record good (r : Router.t) : Prop := {
  gd_wf : Router.wf r;
  gd_tidy : Forall (fun i => NetworkInterface.tidy room (AsyncNetworkInterface.base i)) (Router._interfaces r);
  gd_modest : Router.modest room r
}.

(** The frames that wait in an interface. *)
Definition waiting (k : Z) (r : Router.t) : list EthernetFrame.t :=
  match Router._interfaces r !! Z.to_nat k with Some i => async_frames i | None => [] end.

Lemma advances_length r r' : Router.advances room r r' -> length (Router._interfaces r') = length (Router._interfaces r).
Proof. intros H. symmetry. by eapply Forall2_length. Qed.

Lemma advances_tidy r r' : Router.advances room r r' ->
  Forall (fun i => NetworkInterface.tidy room (AsyncNetworkInterface.base i)) (Router._interfaces r) ->
  Forall (fun i => NetworkInterface.tidy room (AsyncNetworkInterface.base i)) (Router._interfaces r').
Proof.
  unfold Router.advances. intros H. induction H as [|i i' l l' Hi _ IH]; [done|].
  intros [H1 H2]%Forall_cons. constructor; [by apply (proj1 Hi)|by apply IH].
Qed.

Lemma advances_waiting k r r' : Router.advances room r r' -> waiting k r <> [] -> waiting k r' <> [].
Proof.
  intros H Hw. unfold waiting in *. destruct (Router._interfaces r !! Z.to_nat k) as [i|] eqn:Hi; [|done].
  destruct (Forall2_lookup_l _ _ _ _ _ H Hi) as (i' & -> & [_ [fs Hp]] & _).
  unfold async_frames, NetworkInterface.frames_out in *. rewrite Hp. by destruct (NetworkInterface._frames_out _).
Qed.

(** A frame that the router can pass on: what it carries, if it is a datagram, can be
    serialised and leaves room for the headers. *)
Definition passable (frame : EthernetFrame.t) : Prop :=
  AsyncNetworkInterface.benign frame /\
  forall d, IPv4Datagram.parse (Buffer.of_string (BufferList.concatenate (EthernetFrame.payload frame)))
      IPv4Datagram.default = Ok (NoError, d) -> IPv4Header.len (IPv4Datagram.header d) <= room.

Lemma lab7_receive_ok k frame r : good r -> 0 <= k < zlen (Router._interfaces r) -> passable frame ->
  exists r', receive k frame r = Ok r' /\ good r' /\ Router.advances room r r'.
Proof.
  intros [Hw Ht Hm] Hk [Hf Hl]. unfold receive. destruct (Router.interface_ok k r Hk) as (i & Hi & ->). cbn [mbind res_bind].
  assert (Hwi : AsyncNetworkInterface.wf i) by (by eapply Forall_lookup_1; [apply Hw|]).
  destruct (AsyncNetworkInterface.async_recv_frame_wf frame i Hwi Hf) as (i' & E & Hwi'). rewrite E. cbn [mbind res_bind].
  assert (Ha : Router.ahead room i i').
  { unfold AsyncNetworkInterface.recv_frame in E. apply bind_Ok in E as ([d n] & E & H).
    pose proof E as E'. apply (NetworkInterface.recv_frame_advances room ltac:(done)) in E'; [|apply Hwi].
    destruct d as [d|]; injection H as <-; (split; [exact E'|]); [|done].
    intros Hq. apply Forall_app. split; [done|]. constructor; [|done]. apply Hl.
    by eapply NetworkInterface.recv_frame_parsed. }
  pose proof (Router.advances_insert room k i i' r Hi Ha) as H1. set (r1 := Router.set_interface k i' r) in *.
  assert (Hw1 : Router.wf r1).
  { destruct Hw as [Hifs Htab]. split; cbn; [by apply Forall_insert|by rewrite length_insert]. }
  destruct (Router.route_wf r1 Hw1) as (r' & E' & Hw' & _). rewrite E'. exists r'. split; [done|].
  assert (H2 : Router.advances room r r').
  { etransitivity; [exact H1|]. apply Router.route_advances; try done. by eapply Router.advances_modest. }
  split; [|done]. split; [done|by eapply advances_tidy|by eapply Router.advances_modest].
Qed.

Lemma lab7_tick_ok k ms r : good r -> 0 <= k < zlen (Router._interfaces r) -> 0 <= ms < two63 ->
  exists i, Router.interface k r = Ok i /\
    let r' := Router.set_interface k (AsyncNetworkInterface.tick ms i) r in good r' /\ Router.advances room r r'.
Proof.
  intros [Hw Ht Hm] Hk Hms. destruct (Router.interface_ok k r Hk) as (i & Hi & E). exists i. split; [done|]. cbv zeta.
  assert (Ha : Router.advances room r (Router.set_interface k (AsyncNetworkInterface.tick ms i) r)).
  { apply (Router.advances_insert room k i); [done|]. split; [apply NetworkInterface.tick_advances|done]. }
  split; [|done]. split; [|by eapply advances_tidy|by eapply Router.advances_modest].
  destruct Hw as [Hifs Htab]. split; cbn; [|by rewrite length_insert]. apply Forall_insert; [done|].
  pose proof (Forall_lookup_1 _ _ _ _ Hifs Hi) as [H1 H2]. split; [by apply NetworkInterface.interface_tick_wf|done].
Qed.

(** Taking the first frame. *)
Lemma front_ok k r : good r -> waiting k r <> [] -> exists f, front k r = Ok f /\ NetworkInterface.fits room f.
Proof.
  intros [_ Ht _] Hw. unfold waiting in Hw. destruct (Router._interfaces r !! Z.to_nat k) as [i|] eqn:Hi; [|done].
  unfold front, Router.interface. rewrite Hi. cbn [mbind res_bind].
  pose proof (Forall_lookup_1 _ _ _ _ Ht Hi) as [_ _ Hf _]. unfold async_frames, NetworkInterface.frames_out in *.
  destruct (NetworkInterface._frames_out _) as [|f fs]; [done|]. exists f. split; [done|]. by apply Forall_cons in Hf as [? _].
Qed.

Lemma pop_ok k r : good r -> 0 <= k < zlen (Router._interfaces r) ->
  exists r', pop k r = Ok r' /\ good r' /\ length (Router._interfaces r') = length (Router._interfaces r) /\
    forall k', 0 <= k' -> k' <> k -> waiting k' r' = waiting k' r.
Proof.
  intros [Hw Ht Hmo] Hk. unfold pop. destruct (Router.interface_ok k r Hk) as (i & Hi & ->). cbn [mbind res_bind].
  eexists. split; [done|]. set (i' := set_async_frames _ i).
  pose proof (Forall_lookup_1 _ _ _ _ (Router.wf_interfaces r Hw) Hi) as [[H1 H2 H3 H4] Hq].
  pose proof (Forall_lookup_1 _ _ _ _ Ht Hi) as [Hm Htab Hf Hwt].
  split; [split; [split; cbn| |]|].
  - apply Forall_insert; [apply Hw|]. split; [by split|done].
  - rewrite length_insert. apply Hw.
  - apply Forall_insert; [done|]. split; [done|done| |done]. cbn. by apply Forall_tail.
  - apply Forall_insert; [done|]. exact (Forall_lookup_1 _ _ _ _ Hmo Hi).
  - split; [cbn; by rewrite length_insert|]. intros k' Hk' Hne. unfold waiting. cbn.
    by rewrite list_lookup_insert_ne by lia.
Qed.

(** The routers that the program sets up. *)
Lemma setup_good rd b : good (Router.add_rules (routes b) (fresh_router rd b)) /\
  length (Router._interfaces (Router.add_rules (routes b) (fresh_router rd b))) = 2%nat.
Proof.
  destruct (fresh_router_idle rd b) as [Hifs _].
  destruct (Router.add_rules_wf (routes b) (fresh_router rd b)) as [Hw E];
    [by apply Router.empty_table_wf|apply routes_ok|].
  rewrite E. split; [|done]. split; [done| |]; [|unfold Router.modest]; rewrite E.
  - repeat (constructor; [|try done]); (split; [apply router_address_wf|done|constructor|constructor]).
  - repeat (constructor; [constructor|]). constructor.
Qed.

(** ** What is relied on *)

Section Thread.
Context {K : Type} `{Kernel K}.

(** [readable] and [writable] are what [poll] reports. *)
Record environment : Type := mkEnv {
  k_ok : K -> Prop;
  readable : K -> Z -> Prop;
  writable : K -> Z -> Prop
}.
Context (E : environment).

(** A change of the kernel's state that keeps the reports of [poll] valid on the
    descriptors of [P] and [Q]. *)
Record calm (P Q : Z -> Prop) (k k' : K) : Prop := {
  cm_ok : k_ok E k';
  cm_readable : forall fd, P fd -> readable E k fd -> readable E k' fd;
  cm_writable : forall fd, Q fd -> writable E k fd -> writable E k' fd
}.
Definition anywhere (fd : Z) : Prop := True.

(** A packet that, if it is a frame, carries nothing that the router cannot pass on. *)
Definition harmless (data : bytes) : Prop := forall frame,
  EthernetFrame.parse (Buffer.of_string data) EthernetFrame.default = Ok (NoError, frame) -> passable frame.

Record reported (k : K) (p : pollfd) : Prop := {
  rp_error : EventLoop.poll_error p = false;
  rp_in : EventLoop.poll_ready p = true -> events p = POLLIN -> readable E k (poll_fd p);
  rp_out : EventLoop.poll_ready p = true -> events p = POLLOUT -> writable E k (poll_fd p)
}.

(** The documented behaviour of the system calls on datagram sockets, where no call
    fails: a readable one gives a packet, a writable one takes a packet whole if it is
    no longer than a UDP datagram can be.  The packets that arrive are harmless. *)
Record lawful : Prop := {
  law_read : forall k fd size a data k', k_ok E k -> readable E k fd -> 0 <= size ->
    k_read fd size k = (a, data, k') ->
    ret a = zlen data /\ zlen data <= size /\ harmless data /\ calm (fun fd' => fd' <> fd) anywhere k k';
  law_writev : forall k fd iovecs a k', k_ok E k -> writable E k fd -> zlen (concat (fst <$> iovecs)) <= udp_max ->
    k_writev fd iovecs k = (a, k') ->
    ret a = zlen (concat (fst <$> iovecs)) /\ calm anywhere (fun fd' => fd' <> fd) k k';
  law_sendmsg : forall k fd dst iovecs a k', k_ok E k -> writable E k fd -> zlen (concat (fst <$> iovecs)) <= udp_max ->
    k_sendmsg fd (Some dst) iovecs k = (a, k') ->
    ret a = zlen (concat (fst <$> iovecs)) /\ calm anywhere (fun fd' => fd' <> fd) k k';
  law_poll : forall k fds timeout a revs k', k_ok E k -> k_poll fds timeout k = (a, revs, k') ->
    0 <= ret a < two31 /\ calm anywhere anywhere k k' /\ Forall (reported k') (EventLoop.fill_revents fds revs)
}.

(** ** The invariant *)

Inductive side : Type := Host | Internet.
#[local] Instance lab7_side_eq_dec : EqDecision side.
Proof. solve_decision. Defined.

(** The rules by name. *)
Inductive name : Type := In (d : side) | Out (d : side).
#[local] Instance lab7_name_eq_dec : EqDecision name.
Proof. solve_decision. Defined.
Definition side_of (m : name) : side := match m with In d | Out d => d end.

(** The handles, the descriptor numbers and the interfaces of the two sides. *)
Context (hf hn : FileDescriptor.t) (ff fn : Z) (ih ii : Z).
Context (Hhandles : hf <> hn) (Hfds : ff <> fn) (Hsides : 0 <= ih /\ 0 <= ii /\ ih <> ii).

Definition place (d : side) : FileDescriptor.t := match d with Host => hf | Internet => hn end.
Definition fd_of (d : side) : Z := match d with Host => ff | Internet => fn end.
Definition index (d : side) : Z := match d with Host => ih | Internet => ii end.
Definition rule (m : name) : @EventLoop.Rule (@Lab7.t K) :=
  match m with
  | In Host => rule1 hf
  | Out Host => rule2 hf
  | Out Internet => rule3 hn
  | In Internet => rule4 hn
  end.
Definition frames (d : side) (s : @Lab7.t K) : list EthernetFrame.t := waiting (index d) (router s).

(** The state while the rules [names] are installed; both descriptors are also held by
    the objects they belong to. *)
Record body (names : list name) (s : @Lab7.t K) : Prop := {
  bd_nodup : NoDup names;
  bd_cells : forall d, exists x n, heap (os s) !! place d = Some (mkCell x n) /\ FDWrapper._fd x = fd_of d /\
    1 + zlen (filter (fun m => side_of m = d) names) <= n;
  bd_handles : frame_fd s = hf /\ internet_socket s = hn /\ host_side s = ih /\ internet_side s = ii;
  bd_router : good (router s) /\ forall d, index d < zlen (Router._interfaces (router s));
  bd_kernel : k_ok E (kernel (os s))
}.
Definition inv (rs : list (@EventLoop.Rule (@Lab7.t K))) (s : @Lab7.t K) : Prop :=
  exists names, rs = rule <$> names /\ body names s.

(** What a report lets the callback of the rule [m] rely on. *)
Definition ready (m : name) (s : @Lab7.t K) : Prop :=
  match m with
  | In d => readable E (kernel (os s)) (fd_of d)
  | Out d => writable E (kernel (os s)) (fd_of d) /\ frames d s <> []
  end.
Definition token (s : @Lab7.t K) (r : @EventLoop.Rule (@Lab7.t K)) : Prop := forall m, r = rule m -> ready m s.
Definition quiet (s : @Lab7.t K) (r : @EventLoop.Rule (@Lab7.t K)) : Prop :=
  exists d, r = rule (Out d) /\ frames d s = [].
Definition eager (s : @Lab7.t K) (r : @EventLoop.Rule (@Lab7.t K)) : Prop :=
  forall d, r = rule (Out d) -> frames d s <> [].

Lemma rule_fd m : EventLoop.fd (rule m) = place (side_of m).
Proof. by destruct m as [[]|[]]. Qed.

Lemma rule_direction m : EventLoop.direction (rule m) = match m with In _ => DirIn | Out _ => DirOut end.
Proof. by destruct m as [[]|[]]. Qed.

Lemma rule_inj m m' : rule m = rule m' -> m = m'.
Proof.
  intros Hr. assert (Hf : place (side_of m) = place (side_of m')) by (by rewrite <- !rule_fd, Hr).
  assert (Hd : EventLoop.direction (rule m) = EventLoop.direction (rule m')) by (by rewrite Hr). rewrite !rule_direction in Hd.
  destruct m as [[]|[]], m' as [[]|[]]; cbn in *; congruence.
Qed.

Lemma fd_inj d d' : d' <> d -> fd_of d' <> fd_of d /\ index d' <> index d /\ place d' <> place d.
Proof. destruct Hsides as (? & ? & ?). destruct d, d'; cbn; intros; split_and!; congruence. Qed.

Lemma rule_names (names : list name) r : r ∈ rule <$> names -> exists m, m ∈ names /\ r = rule m.
Proof. intros (m & -> & Hm)%list_elem_of_fmap. by exists m. Qed.

(** ** A callback acts on its own side *)

Definition counter (m : name) (x : FDWrapper.t) : Z :=
  match m with In _ => FDWrapper._read_count x | Out _ => FDWrapper._write_count x end.

(** What the callback of the rule [m] may do. *)
Record acts (m : name) (s s' : @Lab7.t K) : Prop := {
  ac_cell : exists x x' n, heap (os s) !! place (side_of m) = Some (mkCell x n) /\
    heap (os s') = <[place (side_of m) := mkCell x' n]> (heap (os s)) /\ FDWrapper._fd x' = FDWrapper._fd x /\
    FDWrapper._closed x' = FDWrapper._closed x /\
    (m = Out (side_of m) -> FDWrapper._eof x' = FDWrapper._eof x) /\ counter m x <> counter m x';
  ac_handles : frame_fd s' = frame_fd s /\ internet_socket s' = internet_socket s /\
    host_side s' = host_side s /\ internet_side s' = internet_side s;
  ac_router : good (router s') /\ length (Router._interfaces (router s')) = length (Router._interfaces (router s));
  ac_frames : forall d, m <> Out d -> frames d s <> [] -> frames d s' <> [];
  ac_kernel : calm (fun fd => m <> In (side_of m) \/ fd <> fd_of (side_of m))
    (fun fd => m <> Out (side_of m) \/ fd <> fd_of (side_of m)) (kernel (os s)) (kernel (os s'))
}.

Lemma lab7_live_cell s m x n : heap (os s) !! place (side_of m) = Some (mkCell x n) ->
  EventLoop.live s (rule m) <-> FDWrapper._closed x = false /\
    match m with In _ => FDWrapper._eof x = false | Out _ => True end.
Proof.
  intros Hx. unfold EventLoop.live. cbn [view lab7_os]. rewrite rule_fd, Hx, rule_direction. split.
  - intros (c & [= <-] & Hc & He). split; [done|]. by destruct m.
  - intros [Hc He]. exists (mkCell x n). split_and!; try done. by destruct m.
Qed.

Lemma lab7_number_cell s m x n : heap (os s) !! place (side_of m) = Some (mkCell x n) ->
  EventLoop.number s (rule m) = FDWrapper._fd x.
Proof. intros Hx. unfold EventLoop.number. cbn [view lab7_os]. by rewrite rule_fd, Hx. Qed.

(** The cells of a side after a step that changes one of them. *)
Lemma acts_cell m s s' d y p : acts m s s' -> heap (os s) !! place d = Some (mkCell y p) ->
  exists y', heap (os s') !! place d = Some (mkCell y' p) /\ FDWrapper._fd y' = FDWrapper._fd y /\
    FDWrapper._closed y' = FDWrapper._closed y /\ (m <> In d -> FDWrapper._eof y' = FDWrapper._eof y).
Proof.
  intros [(x & x' & n & Hx & Hh & Hfd & Hcl & He & _) _ _ _ _] Hy. rewrite Hh.
  destruct (decide (d = side_of m)) as [->|Hne].
  - rewrite lookup_insert_eq. rewrite Hx in Hy. injection Hy as <- <-. exists x'. split_and!; try done.
    intros Hm. apply He. by destruct m.
  - rewrite lookup_insert_ne by (apply not_eq_sym; by apply fd_inj). by exists y.
Qed.

Lemma lab7_acts_body names m s s' : body names s -> acts m s s' -> body names s'.
Proof.
  intros [Hnd Hcells Hh [Hr Hlen] Hk] Ha. split; try done.
  - intros d. destruct (Hcells d) as (y & p & Hy & Hf & Hn). destruct (acts_cell _ _ _ _ _ _ Ha Hy) as (y' & Hy' & Hf' & _).
    exists y', p. split; [done|]. split; [congruence|done].
  - destruct (ac_handles _ _ _ Ha) as (-> & -> & -> & ->). done.
  - destruct (ac_router _ _ _ Ha) as [Hg ->]. done.
  - apply (cm_ok _ _ _ _ (ac_kernel _ _ _ Ha)).
Qed.

Lemma lab7_acts_keeps names m m' s s' : body names s -> acts m s s' -> m' <> m -> EventLoop.keeps token s s' (rule m').
Proof.
  intros Hb Ha Hne. destruct (bd_cells _ _ Hb (side_of m')) as (y & p & Hy & _ & _).
  destruct (acts_cell _ _ _ _ _ _ Ha Hy) as (y' & Hy' & Hf & Hc & He). split.
  - rewrite (lab7_live_cell _ _ _ _ Hy), (lab7_live_cell _ _ _ _ Hy'), Hc. destruct m' as [d|d]; [|done].
    intros [H1 H2]. split; [done|]. rewrite He; [done|]. cbn. congruence.
  - intros Ht m2 ->%rule_inj. specialize (Ht m2 eq_refl). destruct (ac_kernel _ _ _ Ha) as [_ Hrd Hwr].
    destruct m2 as [d|d]; cbn [ready side_of] in *.
    + apply Hrd; [|done]. destruct m as [d'|d']; [|by left]. right. apply fd_inj. cbn. congruence.
    + destruct Ht as [Hw Hfr]. split; [|apply (ac_frames _ _ _ Ha); congruence].
      apply Hwr; [|done]. destruct m as [d'|d']; [by left|]. right. apply fd_inj. cbn. congruence.
  - by rewrite (lab7_number_cell _ _ _ _ Hy), (lab7_number_cell _ _ _ _ Hy').
Qed.

Lemma lab7_acts_counts m s s' : acts m s s' -> exists n1 n2, EventLoop.service_count (rule m) s = Ok (n1, s) /\
  EventLoop.service_count (rule m) s' = Ok (n2, s') /\ n1 <> n2.
Proof.
  assert (Hrun : forall s x n, heap (os s) !! place (side_of m) = Some (mkCell x n) ->
    EventLoop.service_count (rule m) s = Ok (counter m x, s)).
  { clear s s'. intros s x n Hx. unfold EventLoop.service_count.
    rewrite <- (update_view s) at 2. apply lift_run. cbn [view lab7_os]. rewrite rule_fd, rule_direction.
    destruct m; unfold FileDescriptor.read_count, FileDescriptor.write_count;
      by rewrite (io_bind_run _ _ _ _ _ (FileDescriptor.deref_run _ _ _ Hx)). }
  intros [(x & x' & n & Hx & Hh & _ & _ & _ & Hne) _ _ _ _].
  exists (counter m x), (counter m x'). split; [by eapply Hrun|]. split; [|done].
  eapply Hrun. rewrite Hh. apply lookup_insert_eq.
Qed.

(** ** The callbacks *)

Context (HL : lawful).

(** The variables of a side. *)
Definition handle (d : side) : @Lab7.t K -> FileDescriptor.t :=
  match d with Host => frame_fd | Internet => internet_socket end.
Definition number_of (d : side) : @Lab7.t K -> Z :=
  match d with Host => host_side | Internet => internet_side end.

Lemma body_handle names s d : body names s -> handle d s = place d /\ number_of d s = index d.
Proof. intros [_ _ (? & ? & ? & ?) _ _]. by destruct d. Qed.

Lemma lab7_on_fd_run {B} (fd : @Lab7.t K -> FileDescriptor.t) (f : FileDescriptor.t -> io (world K) B) s b w :
  f (fd s) (os s) = Ok (b, w) -> on_fd fd f s = Ok (b, set_os w s).
Proof. intros Hf. unfold on_fd, lift. cbn [view update lab7_os]. by rewrite Hf. Qed.

Lemma u32_next n : n <> u32 (n + 1).
Proof. unfold u32. Z.div_mod_to_equations. lia. Qed.

(** A packet that was read goes to the router, if it is a frame. *)
Lemma take_in_run names d s data : body names s -> harmless data -> zlen data < two64 ->
  exists r, take_in (number_of d) data s = Ok (tt, set_router r s) /\ good r /\ Router.advances room (router s) r.
Proof.
  intros Hb Hh Hlen. destruct (body_handle _ _ d Hb) as [_ Hi]. destruct (bd_router _ _ Hb) as [Hg Hix].
  assert (Hsame : set_router (router s) s = s) by (by destruct s).
  assert (Hbw : Buffer.wf (Buffer.of_string data)) by (by apply Buffer.buffer_of_string_wf).
  destruct (EthernetFrame.frame_parse_safe (Buffer.of_string data) EthernetFrame.default Hbw) as (r & f & Ef & _ & _).
  unfold take_in. rewrite (io_bind_run _ _ _ s (r, f)) by (unfold of_res; by rewrite Ef).
  destruct (is_NoError r) eqn:Er; cbn [negb].
  2:{ exists (router s). rewrite Hsame. split; [done|]. split; [done|reflexivity]. }
  assert (r = NoError) as -> by (by destruct r). specialize (Hix d).
  destruct (lab7_receive_ok (index d) f (router s) Hg) as (r' & E' & Hg' & Ha).
  { destruct Hsides as (? & ? & ?). destruct d; cbn in *; lia. }
  { by apply Hh. }
  rewrite (io_bind_run _ _ _ s s) by done. rewrite Hi.
  rewrite (io_bind_run _ _ _ s r') by (unfold of_res; by rewrite E'). by exists r'.
Qed.

Lemma in_run names d s : body names s -> readable E (kernel (os s)) (fd_of d) ->
  exists s', (data ← on_fd (handle d) (FileDescriptor.read FileDescriptor.no_limit); take_in (number_of d) data) s
    = Ok (tt, s') /\ acts (In d) s s'.
Proof.
  intros Hb Hrd. destruct (body_handle _ _ d Hb) as [Hh _]. destruct (bd_cells _ _ Hb d) as (x & n & Hx & Hfd & _).
  destruct (k_read (fd_of d) (Z.min FileDescriptor.BUFFER_SIZE FileDescriptor.no_limit) (kernel (os s))) as [[a data] k] eqn:Hk.
  assert (Hsz : 0 <= Z.min FileDescriptor.BUFFER_SIZE FileDescriptor.no_limit) by done.
  destruct (law_read HL _ _ _ _ _ _ (bd_kernel _ _ Hb) Hrd Hsz Hk) as (Hret & Hlen & Hharm & Hcalm).
  pose proof (FileDescriptor.read_run FileDescriptor.no_limit (place d) (os s) (mkCell x n) a data k Hx ltac:(done)
    ltac:(cbn [wrapper]; by rewrite Hfd) Hret Hlen) as Er.
  rewrite <- Hh in Er. rewrite (io_bind_run _ _ _ _ _ (lab7_on_fd_run (handle d) _ s _ _ Er)).
  set (w1 := set_cell _ _ _). cbn [wrapper use_count] in w1. set (s1 := set_os w1 s).
  assert (Hb1 : acts (In d) s s1).
  { split; cbn [side_of]; try done.
    - exists x, (FileDescriptor.after_read FileDescriptor.no_limit data x), n. split; [done|]. split; [by rewrite <- Hh|].
      unfold FileDescriptor.after_read. pose proof (u32_next (FDWrapper._read_count x)).
      destruct (_ && _); by split_and!.
    - split; [apply Hb|done].
    - destruct Hcalm as [H1 H2 H3]. split; [done| |].
      + intros fd [Hf|Hf]; [done|]. by apply H2.
      + intros fd _. by apply H3. }
  destruct (take_in_run names d s1 data (lab7_acts_body _ _ _ _ Hb Hb1) Hharm) as (r & Et & Hg & Ha).
  { unfold FileDescriptor.BUFFER_SIZE in Hlen. lia. }
  exists (set_router r s1). split; [exact Et|]. destruct Hb1 as [Hc _ _ _ Hkk]. split; try done.
  - split; [done|]. by apply advances_length.
  - intros d' _. apply (advances_waiting _ (router s) r Ha).
Qed.

(** A frame is written whole. *)
Definition writer (d : side) (p : BufferList.t) : io (@Lab7.t K) unit :=
  match d with
  | Host => on_fd frame_fd (fun h => write_packet h p)
  | Internet => fun s => on_fd internet_socket (UDPSocket.sendto (bounce_address s) (BufferViewList.of_buffers p)) s
  end.

Lemma writer_run names d s p x n : body names s -> heap (os s) !! place d = Some (mkCell x n) ->
  writable E (kernel (os s)) (fd_of d) -> zlen (BufferList.flat p) <= udp_max ->
  exists k, writer d p s =
      Ok (tt, set_os (set_cell (place d) (mkCell (FDWrapper.register_write x) n) (set_kernel k (os s))) s) /\
    calm anywhere (fun fd => fd <> fd_of d) (kernel (os s)) k.
Proof.
  intros Hb Hx Hwr Hlen. destruct (body_handle _ _ d Hb) as [Hh _].
  assert (Hfd : FDWrapper._fd x = fd_of d).
  { destruct (bd_cells _ _ Hb d) as (y & p' & Hy & Hf & _). congruence. }
  set (v := BufferViewList.of_buffers p).
  assert (Hv : concat v = BufferList.flat p) by (unfold v; by rewrite BufferViewList.of_buffers_fmap).
  assert (Hvi : concat (fst <$> BufferViewList.as_iovecs v) = BufferList.flat p) by (by rewrite BufferViewList.iovecs_bytes).
  pose proof (zlen_nonneg (BufferList.flat p)) as H0.
  assert (Hmax : zlen (BufferList.flat p) < two31) by (unfold udp_max in Hlen; lia). destruct d; cbn [handle] in Hh; cbn [place] in *.
  - destruct (k_writev (FDWrapper._fd x) (BufferViewList.as_iovecs v) (kernel (os s))) as [a k] eqn:Hk.
    pose proof Hk as Hk'. rewrite Hfd in Hk'.
    destruct (law_writev HL _ _ _ _ _ (bd_kernel _ _ Hb) Hwr ltac:(by rewrite Hvi) Hk') as [Hr Hc]. rewrite Hvi in Hr.
    exists k. split; [|done]. cbn [writer]. apply lab7_on_fd_run. rewrite Hh. unfold write_packet, FileDescriptor.write.
    destruct (FileDescriptor.write_round (Z.to_nat (BufferViewList.size v)) v true 0 hf (os s) (mkCell x n) a k Hx Hk)
      as (b & Hbb & Ew); rewrite ?Hv; try lia.
    { intros Hz. apply nil_length_inv. lia. }
    rewrite Hv, Hr, Nat2Z.id, drop_ge in Hbb by lia.
    rewrite (BufferViewList.view_list_size b), Hbb in Ew. cbn in Ew. by rewrite (io_bind_run _ _ _ _ _ Ew).
  - destruct (k_sendmsg (FDWrapper._fd x) (Some (bounce_address s)) (BufferViewList.as_iovecs v) (kernel (os s))) as [a k] eqn:Hk.
    pose proof Hk as Hk'. rewrite Hfd in Hk'.
    destruct (law_sendmsg HL _ _ _ _ _ _ (bd_kernel _ _ Hb) Hwr ltac:(by rewrite Hvi) Hk') as [Hr Hc]. rewrite Hvi in Hr.
    exists k. split; [|done]. cbn [writer]. apply lab7_on_fd_run. rewrite Hh. fold v.
    rewrite (UDPSocket.sendto_run _ v _ _ (mkCell x n) a k Hx Hk); [done|by rewrite Hv|rewrite Hv; lia].
Qed.

(** A frame that fits is short enough. *)
Lemma fits_length f : NetworkInterface.fits room f -> zlen (BufferList.flat (EthernetFrame.serialize f)) <= udp_max.
Proof.
  intros [[Hh _] Hlen]. rewrite EthernetFrame.flat_serialize, length_app, EthernetHeader.length_serialize by done.
  unfold room, EthernetHeader.LENGTH in Hlen. lia.
Qed.

Lemma out_run names d s : body names s -> ready (Out d) s ->
  exists s', send_out (number_of d) (writer d) s = Ok (tt, s') /\ acts (Out d) s s'.
Proof.
  intros Hb [Hwr Hfr]. destruct (body_handle _ _ d Hb) as [_ Hi]. destruct (bd_router _ _ Hb) as [Hg Hix].
  destruct (bd_cells _ _ Hb d) as (x & n & Hx & _ & _). destruct (front_ok _ _ Hg Hfr) as (f & Ef & Hf).
  destruct (writer_run names d s (EthernetFrame.serialize f) x n Hb Hx Hwr (fits_length f Hf)) as (k & Ew & Hc).
  set (s1 := set_os _ s) in Ew.
  destruct (pop_ok (index d) (router s)) as (r & Ep & Hg' & Hlen & Hother); [done|..].
  { specialize (Hix d). destruct Hsides as (? & ? & ?). destruct d; cbn in *; lia. }
  exists (set_router r s1). split.
  - unfold send_out. rewrite (io_bind_run _ _ _ s s) by done. rewrite Hi.
    rewrite (io_bind_run _ _ _ s f) by (unfold of_res; by rewrite Ef). rewrite (io_bind_run _ _ _ _ _ Ew).
    rewrite (io_bind_run _ _ _ s1 s1) by done.
    assert (Hi1 : number_of d s1 = index d) by (rewrite <- Hi; by destruct d). rewrite Hi1.
    by rewrite (io_bind_run _ _ _ s1 r) by (unfold of_res; cbn [router s1 set_os]; by rewrite Ep).
  - split; cbn [side_of]; try done.
    + exists x, (FDWrapper.register_write x), n. pose proof (u32_next (FDWrapper._write_count x)). by split_and!.
    + intros d' Hne. unfold frames. cbn [router set_router]. rewrite Hother; [done| |].
      * destruct Hsides as (? & ? & ?). by destruct d'.
      * apply fd_inj. congruence.
    + destruct Hc as [H1 H2 H3]. split; [done|intros fd _; by apply H2|]. intros fd [Hfd|Hfd]; [done|by apply H3].
Qed.

Lemma lab7_callback_run names m s : body names s -> ready m s ->
  exists s', EventLoop.callback (rule m) s = Ok (tt, s') /\ acts m s s'.
Proof.
  intros Hb Hr. destruct m as [d|d].
  - destruct (in_run names d s Hb Hr) as (s' & E' & Ha). exists s'. split; [|done]. by destruct d.
  - destruct (out_run names d s Hb Hr) as (s' & E' & Ha). exists s'. split; [|done]. by destruct d.
Qed.

(** ** The rules are sound *)

(** The state after a rule was removed. *)
Definition retired (m : name) (x : FDWrapper.t) (n : Z) (s : @Lab7.t K) : @Lab7.t K :=
  set_os (set_cell (place (side_of m)) (mkCell x (n - 1)) (os s)) s.

Lemma lab7_retire_run m s x n : heap (os s) !! place (side_of m) = Some (mkCell x n) -> 1 < n ->
  EventLoop.retire (rule m) s = Ok (tt, retired m x n s).
Proof.
  intros Hx Hn. unfold EventLoop.retire. rewrite (io_bind_run _ _ _ s tt) by (by destruct m as [[]|[]]).
  rewrite rule_fd. unfold lift. cbn [view update lab7_os]. by rewrite (FileDescriptor.destroy_run _ _ x n Hx Hn).
Qed.

Lemma lab7_retired_cell m x n s d y p : heap (os s) !! place (side_of m) = Some (mkCell x n) ->
  heap (os s) !! place d = Some (mkCell y p) ->
  heap (os (retired m x n s)) !! place d = Some (mkCell y (if decide (d = side_of m) then p - 1 else p)).
Proof.
  intros Hx Hy. unfold retired. cbn [os set_os heap set_cell]. destruct (decide (d = side_of m)) as [->|Hne].
  - rewrite lookup_insert_eq. rewrite Hy in Hx. by injection Hx as -> ->.
  - by rewrite lookup_insert_ne by (apply not_eq_sym; by apply fd_inj).
Qed.

Lemma lab7_retired_keeps names m x n s m' : body names s -> heap (os s) !! place (side_of m) = Some (mkCell x n) ->
  EventLoop.keeps token s (retired m x n s) (rule m').
Proof.
  intros Hb Hx. destruct (bd_cells _ _ Hb (side_of m')) as (y & p & Hy & _ & _).
  pose proof (lab7_retired_cell m x n s _ y p Hx Hy) as Hy'. split.
  - by rewrite (lab7_live_cell _ _ _ _ Hy), (lab7_live_cell _ _ _ _ Hy').
  - intros Ht m2 Hm2. specialize (Ht m2 Hm2). by destruct m2.
  - by rewrite (lab7_number_cell _ _ _ _ Hy), (lab7_number_cell _ _ _ _ Hy').
Qed.

Lemma lab7_retired_body n1 m n2 s x n : body (n1 ++ m :: n2) s ->
  heap (os s) !! place (side_of m) = Some (mkCell x n) -> body (n1 ++ n2) (retired m x n s).
Proof.
  intros [Hnd Hcells Hh Hr Hk] Hx. split; try done.
  - apply (sublist_NoDup _ (n1 ++ m :: n2)); [done|]. apply sublist_app; [done|]. by apply sublist_cons.
  - intros d. destruct (Hcells d) as (y & p & Hy & Hfd & Hp).
    rewrite (lab7_retired_cell m x n s d y p Hx Hy). exists y. eexists. split; [done|]. split; [done|].
    rewrite !filter_app, filter_cons, !length_app in *. destruct (decide (d = side_of m)) as [->|Hne].
    + rewrite decide_True in Hp by done. cbn [length] in Hp. lia.
    + rewrite decide_False in Hp by congruence. lia.
Qed.

Lemma lab7_calm_body names s k : body names s -> calm anywhere anywhere (kernel (os s)) k ->
  body names (set_os (set_kernel k (os s)) s) /\
  forall m, EventLoop.keeps token s (set_os (set_kernel k (os s)) s) (rule m).
Proof.
  intros [Hnd Hcells Hh Hr Hk] [Hok Hrd Hw]. split; [by split|]. intros m. split; [done| |done].
  intros Ht m2 Hm2. specialize (Ht m2 Hm2). destruct m2 as [d|d]; cbn [ready] in *; [by apply Hrd|].
  destruct Ht as [H1 H2]. split; [by apply Hw|done].
Qed.

Lemma lab7_inv_split l1 r l2 s : inv (l1 ++ r :: l2) s ->
  exists n1 m n2, l1 = rule <$> n1 /\ r = rule m /\ l2 = rule <$> n2 /\ body (n1 ++ m :: n2) s.
Proof.
  intros (names & Heq & Hb). symmetry in Heq. apply fmap_app_inv in Heq as (n1 & n' & -> & Heq & ->).
  symmetry in Heq. apply fmap_cons_inv in Heq as (m & n2 & -> & -> & ->). by exists n1, m, n2.
Qed.

(** What the rules answer when they are asked. *)
Lemma interest_out names s d : body names s ->
  EventLoop.interest (rule (Out d)) s = Ok (match frames d s with [] => false | _ :: _ => true end).
Proof.
  intros Hb. destruct (body_handle _ _ d Hb) as [_ Hi]. destruct (bd_router _ _ Hb) as [_ Hix]. specialize (Hix d).
  assert (Hint : EventLoop.interest (rule (Out d)) s = pending (number_of d) s) by (by destruct d).
  rewrite Hint. unfold pending, frames, waiting. rewrite Hi.
  destruct (Router.interface_ok (index d) (router s)) as (i & Hl & ->).
  { destruct Hsides as (? & ? & ?). destruct d; cbn in *; lia. }
  by rewrite Hl.
Qed.

Lemma lab7_reported_token s s' m p z : EventLoop.asks eager s (rule m) p -> router s' = router s ->
  EventLoop.number s (rule m) = fd_of (side_of m) ->
  reported (kernel (os s')) (mkPollfd (poll_fd p) (events p) z) ->
  EventLoop.poll_error (mkPollfd (poll_fd p) (events p) z) = false /\
  (EventLoop.poll_ready (mkPollfd (poll_fd p) (events p) z) = true -> token s' (rule m)).
Proof.
  intros Hp Hrt Hn [Herr Hin Hout]. split; [done|]. intros Hr m2 <-%rule_inj.
  destruct (EventLoop.asked_ready _ _ _ _ _ Hp Hr) as [Hev He]. destruct Hp as [Hp _]. rewrite Hn in Hp.
  cbn [poll_fd events] in *. rewrite rule_direction in Hev. rewrite Hp in *. destruct m as [d|d]; cbn [ready side_of] in *.
  - by apply Hin.
  - split; [by apply Hout|]. unfold frames. rewrite Hrt. by apply He.
Qed.

Lemma lab7_sound : EventLoop.sound inv token quiet eager.
Proof.
  split.
  - intros rs s r (names & -> & Hb) (m & Hm & ->)%rule_names. cbn [view lab7_os]. rewrite rule_fd.
    destruct (bd_cells _ _ Hb (side_of m)) as (x & n & Hx & _). by eexists.
  - intros rs s r (names & -> & Hb) (m & Hm & ->)%rule_names. destruct m as [d|d].
    + exists true. by destruct d.
    + eexists. by eapply interest_out.
  - intros rs s r (names & -> & Hb) (m & Hm & ->)%rule_names Hint. destruct m as [d|d]; [by destruct d|].
    rewrite (interest_out names s d Hb) in Hint. exists d. split; [done|]. by destruct (frames d s).
  - intros rs s r (names & -> & Hb) (m & Hm & ->)%rule_names Hint d ->%rule_inj.
    rewrite (interest_out names s d Hb) in Hint. by destruct (frames d s).
  - intros l1 r l2 s (n1 & m & n2 & -> & -> & -> & Hb)%lab7_inv_split.
    destruct (bd_cells _ _ Hb (side_of m)) as (x & n & Hx & _ & Hn). exists (retired m x n s). split.
    { apply lab7_retire_run; [done|]. rewrite filter_app, filter_cons, decide_True, length_app in Hn by done. cbn in Hn. lia. }
    rewrite <- fmap_app. split; [exists (n1 ++ n2); split; [done|by apply lab7_retired_body]|].
    intros r' (m' & Hm' & ->)%rule_names. split; [by eapply lab7_retired_keeps|done].
  - intros rs s fds timeout a revs k (names & -> & Hb) Ha Hk s'.
    destruct (law_poll HL _ _ _ _ _ _ (bd_kernel _ _ Hb) Hk) as (Hr & Hc & Hrep).
    destruct (lab7_calm_body _ _ _ Hb Hc) as [Hb' Hkp]. split; [done|]. split; [by exists names|]. split.
    + intros r (m & _ & ->)%rule_names. apply Hkp.
    + apply (EventLoop.answers_rules _ _ _ _ _ _ _ Ha Hrep). intros r p z (m & _ & ->)%rule_names Hp Hz.
      apply (lab7_reported_token s); try done. destruct (bd_cells _ _ Hb (side_of m)) as (x & n & Hx & Hfd & _).
      by rewrite (lab7_number_cell _ _ _ _ Hx).
  - intros l1 r l2 s (n1 & m & n2 & -> & -> & -> & Hb)%lab7_inv_split _ Ht.
    destruct (lab7_callback_run _ m s Hb (Ht m eq_refl)) as (s' & Ecb & Ha).
    destruct (lab7_acts_counts m s s' Ha) as (c1 & c2 & Hc1 & Hc2 & Hne). exists s', c1, c2. split; [done|]. split.
    { exists (n1 ++ m :: n2). rewrite fmap_app. split; [done|]. by eapply lab7_acts_body. }
    split_and!; try done. intros r' (m' & Hm' & ->)%rule_names.
    apply (lab7_acts_keeps (n1 ++ m :: n2) m m'); [done|done|]. destruct Hb as [Hnd _ _ _ _].
    apply NoDup_app in Hnd as (_ & _ & [Hnd _]%NoDup_cons). congruence.
Qed.

(** ** The thread *)

Lemma tick_side_run names d s : body names s ->
  exists s', tick_side (number_of d) s = Ok (tt, s') /\ body names s'.
Proof.
  intros Hb. destruct (body_handle _ _ d Hb) as [_ Hi]. destruct (bd_router _ _ Hb) as [Hg Hix].
  destruct (lab7_tick_ok (index d) 50 (router s) Hg) as (i & Ei & Hg' & Ha); [|done|].
  { specialize (Hix d). destruct Hsides as (? & ? & ?). destruct d; cbn in *; lia. }
  eexists. split.
  - unfold tick_side. rewrite (io_bind_run _ _ _ s s) by done. rewrite Hi.
    by rewrite (io_bind_run _ _ _ s i) by (unfold of_res; by rewrite Ei).
  - destruct Hb as [Hnd Hcells Hh Hr Hk]. split; try done. split; [done|]. intros d'.
    cbn [router set_router]. rewrite (advances_length _ _ Ha). apply Hix.
Qed.

Lemma network_rounds_run fuel exit_flag : forall rs s, inv rs s ->
  exists ended rs' s', network_rounds fuel exit_flag rs s = Ok ((ended, rs'), s') /\ inv rs' s' /\
    (ended = true -> Forall (quiet s') rs' \/ exists n, exit_flag n = true).
Proof.
  induction fuel as [|fuel IH]; intros rs s Hi; cbn [network_rounds]; [by exists false, rs, s|].
  destruct (EventLoop.wait_sound inv token quiet _ lab7_sound 50 rs s Hi) as (r & rs1 & s1 & Ew & Hi1 & Hq).
  rewrite (io_bind_run _ _ _ _ _ Ew).
  assert (Hgo : exists ended rs' s',
    (_ ← tick_side host_side; _ ← tick_side internet_side;
     if exit_flag fuel then mret (true, rs1) else network_rounds fuel exit_flag rs1) s1 = Ok ((ended, rs'), s') /\
    inv rs' s' /\ (ended = true -> Forall (quiet s') rs' \/ exists n, exit_flag n = true)).
  { destruct Hi1 as (names & -> & Hb). destruct (tick_side_run names Host s1 Hb) as (s2 & E2 & Hb2).
    destruct (tick_side_run names Internet s2 Hb2) as (s3 & E3 & Hb3). cbn [number_of] in *.
    rewrite (io_bind_run _ _ _ _ _ E2), (io_bind_run _ _ _ _ _ E3).
    assert (Hi3 : inv (rule <$> names) s3) by (by exists names).
    destruct (exit_flag fuel) eqn:Hx; [|by apply IH]. exists true, (rule <$> names), s3. eauto. }
  destruct r; [done..|]. exists true, rs1, s1. auto.
Qed.

(** The rules are installed. *)
Lemma lab7_add_rule_body names s m cb i cn rs h dir : body names s -> m ∉ names ->
  EventLoop.mkRule h dir cb i cn = rule m ->
  exists s', EventLoop.add_rule h dir cb i cn rs s = Ok (rs ++ [rule m], s') /\ body (names ++ [m]) s'.
Proof.
  intros Hb Hm Hr. assert (h = place (side_of m)) as -> by (by rewrite <- rule_fd, <- Hr).
  destruct (bd_cells _ _ Hb (side_of m)) as (x & n & Hx & _ & _).
  pose proof (EventLoop.add_rule_run (place (side_of m)) dir cb i cn rs s x n) as Hadd.
  cbn [view update lab7_os] in Hadd. rewrite (Hadd Hx), Hr. eexists. split; [done|].
  destruct Hb as [Hnd Hcells Hh Hrt Hk]. split; try done.
  - apply NoDup_app. split; [done|]. split; [|by apply NoDup_singleton].
    intros m' Hm' ->%list_elem_of_singleton. done.
  - intros d. destruct (Hcells d) as (y & p & Hy & Hfd & Hp). cbn [os set_os heap set_cell].
    rewrite filter_app, filter_cons, filter_nil, length_app. destruct (decide (side_of m = d)) as [<-|Hne].
    + rewrite lookup_insert_eq. rewrite Hy in Hx. injection Hx as -> ->.
      exists x, (n + 1). split; [done|]. split; [done|]. cbn [length]. lia.
    + rewrite lookup_insert_ne by (by apply fd_inj, not_eq_sym). exists y, p. split; [done|]. split; [done|]. cbn [length]. lia.
Qed.

Definition all_rules : list name := [In Host; Out Host; Out Internet; In Internet].

(** A name that is not in an explicit list. *)
Ltac not_in := cbn; repeat (apply not_elem_of_cons; split; [done|]); apply not_elem_of_nil.

Lemma add_rules_run s : body [] s -> exists s', add_rules s = Ok (rule <$> all_rules, s') /\ body all_rules s'.
Proof.
  intros Hb. destruct (bd_handles _ _ Hb) as (Hf & Hn & _ & _). unfold add_rules.
  rewrite (io_bind_run _ _ _ s s) by done. rewrite Hf, Hn. unfold EventLoop.make.
  destruct (lab7_add_rule_body [] s (In Host) callback1 always (mret tt) [] hf DirIn Hb) as (s1 & E1 & Hb1); [not_in|done|].
  rewrite (io_bind_run _ _ _ _ _ E1).
  destruct (lab7_add_rule_body _ s1 (Out Host) callback2 (pending host_side) (mret tt) [rule (In Host)] hf DirOut Hb1) as (s2 & E2 & Hb2); [not_in|done|].
  rewrite (io_bind_run _ _ _ _ _ E2).
  destruct (lab7_add_rule_body _ s2 (Out Internet) callback3 (pending internet_side) (mret tt)
    [rule (In Host); rule (Out Host)] hn DirOut Hb2) as (s3 & E3 & Hb3); [not_in|done|].
  rewrite (io_bind_run _ _ _ _ _ E3).
  destruct (lab7_add_rule_body _ s3 (In Internet) callback4 always (mret tt)
    [rule (In Host); rule (Out Host); rule (Out Internet)] hn DirIn Hb3) as (s4 & E4 & Hb4); [not_in|done|].
  by exists s4.
Qed.

Lemma thread_run fuel exit_flag s : body [] s ->
  exists ended rs' s', network_thread fuel exit_flag s = Ok ((ended, rs'), s') /\ inv rs' s' /\
    (ended = true -> Forall (quiet s') rs' \/ exists n, exit_flag n = true).
Proof.
  intros Hb. destruct (add_rules_run s Hb) as (s1 & E1 & Hb1). unfold network_thread.
  rewrite (io_bind_run _ _ _ _ _ E1). apply network_rounds_run. by exists all_rules.
Qed.

End Thread.

(** C18: the network thread of lab7 never throws, as long as the system calls succeed
    and the packets can be passed on.  Suppose that no system call fails and that poll
    reports no error; that a descriptor reported readable yields a packet, and one
    reported writable takes a packet of at most 65507 bytes (the longest UDP payload)
    whole; and that an IPv4 datagram in a packet that arrives can be serialised again
    and has at most 65493 bytes, so that it fits such a packet with its Ethernet header.
    Then, with the router that the program sets up, the thread runs for any number of
    rounds: [f.front()] is only called when a frame waits, each frame is written whole,
    and each callback serves its descriptor.  When the thread has ended by itself,
    rather than by the flag, it listens to nothing any more, and nothing is left in the
    queue of a rule that could still send. *)
Theorem network_thread_safe (K : Type) (HK : Kernel K) (E : @environment K) (HL : lawful E) (rd : nat -> Z)
  (b : bool) (fuel : nat) (exit_flag : nat -> bool) (s : @Lab7.t K) (cf cn : cell)
  (Hrouter : router s = Router.add_rules (routes b) (fresh_router rd b))
  (Hsides : host_side s = 0 /\ internet_side s = 1)
  (Hf : heap (os s) !! frame_fd s = Some cf) (Hn : heap (os s) !! internet_socket s = Some cn)
  (Hdistinct : FDWrapper._fd (wrapper cf) <> FDWrapper._fd (wrapper cn))
  (Hcount : 1 <= use_count cf /\ 1 <= use_count cn) (Hk : k_ok E (kernel (os s))) :
  exists ended rs s', network_thread fuel exit_flag s = Ok ((ended, rs), s') /\ good (router s') /\
    (ended = true -> (forall n, exit_flag n = false) ->
     forall r, r ∈ rs -> EventLoop.direction r = DirOut /\ EventLoop.interest r s' = Ok false).
Proof.
  destruct Hsides as [Hh Hi]. set (hf := frame_fd s) in *. set (hn := internet_socket s) in *.
  destruct cf as [x n], cn as [y p]. cbn [wrapper use_count] in *.
  assert (Hne : hf <> hn) by (intros Heq; rewrite Heq, Hn in Hf; injection Hf as -> ->; done).
  set (ff := FDWrapper._fd x) in *. set (fn := FDWrapper._fd y) in *.
  assert (H01 : 0 <= 0 /\ 0 <= 1 /\ 0 <> 1) by lia. destruct (setup_good rd b) as [Hg Hlen].
  assert (Hb : body E hf hn ff fn 0 1 [] s).
  { split; [constructor| |done| |done].
    - intros [|]; [exists x, n|exists y, p]; cbn; split_and!; try done; lia.
    - rewrite Hrouter, Hlen. split; [done|]. by intros [|]. }
  destruct (thread_run E hf hn ff fn 0 1 Hne Hdistinct H01 HL fuel exit_flag s Hb)
    as (ended & rs & s' & Erun & (names & -> & Hb') & Hq).
  exists ended, (rule hf hn <$> names), s'. split; [done|]. split; [apply Hb'|].
  intros Hend Hflag r Hr. destruct (Hq Hend) as [Hall|[k Hx]]; [|by rewrite Hflag in Hx].
  rewrite Forall_forall in Hall. destruct (Hall r Hr) as (d & -> & Hfr). split; [by rewrite rule_direction|].
  by rewrite (interest_out E hf hn ff fn 0 1 Hne H01 names s' d Hb'), Hfr.
Qed.

(** The descriptor 5 is the host's, 6 the UDP socket.  The host asks for the router's
    Ethernet address again and again, and from the Internet come bytes that are no
    frames; what is written is kept. *)
Module Demo.

Definition question : bytes :=
  EthernetHeader.serialize (EthernetHeader.mk EthernetAddress.ETHERNET_BROADCAST [2; 0; 0; 0; 0; 7] EthernetHeader.TYPE_ARP)
  ++ ARPMessage.encode (ARPMessage.mk 1 2048 6 4 ARPMessage.OPCODE_REQUEST [2; 0; 0; 0; 0; 7] (host_ip true)
       [0; 0; 0; 0; 0; 0] (gateway_ip true)).

Definition packet (fd : Z) : bytes := if fd =? 5 then question else [x61].

(** A message that is too long is refused (EMSGSIZE). *)
Definition send (data : bytes) (k : list bytes) : answer * list bytes :=
  if zlen data <=? udp_max then (Answer (zlen data) 0, k ++ [data]) else (Answer (-1) 90, k).

#[global] Instance lab7_demo_kernel : Kernel (list bytes) := {|
  k_close := fun _ k => (Answer 0 0, k);
  k_read := fun fd size k => let data := if size <? 100 then [] else packet fd in (Answer (zlen data) 0, data, k);
  k_writev := fun _ iovecs k => send (concat (fst <$> iovecs)) k;
  k_getfl := fun _ k => (Answer 0 0, k);
  k_setfl := fun _ _ k => (Answer 0 0, k);
  k_poll := fun fds _ k => (Answer 1 0, (fun p => Z.land (events p) 5) <$> fds, k);
  k_clock := fun k => (0, k);
  k_socket := fun _ _ k => (Answer 6 0, k);
  k_socketpair := fun _ k => (Answer 0 0, (4, 5), k);
  k_getsockopt := fun _ _ _ k => (Answer 0 0, 1, 4, k);
  k_setsockopt := fun _ _ _ _ k => (Answer 0 0, k);
  k_getname := fun _ _ k => (Answer 0 0, Address.mk 0 0, k);
  k_bind := fun _ _ k => (Answer 0 0, k);
  k_connect := fun _ _ k => (Answer 0 0, k);
  k_shutdown := fun _ _ k => (Answer 0 0, k);
  k_recvfrom := fun _ _ k => (Answer (-1) 11, [], Address.mk 0 0, k);
  k_sendmsg := fun _ _ iovecs k => send (concat (fst <$> iovecs)) k;
  k_listen := fun _ _ k => (Answer 0 0, k);
  k_accept := fun _ k => (Answer 7 0, k);
  k_open_tun := fun k => (Answer 8 0, k);
  k_tunsetiff := fun _ _ _ k => (Answer 0 0, k)
|}.

Definition E : @environment (list bytes) := mkEnv (fun _ => True) (fun _ _ => True) (fun _ _ => True).

Lemma lab7_demo_reported k : forall fds,
  Forall (reported E k) (EventLoop.fill_revents fds ((fun p => Z.land (events p) 5) <$> fds)).
Proof.
  induction fds as [|p fds IH]; cbn [EventLoop.fill_revents fmap list_fmap head tail default]; constructor; [|done].
  split; [|done..]. unfold EventLoop.poll_error. cbn [revents from_option]. unfold id.
  change (Z.lor POLLERR POLLNVAL) with 40. rewrite <- Z.land_assoc. change (Z.land 5 40) with 0. by rewrite Z.land_0_r.
Qed.

Lemma packet_harmless fd : harmless (packet fd) /\ harmless [].
Proof.
  assert (Hno : forall data, match EthernetFrame.parse (Buffer.of_string data) EthernetFrame.default with
    | Ok (NoError, f) => match IPv4Datagram.parse
        (Buffer.of_string (BufferList.concatenate (EthernetFrame.payload f))) IPv4Datagram.default with
      | Ok (NoError, _) => false | _ => zlen (BufferList.concatenate (EthernetFrame.payload f)) <? two64 end
    | _ => true end = true -> harmless data).
  { intros data Hd f Hf. rewrite Hf in Hd.
    assert (Hnot : forall d, IPv4Datagram.parse (Buffer.of_string (BufferList.concatenate (EthernetFrame.payload f)))
      IPv4Datagram.default <> Ok (NoError, d)) by (intros d Hp; by rewrite Hp in Hd).
    split; [split|]; try (by intros d Hp%Hnot).
    destruct (IPv4Datagram.parse _ _) as [[[] d]|] eqn:Hp; zb; done. }
  split; apply Hno; [unfold packet; destruct (fd =? 5)|]; by vm_compute.
Qed.

Lemma lab7_demo_lawful : lawful E.
Proof.
  assert (Hc : forall P Q k k', calm E P Q k k') by (by split).
  split.
  - intros k fd size a data k' _ _ Hs [= <- <- <-]. cbn [ret]. destruct (size <? 100) eqn:Hz; zb.
    + split_and!; try done. apply (packet_harmless 0).
    + split_and!; try done; [|apply packet_harmless]. unfold packet.
      assert (zlen question = 42) by (by vm_compute). destruct (fd =? 5); cbn in *; lia.
  - intros k fd iovecs a k' _ _ Hlen%Z.leb_le. cbn [k_writev lab7_demo_kernel]. unfold send. rewrite Hlen. by intros [= <- <-].
  - intros k fd dst iovecs a k' _ _ Hlen%Z.leb_le. cbn [k_sendmsg lab7_demo_kernel]. unfold send. rewrite Hlen. by intros [= <- <-].
  - intros k fds timeout a revs k' _ [= <- <- <-]. split; [by cbv|]. split; [done|apply lab7_demo_reported].
Qed.

Definition state : @Lab7.t (list bytes) :=
  Lab7.mk (mkWorld [] {[ 0%nat := mkCell (FDWrapper.mk 5 false false 0 0) 2; 1%nat := mkCell (FDWrapper.mk 6 false false 0 0) 1 ]} 2)
    (Router.add_rules (routes true) (fresh_router Z.of_nat true)) 0%nat 1%nat (Address.mk 1 1) 0 1.

End Demo.

(** Five rounds: the host asks in each, and is answered from the second on. *)
Lemma network_thread_safe_witness :
  exists rs s', network_thread 5 (fun _ => false) Demo.state = Ok ((false, rs), s') /\ good (router s') /\
    length (kernel (os s')) = 4%nat.
Proof.
  destruct (network_thread_safe (list bytes) _ Demo.E Demo.lab7_demo_lawful Z.of_nat true 5 (fun _ => false) Demo.state
    (mkCell (FDWrapper.mk 5 false false 0 0) 2) (mkCell (FDWrapper.mk 6 false false 0 0) 1))
    as (ended & rs & s' & Erun & Hg & _); try reflexivity; [by split|done|done|].
  assert (Hev : match network_thread 5 (fun _ => false) Demo.state with
    | Ok ((e, _), x) => (e, length (kernel (os x))) | Throw _ => (true, 0%nat) end = (false, 4%nat)) by (vm_compute; reflexivity).
  rewrite Erun in Hev. injection Hev as -> Hlen. exists rs, s'. split; [exact Erun|]. split; [exact Hg|exact Hlen].
Defined.

(** An empty datagram is taken for the end of the stream: after it the rule that reads
    from the Internet is no longer one that the event loop keeps. *)
Theorem empty_datagram_ends_reading (K : Type) (HK : Kernel K) (s : @Lab7.t K) (c : cell) (k : K)
  (Hg : good (router s)) (Hi : 0 <= internet_side s < zlen (Router._interfaces (router s)))
  (Hc : heap (os s) !! internet_socket s = Some c)
  (Hread : k_read (FDWrapper._fd (wrapper c)) FileDescriptor.BUFFER_SIZE (kernel (os s)) = (Answer 0 0, [], k)) :
  exists s', callback4 s = Ok (tt, s') /\ ~ EventLoop.live s' (rule4 (internet_socket s)).
Proof.
  pose proof (FileDescriptor.read_run FileDescriptor.no_limit _ (os s) c (Answer 0 0) [] k Hc ltac:(done)
    Hread eq_refl ltac:(by cbv)) as Er.
  unfold callback4. rewrite (io_bind_run _ _ _ _ _ (lab7_on_fd_run internet_socket _ s _ _ Er)).
  set (s1 := set_os _ s). set (frame := EthernetFrame.mk EthernetHeader.default (BufferList.of_string [])).
  assert (Hempty : EthernetFrame.parse (Buffer.of_string []) EthernetFrame.default = Ok (NoError, frame))
    by (vm_compute; reflexivity).
  destruct (lab7_receive_ok (internet_side s) frame (router s) Hg Hi) as (r & Erec & _).
  { apply (proj2 (Demo.packet_harmless 0)). exact Hempty. }
  exists (set_router r s1). split.
  - unfold take_in. rewrite (io_bind_run _ _ _ s1 (NoError, frame)) by (unfold of_res; by rewrite Hempty). cbn [negb is_NoError].
    rewrite (io_bind_run _ _ _ s1 s1) by done. by rewrite (io_bind_run _ _ _ s1 r) by (unfold of_res; cbn; by rewrite Erec).
  - intros (c' & Hl & _ & He). cbn in Hl. rewrite lookup_insert_eq in Hl. injection Hl as <-. discriminate He.
Qed.

End Lab7Safety.
