(* ===== verification/Programs.v ===== *)
(** * The programs as a whole

    The [main] functions of src/apps around the parts that the other files model: what
    they do with an exception, and their exit status.  The thread that serves a
    [TCPSpongeSocket] and the network thread of lab7 run beside the main thread; here
    they show in what the kernel delivers.  Loops that last as long as the streams are
    cut off after [fuel] (handshake) or [rounds] (copying) rounds. *)

From stdpp Require Import strings.
From S2P Require Import Prelude Random Wrapping Stream Reassembly Buffers Parsing TcpWire Ipv4Wire EthernetWire TcpConnection NetworkInterface Router Addresses FileDescriptor Sockets Adapter EventLoop SpongeSocket StreamCopy CommandLine Apps Benchmark Simulator Lab7.
From Stdlib Require Import Strings.Byte.
From Stdlib Require Strings.String.
#[local] Open Scope list_scope.
#[local] Open Scope Z_scope.

Definition EXIT_SUCCESS : Z := 0.
Definition EXIT_FAILURE : Z := 1.

(** How a run looks from outside. *)
Inductive run : Type :=
| Exit (status : Z)
| Aborted
| Running.

(** [catch (const exception &)]; what is undefined is not an exception. *)
Definition catch {A} (m : res A) (handler : res A) : res A :=
  match m with
  | Throw undefined | Throw nontermination => m
  | Throw _ => handler
  | Ok a => Ok a
  end.

(** The [try] block around the body of [main]. *)
Definition guarded (body : res run) : res run := catch body (Ok (Exit EXIT_FAILURE)).

(** [rd]: the numbers that a generator gives which was seeded by the random device. *)
Definition generator (device : nat -> Z) : nat -> Z :=
  let rd := get_random_generator device in fun n => Mt19937.draw n rd.

(** ** tcp_udp, tcp_ipv4 and tcp_ip_ethernet *)

Section Copying.
Context {K A Device : Type} `{FdDevice K A Device}.

(** [bidirectional_stream_copy(tcp_socket); tcp_socket.wait_until_closed();], the thread
    having been launched. *)
Definition copy_and_close (rounds : nat) (s : @TCPSpongeSocket.t K A) : res bool :=
  '(ended, _, _, w) ← StreamCopy.bidirectional_stream_copy rounds (TCPSpongeSocket.self s) (TCPSpongeSocket.os s);
  if negb ended then Ok false
  else '(_, _) ← TCPSpongeSocket.wait_until_closed (TCPSpongeSocket.set_os w s); Ok true.

(** The rest of [main] once the command line has been read and the socket is connected. *)
Definition finish_main (rounds : nat) (m : res (outcome (bool * list (@EventLoop.Rule (@TCPSpongeSocket.t K A)) * @TCPSpongeSocket.t K A))) : res run :=
  guarded (
    r ← m;
    match r with
    | Quit status _ => Ok (Exit status)
    | Run (ended, _, s) =>
        if negb ended then Ok Running
        else closed ← copy_and_close rounds s; Ok (if (closed : bool) then Exit EXIT_SUCCESS else Running)
    end).
End Copying.

Section TcpPrograms.
Context {K : Type} `{Kernel K} `{Address.Netdb}.
Context (resolve : string -> string -> res Address.t) (strtof : string -> Floats.SpecFloat.spec_float) (mt19937 : nat -> Z).

Definition tcp_udp (fuel rounds : nat) (random : Z) (argv : list string) (w : world K) : res run :=
  finish_main rounds (TcpUdp.main resolve strtof mt19937 fuel random argv w).
Definition tcp_ipv4 (fuel rounds : nat) (random_port random : Z) (argv : list string) (w : world K) : res run :=
  finish_main rounds (TcpIpv4.main resolve strtof mt19937 fuel random_port random argv w).
Definition tcp_ip_ethernet (fuel rounds : nat) (random_address : nat -> Z) (random_port random : Z) (argv : list string)
  (w : world K) : res run :=
  finish_main rounds (TcpIpEthernet.main resolve fuel random_address random_port random argv w).

(** ** webget *)

Definition webget (fuel : nat) (random_address : nat -> Z) (random_port random : Z) (argv : list string) (w : world K)
  : res run :=
  match argv with
  | [] => Ok Aborted
  | _ =>
      guarded match Webget.arguments argv with
        | None => Ok (Exit EXIT_FAILURE)
        | Some (host, path) =>
            '(ended, _, _) ← Webget.get_URL resolve fuel host path random_address random_port random w;
            Ok (if (ended : bool) then Exit EXIT_SUCCESS else Running)
        end
  end.

(** ** lab7 *)

(** Everything before the threads: what the network thread works on, and the socket. *)
Definition lab7_setup (rd : nat -> Z) (is_client : bool) (bounce_host bounce_port : string)
  : io (world K) (@Lab7.t K * @TCPSocketLab7.t K) :=
  '(internet_socket, bounce_address) ← Lab7.greet resolve bounce_host bounce_port;
  '(host_side, internet_side, router) ← of_res (Lab7.router_setup rd is_client);
  sock ← Lab7.socket_setup rd is_client;
  w ← get;
  mret (Lab7.mk w router (TCPSocketLab7.frame_fd sock) internet_socket bounce_address host_side internet_side, sock).

(** The main thread's [try] block: whether it has been left. *)
Definition lab7_main_thread (fuel rounds : nat) (is_client : bool) (random_port random : Z) (sock : @TCPSocketLab7.t K) : res bool :=
  catch ('(ended, _, sock) ← Lab7.establish is_client fuel random_port random sock;
         if negb ended then Ok false else copy_and_close rounds (TCPSocketLab7.base sock))
    (Ok true).

(** [program_body]: set-up, the main thread and the thread it joins, which sees
    [exit_flag].  Whether both have ended. *)
Definition program_body (rd : nat -> Z) (fuel rounds : nat) (exit_flag : nat -> bool) (is_client : bool)
  (bounce_host bounce_port : string) (random_port random : Z) (w : world K) : res bool :=
  '(net, sock, w) ← lab7_setup rd is_client bounce_host bounce_port w;
  left ← lab7_main_thread fuel rounds is_client random_port random sock;
  joined ← catch ('(ended, _, _) ← Lab7.network_thread rounds exit_flag net; Ok ended) (Ok true);
  Ok (left && joined).

Definition lab7 (device : nat -> Z) (fuel rounds : nat) (exit_flag : nat -> bool) (random_port random : Z) (argv : list string)
  (w : world K) : res run :=
  match argv with
  | [] => Ok Aborted
  | _ =>
      guarded match Lab7.arguments argv with
        | None => Ok (Exit EXIT_FAILURE)
        | Some (is_client, host, port, _) =>
            ended ← program_body (generator device) fuel rounds exit_flag is_client host port random_port random w;
            Ok (if (ended : bool) then Exit EXIT_SUCCESS else Running)
        end
  end.
End TcpPrograms.

(** ** tcp_benchmark and network_simulator *)

(** The strings are drawn with [rand], [len] bytes for each call. *)
Definition len : Z := 100 * 1024 * 1024.

Definition tcp_benchmark (fuel : nat) (string1 string2 : bytes) (random : nat -> Z) : res run :=
  guarded (
    '(ended1, _) ← Benchmark.main_loop fuel false string1 (random 0%nat) (random 1%nat);
    if negb ended1 then Ok Running
    else
      '(ended2, _) ← Benchmark.main_loop fuel true string2 (random 2%nat) (random 3%nat);
      Ok (if (ended2 : bool) then Exit EXIT_SUCCESS else Running)).

Definition network_simulator `{Address.Netdb} (device : nat -> Z) : res run :=
  guarded (_ ← Network.network_simulator (generator device); Ok (Exit EXIT_SUCCESS)).

(** ** What the statuses mean *)

Lemma guarded_exit body status : guarded body = Ok (Exit status) ->
  body = Ok (Exit status) \/ status = EXIT_FAILURE /\ exists e, body = Throw e.
Proof. destruct body as [r|[]]; cbn; intros [= Heq]; subst; first [by left|right; by eauto]. Qed.

(** [webget] never reports success, even when it has printed the whole page: [get_URL]
    closes the socket and then waits for it. *)
Theorem webget_never_succeeds {K : Type} `{Kernel K} `{Address.Netdb} (resolve : string -> string -> res Address.t)
  (fuel : nat) (random_address : nat -> Z) (random_port random : Z) (argv : list string) (w : world K)
  (Hclosed : Webget.closed_for_good K) :
  webget resolve fuel random_address random_port random argv w <> Ok (Exit EXIT_SUCCESS).
Proof.
  unfold webget. destruct argv as [|a0 argv]; [done|]. intros [E|[E _]]%guarded_exit; [|discriminate E].
  destruct (Webget.arguments _) as [[host path]|]; [|discriminate E].
  pose proof (Webget.webget_never_finishes resolve Hclosed fuel host path random_address random_port random w) as Hn.
  apply bind_Ok in E as ([[ended out] s] & E & Hr). rewrite E in Hn. subst ended. discriminate Hr.
Qed.

(** [tcp_benchmark] never reports failure, and no undefined operation is reached: both
    measurements succeed, for as long as they run. *)
Theorem benchmark_never_fails (fuel : nat) (string1 string2 : bytes) (random : nat -> Z)
  (H1 : zlen string1 = len) (H2 : zlen string2 = len) :
  tcp_benchmark fuel string1 string2 random = Ok (Exit EXIT_SUCCESS) \/ tcp_benchmark fuel string1 string2 random = Ok Running.
Proof.
  assert (Hl : len < two31 - 2) by (unfold len; lia). unfold tcp_benchmark.
  destruct (Benchmark.main_loop_ok fuel false string1 (random 0%nat) (random 1%nat)) as (e1 & s1 & -> & _); [lia|].
  destruct e1; [|by right]. cbn [mbind res_bind negb].
  destruct (Benchmark.main_loop_ok fuel true string2 (random 2%nat) (random 3%nat)) as (e2 & s2 & -> & _); [lia|].
  destruct e2; [by left|by right].
Qed.

(** [lab7] reports a failure only for its command line and its set-up: when the
    connection cannot be made, or copying fails, the exception is printed and the status
    is that of success. *)
Theorem lab7_hides_failures {K : Type} `{Kernel K} `{Address.Netdb} (resolve : string -> string -> res Address.t)
  (device : nat -> Z) (fuel rounds : nat) (exit_flag : nat -> bool) (random_port random : Z) (argv : list string) (w : world K)
  (is_client debug : bool) (host port : string) (net : @Lab7.t K) (sock : @TCPSocketLab7.t K) (w' : world K)
  (Hargs : Lab7.arguments argv = Some (is_client, host, port, debug))
  (Hsetup : lab7_setup resolve (generator device) is_client host port w = Ok (net, sock, w')) :
  lab7 resolve device fuel rounds exit_flag random_port random argv w <> Ok (Exit EXIT_FAILURE).
Proof.
  assert (Hstuck : forall (m : res bool) e, catch m (Ok true) = Throw e -> e = undefined \/ e = nontermination)
    by (intros [|[]] e [= <-]; by auto).
  unfold lab7. rewrite Hargs. destruct argv as [|a0 argv]; [discriminate Hargs|]. unfold program_body. rewrite Hsetup. cbn [mbind res_bind].
  destruct (lab7_main_thread _ _ _ _ _ _) as [left|e] eqn:El.
  2:{ apply Hstuck in El as [-> | ->]; discriminate. }
  cbn [mbind res_bind]. match goal with |- context [catch ?m (Ok true)] => destruct (catch m (Ok true)) as [joined|e] eqn:Ej end.
  2:{ apply Hstuck in Ej as [-> | ->]; discriminate. }
  cbn. destruct (left && joined); discriminate.
Qed.

(** Runs on a kernel where calls succeed and nothing ever arrives. *)
#[local] Abbreviation quiet_world := (mkWorld tt ∅ 0).
#[local] Abbreviation anywhere := (fun _ _ => Ok (Address.mk 1 80)).
#[local] Abbreviation no_float := (fun _ => Floats.SpecFloat.S754_zero false).
#[local] Abbreviation udp := (tcp_udp (H := Webget.plain) anywhere no_float (fun _ => 0) 2 2 7).

Example udp_usage : udp ["tcp_udp"; "-h"; "host"; "80"] quiet_world = Ok (Exit EXIT_SUCCESS) /\
  udp ["tcp_udp"; "host"] quiet_world = Ok (Exit EXIT_FAILURE) /\
  udp ["tcp_udp"; "-x"; "host"; "80"] quiet_world = Ok (Exit EXIT_FAILURE).
Proof. split_and!; vm_compute; reflexivity. Qed.

Example udp_connecting : udp ["tcp_udp"; "host"; "80"] quiet_world = Ok Running.
Proof. vm_compute. reflexivity. Qed.

(** A name that cannot be resolved ends the programs with a failure, lab7 among them. *)
#[local] Abbreviation nowhere := (fun _ _ => Throw runtime_error).
Example unresolved :
  tcp_udp (H := Webget.plain) nowhere no_float (fun _ => 0) 2 2 7 ["tcp_udp"; "host"; "80"] quiet_world = Ok (Exit EXIT_FAILURE) /\
  webget (H := Webget.plain) (H0 := DottedQuad.netdb) nowhere 2 (fun _ => 0) 1 7 ["webget"; "host"; "/"] quiet_world = Ok (Exit EXIT_FAILURE) /\
  lab7 (H := Webget.plain) (H0 := DottedQuad.netdb) nowhere (fun _ => 0) 2 2 (fun _ => true) 1 7 ["lab7"; "client"; "host"; "80"] quiet_world
    = Ok (Exit EXIT_FAILURE).
Proof. split_and!; vm_compute; reflexivity. Qed.

(** The server of lab7 waits for its client. *)
Example lab7_waits : program_body (H := Webget.plain) (H0 := DottedQuad.netdb) anywhere (fun _ => 0) 2 2 (fun _ => true) false
  "host" "80" 1 7 quiet_world = Ok false.
Proof. vm_compute. reflexivity. Qed.
