(* ===== verification/Doctests.v ===== *)
(** * The examples of the documentation (src/doctests)

    Three test programs around the fragments that the documentation of [Address],
    [NetParser] and the sockets quotes.  The first is general in the values it writes;
    the programs on top of the kernel and the name service take both as parameters, and
    run here on a kernel with a loopback interface. *)

From stdpp Require Import strings.
From S2P Require Import Prelude Buffers Parsing Addresses RawAddress FileDescriptor Sockets Programs.
From Stdlib Require Import Strings.Byte.
From Stdlib Require Strings.String.
#[local] Open Scope list_scope.
#[local] Open Scope Z_scope.

#[local] Abbreviation chars := String.list_byte_of_string.

(** [int main()] with a [try] block around its body. *)
Definition test_main (body : res unit) : res run := guarded (_ ← body; Ok (Exit EXIT_SUCCESS)).

(** ** parser_example.cc *)
Module ParserExample.

Record values : Type := mk { out0 : Z; out1 : Z; out2 : Z; out3 : Z; out4 : Z }.

(** The first half, for any values. *)
Definition serialize (v : values) : bytes :=
  let buffer := [z2b (out0 v)] in
  let buffer := NetUnparser.u32 buffer (out1 v) in
  let buffer := NetUnparser.u16 buffer (out2 v) in
  let buffer := NetUnparser.u8 buffer (out3 v) in
  NetUnparser.u32 buffer (out4 v).

(** The second half. *)
Definition deserialize : NetParser.P values :=
  out0 ← NetParser.u8;
  out1 ← NetParser.u32;
  out2 ← NetParser.u16;
  out3 ← NetParser.u8;
  out4 ← NetParser.u32;
  mret (mk out0 out1 out2 out3 out4).

Definition vals : values := mk 0x32 0xdeadbeef 0xc0c0 0xff 0x0c05fefe.

Definition parser_example (v : values) : res unit :=
  '(out, _) ← deserialize (NetParser.make (Buffer.of_string (serialize v)));
  if negb (out0 out =? out0 v) || negb (out1 out =? out1 v) || negb (out2 out =? out2 v) ||
     negb (out3 out =? out3 v) || negb (out4 out =? out4 v)
  then Throw runtime_error else Ok tt.

Definition parser_dt : res run := test_main (parser_example vals).

(** The values have the types of the variables. *)
Record typed (v : values) : Prop := {
  typed0 : 0 <= out0 v < two8;
  typed1 : 0 <= out1 v < two32;
  typed2 : 0 <= out2 v < two16;
  typed3 : 0 <= out3 v < two8;
  typed4 : 0 <= out4 v < two32
}.

Lemma serialize_flat v : serialize v =
  NetUnparser.be 1 (out0 v) ++ NetUnparser.be 4 (out1 v) ++ NetUnparser.be 2 (out2 v) ++
  NetUnparser.be 1 (out3 v) ++ NetUnparser.be 4 (out4 v) ++ [].
Proof.
  unfold serialize, NetUnparser.u32, NetUnparser.u16, NetUnparser.u8.
  rewrite !NetUnparser.unparse_app. rewrite (NetUnparser.be_1 (out0 v)), app_nil_r. by rewrite <- !app_assoc.
Qed.

(** The values come back, and nothing is left over. *)
Lemma deserialize_reads v : typed v -> NetParser.reads deserialize (serialize v) v [].
Proof.
  intros []. rewrite serialize_flat. unfold deserialize.
  eapply NetParser.reads_bind; [by apply NetUnparser.reads_u8|].
  eapply NetParser.reads_bind; [by apply NetUnparser.reads_u32|].
  eapply NetParser.reads_bind; [by apply NetUnparser.reads_u16|].
  eapply NetParser.reads_bind; [by apply NetUnparser.reads_u8|].
  eapply NetParser.reads_bind; [by apply NetUnparser.reads_u32|].
  destruct v. apply NetParser.reads_ret.
Qed.

(** The example is right for all values, not only for its own. *)
Theorem parser_example_ok (v : values) (Hv : typed v) : parser_example v = Ok tt.
Proof.
  unfold parser_example.
  destruct (deserialize_reads v Hv (NetParser.make (Buffer.of_string (serialize v)))) as (p & -> & _).
  - apply Buffer.buffer_of_string_wf. rewrite serialize_flat, !length_app, !NetUnparser.length_be. cbn. lia.
  - done.
  - unfold NetParser.input. cbn. apply Buffer.str_of_string.
  - cbn. by rewrite !Z.eqb_refl.
Qed.

Corollary parser_dt_passes : parser_dt = Ok (Exit EXIT_SUCCESS).
Proof. unfold parser_dt. rewrite parser_example_ok by (split; cbn; lia). done. Qed.

End ParserExample.

(** ** address_example_1.cc, address_example_2.cc and address_example_3.cc *)
Module AddressExample.
Section AddressExample.
Context (little : bool) `{Resolver}.

Definition address_example : res unit :=
  google_webserver ← RawAddress.of_host "www.google.com" "https";
  a_dns_server ← RawAddress.of_ip "18.71.0.151" 53;
  a_dns_server_numeric ← RawAddress.ipv4_numeric little a_dns_server;
  port ← RawAddress.port google_webserver;
  if negb (port =? 443) || negb (a_dns_server_numeric =? 0x12470097) then Throw runtime_error else Ok tt.

Definition address_dt : res run := test_main address_example.

End AddressExample.

(** The outcome depends on the name service alone: the test fails when the name cannot
    be resolved, and else tells whether https is port 443. *)
Theorem address_dt_outcome (little : bool) (R : Resolver) (ntop : Z -> string)
  (HL : RawAddress.lawful little R ntop) (Hdns : ntop 0x12470097 = "18.71.0.151"%string) :
  let answer := getaddrinfo "www.google.com" "https" AI_ALL RawAddress.AF_INET in
  (answer.1 <> 0 /\ address_dt little = Ok (Exit EXIT_FAILURE)) \/
  exists web pad, Address.wf web /\ answer = (0, Some (RawAddress.image little web pad, sizeof_sockaddr_in)) /\
    address_dt little = Ok (Exit (if Address.port web =? 443 then EXIT_SUCCESS else EXIT_FAILURE)).
Proof.
  intros answer. unfold address_dt, address_example, RawAddress.of_host, RawAddress.of_names.
  change (c_str "www.google.com") with "www.google.com"%string. change (c_str "https") with "https"%string.
  fold answer. destruct answer as [code found] eqn:E. destruct (Z.eqb_spec code 0) as [-> | Hcode]; [right|by left].
  destruct (RawAddress.law_family _ _ _ HL _ _ _ _ E) as (web & pad & Hweb & Hpad & ->).
  exists web, pad. split; [done|]. split; [done|].
  destruct (RawAddress.of_sockaddr_image little web pad Hpad) as (a & Ea & Ha).
  set (dns := Address.mk 0x12470097 53). assert (Hwf : Address.wf dns) by (split; cbn; lia).
  destruct (RawAddress.of_ip_stands little R ntop HL dns Hwf) as (d & pad' & Ed & Hd).
  cbn [Address.ipv4_numeric Address.port dns] in Ed. rewrite Hdns in Ed.
  cbn [negb]. rewrite Ea. cbn [mbind res_bind]. rewrite Ed. cbn [mbind res_bind].
  rewrite (RawAddress.stands_numeric little pad' d dns Hwf Hd). cbn [mbind res_bind].
  unfold RawAddress.port. rewrite (RawAddress.stands_ip_port little R ntop HL pad a web Hweb Ha). cbn.
  by destruct (_ =? 443).
Qed.

(** A name service that knows numbers only takes https for port zero. *)
Example address_dt_fails : address_dt true (H := RawAddress.Numeric.demo_resolver) = Ok (Exit EXIT_FAILURE).
Proof. vm_compute. reflexivity. Qed.

End AddressExample.

(** ** socket_example_1.cc, socket_example_2.cc and socket_example_3.cc *)
Module SocketExample.
Section SocketExample.
Context {K : Type} `{Kernel K} `{Address.Netdb}.
#[local] Abbreviation world := (world K).

Definition hi_there : bytes := chars "hi there".
Definition hi_yourself : bytes := chars "hi yourself".

(** [((std::random_device()()) % 50000) + 1025], for a number of the random device. *)
Definition portnum (random : Z) : Z := u16 (u32 (u32 random mod 50000 + 1025)).

Definition expect (recvd recvd2 : bytes) : io world unit :=
  if negb (bool_decide (recvd = hi_there)) || negb (bool_decide (recvd2 = hi_yourself))
  then throw runtime_error else mret tt.

(** Two UDP sockets.  The locals die in the reverse order of their declarations. *)
Definition socket_example_1 (random : Z) : io world unit :=
  let portnum := portnum random in
  sock1 ← UDPSocket.make;
  address ← of_res (Address.of_string "127.0.0.1" portnum);
  _ ← Socket.bind address sock1;
  sock2 ← UDPSocket.make;
  address ← of_res (Address.of_string "127.0.0.1" portnum);
  _ ← UDPSocket.sendto address (BufferViewList.of_string hi_there) sock2;
  recvd ← UDPSocket.recv UDPSocket.default_mtu sock1;
  _ ← Socket.connect (UDPSocket.source_address recvd) sock1;
  _ ← UDPSocket.send (BufferViewList.of_string hi_yourself) sock1;
  recvd2 ← UDPSocket.recv UDPSocket.default_mtu sock2;
  _ ← expect (UDPSocket.payload recvd) (UDPSocket.payload recvd2);
  _ ← FileDescriptor.destroy sock2;
  FileDescriptor.destroy sock1.

(** Two TCP sockets, one of them listening. *)
Definition socket_example_2 (random : Z) : io world unit :=
  let portnum := portnum random in
  sock1 ← TCPSocket.make;
  address ← of_res (Address.of_string "127.0.0.1" portnum);
  _ ← Socket.bind address sock1;
  _ ← TCPSocket.listen 1 sock1;
  sock2 ← TCPSocket.make;
  address ← of_res (Address.of_string "127.0.0.1" portnum);
  _ ← Socket.connect address sock2;
  sock3 ← TCPSocket.accept sock1;
  _ ← FileDescriptor.write_string hi_there true sock3;
  recvd ← FileDescriptor.read FileDescriptor.no_limit sock2;
  _ ← FileDescriptor.write_string hi_yourself true sock2;
  recvd2 ← FileDescriptor.read FileDescriptor.no_limit sock3;
  _ ← FileDescriptor.close sock1;
  _ ← FileDescriptor.close sock2;
  _ ← Socket.shutdown SHUT_RDWR sock3;
  _ ← expect recvd recvd2;
  _ ← FileDescriptor.destroy sock3;
  _ ← FileDescriptor.destroy sock2;
  FileDescriptor.destroy sock1.

(** A pair of local sockets. *)
Definition socket_example_3 : io world unit :=
  '(a, fds) ← syscall_out (k_socketpair SOCK_STREAM);
  _ ← of_res (SystemCall a 0);
  h1 ← FileDescriptor.make fds.1;
  pipe1 ← LocalStreamSocket.of_fd h1;
  h2 ← FileDescriptor.make fds.2;
  pipe2 ← LocalStreamSocket.of_fd h2;
  _ ← FileDescriptor.write_string hi_there true pipe1;
  recvd ← FileDescriptor.read FileDescriptor.no_limit pipe2;
  _ ← FileDescriptor.write_string hi_yourself true pipe2;
  recvd2 ← FileDescriptor.read FileDescriptor.no_limit pipe1;
  _ ← expect recvd recvd2;
  _ ← FileDescriptor.destroy pipe2;
  FileDescriptor.destroy pipe1.

Definition socket_dt (random : nat -> Z) (w : world) : res run :=
  test_main (
    '(_, w) ← socket_example_1 (random 0%nat) w;
    '(_, w) ← socket_example_2 (random 1%nat) w;
    '(_, _) ← socket_example_3 w;
    Ok tt).

(** The number fits in sixteen bits and is never a privileged port. *)
Lemma portnum_range random : 1025 <= portnum random <= 51024.
Proof.
  unfold portnum. pose proof (Z.mod_pos_bound (u32 random) 50000 ltac:(lia)).
  rewrite u32_small by lia. rewrite u16_small by lia. lia.
Qed.

End SocketExample.
End SocketExample.

(** A kernel with a loopback interface, and nothing that blocks: what would wait for
    data fails with [EAGAIN]. *)
Module Loopback.

Record sock : Type := mkSock {
  domain : Z;
  type : Z;
  name : option Address.t;
  peer : option Address.t;
  other : option Z;
  datagrams : list (bytes * Address.t);
  stream : bytes;
  pending : option (list Z)
}.

Record t : Type := mk { socks : gmap Z sock; next_fd : Z; next_port : Z }.

Definition EAGAIN : Z := 11.
Definition EADDRINUSE : Z := 98.
Definition ENOTCONN : Z := 107.
Definition ECONNREFUSED : Z := 111.
Definition EBADF : Z := 9.

Definition ok (n : Z) : answer := Answer n 0.
Definition err (e : Z) : answer := Answer (-1) e.
Definition nobody : Address.t := Address.mk 0 0.

Definition put (fd : Z) (s : sock) (k : t) : t := mk (<[fd := s]> (socks k)) (next_fd k) (next_port k).
Definition fresh (s : sock) (k : t) : Z * t :=
  (next_fd k, mk (<[next_fd k := s]> (socks k)) (next_fd k + 1) (next_port k)).
Definition plain (domain type : Z) : sock := mkSock domain type None None None [] [] None.

Definition set_name (a : Address.t) (s : sock) : sock :=
  mkSock (domain s) (type s) (Some a) (peer s) (other s) (datagrams s) (stream s) (pending s).
Definition set_peer (a : Address.t) (s : sock) : sock :=
  mkSock (domain s) (type s) (name s) (Some a) (other s) (datagrams s) (stream s) (pending s).
Definition set_other (fd : Z) (s : sock) : sock :=
  mkSock (domain s) (type s) (name s) (peer s) (Some fd) (datagrams s) (stream s) (pending s).
Definition set_datagrams (l : list (bytes * Address.t)) (s : sock) : sock :=
  mkSock (domain s) (type s) (name s) (peer s) (other s) l (stream s) (pending s).
Definition set_stream (bs : bytes) (s : sock) : sock :=
  mkSock (domain s) (type s) (name s) (peer s) (other s) (datagrams s) bs (pending s).
Definition set_pending (l : list Z) (s : sock) : sock :=
  mkSock (domain s) (type s) (name s) (peer s) (other s) (datagrams s) (stream s) (Some l).

(** The socket of a type that is bound to an address. *)
Definition bound (ty : Z) (a : Address.t) (k : t) : option (Z * sock) :=
  head (List.filter (fun p => (type p.2 =? ty) && bool_decide (name p.2 = Some a)) (map_to_list (socks k))).

(** A call on a descriptor that must be open. *)
Definition on {A} (bad : A) (fd : Z) (f : sock -> A) (k : t) : A :=
  match socks k !! fd with Some s => f s | None => bad end.

Definition do_bind (fd : Z) (a : Address.t) (k : t) : answer * t :=
  on (err EBADF, k) fd (fun s =>
    match bound (type s) a k with
    | Some _ => (err EADDRINUSE, k)
    | None => (ok 0, put fd (set_name a s) k)
    end) k.

(** An unbound socket gets a port of its own when it sends. *)
Definition ensure_name (s : sock) (k : t) : Address.t * sock * t :=
  match name s with
  | Some a => (a, s, k)
  | None =>
      let a := Address.mk 0x7f000001 (next_port k) in
      (a, set_name a s, mk (socks k) (next_fd k) (next_port k + 1))
  end.

Definition do_sendmsg (fd : Z) (dst : option Address.t) (iovecs : list (bytes * Z)) (k : t) : answer * t :=
  on (err EBADF, k) fd (fun s =>
    let '(me, s, k) := ensure_name s k in
    let k := put fd s k in
    let payload := concat (fst <$> iovecs) in
    match (match dst with Some a => Some a | None => peer s end) with
    | None => (err ENOTCONN, k)
    | Some a =>
        (ok (zlen payload),
         match bound SOCK_DGRAM a k with
         | Some (fd', s') => put fd' (set_datagrams (datagrams s' ++ [(payload, me)]) s') k
         | None => k
         end)
    end) k.

Definition do_recvfrom (fd size : Z) (k : t) : answer * bytes * Address.t * t :=
  on (err EBADF, [], nobody, k) fd (fun s =>
    match datagrams s with
    | [] => (err EAGAIN, [], nobody, k)
    | (bs, src) :: rest => (ok (zlen bs), take (Z.to_nat size) bs, src, put fd (set_datagrams rest s) k)
    end) k.

(** A stream socket is joined to a new socket, which the listening one keeps. *)
Definition do_connect (fd : Z) (a : Address.t) (k : t) : answer * t :=
  on (err EBADF, k) fd (fun s =>
    if type s =? SOCK_DGRAM then (ok 0, put fd (set_peer a s) k)
    else
      match bound SOCK_STREAM a k with
      | Some (lfd, l) =>
          match pending l with
          | Some waiting =>
              let '(fd', k) := fresh (set_other fd (plain AF_INET SOCK_STREAM)) k in
              (ok 0, put fd (set_other fd' s) (put lfd (set_pending (waiting ++ [fd']) l) k))
          | None => (err ECONNREFUSED, k)
          end
      | None => (err ECONNREFUSED, k)
      end) k.

Definition do_accept (fd : Z) (k : t) : answer * t :=
  on (err EBADF, k) fd (fun s =>
    match pending s with
    | Some (fd' :: rest) => (ok fd', put fd (set_pending rest s) k)
    | _ => (err EAGAIN, k)
    end) k.

Definition do_writev (fd : Z) (iovecs : list (bytes * Z)) (k : t) : answer * t :=
  on (err EBADF, k) fd (fun s =>
    match other s with
    | None => (err ENOTCONN, k)
    | Some fd' =>
        let bs := concat (fst <$> iovecs) in
        on (err 32, k) fd' (fun s' => (ok (zlen bs), put fd' (set_stream (stream s' ++ bs) s') k)) k
    end) k.

Definition do_read (fd size : Z) (k : t) : answer * bytes * t :=
  on (err EBADF, [], k) fd (fun s =>
    match stream s with
    | [] => (err EAGAIN, [], k)
    | bs => let n := Z.to_nat (Z.min size (zlen bs)) in (ok (Z.of_nat n), take n bs, put fd (set_stream (drop n bs) s) k)
    end) k.

Definition do_socketpair (ty : Z) (k : t) : answer * (Z * Z) * t :=
  let '(a, k) := fresh (plain AF_UNIX ty) k in
  let '(b, k) := fresh (set_other a (plain AF_UNIX ty)) k in
  (ok 0, (a, b), put a (set_other b (plain AF_UNIX ty)) k).

Definition do_getsockopt (fd level option : Z) (k : t) : answer * Z * Z * t :=
  on (err EBADF, 0, 0, k) fd (fun s => (ok 0, if option =? SO_DOMAIN then domain s else type s, 4, k)) k.

#[global] Instance kernel : Kernel t := {|
  k_close := fun fd k => on (err EBADF, k) fd (fun _ => (ok 0, mk (delete fd (socks k)) (next_fd k) (next_port k))) k;
  k_read := do_read;
  k_writev := do_writev;
  k_getfl := fun _ k => (ok 0, k);
  k_setfl := fun _ _ k => (ok 0, k);
  k_poll := fun _ _ k => (ok 0, [], k);
  k_clock := fun k => (0, k);
  k_socket := fun d ty k => let '(fd, k) := fresh (plain d ty) k in (ok fd, k);
  k_socketpair := do_socketpair;
  k_getsockopt := do_getsockopt;
  k_setsockopt := fun _ _ _ _ k => (ok 0, k);
  k_getname := fun is_peer fd k => on (err EBADF, nobody, k) fd (fun s => (ok 0, default nobody (if is_peer : bool then peer s else name s), k)) k;
  k_bind := do_bind;
  k_connect := do_connect;
  k_shutdown := fun fd _ k => on (err EBADF, k) fd (fun _ => (ok 0, k)) k;
  k_recvfrom := do_recvfrom;
  k_sendmsg := do_sendmsg;
  k_listen := fun fd _ k => on (err EBADF, k) fd (fun s => (ok 0, put fd (set_pending [] s) k)) k;
  k_accept := do_accept;
  k_open_tun := fun k => (err 2, k);
  k_tunsetiff := fun _ _ _ k => (err EBADF, k)
|}.

Definition boot : world t := mkWorld (mk ∅ 3 60000) ∅ 0.
#[local] Abbreviation socket_example_1 := (SocketExample.socket_example_1 (H0 := DottedQuad.netdb)).
#[local] Abbreviation socket_dt := (SocketExample.socket_dt (H0 := DottedQuad.netdb)).

(** The test passes, with two different ports or the same one twice. *)
Example socket_dt_passes :
  socket_dt (fun n => 123456 + Z.of_nat n) boot = Ok (Exit EXIT_SUCCESS) /\
  socket_dt (fun _ => 7) boot = Ok (Exit EXIT_SUCCESS).
Proof. split; vm_compute; reflexivity. Qed.

(** Nothing is left open: the descriptors and their wrappers are gone. *)
Example socket_example_1_closes :
  exists w, socket_example_1 7 boot = Ok (tt, w) /\ heap w = ∅ /\ socks (FileDescriptor.kernel w) = ∅.
Proof. eexists. split; [vm_compute; reflexivity|]. split; vm_compute; reflexivity. Qed.

(** A port that another program has taken makes it fail. *)
Example socket_dt_port_taken :
  let taken := set_name (Address.mk 0x7f000001 1032) (plain AF_INET SOCK_DGRAM) in
  socket_dt (fun _ => 7) (mkWorld (mk {[ 3 := taken ]} 4 60000) ∅ 0) = Ok (Exit EXIT_FAILURE).
Proof. vm_compute. reflexivity. Qed.

End Loopback.
