(* ===== verification/Printing.v ===== *)
(** * What the program prints

    The textual forms of addresses, headers and frames ([to_string], [summary]) and
    [hexdump].  The part of [std::ostream] that they use is modelled: numbers in base
    ten and sixteen, the width and the fill character, and the write position of a
    [stringstream], which starts at the beginning of its initial contents. *)

From stdpp Require Import strings pretty.
From S2P Require Import Prelude Wrapping Buffers Parsing TcpWire Ipv4Wire EthernetWire Addresses.
From Stdlib Require Import Strings.Byte.
From Stdlib Require Strings.Ascii Strings.String.

#[local] Open Scope list_scope.
#[local] Open Scope Z_scope.

(** ** Streams *)

Abbreviation text := (list Ascii.ascii).
Definition lit (s : string) : text := String.list_ascii_of_string s.
Definition char_of (code : Z) : Ascii.ascii := Ascii.ascii_of_nat (Z.to_nat code).

(** Numbers in base ten and, after [hex], in base sixteen; eight digits are enough for
    a 32-bit number. *)
Definition dec (n : Z) : text := lit (pretty n).
Definition hex_digit (d : Z) : Ascii.ascii := char_of (if d <? 10 then 48 + d else 87 + d).
Fixpoint hex_go (fuel : nat) (n : Z) (acc : text) : text :=
  match fuel with
  | O => acc
  | S fuel' =>
      let acc := hex_digit (n mod 16) :: acc in
      if n <? 16 then acc else hex_go fuel' (n / 16) acc
  end.
Definition hex (n : Z) : text := hex_go 8 n [].

(** [setw(w)] with [setfill('0')]. *)
Definition setw (w : nat) (s : text) : text := replicate (w - length s)%nat (char_of 48) ++ s.

(** After [boolalpha]. *)
Definition boolalpha (b : bool) : text := lit (if b then "true" else "false").

Definition newline : text := [char_of 10].
Definition spaces (n : nat) : text := replicate n (char_of 32).
Definition quote : text := [char_of 34].

(** ** Addresses and headers *)

Section Headers.
Context `{Address.Netdb}.

(** [inet_ntoa({htobe32(a)})]. *)
Definition dotted_quad (a : Z) : text := lit (Address.inet_ntoa a).

(** [to_string(const EthernetAddress address)]. *)
Fixpoint ethernet_address_to_string (address : EthernetAddress.t) : text :=
  match address with
  | [] => []
  | b :: rest => setw 2 (hex b) ++ (match rest with [] => [] | _ :: _ => lit ":" end) ++ ethernet_address_to_string rest
  end.

Definition ethernet_header_to_string (h : EthernetHeader.t) : text :=
  lit "dst=" ++ ethernet_address_to_string (EthernetHeader.dst h) ++
  lit ", src=" ++ ethernet_address_to_string (EthernetHeader.src h) ++
  lit ", type=" ++
  (if EthernetHeader.type h =? EthernetHeader.TYPE_IPv4 then lit "IPv4"
   else if EthernetHeader.type h =? EthernetHeader.TYPE_ARP then lit "ARP"
   else lit "[unknown type " ++ hex (EthernetHeader.type h) ++ lit "!]").

Definition arp_to_string (m : ARPMessage.t) : text :=
  let opcode_str := lit "(unknown type)" in
  let opcode_str := if ARPMessage.opcode m =? ARPMessage.OPCODE_REQUEST then lit "REQUEST" else opcode_str in
  let opcode_str := if ARPMessage.opcode m =? ARPMessage.OPCODE_REPLY then lit "REPLY" else opcode_str in
  lit "opcode=" ++ opcode_str ++ lit ", sender=" ++ ethernet_address_to_string (ARPMessage.sender_ethernet_address m) ++
  lit "/" ++ dotted_quad (ARPMessage.sender_ip_address m) ++ lit ", target=" ++
  ethernet_address_to_string (ARPMessage.target_ethernet_address m) ++ lit "/" ++
  dotted_quad (ARPMessage.target_ip_address m).

(** Every number of this form is in base sixteen. *)
Definition ipv4_to_string (h : IPv4Header.t) : text :=
  lit "IP version: " ++ hex (IPv4Header.ver h) ++ newline ++
  lit "IP hdr len: " ++ hex (IPv4Header.hlen h) ++ newline ++
  lit "IP tos: " ++ hex (IPv4Header.tos h) ++ newline ++
  lit "IP dgram len: " ++ hex (IPv4Header.len h) ++ newline ++
  lit "IP id: " ++ hex (IPv4Header.id h) ++ newline ++
  lit "Flags: df: " ++ boolalpha (IPv4Header.df h) ++ lit " mf: " ++ boolalpha (IPv4Header.mf h) ++ newline ++
  lit "Offset: " ++ hex (IPv4Header.offset h) ++ newline ++
  lit "TTL: " ++ hex (IPv4Header.ttl h) ++ newline ++
  lit "Protocol: " ++ hex (IPv4Header.proto h) ++ newline ++
  lit "Checksum: " ++ hex (IPv4Header.cksum h) ++ newline ++
  lit "Src addr: " ++ hex (IPv4Header.src h) ++ newline ++
  lit "Dst addr: " ++ hex (IPv4Header.dst h) ++ newline.

(** The time to live is written by [::to_string], in base ten. *)
Definition ipv4_summary (h : IPv4Header.t) : text :=
  lit "IPv" ++ hex (IPv4Header.ver h) ++ lit ", len=" ++ hex (IPv4Header.len h) ++
  lit ", protocol=" ++ hex (IPv4Header.proto h) ++ lit ", " ++
  (if 10 <=? IPv4Header.ttl h then [] else lit "ttl=" ++ dec (IPv4Header.ttl h) ++ lit ", ") ++
  lit "src=" ++ dotted_quad (IPv4Header.src h) ++ lit ", dst=" ++ dotted_quad (IPv4Header.dst h).

Definition tcp_to_string (h : TCPHeader.t) : text :=
  lit "TCP source port: " ++ hex (TCPHeader.sport h) ++ newline ++
  lit "TCP dest port: " ++ hex (TCPHeader.dport h) ++ newline ++
  lit "TCP seqno: " ++ hex (WrappingInt32.raw_value (TCPHeader.seqno h)) ++ newline ++
  lit "TCP ackno: " ++ hex (WrappingInt32.raw_value (TCPHeader.ackno h)) ++ newline ++
  lit "TCP doff: " ++ hex (TCPHeader.doff h) ++ newline ++
  lit "Flags: urg: " ++ boolalpha (TCPHeader.urg h) ++ lit " ack: " ++ boolalpha (TCPHeader.ack h) ++
  lit " psh: " ++ boolalpha (TCPHeader.psh h) ++ lit " rst: " ++ boolalpha (TCPHeader.rst h) ++
  lit " syn: " ++ boolalpha (TCPHeader.syn h) ++ lit " fin: " ++ boolalpha (TCPHeader.fin h) ++ newline ++
  lit "TCP winsize: " ++ hex (TCPHeader.win h) ++ newline ++
  lit "TCP cksum: " ++ hex (TCPHeader.cksum h) ++ newline ++
  lit "TCP uptr: " ++ hex (TCPHeader.uptr h) ++ newline.

Definition tcp_summary (h : TCPHeader.t) : text :=
  lit "Header(flags=" ++ (if TCPHeader.syn h then lit "S" else []) ++ (if TCPHeader.ack h then lit "A" else []) ++
  (if TCPHeader.rst h then lit "R" else []) ++ (if TCPHeader.fin h then lit "F" else []) ++
  lit ",seqno=" ++ dec (WrappingInt32.raw_value (TCPHeader.seqno h)) ++
  lit ",ack=" ++ dec (WrappingInt32.raw_value (TCPHeader.ackno h)) ++ lit ",win=" ++ dec (TCPHeader.win h) ++ lit ")".

(** ** Frames *)

(** The characters of a payload. *)
Definition chars_of (data : bytes) : text := (fun b => char_of (b2z b)) <$> data.

(** The case of an ARP message, the same in both programs: the conversion to one
    [Buffer] may throw. *)
Definition arp_summary (frame : EthernetFrame.t) : res text :=
  b ← BufferList.to_buffer (EthernetFrame.payload frame);
  '(r, arp) ← ARPMessage.parse b ARPMessage.default;
  Ok (if is_NoError r then lit " " ++ arp_to_string arp else lit " (bad ARP)").

(** [summary] of lab7. *)
Definition lab7_summary (frame : EthernetFrame.t) : res text :=
  let ret := ethernet_header_to_string (EthernetFrame.header frame) in
  let type := EthernetHeader.type (EthernetFrame.header frame) in
  if type =? EthernetHeader.TYPE_IPv4 then
    '(r, dgram) ← IPv4Datagram.parse (Buffer.of_string (BufferList.concatenate (EthernetFrame.payload frame))) IPv4Datagram.default;
    if is_NoError r then
      let ret := ret ++ lit " " ++ ipv4_summary (IPv4Datagram.header dgram) in
      if IPv4Header.proto (IPv4Datagram.header dgram) =? IPv4Header.PROTO_TCP then
        '(r, tcp_seg) ← TCPSegment.parse (Buffer.of_string (BufferList.concatenate (IPv4Datagram.payload dgram)))
                          (IPv4Header.pseudo_cksum (IPv4Datagram.header dgram)) TCPSegment.default;
        Ok (if is_NoError r then ret ++ lit " " ++ tcp_summary (TCPSegment.header tcp_seg) else ret)
      else Ok ret
    else Ok (ret ++ lit " (bad IPv4)")
  else if type =? EthernetHeader.TYPE_ARP then
    x ← arp_summary frame;
    Ok (ret ++ x)
  else Ok ret.

(** [summary] of the network simulator. *)
Definition simulator_summary (frame : EthernetFrame.t) : res text :=
  let ret := ethernet_header_to_string (EthernetFrame.header frame) in
  let type := EthernetHeader.type (EthernetFrame.header frame) in
  if type =? EthernetHeader.TYPE_IPv4 then
    b ← BufferList.to_buffer (EthernetFrame.payload frame);
    '(r, dgram) ← IPv4Datagram.parse b IPv4Datagram.default;
    Ok (ret ++
      if is_NoError r then
        lit " " ++ ipv4_summary (IPv4Datagram.header dgram) ++
        lit " payload=" ++ quote ++ chars_of (BufferList.concatenate (IPv4Datagram.payload dgram)) ++ quote
      else lit " (bad IPv4)")
  else if type =? EthernetHeader.TYPE_ARP then
    x ← arp_summary frame;
    Ok (ret ++ x)
  else Ok ret.

End Headers.

(** ** [hexdump] *)

(** A [stringstream] that was opened on a string. *)
Record stringstream : Type := mkStream { str : text; put_position : nat }.
Definition open (s : text) : stringstream := mkStream s 0.
Definition put (c : Ascii.ascii) (s : stringstream) : stringstream :=
  mkStream (take (put_position s) (str s) ++ [c] ++ drop (S (put_position s)) (str s)) (S (put_position s)).

(** [isprint] in the C locale. *)
Definition isprint (b : Z) : bool := (32 <=? b) && (b <=? 126).
Definition shown (b : byte) : Ascii.ascii := if isprint (b2z b) then char_of (b2z b) else char_of 46.

(** One pass of the loop; [printed] is an [int], whose overflow is undefined. *)
Definition hexdump_step (indent : nat) (st : text * stringstream * Z) (b : byte) : res (text * stringstream * Z) :=
  let '(cout, pchars, printed) := st in
  let '(cout, pchars) :=
    if Z.land printed 15 =? 0 then
      let '(cout, pchars) :=
        if negb (printed =? 0) then (cout ++ spaces 4 ++ str pchars ++ newline, open (spaces 1)) else (cout, pchars) in
      (cout ++ spaces indent ++ setw 8 (hex printed) ++ lit ":    ", pchars)
    else if Z.land printed 1 =? 0 then (cout ++ spaces 1, pchars)
    else (cout, pchars) in
  if two31 <=? printed + 1 then Throw undefined
  else Ok (cout ++ setw 2 (hex (b2z b)), put (shown b) pchars, printed + 1).

Fixpoint hexdump_loop (indent : nat) (data : bytes) (st : text * stringstream * Z) : res (text * stringstream * Z) :=
  match data with
  | [] => Ok st
  | b :: data' => st ← hexdump_step indent st b; hexdump_loop indent data' st
  end.

(** What is written to [cout]. *)
Definition hexdump (data : bytes) (indent : nat) : res text :=
  '(cout, pchars, printed) ← hexdump_loop indent data ([], open (spaces 1), 0);
  let print_rem := Z.rem (16 - Z.land printed 15) 16 in
  Ok (cout ++ spaces (Z.to_nat (2 * print_rem + Z.quot print_rem 2 + 4)) ++ str pchars ++ newline ++ newline).

(** ** Reading back *)

Definition hex_value_of (c : Ascii.ascii) : Z :=
  let v := Z.of_nat (Ascii.nat_of_ascii c) in if v <? 58 then v - 48 else v - 87.
Definition read_hex (t : text) : Z := foldl (fun a c => 16 * a + hex_value_of c) 0 t.

Lemma hex_value_digit d : 0 <= d < 16 -> hex_value_of (hex_digit d) = d.
Proof.
  intros Hd. unfold hex_value_of, hex_digit, char_of. rewrite Ascii.nat_ascii_embedding by (zcase; lia).
  rewrite Z2Nat.id by (zcase; lia). destruct (d <? 10) eqn:E; zb.
  - rewrite (proj2 (Z.ltb_lt _ _)); lia.
  - rewrite (proj2 (Z.ltb_ge _ _)); lia.
Qed.

Lemma read_hex_go fuel : forall n acc, 0 <= n < 16 ^ Z.of_nat fuel -> (0 < fuel)%nat ->
  read_hex (hex_go fuel n acc) = foldl (fun a c => 16 * a + hex_value_of c) n acc.
Proof.
  induction fuel as [|fuel IH]; intros n acc Hn Hf; [lia|]. cbn [hex_go].
  pose proof (Z.mod_pos_bound n 16 ltac:(lia)) as Hm. destruct (n <? 16) eqn:E; zb.
  - unfold read_hex. cbn [foldl]. rewrite hex_value_digit by done. rewrite Z.mod_small by lia. done.
  - destruct fuel as [|fuel]; [cbn in Hn; lia|]. rewrite IH; [|..|lia].
    + cbn [foldl]. rewrite hex_value_digit by done. f_equal. Z.div_mod_to_equations. lia.
    + rewrite Nat2Z.inj_succ, Z.pow_succ_r in Hn by lia. split; [apply Z.div_pos; lia|]. apply Z.div_lt_upper_bound; lia.
Qed.

(** A 32-bit number is read back from its digits. *)
Lemma read_hex_hex n : 0 <= n < two32 -> read_hex (hex n) = n.
Proof. intros Hn. unfold hex. by rewrite read_hex_go by (cbn; lia). Qed.

Lemma byte_digits b : 0 <= b < two8 -> setw 2 (hex b) = [hex_digit (b / 16); hex_digit (b mod 16)].
Proof.
  intros Hb. unfold hex. cbn [hex_go]. assert (Hd : 0 <= b / 16 < 16) by (Z.div_mod_to_equations; lia).
  destruct (b <? 16) eqn:E; zb.
  - by rewrite Z.div_small by lia.
  - rewrite (proj2 (Z.ltb_lt (b / 16) 16)) by lia. by rewrite (Z.mod_small (b / 16)).
Qed.

Lemma length_hex_go fuel : forall n acc, (length (hex_go fuel n acc) <= fuel + length acc)%nat.
Proof.
  induction fuel as [|fuel IH]; intros n acc; cbn [hex_go]; [lia|]. destruct (n <? 16); [cbn; lia|].
  specialize (IH (n / 16) (hex_digit (n mod 16) :: acc)). cbn in IH. lia.
Qed.

Lemma length_offset n : length (setw 8 (hex n)) = 8%nat.
Proof. pose proof (length_hex_go 8 n []). unfold setw. rewrite length_app, length_replicate. unfold hex in *. cbn in *. lia. Qed.

Definition pair (b : byte) : text := setw 2 (hex (b2z b)).
Lemma length_pair b : length (pair b) = 2%nat.
Proof. unfold pair. rewrite byte_digits by apply b2z_range. done. Qed.

(** An address in the usual notation, without the colons. *)
Fixpoint read_address (t : text) : list Z :=
  match t with
  | h :: l :: rest =>
      (16 * hex_value_of h + hex_value_of l) :: match rest with [] => [] | _ :: rest' => read_address rest' end
  | _ => []
  end.

(** The text of an Ethernet address, two hexadecimal digits for each octet and
    colons between them, determines the address. *)
Theorem ethernet_address_text_roundtrip (a : EthernetAddress.t) (Ha : EthernetAddress.wf a) :
  read_address (ethernet_address_to_string a) = a /\ length (ethernet_address_to_string a) = 17%nat.
Proof.
  destruct Ha as [Hlen Ha].
  assert (Hgo : forall a, Forall (fun b => 0 <= b < two8) a -> read_address (ethernet_address_to_string a) = a /\
    S (length (ethernet_address_to_string a)) = Nat.max 1 (3 * length a)).
  { clear a Hlen Ha. induction 1 as [|b rest Hb _ [IH1 IH2]]; [done|]. cbn [ethernet_address_to_string].
    rewrite byte_digits by done. cbn [app read_address]. rewrite !hex_value_digit by (Z.div_mod_to_equations; lia).
    assert (Hv : 16 * (b / 16) + b mod 16 = b) by (Z.div_mod_to_equations; lia). rewrite Hv.
    destruct rest as [|b' rest]; [done|]. cbn [app lit String.list_ascii_of_string tail length] in *. rewrite IH1.
    split; [done|]. lia. }
  destruct (Hgo a Ha) as [H1 H2]. split; [done|]. rewrite Hlen in H2. cbn in H2. lia.
Qed.

Lemma ethernet_address_text_roundtrip_witness :
  read_address (ethernet_address_to_string [2; 0; 171; 0; 0; 255]) = [2; 0; 171; 0; 0; 255] /\
  ethernet_address_to_string [2; 0; 171; 0; 0; 255] = lit "02:00:ab:00:00:ff".
Proof.
  split; [apply (ethernet_address_text_roundtrip [2; 0; 171; 0; 0; 255])|vm_compute; reflexivity].
  split; [reflexivity|]. cbn. forall_list; lia.
Defined.

(** ** The reference for [hexdump] *)

(** The hexadecimal columns of a line: a space after every second byte. *)
Fixpoint columns (l : bytes) : text :=
  match l with
  | [] => []
  | [a] => pair a
  | a :: b :: rest => pair a ++ pair b ++ (match rest with [] => [] | _ :: _ => spaces 1 end) ++ columns rest
  end.

(** A line: the offset, the columns, and the characters, which begin 43 places after
    the columns do. *)
Definition line (indent : nat) (off : Z) (l : bytes) : text :=
  spaces indent ++ setw 8 (hex off) ++ lit ":    " ++ columns l ++ spaces (43 - length (columns l)) ++ (shown <$> l).

Fixpoint unlines (ls : list text) : text :=
  match ls with
  | [] => []
  | [l] => l
  | l :: ls' => l ++ newline ++ unlines ls'
  end.

(** The lines of sixteen bytes from the [k]-th. *)
Definition dump_lines (indent : nat) (k : Z) (data : bytes) : list text :=
  (fun j => line indent (16 * (k + Z.of_nat j)) (take 16 (drop (16 * j) data))) <$> seq 0 ((length data + 15) / 16).

(** Induction in steps of two. *)
Lemma pair_ind {A} (P : list A -> Prop) : P [] -> (forall a, P [a]) -> (forall a b l, P l -> P (a :: b :: l)) -> forall l, P l.
Proof.
  intros H0 H1 H2 l. assert (H : P l /\ forall a, P (a :: l)); [|by destruct H].
  induction l as [|b l [IH1 IH2]]; [auto|]. auto.
Qed.

Lemma columns_snoc c : forall b, c <> [] ->
  columns (c ++ [b]) = columns c ++ (if Nat.even (length c) then spaces 1 else []) ++ pair b.
Proof.
  induction c as [|a|a a' l IH] using pair_ind; intros b Hne; [done|cbn; by rewrite !app_nil_r|].
  destruct l as [|x l]; [cbn; by rewrite !app_nil_r, <- !app_assoc|].
  change ((a :: a' :: x :: l) ++ [b]) with (a :: a' :: ((x :: l) ++ [b])).
  assert (Hcons : forall r, r <> [] -> columns (a :: a' :: r) = pair a ++ pair a' ++ spaces 1 ++ columns r) by (by intros []).
  rewrite !Hcons by done. rewrite IH by done. rewrite <- !app_assoc. done.
Qed.

Lemma length_columns l : l <> [] -> length (columns l) = (2 * length l + (length l - 1) / 2)%nat.
Proof.
  induction l as [|a|a b l IH] using pair_ind; intros Hne; [done|apply length_pair|]. destruct l as [|x l].
  - cbn [columns]. rewrite !app_nil_r, length_app, !length_pair. done.
  - change (columns (a :: b :: x :: l)) with (pair a ++ pair b ++ spaces 1 ++ columns (x :: l)).
    rewrite !length_app, !length_pair, IH by done. cbn [length spaces replicate].
    replace (S (S (S (length l))) - 1)%nat with (S (length l) - 1 + 1 * 2)%nat by lia. rewrite Nat.div_add by lia. lia.
Qed.

(** ** The loop writes the lines *)

Lemma low_bits_at k j : 0 <= j < 16 -> Z.land (16 * k + j) 15 = j /\ Z.land (16 * k + j) 1 = j mod 2.
Proof.
  intros Hj. change 15 with (Z.ones 4). rewrite Z.land_ones by lia. change 1 with (Z.ones 1). rewrite Z.land_ones by lia.
  split; [change (2 ^ 4) with 16|change (2 ^ Z.ones 1) with 2]; Z.div_mod_to_equations; lia.
Qed.

Lemma even_mod2 n : (Z.of_nat n mod 2 =? 0) = Nat.even n.
Proof. destruct (Nat.even n) eqn:E; [apply Nat.even_spec in E as [m ->]|]; zb; [Z.div_mod_to_equations; lia|].
  apply Z.eqb_neq. assert (Ho : Nat.odd n = true) by (by rewrite <- Nat.negb_even, E). apply Nat.odd_spec in Ho as [m ->].
  Z.div_mod_to_equations; lia.
Qed.

(** The rest of a line that has begun. *)
Lemma row_loop indent k : forall l c pre, c <> [] -> (length c + length l <= 16)%nat ->
  16 * k + zlen c + zlen l < two31 ->
  hexdump_loop indent l (pre ++ columns c, mkStream (shown <$> c) (length c), 16 * k + zlen c) =
    Ok (pre ++ columns (c ++ l), mkStream (shown <$> c ++ l) (length (c ++ l)), 16 * k + zlen (c ++ l)).
Proof.
  induction l as [|b l IH]; intros c pre Hne Hlen Hmax; [by rewrite app_nil_r|].
  cbn [length] in Hlen, Hmax. assert (Hc : (0 < length c)%nat) by (destruct c; cbn; [done|lia]).
  destruct (low_bits_at k (zlen c)) as [L15 L1]; [lia|].
  cbn [hexdump_loop]. unfold hexdump_step. rewrite L15, L1, even_mod2, (proj2 (Z.eqb_neq (zlen c) 0)) by lia.
  specialize (IH (c ++ [b]) pre). rewrite <- app_assoc, length_app in IH. cbn [app length] in IH.
  rewrite columns_snoc in IH by done. rewrite fmap_app in IH. replace (16 * k + Z.of_nat (length c + 1)) with (16 * k + zlen c + 1) in IH by lia.
  rewrite Nat.add_1_r in IH. change (shown <$> [b]) with [shown b] in IH. change (setw 2 (hex (b2z b))) with (pair b).
  assert (Hput : put (shown b) (mkStream (shown <$> c) (length c)) = mkStream ((shown <$> c) ++ [shown b]) (S (length c))).
  { unfold put. cbn [put_position str]. rewrite take_ge, drop_ge by (rewrite length_fmap; lia). done. }
  destruct (Nat.even (length c)); rewrite (proj2 (Z.leb_gt _ _)) by lia; cbn [mbind res_bind]; rewrite Hput;
    rewrite <- ?app_assoc; cbn [app] in *; (rewrite IH; [done|by destruct c|lia|lia]).
Qed.

(** What is on [cout] once a pending line has been ended. *)
Definition flushed (k : Z) (cout : text) (pchars : stringstream) : text :=
  if k =? 0 then cout else cout ++ spaces 4 ++ str pchars ++ newline.

(** A whole line, of at most sixteen bytes. *)
Lemma line_loop indent k c rest cout pchars : c <> [] -> (length c <= 16)%nat -> 0 <= k ->
  (k = 0 -> pchars = open (spaces 1)) -> 16 * k + zlen c < two31 ->
  hexdump_loop indent (c ++ rest) (cout, pchars, 16 * k) =
    hexdump_loop indent rest
      (flushed k cout pchars ++ spaces indent ++ setw 8 (hex (16 * k)) ++ lit ":    " ++ columns c,
       mkStream (shown <$> c) (length c), 16 * k + zlen c).
Proof.
  intros Hne Hlen Hk Hp Hmax. destruct c as [|b c]; [done|]. cbn [length] in Hlen, Hmax.
  set (pre := flushed k cout pchars ++ spaces indent ++ setw 8 (hex (16 * k)) ++ lit ":    ").
  assert (Hfirst : hexdump_step indent (cout, pchars, 16 * k) b =
    Ok (pre ++ columns [b], mkStream (shown <$> [b]) 1, 16 * k + 1)).
  { unfold hexdump_step. destruct (low_bits_at k 0) as [L15 _]; [lia|]. rewrite Z.add_0_r in L15. rewrite L15. cbn [Z.eqb].
    assert (Hz : (16 * k =? 0) = (k =? 0)) by (destruct (k =? 0) eqn:E; zb; [subst; done|apply Z.eqb_neq; lia]).
    rewrite Hz. unfold pre, flushed. destruct (k =? 0) eqn:E; zb; cbn [negb].
    - rewrite (Hp E), (proj2 (Z.leb_gt _ _)) by lia. done.
    - rewrite (proj2 (Z.leb_gt _ _)) by lia. by rewrite <- !app_assoc. }
  assert (Happ : forall l1 l2 st, hexdump_loop indent (l1 ++ l2) st = (st ← hexdump_loop indent l1 st; hexdump_loop indent l2 st)).
  { induction l1 as [|x l1 IH]; intros l2 st; [done|]. cbn [app hexdump_loop]. destruct (hexdump_step indent st x); [apply IH|done]. }
  rewrite Happ. cbn [hexdump_loop]. rewrite Hfirst. cbn [mbind res_bind].
  pose proof (row_loop indent k c [b] pre ltac:(done)) as Hrow. cbn [length app] in Hrow.
  change (Z.of_nat 1) with 1 in Hrow. rewrite Hrow by lia. cbn [mbind res_bind length]. unfold pre. by rewrite <- !app_assoc.
Qed.

Lemma dump_lines_cons indent k c rest : length c = 16%nat -> rest <> [] ->
  dump_lines indent k (c ++ rest) = line indent (16 * k) c :: dump_lines indent (k + 1) rest.
Proof.
  intros Hc Hr. unfold dump_lines. rewrite length_app, Hc.
  replace (16 + length rest + 15)%nat with (length rest + 15 + 1 * 16)%nat by lia. rewrite Nat.div_add by lia.
  rewrite Nat.add_1_r, <- cons_seq, <- fmap_S_seq, fmap_cons, <- list_fmap_compose. f_equal.
  - rewrite Nat.mul_0_r, drop_0, take_app_length' by done. by rewrite Z.add_0_r.
  - apply list_fmap_ext. intros j x _. unfold compose.
    replace (16 * S x)%nat with (16 + 16 * x)%nat by lia. rewrite <- drop_drop, drop_app_length' by done.
    do 2 f_equal. lia.
Qed.

Lemma dump_lines_last indent k c : c <> [] -> (length c <= 16)%nat -> dump_lines indent k c = [line indent (16 * k) c].
Proof.
  intros Hne Hc. unfold dump_lines. assert (H0 : (0 < length c)%nat) by (destruct c; cbn; [done|lia]).
  assert ((length c + 15) / 16 = 1)%nat as ->.
  { symmetry. apply (Nat.div_unique _ _ _ (length c - 1)); lia. }
  cbn [seq fmap list_fmap]. by rewrite Nat.mul_0_r, drop_0, take_ge, Z.add_0_r by lia.
Qed.

(** The spaces before the characters of the last line. *)
Lemma last_spaces k c : c <> [] -> (length c <= 16)%nat ->
  let print_rem := Z.rem (16 - Z.land (16 * k + zlen c) 15) 16 in
  Z.to_nat (2 * print_rem + Z.quot print_rem 2 + 4) = (43 - length (columns c))%nat.
Proof.
  intros Hne Hc. rewrite length_columns by done. assert (H0 : (0 < length c)%nat) by (destruct c; cbn; [done|lia]).
  cbv zeta. assert (Hr : Z.rem (16 - Z.land (16 * k + zlen c) 15) 16 = 16 - zlen c).
  { destruct (decide (length c = 16%nat)) as [E|].
    - rewrite E. replace (16 * k + Z.of_nat 16) with (16 * (k + 1) + 0) by lia.
      destruct (low_bits_at (k + 1) 0) as [-> _]; [lia|]. done.
    - destruct (low_bits_at k (zlen c)) as [-> _]; [lia|]. rewrite Z.rem_small by lia. done. }
  rewrite Hr, Z.quot_div_nonneg by lia. pose proof (Nat.div_mod (length c - 1) 2 ltac:(lia)).
  pose proof (Nat.mod_upper_bound (length c - 1) 2 ltac:(lia)). Z.div_mod_to_equations. lia.
Qed.

Lemma hexdump_lines indent : forall n data k cout pchars, (length data <= n)%nat -> data <> [] -> 0 <= k ->
  (k = 0 -> pchars = open (spaces 1)) -> 16 * k + zlen data < two31 ->
  exists cout' pchars' printed, hexdump_loop indent data (cout, pchars, 16 * k) = Ok (cout', pchars', printed) /\
    let print_rem := Z.rem (16 - Z.land printed 15) 16 in
    cout' ++ spaces (Z.to_nat (2 * print_rem + Z.quot print_rem 2 + 4)) ++ str pchars' =
      flushed k cout pchars ++ unlines (dump_lines indent k data).
Proof.
  induction n as [|n IH]; intros data k cout pchars Hn Hne Hk Hp Hmax; [destruct data; cbn in Hn; [done|lia]|].
  destruct (decide (length data <= 16)%nat) as [Hs|Hl].
  - pose proof (line_loop indent k data [] cout pchars Hne Hs Hk Hp Hmax) as E. rewrite app_nil_r in E.
    eexists _, _, _. split; [exact E|]. pose proof (last_spaces k data Hne Hs) as Hls. cbv zeta in *.
    rewrite Hls, dump_lines_last by done. cbn [str unlines]. unfold line.
    by rewrite <- !app_assoc.
  - rewrite <- (take_drop 16 data) in Hmax |- *. set (c := take 16 data) in *. set (rest := drop 16 data) in *.
    assert (Hc : length c = 16%nat) by (unfold c; rewrite length_take; lia).
    assert (Hr : (length rest = length data - 16)%nat) by (unfold rest; rewrite length_drop; lia).
    assert (Hrne : rest <> []) by (intros Heq; rewrite Heq in Hr; cbn in Hr; lia).
    assert (Hcne : c <> []) by (by destruct c). rewrite length_app in Hmax.
    rewrite line_loop by (done || lia). rewrite Hc. replace (16 * k + Z.of_nat 16) with (16 * (k + 1)) by lia.
    set (cout1 := flushed k cout pchars ++ _).
    destruct (IH rest (k + 1) cout1 (mkStream (shown <$> c) 16)) as (cout' & pch' & pr & E & Heq); [lia|done|lia|lia|lia|].
    exists cout', pch', pr. split; [exact E|]. cbv zeta in *. rewrite Heq, dump_lines_cons by done.
    unfold flushed at 1. rewrite (proj2 (Z.eqb_neq _ _)) by lia. cbn [str]. unfold cout1.
    assert (Hu : unlines (line indent (16 * k) c :: dump_lines indent (k + 1) rest) =
      line indent (16 * k) c ++ newline ++ unlines (dump_lines indent (k + 1) rest)).
    { assert (Hd : dump_lines indent (k + 1) rest <> []); [|by destruct (dump_lines indent (k + 1) rest)].
      unfold dump_lines. intros Hnil. apply fmap_nil_inv in Hnil. apply (f_equal length) in Hnil. rewrite length_seq in Hnil.
      apply Nat.div_small_iff in Hnil; [|done]. cbn in Hnil. lia. }
    rewrite Hu. unfold line. rewrite length_columns, Hc by done. change (43 - _)%nat with 4%nat. by rewrite <- !app_assoc.
Qed.

(** [hexdump] writes its bytes in lines of sixteen: on each the offset, the bytes in
    pairs and, beginning in the same column on every line, the printable characters;
    then an empty line. *)
Theorem hexdump_reference (data : bytes) (indent : nat) (Hne : data <> []) (Hlen : zlen data < two31) :
  hexdump data indent = Ok (unlines (dump_lines indent 0 data) ++ newline ++ newline) /\
  Forall (fun l => exists off chunk prefix, l = line indent off chunk /\ l = prefix ++ (shown <$> chunk) /\
    length prefix = (indent + 56)%nat) (dump_lines indent 0 data).
Proof.
  split.
  - unfold hexdump. destruct (hexdump_lines indent (length data) data 0 [] (open (spaces 1))) as (out & pch & pr & E & Heq);
      [lia|done|lia|done|lia|]. change (16 * 0) with 0 in E. rewrite E. cbn [mbind res_bind]. cbv zeta in Heq.
    cbn [flushed Z.eqb] in Heq. f_equal. rewrite !app_assoc in *. by rewrite Heq.
  - apply Forall_forall. intros l (j & -> & Hj)%list_elem_of_fmap. set (chunk := take 16 _).
    assert (Hchunk : (length (columns chunk) <= 43)%nat).
    { destruct (decide (chunk = [])) as [->|Hc]; [cbn; lia|]. rewrite length_columns by done.
      assert (length chunk <= 16)%nat by (unfold chunk; rewrite length_take; lia).
      pose proof (Nat.Div0.div_le_mono (length chunk - 1) 15 2 ltac:(lia)). change (15 / 2)%nat with 7%nat in *. lia. }
    eexists _, chunk, _. split; [reflexivity|]. split; [unfold line; rewrite !app_assoc; reflexivity|].
    rewrite !length_app, length_offset. unfold spaces. rewrite !length_replicate. cbn [length lit String.list_ascii_of_string]. lia.
Qed.

Lemma hexdump_total data indent : zlen data < two31 -> exists x, hexdump data indent = Ok x.
Proof.
  intros Hlen. destruct data as [|b data]; [by eexists|].
  destruct (hexdump_lines indent (length (b :: data)) (b :: data) 0 [] (open (spaces 1))) as (out & pch & pr & E & _);
    [lia|done|lia|done|lia|]. unfold hexdump. change (16 * 0) with 0 in E. rewrite E. by eexists.
Qed.

Lemma hexdump_reference_witness :
  hexdump [x68; x69; x00] 2 = Ok (lit "  00000000:    6869 00                                    hi." ++ newline ++ newline).
Proof.
  destruct (hexdump_reference [x68; x69; x00] 2) as [E _]; [discriminate|reflexivity|]. rewrite E. vm_compute. reflexivity.
Defined.

(** ** The summaries do not throw *)

Section Summaries.
Context `{Address.Netdb}.

Lemma datagram_parse_ok buffer : Buffer.wf buffer ->
  exists r d, IPv4Datagram.parse buffer IPv4Datagram.default = Ok (r, d) /\
    zlen (BufferList.concatenate (IPv4Datagram.payload d)) < two64.
Proof.
  intros Hb. destruct (parse_header_and_rest_safe _ (IPv4Datagram.header IPv4Datagram.default) Hb) as (r & h & b & E & Hw).
  unfold IPv4Datagram.parse. rewrite E. cbn [mbind res_bind]. set (d := IPv4Datagram.mk h _).
  assert (Hl : zlen (BufferList.concatenate (IPv4Datagram.payload d)) < two64).
  { rewrite BufferList.concatenate_flat. cbn. rewrite app_nil_r. by apply Buffer.zlen_str_lt. }
  case_match; by eexists _, d.
Qed.

Lemma to_buffer_ok l : BufferList.wf l -> (length l <= 1)%nat -> exists b, BufferList.to_buffer l = Ok b /\ Buffer.wf b.
Proof.
  intros Hl. destruct l as [|b [|]]; cbn; [by exists Buffer.nil| |lia]. apply Forall_cons in Hl as [Hb _]. by exists b.
Qed.

Lemma arp_summary_ok frame : BufferList.wf (EthernetFrame.payload frame) -> (length (EthernetFrame.payload frame) <= 1)%nat ->
  exists x, arp_summary frame = Ok x.
Proof.
  intros Hw Hl. unfold arp_summary. destruct (to_buffer_ok _ Hw Hl) as (b & -> & Hb). cbn [mbind res_bind].
  destruct (ARPMessage.arp_parse_safe b ARPMessage.default Hb) as (r & m & ->). by eexists.
Qed.

End Summaries.

(** What the programs print about a frame never makes them fail: [summary] returns
    a text that begins with the frame's header, for any payload when it is one buffer,
    as it is after [concatenate] in the simulator; that of lab7 also for a datagram in
    several buffers. *)
Theorem summaries_safe (HN : Address.Netdb) (frame : EthernetFrame.t)
  (Hwf : BufferList.wf (EthernetFrame.payload frame))
  (Hlen : zlen (BufferList.flat (EthernetFrame.payload frame)) < two64) :
  ((length (EthernetFrame.payload frame) <= 1)%nat ->
   exists x, simulator_summary frame = Ok (ethernet_header_to_string (EthernetFrame.header frame) ++ x)) /\
  ((length (EthernetFrame.payload frame) <= 1)%nat \/ EthernetHeader.type (EthernetFrame.header frame) <> EthernetHeader.TYPE_ARP ->
   exists x, lab7_summary frame = Ok (ethernet_header_to_string (EthernetFrame.header frame) ++ x)).
Proof.
  set (hd := ethernet_header_to_string (EthernetFrame.header frame)). split.
  - intros H1. unfold simulator_summary. fold hd. destruct (_ =? EthernetHeader.TYPE_IPv4).
    + destruct (to_buffer_ok _ Hwf H1) as (b & -> & Hb). cbn [mbind res_bind].
      destruct (datagram_parse_ok b Hb) as (r & d & -> & _). by eexists.
    + destruct (_ =? EthernetHeader.TYPE_ARP); [|exists []; by rewrite app_nil_r].
      destruct (arp_summary_ok frame Hwf H1) as [x ->]. by exists x.
  - intros H1. unfold lab7_summary. fold hd. destruct (_ =? EthernetHeader.TYPE_IPv4).
    + destruct (datagram_parse_ok (Buffer.of_string (BufferList.concatenate (EthernetFrame.payload frame))))
        as (r & d & -> & Hd); [apply Buffer.buffer_of_string_wf; by rewrite BufferList.concatenate_flat|].
      cbn [mbind res_bind]. destruct (is_NoError r); [|by eexists]. destruct (_ =? IPv4Header.PROTO_TCP); [|by eexists].
      destruct (TCPSegment.segment_parse_safe (Buffer.of_string (BufferList.concatenate (IPv4Datagram.payload d)))
        (IPv4Header.pseudo_cksum (IPv4Datagram.header d)) TCPSegment.default) as (r' & g & -> & _);
        [by apply Buffer.buffer_of_string_wf|]. cbn [mbind res_bind].
      destruct (is_NoError r'); eexists; by rewrite <- ?app_assoc.
    + destruct (_ =? EthernetHeader.TYPE_ARP) eqn:Et; zb; [|exists []; by rewrite app_nil_r].
      destruct (arp_summary_ok frame Hwf) as [x ->]; [by destruct H1|]. by exists x.
Qed.

Definition demo_frame : EthernetFrame.t :=
  EthernetFrame.mk (EthernetHeader.mk EthernetAddress.ETHERNET_BROADCAST [2; 0; 0; 0; 0; 7] EthernetHeader.TYPE_ARP)
    (BufferList.of_string [x00]).

Lemma summaries_safe_witness :
  (exists x, @simulator_summary DottedQuad.netdb demo_frame = Ok (ethernet_header_to_string (EthernetFrame.header demo_frame) ++ x)) /\
  @lab7_summary DottedQuad.netdb demo_frame = Ok (lit "dst=ff:ff:ff:ff:ff:ff, src=02:00:00:00:00:07, type=ARP (bad ARP)").
Proof.
  split; [|vm_compute; reflexivity]. apply (summaries_safe DottedQuad.netdb demo_frame).
  - apply BufferList.buffer_list_of_string_wf. reflexivity.
  - reflexivity.
  - cbn. lia.
Defined.
