(* ===== verification/Tcpdump.v ===== *)
(** * Finding TCP in captured packets (apps/udp_tcpdump.cc)

    The program captures packets with libpcap and looks for TCP segments in UDP
    payloads.  Modelled are its command line, the search for the payload in a captured
    packet ([process_ipv4_ipv6] and the dispatch on the kind of link), what is written
    about a segment, and [main] over an interface to libpcap ([Pcap]).  A packet is the
    bytes that were captured; reading past them is [undefined].  Messages on [cerr] and
    the usage text are left out. *)

From stdpp Require Import strings.
From S2P Require Import Prelude Wrapping Buffers Parsing TcpWire Printing.
From Stdlib Require Import Strings.Byte.

#[local] Open Scope list_scope.
#[local] Open Scope Z_scope.

Module Tcpdump.

(** ** The command line *)

(** What [parse_arguments] does: it returns the index of the filter expression and the
    device, or ends the program with an exit status. *)
Inductive parsed_arguments : Type :=
| Arguments_at (curr : nat) (dev : option string)
| Exits (status : Z).

(** The loop, [argv] being the arguments from the index [curr] on. *)
Fixpoint parse_arguments_from (curr : nat) (dev : option string) (argv : list string) : parsed_arguments :=
  match argv with
  | [] => Arguments_at curr dev
  | arg :: rest =>
      if bool_decide (arg = "-i"%string) then
        match rest with
        | [] => Exits 1
        | d :: rest' => parse_arguments_from (curr + 2) (Some d) rest'
        end
      else if bool_decide (arg = "-h"%string) || bool_decide (arg = "--help"%string) then Exits 0
      else Arguments_at curr dev
  end.
Definition parse_arguments (argv : list string) : parsed_arguments :=
  parse_arguments_from 1 None (tail argv).

(** ** The payload of a packet *)

(** [data[i]], and the [n] bytes from [data + i] on. *)
Definition byte_at (data : bytes) (i : Z) : res Z :=
  match data !! Z.to_nat i with
  | Some b => Ok (b2z b)
  | None => Throw undefined
  end.
Definition bytes_at (data : bytes) (i n : Z) : res bytes :=
  if zlen data <? i + n then Throw undefined else Ok (take (Z.to_nat n) (drop (Z.to_nat i) data)).

(** The loop over the IPv6 extension headers: where the UDP header is, if the packet
    is not refused.  Every round moves [data_offset] by at least 8. *)
Fixpoint ipv6_headers (fuel : nat) (len : Z) (data : bytes) (nxt data_offset : Z) : res (option Z) :=
  if nxt =? 17 then Ok (Some data_offset)
  else
    match fuel with
    | O => Throw nontermination
    | S fuel' =>
        if negb (nxt =? 0) && negb (nxt =? 43) && negb (nxt =? 60) then Ok None
        else
          nxt ← byte_at data data_offset;
          ext ← byte_at data (data_offset + 1);
          let data_offset := data_offset + 8 * (1 + ext) in
          if len <? data_offset + 2 then Ok None else ipv6_headers fuel' len data nxt data_offset
    end.

(** What is found: the offset of the UDP payload and the addresses; [None] is the
    result -1. *)
Record located : Type := mkLocated { start_off : Z; src_addr : bytes; dst_addr : bytes }.

Definition process_ipv4_ipv6 (len : Z) (data : bytes) : res (option located) :=
  if len <? 1 then Ok None
  else
    first ← byte_at data 0;
    let pt := Z.land first 240 in
    if pt =? 64 then
      let data_offset := Z.land first 15 * 4 in
      if len <? data_offset then Ok None
      else
        proto ← byte_at data 9;
        if negb (proto =? 17) then Ok None
        else
          src ← bytes_at data 12 4;
          dst ← bytes_at data 16 4;
          Ok (Some (mkLocated (data_offset + 8) src dst))
    else if pt =? 96 then
      if len <? 42 then Ok None
      else
        nxt ← byte_at data 6;
        found ← ipv6_headers (Z.to_nat len) len data nxt 40;
        match found with
        | None => Ok None
        | Some data_offset =>
            src ← bytes_at data 8 16;
            dst ← bytes_at data 24 16;
            Ok (Some (mkLocated (data_offset + 8) src dst))
        end
    else Ok None.

(** The link types of libpcap that the program handles. *)
Inductive datalink : Type := DLT_RAW | DLT_NULL | DLT_EN10MB | DLT_LINUX_SLL | DLT_LINUX_SLL2.

(** What the loop of [main] does with one packet before it parses a segment. *)
Inductive packet : Type :=
| Malformed
| NotIP
| BadIP
| Found (src dst : bytes) (payload_off payload_len : Z).

(** Where the network header begins, or why the packet is skipped. *)
Definition link_header (dl_type : datalink) (pkt : bytes) : res (Z + packet) :=
  let caplen := zlen pkt in
  let is_ip at_ hdr_off :=
    hi ← byte_at pkt at_;
    lo ← byte_at pkt (at_ + 1);
    let pt := Z.lor (Z.shiftl hi 8) lo in
    if negb (pt =? 2048) && negb (pt =? 34525) then Ok (inr NotIP) else Ok (inl hdr_off) in
  match dl_type with
  | DLT_NULL =>
      if caplen <? 4 then Ok (inr Malformed)
      else
        pt ← byte_at pkt 3;
        if negb (pt =? 2) && negb (pt =? 24) && negb (pt =? 28) && negb (pt =? 30)
        then Ok (inr NotIP) else Ok (inl 4)
  | DLT_EN10MB => if caplen <? 14 then Ok (inr Malformed) else is_ip 12 14
  | DLT_LINUX_SLL => if caplen <? 16 then Ok (inr Malformed) else is_ip 14 16
  | DLT_LINUX_SLL2 => if caplen <? 20 then Ok (inr Malformed) else is_ip 0 20
  | DLT_RAW => Ok (inl 0)
  end.

(** [payload_len] is the difference of two [size_t]s. *)
Definition locate (dl_type : datalink) (pkt : bytes) : res packet :=
  r ← link_header dl_type pkt;
  match r with
  | inr p => Ok p
  | inl hdr_off =>
      found ← process_ipv4_ipv6 (s32 (zlen pkt - hdr_off)) (drop (Z.to_nat hdr_off) pkt);
      match found with
      | None => Ok BadIP
      | Some l =>
          let payload_off := hdr_off ⊞ start_off l in
          Ok (Found (src_addr l) (dst_addr l) payload_off (zlen pkt ⊟ payload_off))
      end
  end.

(** ** What is said about a payload *)

Definition flags (h : TCPHeader.t) : text :=
  let f (b : bool) (s : string) := if b then lit s else [] in
  f (TCPHeader.urg h) "U" ++ f (TCPHeader.psh h) "P" ++ f (TCPHeader.rst h) "R" ++
  f (TCPHeader.syn h) "S" ++ f (TCPHeader.fin h) "F" ++ f (TCPHeader.ack h) ".".

(** [res > ParseResult::BadChecksum], by the order of the enumeration. *)
Definition beyond_bad_checksum (r : ParseResult) : bool :=
  match r with NoError | BadChecksum => false | _ => true end.

(** The line about the payload, parsed as a segment. *)
Definition describe (src dst : text) (payload : bytes) : res text :=
  '(r, seg) ← TCPSegment.parse (Buffer.of_string payload) 0 TCPSegment.default;
  if beyond_bad_checksum r then
    Ok (lit "(did not recognize TCP header) src: " ++ src ++ lit " dst: " ++ dst ++ newline)
  else
    let h := TCPSegment.header seg in
    let seqno := TCPHeader.seqno h in
    let seqlen := u32 (TCPSegment.length_in_sequence_space seg) in
    Ok (src ++ lit ":" ++ dec (TCPHeader.sport h) ++ lit " > " ++ dst ++ lit ":" ++ dec (TCPHeader.dport h) ++
        newline ++ lit "    Flags [" ++ flags h ++
        lit "] cksum 0x" ++ setw 4 (hex (TCPHeader.cksum h)) ++
        (if is_NoError r then lit " (correct)" else lit " (incorrect!)") ++
        lit " seq " ++ dec (WrappingInt32.raw_value seqno) ++
        (if 0 <? seqlen then lit ":" ++ dec (WrappingInt32.raw_value (WrappingInt32.plus seqno seqlen)) else []) ++
        lit " ack " ++ dec (WrappingInt32.raw_value (TCPHeader.ackno h)) ++ lit " win " ++ dec (TCPHeader.win h) ++
        lit " length " ++ dec (zlen payload) ++ newline).

(** ** The program

    libpcap is an interface; [inet_ntop] is given the four or sixteen bytes of an
    address. *)
Class Pcap (P : Type) : Type := {
  inet_ntop : bytes -> option string;
  pcap_datalink_val_to_description : Z -> option string;
  pcap_open_live : option string -> P -> (bool * string) * P;
  pcap_datalink : P -> Z * P;
  pcap_compile : string -> P -> Z * P;
  pcap_setfilter : P -> Z * P;
  pcap_next_ex : P -> (Z * bytes) * P;
  pcap_geterr : P -> string;
  pcap_close : P -> P
}.

Section Main.
Context {P : Type} `{Pcap P}.

(** The state of libpcap, whether the handle is open, and what was written to [cout];
    [cerr] is left out. *)
Record t : Type := mk { pcap : P; open_handle : bool; cout : text }.

Definition print (x : text) : io t unit := modify (fun s => mk (pcap s) (open_handle s) (cout s ++ x)).
Definition call {A} (f : P -> A * P) : io t A := fun s =>
  let '(a, p) := f (pcap s) in Ok (a, mk p (open_handle s) (cout s)).

(** [pcap_geterr(p_hdl)]: the handle must not have been closed. *)
Definition geterr : io t text := fun s =>
  if open_handle s then Ok (lit (pcap_geterr (pcap s)), s) else Throw undefined.
Definition close : io t unit := modify (fun s => mk (pcap_close (pcap s)) false (cout s)).

(** [inet4_addr] and [inet6_addr]. *)
Definition inet_addr (data : bytes) : text :=
  match inet_ntop data with Some s => lit s | None => lit "unknown" end.

(** A [const char *] on a stream; the null pointer is undefined. *)
Definition c_string (s : option string) : io t text :=
  match s with Some s => mret (lit s) | None => throw undefined end.

(** The link types by number. *)
Definition supported (dlt : Z) : option datalink :=
  if dlt =? 12 then Some DLT_RAW else if dlt =? 0 then Some DLT_NULL else if dlt =? 1 then Some DLT_EN10MB
  else if dlt =? 113 then Some DLT_LINUX_SLL else if dlt =? 276 then Some DLT_LINUX_SLL2 else None.

(** Opening the capture: the link type, or the exit status. *)
Definition open_capture (dev : option string) : io t (Z + datalink) :=
  _ ← print (match dev with
             | Some d => lit "Capturing on interface " ++ lit d
             | None => lit "Capturing on all interfaces"
             end);
  '(opened, err) ← call (pcap_open_live dev);
  if negb (opened : bool) then
    _ ← print (newline ++ lit "Error initiating capture: " ++ lit err ++ newline);
    mret (inl 1)
  else
    _ ← modify (fun s => mk (pcap s) true (cout s));
    dlt ← call pcap_datalink;
    d ← c_string (pcap_datalink_val_to_description dlt);
    match supported dlt with
    | None => _ ← print (newline ++ lit "Error: unsupported datalink type " ++ d ++ newline); mret (inl 1)
    | Some dl_type => _ ← print (lit " (type: " ++ d ++ lit ")" ++ newline); mret (inr dl_type)
    end.

(** Compiling and setting the filter: an exit status when it fails. *)
Definition filter_expression (words : list string) : string := foldr (fun w e => w +:+ " " +:+ e)%string ""%string words.
Definition set_filter (words : list string) : io t (option Z) :=
  let e := filter_expression words in
  _ ← print (lit "Using filter expression: " ++ lit e ++ newline);
  r ← call (pcap_compile e);
  if negb (r =? 0) then
    m ← geterr; _ ← print (lit "Error compiling filter expression: " ++ m ++ newline); mret (Some 1)
  else
    r ← call pcap_setfilter;
    if negb (r =? 0) then
      m ← geterr; _ ← print (lit "Error configuring packet filter: " ++ m ++ newline); mret (Some 1)
    else mret None.

(** What is written about one packet.  The string of a payload whose length has wrapped
    around is too long to be constructed. *)
Definition report (dl_type : datalink) (pkt : bytes) : res text :=
  p ← locate dl_type pkt;
  match p with
  | Found src dst payload_off payload_len =>
      if zlen pkt <? payload_off then Throw length_error
      else
        let payload := take (Z.to_nat payload_len) (drop (Z.to_nat payload_off) pkt) in
        x ← describe (inet_addr src) (inet_addr dst) payload;
        h ← hexdump payload 8;
        Ok (x ++ h)
  | _ => Ok []
  end.

(** The loop: the last result of [pcap_next_ex], unless it was cut off. *)
Fixpoint capture (fuel : nat) (dl_type : datalink) : io t (option Z) :=
  match fuel with
  | O => mret None
  | S fuel' =>
      '(next_ret, pkt) ← call pcap_next_ex;
      if next_ret <? 0 then mret (Some next_ret)
      else if next_ret =? 0 then capture fuel' dl_type
      else
        x ← of_res (report dl_type pkt);
        _ ← print x;
        capture fuel' dl_type
  end.

(** [main]: the exit status, unless the loop was cut off. *)
Definition main (fuel : nat) (argv : list string) : io t (option Z) :=
  match parse_arguments argv with
  | Exits status => mret (Some status)
  | Arguments_at exp_start dev =>
      opened ← open_capture dev;
      match opened with
      | inl status => mret (Some status)
      | inr dl_type =>
          failed ← set_filter (drop exp_start argv);
          match failed with
          | Some status => mret (Some status)
          | None =>
              last ← capture fuel dl_type;
              match last with
              | None => mret None
              | Some next_ret =>
                  _ ← close;
                  if next_ret =? -1 then
                    m ← geterr; _ ← print (lit "Error listening for packet: " ++ m ++ newline); mret (Some 1)
                  else mret (Some 0)
              end
          end
      end
  end.

End Main.

(** ** Bounds *)

Lemma byte_at_ok data i : 0 <= i < zlen data -> exists v, byte_at data i = Ok v /\ 0 <= v < two8.
Proof.
  intros Hi. unfold byte_at. destruct (lookup_lt_is_Some_2 data (Z.to_nat i)) as [b Hb]; [lia|]. rewrite Hb.
  exists (b2z b). auto using b2z_range.
Qed.

Lemma bytes_at_ok data i n : 0 <= i -> 0 <= n -> i + n <= zlen data ->
  exists bs, bytes_at data i n = Ok bs /\ zlen bs = n.
Proof.
  intros Hi Hn Hl. unfold bytes_at. rewrite (proj2 (Z.ltb_ge _ _)) by lia. eexists. split; [done|].
  rewrite length_take, length_drop. lia.
Qed.

(** The loop stays in the packet, ends, and leaves two bytes after the offset. *)
Lemma ipv6_headers_ok fuel : forall data nxt off, 0 <= off -> off + 2 <= zlen data -> zlen data - off <= Z.of_nat fuel ->
  exists r, ipv6_headers fuel (zlen data) data nxt off = Ok r /\
    forall o, r = Some o -> off <= o /\ o + 2 <= zlen data.
Proof.
  induction fuel as [|fuel IH]; intros data nxt off H0 Hoff Hfuel; [lia|]. cbn [ipv6_headers].
  destruct (nxt =? 17); [eexists; split; [done|]; intros o [= <-]; lia|].
  destruct (_ && _ && _); [by exists None|].
  destruct (byte_at_ok data off) as (v & -> & _); [lia|]. cbn [mbind res_bind].
  destruct (byte_at_ok data (off + 1)) as (e & -> & He); [lia|]. cbn [mbind res_bind].
  destruct (zlen data <? _) eqn:E; zb; [by exists None|].
  destruct (IH data v (off + 8 * (1 + e))) as (r & -> & Hr); [lia..|]. exists r. split; [done|].
  intros o Ho. destruct (Hr o Ho). lia.
Qed.

(** An IPv4 packet of which less than the fixed part of the header was captured. *)
Definition cut_short (data : bytes) : Prop :=
  exists b, head data = Some b /\ Z.land (b2z b) 240 = 64 /\ zlen data < 20.

Lemma process_ok data : ~ cut_short data ->
  exists r, process_ipv4_ipv6 (zlen data) data = Ok r /\
    forall l, r = Some l -> 8 <= start_off l <= zlen data + 8 /\ zlen (src_addr l) = zlen (dst_addr l) /\
      (zlen (src_addr l) = 4 \/ zlen (src_addr l) = 16).
Proof.
  intros Hcut. unfold process_ipv4_ipv6. destruct data as [|b rest]; [by exists None|].
  set (data := b :: rest) in *. rewrite (proj2 (Z.ltb_ge _ 1)) by (cbn; lia).
  change (byte_at data 0) with (Ok (b2z b)). cbn [mbind res_bind].
  destruct (Z.land (b2z b) 240 =? 64) eqn:E4; zb.
  - assert (H20 : 20 <= zlen data).
    { destruct (decide (20 <= zlen data)); [done|]. destruct Hcut. exists b. split_and!; [done..|lia]. }
    destruct (zlen data <? _) eqn:E; zb; [by exists None|].
    destruct (byte_at_ok data 9) as (v & -> & _); [lia|]. cbn [mbind res_bind].
    destruct (negb _); [by exists None|].
    destruct (bytes_at_ok data 12 4) as (s & -> & Hs); [lia..|]. cbn [mbind res_bind].
    destruct (bytes_at_ok data 16 4) as (d & -> & Hd); [lia..|]. cbn [mbind res_bind].
    eexists. split; [done|]. intros l [= <-]. cbn [start_off src_addr dst_addr].
    pose proof (low_bits (b2z b) 4 ltac:(lia)) as Hlow. change (Z.ones 4) with 15 in Hlow. lia.
  - destruct (_ =? 96); [|by exists None]. destruct (zlen data <? 42) eqn:E; zb; [by exists None|].
    destruct (byte_at_ok data 6) as (nxt & -> & _); [lia|]. cbn [mbind res_bind].
    destruct (ipv6_headers_ok (Z.to_nat (zlen data)) data nxt 40) as (r & -> & Hr); [lia..|]. cbn [mbind res_bind].
    destruct r as [o|]; [|by exists None].
    destruct (bytes_at_ok data 8 16) as (s & -> & Hs); [lia..|]. cbn [mbind res_bind].
    destruct (bytes_at_ok data 24 16) as (d & -> & Hd); [lia..|]. cbn [mbind res_bind].
    eexists. split; [done|]. intros l [= <-]. cbn [start_off src_addr dst_addr]. specialize (Hr o eq_refl). lia.
Qed.

(** The link header that is skipped was captured. *)
Definition skipped_ok (pkt : bytes) (r : Z + packet) : Prop :=
  match r with
  | inl off => 0 <= off <= zlen pkt
  | inr p => p = Malformed \/ p = NotIP
  end.

Lemma link_header_ok dl pkt : exists r, link_header dl pkt = Ok r /\ skipped_ok pkt r.
Proof.
  assert (Hip : forall at_ off, 0 <= at_ -> at_ + 2 <= zlen pkt -> 0 <= off <= zlen pkt -> exists r,
    (hi ← byte_at pkt at_; lo ← byte_at pkt (at_ + 1);
     if negb (Z.lor (Z.shiftl hi 8) lo =? 2048) && negb (Z.lor (Z.shiftl hi 8) lo =? 34525)
     then Ok (inr NotIP) else Ok (inl off)) = Ok r /\ skipped_ok pkt r).
  { intros at_ off H0 Hat Hoff. destruct (byte_at_ok pkt at_) as (hi & -> & _); [lia|].
    destruct (byte_at_ok pkt (at_ + 1)) as (lo & -> & _); [lia|]. cbn [mbind res_bind].
    destruct (_ && _); eexists; (split; [done|]); cbn; auto. }
  unfold link_header. destruct dl.
  - eexists. split; [done|]. cbn. lia.
  - destruct (zlen pkt <? 4) eqn:E; zb; [exists (inr Malformed); split; [done|by left]|].
    destruct (byte_at_ok pkt 3) as (v & -> & _); [lia|].
    cbn [mbind res_bind]. destruct (_ && _); eexists; (split; [done|]); cbn; [by right|lia].
  - destruct (zlen pkt <? 14) eqn:E; zb; [exists (inr Malformed); split; [done|by left]|]. apply Hip; lia.
  - destruct (zlen pkt <? 16) eqn:E; zb; [exists (inr Malformed); split; [done|by left]|]. apply Hip; lia.
  - destruct (zlen pkt <? 20) eqn:E; zb; [exists (inr Malformed); split; [done|by left]|]. apply Hip; lia.
Qed.

(** The packet after the link header. *)
Lemma process_after_link pkt off : zlen pkt < two31 -> 0 <= off <= zlen pkt -> ~ cut_short (drop (Z.to_nat off) pkt) ->
  exists found, process_ipv4_ipv6 (s32 (zlen pkt - off)) (drop (Z.to_nat off) pkt) = Ok found /\
    forall l, found = Some l -> 8 <= start_off l <= zlen pkt - off + 8 /\ zlen (src_addr l) = zlen (dst_addr l).
Proof.
  intros Hsize Hoff Hcut. set (data := drop (Z.to_nat off) pkt) in *.
  assert (Hlen : zlen data = zlen pkt - off) by (unfold data; rewrite length_drop; lia).
  replace (s32 (zlen pkt - off)) with (zlen data).
  2:{ unfold s32. rewrite Z.mod_small by lia. by rewrite (proj2 (Z.ltb_lt _ _)) by lia. }
  destruct (process_ok data Hcut) as (found & E & Hf). exists found. split; [done|]. intros l Hl.
  destruct (Hf l Hl) as (H1 & H2 & _). rewrite Hlen in H1. done.
Qed.

(** C38: looking for the payload ends and stays inside the captured packet, for every
    link type and every packet but an IPv4 packet that was cut off in the fixed part of
    its header.  Where a payload is reported its UDP header starts inside the packet.
    The length that goes with it is the number of bytes that follow, if the UDP header
    was captured; otherwise the subtraction wraps around. *)
Theorem locate_bounds (dl : datalink) (pkt : bytes) (Hsize : zlen pkt < two31)
  (Hwhole : forall off, link_header dl pkt = Ok (inl off) -> ~ cut_short (drop (Z.to_nat off) pkt)) :
  exists p, locate dl pkt = Ok p /\
    match p with
    | Found src dst payload_off payload_len =>
        8 <= payload_off <= zlen pkt + 8 /\ zlen src = zlen dst /\
        if payload_off <=? zlen pkt then payload_len = zlen pkt - payload_off
        else two64 - 8 <= payload_len < two64
    | _ => True
    end.
Proof.
  unfold locate. destruct (link_header_ok dl pkt) as (r & E & Hr). rewrite E. cbn [mbind res_bind].
  destruct r as [off|p]; [|by exists p; destruct Hr as [-> | ->]]. cbn [skipped_ok] in Hr.
  destruct (process_after_link pkt off Hsize Hr (Hwhole off E)) as (found & -> & Hf). cbn [mbind res_bind].
  destruct found as [l|]; [|by exists BadIP]. destruct (Hf l eq_refl) as (Hoff & Haddr).
  eexists. split; [done|]. cbn beta iota. rewrite (u64_small (off + start_off l)) by lia.
  split; [lia|]. split; [done|]. destruct (_ <=? _) eqn:El; zb; [by rewrite u64_small by lia|].
  assert (Hu : u64 (zlen pkt - (off + start_off l)) = zlen pkt - (off + start_off l) + two64).
  { unfold u64. symmetry. apply (Z.mod_unique _ _ (-1)); lia. }
  rewrite Hu. lia.
Qed.

(** A UDP packet over IPv4 whose capture ends after two bytes of the UDP header. *)
Definition short_udp : bytes :=
  x45 :: replicate 8 x00 ++ x11 :: replicate 2 x00 ++ [x0a; x00; x00; x01; x0a; x00; x00; x02; x05; x39].

Lemma locate_bounds_witness :
  exists src dst len, locate DLT_RAW short_udp = Ok (Found src dst 28 len) /\ two64 - 8 <= len.
Proof.
  destruct (locate_bounds DLT_RAW short_udp) as (p & E & Hp).
  - vm_compute. reflexivity.
  - intros off [= <-] (b & _ & _ & Hlen). vm_compute in Hlen. discriminate.
  - assert (Hf : exists src dst len, p = Found src dst 28 len) by (vm_compute in E; injection E as <-; by eexists _, _, _).
    destruct Hf as (src & dst & len & ->). exists src, dst, len. split; [exact E|]. apply Hp.
Defined.

(** The exception is real: of a packet that ends before its tenth byte, such as a single
    byte 0x40, the protocol field is read past the end of the capture. *)
Lemma short_ipv4_reads_outside b rest : Z.land (b2z b) 240 = 64 -> Z.land (b2z b) 15 * 4 <= zlen (b :: rest) ->
  zlen (b :: rest) <= 9 -> process_ipv4_ipv6 (zlen (b :: rest)) (b :: rest) = Throw undefined.
Proof.
  intros H4 Hh Hl. unfold process_ipv4_ipv6. rewrite (proj2 (Z.ltb_ge _ 1)) by (cbn; lia).
  change (byte_at (b :: rest) 0) with (Ok (b2z b)). cbn [mbind res_bind]. rewrite (proj2 (Z.eqb_eq _ _) H4).
  rewrite (proj2 (Z.ltb_ge _ _)) by lia. unfold byte_at. rewrite lookup_ge_None_2 by lia. done.
Qed.

Example one_byte_packet : locate DLT_RAW [x40] = Throw undefined.
Proof. reflexivity. Qed.

(** ** A session *)

Section Session.
Context {P : Type} `{Pcap P}.

(** What [pcap_next_ex] returns, call by call: packets and timeouts, and in the end a
    negative number; [n] calls in all. *)
Inductive feeds : nat -> P -> list bytes -> Z -> P -> Prop :=
| feeds_end p r pkt p' : pcap_next_ex p = ((r, pkt), p') -> r < 0 -> feeds 1 p [] r p'
| feeds_timeout n p pkt p1 pkts r p' : pcap_next_ex p = ((0, pkt), p1) -> feeds n p1 pkts r p' -> feeds (S n) p pkts r p'
| feeds_packet n p k pkt p1 pkts r p' : pcap_next_ex p = ((k, pkt), p1) -> 0 < k -> feeds n p1 pkts r p' ->
    feeds (S n) p (pkt :: pkts) r p'.

(** The fixed part of an IPv4 header and the UDP header were captured. *)
Record whole (dl : datalink) (pkt : bytes) : Prop := {
  wl_size : zlen pkt < two31;
  wl_ipv4 : forall off, link_header dl pkt = Ok (inl off) -> ~ cut_short (drop (Z.to_nat off) pkt);
  wl_udp : forall src dst off len, locate dl pkt = Ok (Found src dst off len) -> off <= zlen pkt
}.

Lemma describe_total src dst payload : zlen payload < two64 -> exists x, describe src dst payload = Ok x.
Proof.
  intros Hl. unfold describe.
  destruct (TCPSegment.segment_parse_safe (Buffer.of_string payload) 0 TCPSegment.default) as (r & g & -> & _);
    [by apply Buffer.buffer_of_string_wf|]. cbn [mbind res_bind]. destruct (beyond_bad_checksum r); by eexists.
Qed.

Lemma locate_total dl pkt : zlen pkt < two31 ->
  (forall off, link_header dl pkt = Ok (inl off) -> ~ cut_short (drop (Z.to_nat off) pkt)) -> exists p, locate dl pkt = Ok p.
Proof.
  intros Hsize Hcut. unfold locate. destruct (link_header_ok dl pkt) as (r & E & Hr). rewrite E. cbn [mbind res_bind].
  destruct r as [off|p]; [|by exists p]. cbn [skipped_ok] in Hr.
  destruct (process_after_link pkt off Hsize Hr (Hcut off E)) as (found & -> & _). cbn [mbind res_bind].
  destruct found; by eexists.
Qed.

Lemma report_total dl pkt : whole dl pkt -> exists x, report dl pkt = Ok x.
Proof.
  intros [Hsize Hcut Hudp]. unfold report. destruct (locate_total dl pkt Hsize Hcut) as [p E]. rewrite E. cbn [mbind res_bind].
  destruct p as [| | |src dst off len]; [by exists []..|]. rewrite (proj2 (Z.ltb_ge _ _)) by (by eapply Hudp).
  set (payload := take _ _).
  assert (Hl : zlen payload < two31) by (unfold payload; rewrite length_take, length_drop; lia).
  destruct (describe_total (inet_addr src) (inet_addr dst) payload) as [x ->]; [lia|].
  destruct (hexdump_total payload 8 Hl) as [h ->]. by eexists.
Qed.

Lemma capture_run dl n p pkts r p' : feeds n p pkts r p' -> Forall (whole dl) pkts ->
  exists blocks, Forall2 (fun pkt b => report dl pkt = Ok b) pkts blocks /\
    forall fuel o out, (n <= fuel)%nat -> capture fuel dl (mk p o out) = Ok (Some r, mk p' o (out ++ concat blocks)).
Proof.
  induction 1 as [p r pkt p' E Hr|n p pkt p1 pkts r p' E _ IH|n p k pkt p1 pkts r p' E Hk _ IH]; intros Hall.
  - exists []. split; [done|]. intros [|fuel] o out Hf; [lia|]. cbn [capture]. unfold call, mbind, io_bind. cbn [pcap].
    rewrite E. rewrite (proj2 (Z.ltb_lt _ _)) by lia. by rewrite app_nil_r.
  - destruct (IH Hall) as (blocks & HF & Hrun). exists blocks. split; [done|]. intros [|fuel] o out Hf; [lia|].
    cbn [capture]. unfold call, mbind, io_bind. cbn [pcap]. rewrite E. apply Hrun. lia.
  - apply Forall_cons in Hall as [Hp Hall]. destruct (IH Hall) as (blocks & HF & Hrun).
    destruct (report_total dl pkt Hp) as [x Hx]. exists (x :: blocks). split; [by constructor|].
    intros [|fuel] o out Hf; [lia|]. cbn [capture]. unfold call, mbind at 1, io_bind at 1. cbn [pcap]. rewrite E.
    cbn [open_handle cout]. rewrite (proj2 (Z.ltb_ge _ _)), (proj2 (Z.eqb_neq _ _)) by lia.
    unfold of_res. rewrite Hx. unfold print, modify, mbind, io_bind. cbn [pcap open_handle cout].
    rewrite Hrun by lia. by rewrite <- app_assoc.
Qed.

End Session.

(** A session from the command line to the end.  When the capture can be opened, the
    filter is accepted and libpcap delivers packets whose headers were captured, [main]
    writes what it has to say about each, in order, and returns success; unless the
    capture ends with an error, in which case [pcap_geterr] is called on the handle
    that was just closed. *)
Theorem tcpdump_session (P : Type) (HP : Pcap P) (argv : list string) (exp_start : nat) (dev : option string)
  (p p1 p2 p3 p4 p' : P) (err d : string) (dlt r : Z) (dl : datalink) (n fuel : nat) (pkts : list bytes)
  (Hargs : parse_arguments argv = Arguments_at exp_start dev)
  (Hopen : pcap_open_live dev p = ((true, err), p1)) (Hlink : pcap_datalink p1 = (dlt, p2))
  (Hname : pcap_datalink_val_to_description dlt = Some d) (Hdl : supported dlt = Some dl)
  (Hcompile : pcap_compile (filter_expression (drop exp_start argv)) p2 = (0, p3)) (Hfilter : pcap_setfilter p3 = (0, p4))
  (Hfeeds : feeds n p4 pkts r p') (Hfuel : (n <= fuel)%nat) (Hwhole : Forall (whole dl) pkts) :
  exists greeting blocks, Forall2 (fun pkt b => report dl pkt = Ok b) pkts blocks /\
    main fuel argv (mk p false []) =
      if r =? -1 then Throw undefined else Ok (Some 0, mk (pcap_close p') false (greeting ++ concat blocks)).
Proof.
  destruct (capture_run dl n p4 pkts r p' Hfeeds Hwhole) as (blocks & HF & Hrun).
  unfold main. rewrite Hargs. unfold open_capture, set_filter, call, c_string, print, modify, mbind, io_bind.
  cbn [pcap open_handle cout]. rewrite Hopen. cbn [negb pcap open_handle cout]. rewrite Hlink. cbn [pcap open_handle cout]. rewrite Hname, Hdl.
  unfold mret, io_ret. cbn [pcap open_handle cout].
  rewrite Hcompile. cbn [negb Z.eqb pcap open_handle cout]. rewrite Hfilter. cbn [negb Z.eqb pcap open_handle cout].
  rewrite Hrun by done. unfold close, modify, geterr. cbn [pcap open_handle cout].
  eexists _, blocks. split; [done|]. destruct (r =? -1); reflexivity.
Qed.

(** A scripted libpcap: the packets that are left. *)
Module Demo.
#[global] Instance tcpdump_demo_pcap : Pcap (list bytes) := {|
  inet_ntop := fun _ => None;
  pcap_datalink_val_to_description := fun _ => Some "raw"%string;
  pcap_open_live := fun _ p => ((true, ""%string), p);
  pcap_datalink := fun p => (12, p);
  pcap_compile := fun _ p => (0, p);
  pcap_setfilter := fun p => (0, p);
  pcap_next_ex := fun p => match p with [] => ((-2, []), []) | pkt :: p' => ((1, pkt), p') end;
  pcap_geterr := fun _ => ""%string;
  pcap_close := fun p => p
|}.

(** A UDP packet over IPv4 with two bytes of payload. *)
Definition pkt : bytes := short_udp ++ [x05; x39; x00; x0a; x00; x00; x68; x69].
End Demo.

Lemma tcpdump_session_witness :
  exists greeting blocks, main 2 ["udp_tcpdump"%string; "udp"%string] (mk [Demo.pkt] false []) =
    Ok (Some 0, mk [] false (greeting ++ concat blocks)) /\ length blocks = 1%nat.
Proof.
  destruct (tcpdump_session (list bytes) _ ["udp_tcpdump"%string; "udp"%string] 1 None [Demo.pkt] [Demo.pkt] [Demo.pkt] [Demo.pkt]
    [Demo.pkt] [] "" "raw" 12 (-2) DLT_RAW 2 2 [Demo.pkt]) as (g & bs & HF & E); try reflexivity.
  - apply (feeds_packet 1 _ 1 _ []); [reflexivity|reflexivity|]. apply (feeds_end _ _ []); reflexivity.
  - constructor; [|constructor]. split.
    + vm_compute. reflexivity.
    + intros off [= <-] (b & _ & _ & Hlen). vm_compute in Hlen. discriminate.
    + intros src dst off len Hl. vm_compute in Hl. injection Hl as _ _ <- _. vm_compute. congruence.
  - exists g, bs. split; [exact E|]. by apply Forall2_length in HF.
Defined.

End Tcpdump.
